(** * curtin: the [install] command (curtin/commands/install.py)

    A shallow embedding of the installer's orchestration core and the
    properties its specification states about it.

    Layout:
    - [Py]: the Python values a YAML/JSON configuration is made of, with the
      operations the code applies to them (truth value, [==], [str], dict
      access, [sorted], [os.path.join], [str.split], [shlex.split]);
    - the pure functions of install.py ([load_power_state], the boot
      configuration scan of [apply_kexec]);
    - the effectful functions, written in a state-and-exception monad over
      an explicit world: every call that leaves the Python process is
      recorded in a trace and answered by the world.

    Text is Python 3 [str].  A Rocq string stands for the [str] with the
    same code points, one character for each, so the texts covered are
    those over U+0000..U+00FF; on them the character classes ([\w] and
    [\b] of [re], the whitespace of [split] and [rstrip], the printable
    characters of [repr]) are those of Python 3. *)

From Stdlib Require Import ZArith String Ascii List Bool Lia.
From stdpp Require Import base tactics option list strings gmap sorting pretty.

Set Warnings "-register-all".

Local Open Scope string_scope.
Local Open Scope list_scope.

(** ** Python values *)

Module Py.

(** The values a merged configuration holds.  A dict keeps its items in
    insertion order (that is what [.keys()] and iteration expose), so it is
    an association list; the first binding of a key is the live one.
    Floats do not occur in the settings read by install.py and are left out. *)
Inductive pyval : Type :=
| PNone
| PBool (b : bool)
| PInt (n : Z)
| PStr (s : string)
| PList (l : list pyval)
| PDict (d : list (string * pyval)).

Abbreviation dict := (list (string * pyval)).

(** [d.get(k)]: [None] stands for an absent key. *)
Fixpoint dict_get (d : dict) (k : string) : option pyval :=
  match d with
  | [] => None
  | (k', v) :: r => if decide (k' = k) then Some v else dict_get r k
  end.

(** [d.get(k, dflt)] *)
Definition dict_get_default (d : dict) (k : string) (dflt : pyval) : pyval :=
  default dflt (dict_get d k).

(** [k in d] *)
Definition dict_mem (d : dict) (k : string) : bool :=
  bool_decide (is_Some (dict_get d k)).

(** [del d[k]] (on a key that is present) *)
Definition dict_del (d : dict) (k : string) : dict :=
  filter (fun kv => kv.1 ≠ k) d.

(** [d[k] = v]: an existing key keeps its place, a new one goes last. *)
Fixpoint dict_set (d : dict) (k : string) (v : pyval) : dict :=
  match d with
  | [] => [(k, v)]
  | (k', v') :: r =>
      if decide (k' = k) then (k, v) :: dict_del r k
      else (k', v') :: dict_set r k v
  end.

(** [d.keys()], each key once, in insertion order. *)
Fixpoint dict_keys (d : dict) : list string :=
  match d with
  | [] => []
  | (k, _) :: r => k :: filter (fun k' => k' ≠ k) (dict_keys r)
  end.

(** Truth value: [bool(v)], what [if v:] and [not v] test. *)
Definition truthy (v : pyval) : bool :=
  match v with
  | PNone => false
  | PBool b => b
  | PInt n => negb (n =? 0)%Z
  | PStr s => negb (String.eqb s "")
  | PList l => match l with [] => false | _ => true end
  | PDict d => match d with [] => false | _ => true end
  end.

(** [a == b].  [bool] is a subclass of [int] ([True == 1]); lists compare
    element-wise; dicts compare as maps, whatever their insertion order:
    as many items, and every item of the one has an equal item in the
    other. *)
Fixpoint py_eq (a b : pyval) {struct a} : bool :=
  match a, b with
  | PNone, PNone => true
  | PBool x, PBool y => Bool.eqb x y
  | PBool x, PInt y => (Z.b2z x =? y)%Z
  | PInt x, PBool y => (x =? Z.b2z y)%Z
  | PInt x, PInt y => (x =? y)%Z
  | PStr x, PStr y => String.eqb x y
  | PList l1, PList l2 =>
      (fix go (l1 l2 : list pyval) {struct l1} : bool :=
         match l1, l2 with
         | [], [] => true
         | x :: xs, y :: ys => py_eq x y && go xs ys
         | _, _ => false
         end) l1 l2
  | PDict d1, PDict d2 =>
      (length d1 =? length d2)%nat &&
      (fix go (d : dict) {struct d} : bool :=
         match d with
         | [] => true
         | (k, v) :: r =>
             (fix find (d' : dict) {struct d'} : bool :=
                match d' with
                | [] => false
                | (k', v') :: r' =>
                    (bool_decide (k = k') && py_eq v v') || find r'
                end) d2
             && go r
         end) d1
  | _, _ => false
  end.

Definition isinstance_dict (v : pyval) : bool :=
  match v with PDict _ => true | _ => false end.

Definition isinstance_list (v : pyval) : bool :=
  match v with PList _ => true | _ => false end.

(** *** Characters and text *)

Definition dquote : ascii := ascii_of_nat 34.
Definition squote : ascii := ascii_of_nat 39.
Definition backslash : ascii := ascii_of_nat 92.
Definition newline : ascii := ascii_of_nat 10.

Definition chr (c : ascii) : string := String c EmptyString.

Definition is_digit (c : ascii) : bool :=
  let n := nat_of_ascii c in (48 <=? n)%nat && (n <=? 57)%nat.

(** A text is a Python 3 [str].  A character of a Rocq string stands for
    the Unicode code point of the same number, so the texts of this
    development are the ones over U+0000..U+00FF (ASCII and the Latin-1
    supplement); a text with a character beyond U+00FF has no counterpart
    here.  The character classes below are those of Python 3 on [str],
    which follow the Unicode database, restricted to these code points. *)

(** [\w] of the [re] module on a [str] pattern, and so what [\b] tells
    apart: the alphanumeric characters ([str.isalnum]) and the underscore.
    Below U+0100 these are the ASCII letters and digits, the underscore,
    U+00AA, U+00B2, U+00B3, U+00B5, U+00B9, U+00BA, U+00BC..U+00BE and the
    letters U+00C0..U+00FF without the signs U+00D7 and U+00F7. *)
Definition is_word (c : ascii) : bool :=
  let n := nat_of_ascii c in
  is_digit c || ((65 <=? n)%nat && (n <=? 90)%nat)
  || ((97 <=? n)%nat && (n <=? 122)%nat) || (n =? 95)%nat
  || (n =? 170)%nat || (n =? 178)%nat || (n =? 179)%nat || (n =? 181)%nat
  || (n =? 185)%nat || (n =? 186)%nat
  || ((188 <=? n)%nat && (n <=? 190)%nat)
  || ((192 <=? n)%nat && (n <=? 214)%nat)
  || ((216 <=? n)%nat && (n <=? 246)%nat)
  || ((248 <=? n)%nat && (n <=? 255)%nat).

(** Whitespace of [str.split()] and [str.rstrip()] ([str.isspace]): tab,
    LF, VT, FF, CR, FS..US and space, and below U+0100 also the next-line
    control U+0085 and the no-break space U+00A0. *)
Definition is_space (c : ascii) : bool :=
  let n := nat_of_ascii c in
  ((9 <=? n)%nat && (n <=? 13)%nat) || ((28 <=? n)%nat && (n <=? 32)%nat)
  || (n =? 133)%nat || (n =? 160)%nat.

(** Whitespace of [shlex]: space, tab, CR, LF. *)
Definition is_shlex_space (c : ascii) : bool :=
  let n := nat_of_ascii c in
  (n =? 32)%nat || (n =? 9)%nat || (n =? 13)%nat || (n =? 10)%nat.

Fixpoint string_mem (c : ascii) (s : string) : bool :=
  match s with
  | EmptyString => false
  | String c' r => Ascii.eqb c c' || string_mem c r
  end.

(** [s.startswith(p)], returning what follows the prefix. *)
Fixpoint strip_prefix (p s : string) : option string :=
  match p, s with
  | EmptyString, _ => Some s
  | String a p', String b s' =>
      if Ascii.eqb a b then strip_prefix p' s' else None
  | _, EmptyString => None
  end.

(** [s.endswith(c)] for a one-character suffix. *)
Fixpoint ends_with_char (c : ascii) (s : string) : bool :=
  match s with
  | EmptyString => false
  | String a EmptyString => Ascii.eqb a c
  | String _ r => ends_with_char c r
  end.

(** [s[1:]] *)
Definition str_tail (s : string) : string :=
  match s with EmptyString => EmptyString | String _ r => r end.

Definition hex_digit (n : nat) : ascii :=
  ascii_of_nat (if (n <? 10)%nat then 48 + n else 87 + n).

(** [repr] of a str: single quotes unless the text has a single quote and
    no double quote; backslash, the quote in use, tab, LF and CR are
    escaped, the other characters that are not printable (the controls
    below U+0020 and U+007F..U+009F, the no-break space U+00A0 and the soft
    hyphen U+00AD) print as [\xNN]. *)
Fixpoint repr_chars (q : ascii) (s : string) : string :=
  match s with
  | EmptyString => EmptyString
  | String c r =>
      let n := nat_of_ascii c in
      (if Ascii.eqb c backslash then chr backslash +:+ chr backslash
       else if Ascii.eqb c q then chr backslash +:+ chr q
       else if (n =? 9)%nat then chr backslash +:+ "t"
       else if (n =? 10)%nat then chr backslash +:+ "n"
       else if (n =? 13)%nat then chr backslash +:+ "r"
       else if (n <? 32)%nat || ((127 <=? n)%nat && (n <=? 160)%nat)
               || (n =? 173)%nat then
         chr backslash +:+ "x" +:+ chr (hex_digit (n / 16))
                       +:+ chr (hex_digit (n mod 16))
       else chr c)
      +:+ repr_chars q r
  end.

Definition repr_str (s : string) : string :=
  let q := if string_mem squote s && negb (string_mem dquote s)
           then dquote else squote in
  chr q +:+ repr_chars q s +:+ chr q.

(** [repr(v)] *)
Fixpoint py_repr (v : pyval) : string :=
  match v with
  | PNone => "None"
  | PBool true => "True"
  | PBool false => "False"
  | PInt n => pretty n
  | PStr s => repr_str s
  | PList l => "[" +:+ String.concat ", " (map py_repr l) +:+ "]"
  | PDict d =>
      "{" +:+ String.concat ", "
                (map (fun kv => repr_str kv.1 +:+ ": " +:+ py_repr kv.2) d)
          +:+ "}"
  end.

(** [str(v)], also what [%s] formats. *)
Definition py_str (v : pyval) : string :=
  match v with
  | PStr s => s
  | _ => py_repr v
  end.

(** [int(s)] on a string of decimal digits. *)
Definition int_of_digits (s : string) : N :=
  fold_left (fun acc c => (10 * acc + N.of_nat (nat_of_ascii c - 48))%N)
            (list_ascii_of_string s) 0%N.

(** [re.sub(r"[^0-9]", '', s)] *)
Fixpoint only_digits (s : string) : string :=
  match s with
  | EmptyString => EmptyString
  | String c r => if is_digit c then String c (only_digits r) else only_digits r
  end.

(** [str.split()]: the maximal runs of non-whitespace characters. *)
Fixpoint py_split_aux (cur : string) (s : string) : list string :=
  match s with
  | EmptyString => if String.eqb cur "" then [] else [cur]
  | String c r =>
      if is_space c
      then (if String.eqb cur "" then [] else [cur]) ++ py_split_aux "" r
      else py_split_aux (cur +:+ chr c) r
  end.

Definition py_split (s : string) : list string := py_split_aux "" s.

(** [os.path.join(a, b)] of posixpath: an absolute [b] replaces [a]. *)
Definition path_join (a b : string) : string :=
  if bool_decide (is_Some (strip_prefix "/" b)) then b
  else if String.eqb a "" || ends_with_char "/" a then a +:+ b
  else a +:+ "/" +:+ b.

(** [os.path.dirname(p)] of posixpath: the text up to the last slash,
    without trailing slashes unless it consists of slashes only. *)
Fixpoint rstrip_slash_rev (r : list ascii) : list ascii :=
  match r with
  | c :: r' => if Ascii.eqb c "/" then rstrip_slash_rev r' else r
  | [] => []
  end.

Fixpoint drop_to_slash_rev (r : list ascii) : list ascii :=
  match r with
  | c :: r' => if Ascii.eqb c "/" then r else drop_to_slash_rev r'
  | [] => []
  end.

Definition dirname (p : string) : string :=
  let head := drop_to_slash_rev (rev (list_ascii_of_string p)) in
  match rstrip_slash_rev head with
  | [] => string_of_list_ascii (rev head)
  | stripped => string_of_list_ascii (rev stripped)
  end.

End Py.

Import Py.

(** ** Exceptions and results *)

(** The exception classes install.py raises or catches.  In Python 3
    [IOError] is [OSError].  [ProcessExecutionError] is curtin's own class
    (util.py); it is kept apart from [OSError]: the calls that the
    [except IOError] and [except OSError] clauses of install.py guard
    ([open], [write], [ensure_dir], [Popen]) do not raise it.  [SystemExit]
    stands for the end of the process ([sys.exit], [os._exit]): no
    [except Exception] clause sees it. *)
Inductive exn : Type :=
| OSError (msg : string)
| TypeError (msg : string)
| ValueError (msg : string)
| AttributeError (msg : string)
| IndexError (msg : string)
| ProcessExecutionError
    (stdout : option string) (exit_code : option Z) (cmd : pyval)
    (reason : option string)
| BadUsage (msg : string)
| OtherException (name msg : string)
| SystemExit (code : Z).

Definition is_Exception (e : exn) : bool :=
  match e with SystemExit _ => false | _ => true end.

Definition is_OSError (e : exn) : bool :=
  match e with OSError _ => true | _ => false end.

Inductive result (A : Type) : Type :=
| Ok (a : A)
| Raise (e : exn).
Arguments Ok {A} a.
Arguments Raise {A} e.

Definition result_bind {A B} (r : result A) (f : A -> result B) : result B :=
  match r with
  | Ok a => f a
  | Raise e => Raise e
  end.

Definition is_ok {A} (r : result A) : bool :=
  match r with Ok _ => true | Raise _ => false end.

(** ** [shlex.split] *)

Module Shlex.

(** The lexer states of [shlex.shlex] in POSIX mode with
    [whitespace_split] and no comment characters: between tokens ([' ']),
    inside a word (['a']), inside a quote, or after the escape character
    (with the state to go back to: a word, or the double quote that is
    open). *)
Inductive state : Type :=
| Space
| Word
| Quote (q : ascii)
| Escape (back : option ascii).

Definition is_quote (c : ascii) : bool :=
  Ascii.eqb c squote || Ascii.eqb c dquote.

(** One pass over the text, as the successive calls of [read_token]
    make it; [tok] is the token being built, [quoted] whether a quote
    took part in it, [acc] the finished tokens, last first. *)
Fixpoint run (st : state) (tok : string) (quoted : bool)
    (acc : list string) (s : string) : result (list string) :=
  match s with
  | EmptyString =>
      match st with
      | Space => Ok (rev acc)
      | Word =>
          if String.eqb tok "" && negb quoted then Ok (rev acc)
          else Ok (rev (tok :: acc))
      | Quote _ => Raise (ValueError "No closing quotation")
      | Escape _ => Raise (ValueError "No escaped character")
      end
  | String c r =>
      match st with
      | Space =>
          if is_shlex_space c then run Space "" false acc r
          else if Ascii.eqb c backslash then run (Escape None) "" false acc r
          else if is_quote c then run (Quote c) "" true acc r
          else run Word (chr c) false acc r
      | Word =>
          if is_shlex_space c then
            if String.eqb tok "" && negb quoted then run Space "" false acc r
            else run Space "" false (tok :: acc) r
          else if is_quote c then run (Quote c) tok true acc r
          else if Ascii.eqb c backslash then run (Escape None) tok quoted acc r
          else run Word (tok +:+ chr c) quoted acc r
      | Quote q =>
          if Ascii.eqb c q then run Word tok true acc r
          else if Ascii.eqb c backslash && Ascii.eqb q dquote
          then run (Escape (Some q)) tok true acc r
          else run (Quote q) (tok +:+ chr c) true acc r
      | Escape None => run Word (tok +:+ chr c) quoted acc r
      | Escape (Some q) =>
          if negb (Ascii.eqb c backslash) && negb (Ascii.eqb c q)
          then run (Quote q) (tok +:+ chr backslash +:+ chr c) true acc r
          else run (Quote q) (tok +:+ chr c) true acc r
      end
  end.

(** [shlex.split(s)] *)
Definition split (s : string) : result (list string) :=
  run Space "" false [] s.

End Shlex.

(** ** Power-state command synthesis: [load_power_state] *)

Definition opt_map : list (string * string) :=
  [("halt", "-H"); ("poweroff", "-P"); ("reboot", "-r")].

(** [opt_map[mode]] once [mode in opt_map] holds; testing membership of
    an unhashable value (a list or a dict) is itself a [TypeError]. *)
Definition opt_map_lookup (mode : pyval) : result string :=
  match mode with
  | PList _ | PDict _ => Raise (TypeError "unhashable type")
  | PStr s =>
      match (list_to_map opt_map : gmap string string) !! s with
      | Some opt => Ok opt
      | None =>
          Raise (TypeError
            ("power_state[mode] required, must be one of: "
             +:+ String.concat "," (map fst opt_map) +:+ "."))
      end
  | _ =>
      Raise (TypeError
        ("power_state[mode] required, must be one of: "
         +:+ String.concat "," (map fst opt_map) +:+ "."))
  end.

(** [re.match(r"\+[0-9]+", s)]: [match] anchors at the start only, so this
    asks for a plus sign and one digit, whatever follows. *)
Definition match_plus_digits (s : string) : bool :=
  match s with
  | String c0 (String c1 _) => Ascii.eqb c0 "+" && is_digit c1
  | _ => false
  end.

(** Lines 289-295: the delay token. *)
Definition resolve_delay (delay : pyval) : result string :=
  if py_eq delay (PStr "now") then Ok "0"
  else if match_plus_digits (py_str delay) then
    match delay with
    | PStr s => Ok (str_tail s +:+ "m")
    | PList l => Ok (py_str (PList (tail l)) +:+ "m")
    | _ => Raise (TypeError "object is not subscriptable")
    end
  else Ok (py_str delay).

Definition shcmd : string :=
  "sleep " +:+ chr dquote +:+ "$1" +:+ chr dquote +:+ " && shift; "
  +:+ "[ -f /run/block-curtin-poweroff ] && exit 0; "
  +:+ "exec " +:+ chr dquote +:+ "$@" +:+ chr dquote.

(** Returns a command to reboot the system if power_state should. *)
Definition load_power_state (pstate : pyval) : result (option (list pyval)) :=
  match pstate with
  | PNone => Ok None
  | PDict d =>
      let mode := dict_get_default d "mode" PNone in
      match opt_map_lookup mode with
      | Raise e => Raise e
      | Ok opt =>
          match resolve_delay (dict_get_default d "delay" (PStr "5")) with
          | Raise e => Raise e
          | Ok delay =>
              let message := dict_get_default d "message" PNone in
              let args :=
                [PStr "shutdown"; PStr opt; PStr "now"]
                ++ (if truthy message then [message] else []) in
              Ok (Some ([PStr "sh"; PStr "-c"; PStr shcmd;
                         PStr "curtin-poweroff"; PStr delay] ++ args))
          end
      end
  | _ => Raise (TypeError "power_state is not a dict.")
  end.

(** ** The boot configuration scan of [apply_kexec] *)

Module Grub.

(** [re.search] of a pattern that starts with [\b] followed by a word
    character: [here] decides whether the rest of the pattern matches the
    text from a position on, [prev] is the character before it. *)
Fixpoint search_word_start (here : string -> bool) (prev : ascii)
    (s : string) : bool :=
  match s with
  | EmptyString => false
  | String c r =>
      (negb (is_word prev) && is_word c && here s)
      || search_word_start here c r
  end.

Fixpoint span_digits (s : string) : string * string :=
  match s with
  | String c r =>
      if is_digit c then
        let '(ds, rest) := span_digits r in (String c ds, rest)
      else (EmptyString, s)
  | EmptyString => (EmptyString, EmptyString)
  end.

(** The pattern [set default=\"[0-9]+\"\b] from a position on.  The
    closing quote is not a word character, so the final [\b] holds only
    when a word character follows it. *)
Definition set_default_here (s : string) : bool :=
  match strip_prefix ("set default=" +:+ chr dquote) s with
  | Some r =>
      match span_digits r with
      | (String _ _, String q (String w _)) => Ascii.eqb q dquote && is_word w
      | _ => false
      end
  | None => false
  end.

(** The pattern [menuentry\b] from a position on. *)
Definition menuentry_here (s : string) : bool :=
  match strip_prefix "menuentry" s with
  | Some (String c _) => negb (is_word c)
  | Some EmptyString => true
  | None => false
  end.

(** [re.search(r"\bset default=\"[0-9]+\"\b", " %s " % line)] *)
Definition has_set_default (line : string) : bool :=
  search_word_start set_default_here " " (" " +:+ line +:+ " ").

(** [re.search(r"\bmenuentry\b", " %s " % line)] *)
Definition has_menuentry (line : string) : bool :=
  search_word_start menuentry_here " " (" " +:+ line +:+ " ").

(** [enumerate(fp, 1)] *)
Fixpoint enumerate {A} (n : nat) (l : list A) : list (nat * A) :=
  match l with
  | [] => []
  | x :: r => (n, x) :: enumerate (S n) r
  end.

(** Lines 334-338: one turn of the scanning loop. *)
Definition scan_step (st : N * list nat) (numbered : nat * string)
    : N * list nat :=
  let default := if has_set_default numbered.2
                 then int_of_digits (only_digits numbered.2) else st.1 in
  let menu_lines := if has_menuentry numbered.2
                    then st.2 ++ [numbered.1] else st.2 in
  (default, menu_lines).

(** Lines 330-338: the default entry number and the menu entry lines. *)
Definition scan (lines : list string) : N * list nat :=
  fold_left scan_step (enumerate 1 lines) (0%N, []).

(** [l[i]] for an index that is not negative. *)
Definition index {A} (l : list A) (i : N) : result A :=
  if (i <? N.of_nat (length l))%N then
    match l !! N.to_nat i with
    | Some x => Ok x
    | None => Raise (IndexError "list index out of range")
    end
  else Raise (IndexError "list index out of range").

(** Lines 346-350: the line range of the default entry. *)
Definition entry_range (lines : list string) (default : N)
    (menu_lines : list nat) : result (nat * nat) :=
  match index menu_lines default with
  | Raise e => Raise e
  | Ok begin =>
      if bool_decide (Some begin ≠ last menu_lines) then
        match index menu_lines (default + 1) with
        | Raise e => Raise e
        | Ok next => Ok (begin, next - 1)
        end
      else Ok (begin, length lines)
  end.

(** What the loop over the entry's lines keeps. *)
Record boot_entry : Type := BootEntry {
  kernel : string;
  append : string;
  initrd : string;
}.

(** Lines 357-363: one turn of the loop over the entry's lines. *)
Definition directive_step (target : string) (line : string) (e : boot_entry)
    : result boot_entry :=
  match
    (if bool_decide ("linux" ∈ py_split line) then
       match Shlex.split line with
       | Raise x => Raise x
       | Ok split_line =>
           match split_line !! 1 with
           | None => Raise (IndexError "list index out of range")
           | Some image =>
               Ok {| kernel := path_join target image;
                     append := "--append="
                               +:+ String.concat " " (drop 2 split_line);
                     initrd := initrd e |}
           end
       end
     else Ok e)
  with
  | Raise x => Raise x
  | Ok e1 =>
      if bool_decide ("initrd" ∈ py_split line) then
        match Shlex.split line with
        | Raise x => Raise x
        | Ok split_line =>
            match split_line !! 1 with
            | None => Raise (IndexError "list index out of range")
            | Some image =>
                Ok {| kernel := kernel e1; append := append e1;
                      initrd := "--initrd=" +:+ path_join target image |}
            end
        end
      else Ok e1
  end.

(** Lines 354-363: [for i in range(begin, end)] over [lines[i]]. *)
Fixpoint directives (target : string) (lines : list string)
    (idx : list nat) (e : boot_entry) : result boot_entry :=
  match idx with
  | [] => Ok e
  | i :: rest =>
      match lines !! i with
      | None => Raise (IndexError "list index out of range")
      | Some line =>
          match directive_step target line e with
          | Raise x => Raise x
          | Ok e' => directives target lines rest e'
          end
      end
  end.

(** What lines 329-367 come to, before the re-exec tool is called. *)
Inductive outcome : Type :=
| NoMenuentry
| NoKernel
| Failed (e : exn)
| Found (e : boot_entry).

(** Lines 329-367 on the lines of the boot configuration file. *)
Definition resolve (target : string) (lines : list string) : outcome :=
  let '(default, menu_lines) := scan lines in
  match menu_lines with
  | [] => NoMenuentry
  | _ =>
      match entry_range lines default menu_lines with
      | Raise x => Failed x
      | Ok (begin, stop) =>
          match directives target lines (seq begin (stop - begin))
                  {| kernel := ""; append := ""; initrd := "" |} with
          | Raise x => Failed x
          | Ok e => if String.eqb (kernel e) "" then NoKernel else Found e
          end
      end
  end.

End Grub.

(** ** The world outside the Python process *)

Inductive level : Type := DEBUG | INFO | WARN | ERROR.

(** A child process as the read loop of [Stage.run] sees it: [reads] are
    the successive results of [sp.stdout.read(1)] for which the loop goes
    on (some data, or no data while [sp.poll()] is still [None]); after
    them the read is empty and [sp.poll()] is [returncode].  Commands that
    never end are outside the model. *)
Record process : Type := Process {
  reads : list string;
  returncode : Z;
}.

(** Every call that leaves the process. *)
Inductive call : Type :=
(* curtin.log and curtin.reporter *)
| Log (lvl : level) (msg : string)
| ReportStart (fullname description : string)
| ReportFinish (fullname description : string) (success : bool)
| LogTimerDone (msg : string)
| ReportSuccess
| ReportFailure (msg : string)
(* files *)
| EnsureDir (path : string)
| Open (path mode : string)
| Write (path data : string)
| JsonDump (path : string) (v : pyval)
| StdoutWrite (data : string)
| Mkdtemp
| Mkdir (path : string)
| Listdir (path : string)
| IsFile (path : string)
| LoadFile (path : string)
| WriteFile (path content : string) (mode : N) (omode : string)
| ReadLines (path : string)
(* processes and collaborators *)
| Popen (cmd : pyval) (env : gmap string string) (shell : bool)
| Which (program : string)
| InstallPackages (pkg : string)
| Subp (args : list pyval)
| DoUmount (target : string) (recursive : bool)
| RestartIscsiService
| ZpoolExport (pool : string)
| Rmtree (path : string)
| CreateLogTarfile (path : pyval) (config : dict)
| LoadReporter (config : dict)
| Fork.

Inductive retval : Type :=
| RNone
| RBool (b : bool)
| RInt (n : Z)
| RStr (s : string)
| RLines (l : list string)
| RProc (p : process).

Inductive reply : Type :=
| Ret (v : retval)
| Exc (e : exn).

(** A trace entry: a call and what it came to. *)
Definition event : Type := call * reply.

(** What the program shares and mutates: the configuration object that
    [cmd_install] hands around, and [os.environ]. *)
Record heap : Type := Heap {
  h_cfg : dict;
  h_environ : gmap string string;
}.

(** ** The monad: history in, result, new events and heap out *)

Record outcome (A : Type) : Type := Outcome {
  res : result A;
  emitted : list event;
  final : heap;
}.
Arguments Outcome {A} res emitted final.
Arguments res {A} o.
Arguments emitted {A} o.
Arguments final {A} o.

Definition M (A : Type) : Type := list event -> heap -> outcome A.

Definition ret {A} (a : A) : M A := fun _ σ => Outcome (Ok a) [] σ.

Definition raise {A} (e : exn) : M A := fun _ σ => Outcome (Raise e) [] σ.

Definition bind {A B} (m : M A) (f : A -> M B) : M B :=
  fun h σ =>
    let o := m h σ in
    match res o with
    | Raise e => Outcome (Raise e) (emitted o) (final o)
    | Ok a =>
        let o' := f a (h ++ emitted o) (final o) in
        Outcome (res o') (emitted o ++ emitted o') (final o')
    end.

Notation "'let*' x ':=' m 'in' k" := (bind m (fun x => k))
  (at level 10, x name, m at level 100, k at level 200).
Notation "m >> k" := (bind m (fun _ => k))
  (at level 90, right associativity).

(** Runs [m] and hands its result over as a value: the base of [try]. *)
Definition attempt {A} (m : M A) : M (result A) :=
  fun h σ => let o := m h σ in Outcome (Ok (res o)) (emitted o) (final o).

Definition of_result {A} (r : result A) : M A :=
  match r with Ok a => ret a | Raise e => raise e end.

(** [try: body except Exception as e: handler(e)] *)
Definition try_except {A} (body : M A) (handler : exn -> M A) : M A :=
  let* r := attempt body in
  match r with
  | Ok a => ret a
  | Raise e => if is_Exception e then handler e else raise e
  end.

(** [try: body except OSError: handler] ([IOError] is the same class) *)
Definition try_except_OSError {A} (body : M A) (handler : exn -> M A) : M A :=
  let* r := attempt body in
  match r with
  | Ok a => ret a
  | Raise e => if is_OSError e then handler e else raise e
  end.

(** [try: body finally: finalizer]: the finalizer always runs; when it
    raises, its exception replaces the outcome of the body. *)
Definition try_finally {A} (body : M A) (finalizer : M unit) : M A :=
  let* r := attempt body in
  finalizer >> of_result r.

(** A call whose outcome no code path waits for. *)
Definition emit (c : call) : M unit :=
  fun _ σ => Outcome (Ok tt) [(c, Ret RNone)] σ.

Definition get_cfg : M dict := fun _ σ => Outcome (Ok (h_cfg σ)) [] σ.

Definition set_cfg (c : dict) : M unit :=
  fun _ σ => Outcome (Ok tt) [] {| h_cfg := c; h_environ := h_environ σ |}.

Definition get_environ : M (gmap string string) :=
  fun _ σ => Outcome (Ok (h_environ σ)) [] σ.

(** [for x in xs: body(x)] *)
Fixpoint for_each {A} (xs : list A) (body : A -> M unit) : M unit :=
  match xs with
  | [] => ret tt
  | x :: r => body x >> for_each r body
  end.

(** Reading an answer at the type the caller expects; an answer of another
    shape reads as the empty value of that type. *)
Definition as_bool (v : retval) : bool :=
  match v with RBool b => b | _ => false end.
Definition as_int (v : retval) : Z :=
  match v with RInt n => n | _ => 0%Z end.
Definition as_str (v : retval) : string :=
  match v with RStr s => s | _ => "" end.
Definition as_lines (v : retval) : list string :=
  match v with RLines l => l | _ => [] end.
Definition as_proc (v : retval) : process :=
  match v with RProc p => p | _ => Process [] 0 end.

Definition LOG (lvl : level) (msg : string) : M unit := emit (Log lvl msg).

(** ** install.py *)

Definition INSTALL_LOG : string := "/var/log/curtin/install.log".
Definition ERROR_TARFILE : string := "/var/log/curtin/curtin-error-logs.tar".
Definition SAVE_INSTALL_LOG : string := "/root/curtin-install.log".
Definition SAVE_INSTALL_CONFIG : string := "/root/curtin-install-cfg.yaml".
Definition INSTALL_PASS_MSG : string := "curtin: Installation finished.".

Definition STAGE_DESCRIPTIONS : list (string * string) :=
  [("early", "preparing for installation");
   ("partitioning", "configuring storage");
   ("network", "configuring network");
   ("extract", "writing install sources to disk");
   ("curthooks", "configuring installed system");
   ("hook", "finalizing installation");
   ("late", "executing late commands")].

Definition CONFIG_BUILTIN : dict :=
  [("sources", PDict []);
   ("stages", PList (map PStr ["early"; "partitioning"; "network"; "extract";
                               "curthooks"; "hook"; "late"]));
   ("extract_commands",
     PDict [("builtin", PList [PStr "curtin"; PStr "extract"])]);
   ("hook_commands", PDict [("builtin", PList [PStr "curtin"; PStr "hook"])]);
   ("partitioning_commands",
     PDict [("builtin",
             PList [PStr "curtin"; PStr "block-meta"; PStr "simple"])]);
   ("curthooks_commands",
     PDict [("builtin", PList [PStr "curtin"; PStr "curthooks"])]);
   ("late_commands", PDict [("builtin", PList [])]);
   ("network_commands",
     PDict [("builtin", PList [PStr "curtin"; PStr "net-meta"; PStr "auto"])]);
   ("apply_net_commands", PDict [("builtin", PList [])]);
   ("install", PDict [("log_file", PStr INSTALL_LOG);
                      ("error_tarfile", PStr ERROR_TARFILE)])].

(** Move the legacy proxy setting 'http_proxy' into cfg['proxy'].  The
    dict is mutated in place; the model returns its new contents.  When
    the function raises, nothing has been changed yet. *)
Definition migrate_proxy_settings (cfg : dict) : M dict :=
  match dict_get_default cfg "proxy" (PDict []) with
  | PDict proxy =>
      let* pc :=
        (if dict_mem cfg "http_proxy" then
           let hp := dict_get_default cfg "http_proxy" PNone in
           let* proxy' :=
             (if truthy hp then
                if negb (py_eq (dict_get_default proxy "http_proxy" hp) hp)
                then
                  let cur := dict_get_default proxy "http_proxy" PNone in
                  LOG WARN ("legacy http_proxy setting (" +:+ py_str hp
                            +:+ ") differs from proxy/http_proxy ("
                            +:+ py_str cur +:+ "), using " +:+ py_str cur)
                  >> ret proxy
                else
                  LOG DEBUG "legacy 'http_proxy' migrated to proxy/http_proxy"
                  >> ret (dict_set proxy "http_proxy" hp)
              else ret proxy) in
           ret (proxy', dict_del cfg "http_proxy")
         else ret (proxy, cfg)) in
      ret (dict_set pc.2 "proxy" (PDict pc.1))
  | other =>
      raise (ValueError ("'proxy' in config is not a dictionary: "
                         +:+ py_str other))
  end.

(** Modelled from the spec: curtin.reporter.events is not among the
    sources.  A reporting scope is the spec's stack-based handle with
    enter/exit semantics, parent/child nesting and a human description;
    entering it reports a start event, leaving it a finish event that says
    whether the body raised.  The full name joins the parent's and the
    scope's own with a slash. *)
Record reportstack : Type := ReportEventStack {
  rs_name : string;
  rs_description : string;
  rs_fullname : string;
  rs_enabled : bool;
}.

Definition new_reportstack (name description : string)
    (parent : option reportstack) (enabled : bool) : reportstack :=
  {| rs_name := name;
     rs_description := description;
     rs_fullname := match parent with
                    | Some p => rs_fullname p +:+ "/" +:+ name
                    | None => name
                    end;
     rs_enabled := enabled |}.

(** [with stack: body] *)
Definition with_report {A} (stack : reportstack) (body : M A) : M A :=
  (if rs_enabled stack
   then emit (ReportStart (rs_fullname stack) (rs_description stack))
   else ret tt) >>
  let* r := attempt body in
  (if rs_enabled stack
   then emit (ReportFinish (rs_fullname stack) (rs_description stack)
                           (is_ok r))
   else ret tt) >>
  of_result r.

(** [with util.LogTimer(LOG.debug, msg): body]: the time taken is logged
    when the body is left, also by an exception. *)
Definition with_log_timer {A} (msg : string) (body : M A) : M A :=
  let* r := attempt body in
  emit (LogTimerDone msg) >> of_result r.

Section Install.

(** The world answers every call, knowing what happened before. *)
Variable world : list event -> call -> reply.

(** Functions of curtin modules that are not among the sources. *)
Variable target_path : string -> pyval -> string.
Variable get_dd_images : pyval -> list string.
Variable get_iscsi_disks_from_config : dict -> list string.
Variable get_zpool_from_config : dict -> list string.
Variable format_exception : exn -> string.

Definition ext (c : call) : M retval :=
  fun h σ =>
    match world h c with
    | Ret v => Outcome (Ok v) [(c, Ret v)] σ
    | Exc e => Outcome (Raise e) [(c, Exc e)] σ
    end.

Definition ext_unit (c : call) : M unit := ext c >> ret tt.
Definition ext_bool (c : call) : M bool := let* v := ext c in ret (as_bool v).
Definition ext_str (c : call) : M string := let* v := ext c in ret (as_str v).

(** Clear the installation log, so no previous installation is present. *)
Definition clear_install_log (logfile : string) : M unit :=
  ext_unit (EnsureDir (dirname logfile)) >>
  try_except (ext_unit (Open logfile "w")) (fun _ => ret tt).

(** Copy curtin install log file to target system *)
Definition copy_install_log (logfile : string) (target : string)
    (log_target_path : pyval) : M unit :=
  let basemsg := "Cannot copy curtin install log " +:+ chr dquote +:+ logfile
                 +:+ chr dquote +:+ " to target." in
  if negb (truthy (PStr logfile)) then LOG WARN basemsg
  else
    let* isfile := ext_bool (IsFile logfile) in
    if negb isfile then LOG WARN (basemsg +:+ "  file does not exist.")
    else
      LOG DEBUG ("Copying curtin install log from " +:+ logfile
                 +:+ " to target/" +:+ py_str log_target_path) >>
      let filename := target_path target log_target_path in
      let* content := ext_str (LoadFile logfile) in
      ext_unit (WriteFile filename content 256 "wb").

(** Write a line to a file. *)
Definition writeline (fname : string) (output : string) : M unit :=
  let output := if negb (ends_with_char newline output)
                then output +:+ chr newline else output in
  try_except_OSError
    (ext_unit (Open fname "a") >> ext_unit (Write fname output))
    (fun _ => ret tt).

Definition writeline_and_stdout (logfile : string) (message : string)
    : M unit :=
  writeline logfile message >>
  ext_unit (StdoutWrite (message +:+ chr newline)).

(** *** [WorkingDir] *)

Record WorkingDir : Type := MkWorkingDir {
  wd_scratch : string;
  wd_target : string;
  wd_top : string;
  wd_interfaces : string;
  wd_netconf : string;
  wd_netstate : string;
  wd_fstab : string;
  wd_config : dict;
  wd_config_file : string;
}.

(** [WorkingDir.__init__] *)
Definition WorkingDir_init (config : dict) : M WorkingDir :=
  let* top_d := ext_str Mkdtemp in
  let state_d := path_join top_d "state" in
  let scratch_d := path_join top_d "scratch" in
  for_each [state_d; scratch_d] (fun p => ext_unit (Mkdir p)) >>
  let* install :=
    (match dict_get_default config "install" (PDict []) with
     | PDict d => ret d
     | _ => raise (AttributeError "object has no attribute 'get'")
     end) in
  let target_d := dict_get_default install "target" PNone in
  let target_d := if negb (truthy target_d)
                  then PStr (path_join top_d "target") else target_d in
  let* target_d :=
    (match target_d with
     | PStr s =>
         try_except_OSError (ext_unit (EnsureDir s))
           (fun e => raise (ValueError
              ("Unable to create target directory '" +:+ s +:+ "': "
               +:+ format_exception e))) >>
         ret s
     | _ => raise (TypeError "expected str, bytes or os.PathLike object")
     end) in
  let* entries := let* v := ext (Listdir target_d) in ret (as_lines v) in
  if negb (bool_decide (entries = [])) then
    raise (ValueError ("Provided target dir '" +:+ target_d
                       +:+ "' was not empty."))
  else
    let netconf_f := path_join state_d "network_config" in
    let netstate_f := path_join state_d "network_state" in
    let interfaces_f := path_join state_d "interfaces" in
    let config_f := path_join state_d "config" in
    let fstab_f := path_join state_d "fstab" in
    ext_unit (Open config_f "w") >>
    ext_unit (JsonDump config_f (PDict config)) >>
    (* just touch these files to make sure they exist *)
    for_each [config_f; fstab_f; netconf_f; netstate_f]
      (fun f => ext_unit (Open f "ab")) >>
    ret {| wd_scratch := scratch_d;
           wd_target := target_d;
           wd_top := top_d;
           wd_interfaces := interfaces_f;
           wd_netconf := netconf_f;
           wd_netstate := netstate_f;
           wd_fstab := fstab_f;
           wd_config := config;
           wd_config_file := config_f |}.

(** [WorkingDir.env] *)
Definition WorkingDir_env (self : WorkingDir) : list (string * string) :=
  [("WORKING_DIR", wd_scratch self); ("OUTPUT_FSTAB", wd_fstab self);
   ("OUTPUT_INTERFACES", wd_interfaces self);
   ("OUTPUT_NETWORK_CONFIG", wd_netconf self);
   ("OUTPUT_NETWORK_STATE", wd_netstate self);
   ("TARGET_MOUNT_POINT", wd_target self);
   ("CONFIG", wd_config_file self)].

(** *** [Stage] *)

Record Stage : Type := MkStage {
  stage_name : pyval;
  stage_commands : pyval;
  stage_env : gmap string string;
  stage_install_log : option string;
  stage_reportstack : reportstack;
}.

(** Open the install log. *)
Definition Stage_open_install_log (logfile : string) : M (option string) :=
  if negb (truthy (PStr logfile)) then ret None
  else
    try_except_OSError
      (ext_unit (Open logfile "ab") >> ret (Some logfile))
      (fun _ => ret None).

(** [Stage.__init__] *)
Definition Stage_init (name : pyval) (commands : pyval)
    (env : gmap string string) (reportstack : option reportstack)
    (logfile : option string) : M Stage :=
  let logfile := default INSTALL_LOG logfile in
  let* install_log := Stage_open_install_log logfile in
  let reportstack :=
    match reportstack with
    | Some r => r
    | None => new_reportstack ("stage-" +:+ py_str name)
                ("basic stage " +:+ py_str name) None false
    end in
  ret {| stage_name := name;
         stage_commands := commands;
         stage_env := env;
         stage_install_log := install_log;
         stage_reportstack := reportstack |}.

(** Write data to stdout and to the install_log. *)
Definition Stage_write (self : Stage) (data : string) : M unit :=
  ext_unit (StdoutWrite data) >>
  match stage_install_log self with
  | Some f => ext_unit (Write f data)
  | None => ret tt
  end.

(** [' '.join(cmd)]: a str is joined character by character, a dict by
    its keys; the items of a list must be strings. *)
Definition join_cmd (cmd : pyval) : result string :=
  match cmd with
  | PStr s => Ok (String.concat " " (map chr (list_ascii_of_string s)))
  | PList l =>
      match mapM (fun v => match v with PStr s => Some s | _ => None end) l with
      | Some ss => Ok (String.concat " " ss)
      | None => Raise (TypeError "sequence item: expected str instance")
      end
  | PDict d => Ok (String.concat " " (dict_keys d))
  | _ => Raise (TypeError "can only join an iterable")
  end.

(** Lines 235-241: the read loop. *)
Fixpoint Stage_read_loop (self : Stage) (rs : list string) (output : string)
    : M string :=
  match rs with
  | [] => ret output
  | data :: rest =>
      Stage_write self data >> Stage_read_loop self rest (output +:+ data)
  end.

(** Lines 213-248: the body of the loop of [Stage.run]. *)
Definition Stage_run_command (self : Stage) (cmdname : string) (cmd : pyval)
    : M unit :=
  if negb (truthy cmd) then ret tt
  else
    let* joined := of_result (join_cmd cmd) in
    let cur_res := new_reportstack cmdname ("running '" +:+ joined +:+ "'")
                     (Some (stage_reportstack self))
                     (rs_enabled (stage_reportstack self)) in
    let env := <["CURTIN_REPORTSTACK" := rs_fullname cur_res]>
                 (stage_env self) in
    let shell := negb (isinstance_list cmd) in
    with_log_timer cmdname
      (with_report cur_res
         (let* sp :=
            try_except_OSError
              (let* v := ext (Popen cmd env shell) in ret (as_proc v))
              (fun e =>
                 LOG WARN (cmdname +:+ " command failed") >>
                 raise (ProcessExecutionError None None cmd
                          (Some (format_exception e)))) in
          let* output := Stage_read_loop self (reads sp) "" in
          let rc := returncode sp in
          if negb (rc =? 0)%Z then
            LOG WARN (cmdname +:+ " command failed") >>
            raise (ProcessExecutionError (Some output) (Some rc) cmd None)
          else ret tt)).

(** [sorted(d.keys())] *)
Definition sorted_keys (d : dict) : list string :=
  merge_sort String.le (dict_keys d).

(** [Stage.run] *)
Definition Stage_run (self : Stage) : M unit :=
  match stage_commands self with
  | PDict commands =>
      for_each (sorted_keys commands)
        (fun cmdname =>
           Stage_run_command self cmdname
             (dict_get_default commands cmdname PNone))
  | _ => raise (AttributeError "object has no attribute 'keys'")
  end.

(** *** Power state and kernel re-exec *)

(** [apply_power_state]: in the forked child ([fid == 0]) the command
    runs and the child ends with [os._exit]; the parent returns at once. *)
Definition apply_power_state (pstate : pyval) : M unit :=
  let* cmd := of_result (load_power_state pstate) in
  match cmd with
  | None | Some [] => ret tt
  | Some cmd =>
      LOG INFO ("powering off with " +:+ py_str (PList cmd)) >>
      let* fid := let* v := ext Fork in ret (as_int v) in
      if (fid =? 0)%Z then
        try_except
          (ext_unit (Subp cmd) >> raise (SystemExit 0))
          (fun e =>
             LOG WARN (py_str (PList cmd) +:+ " returned non-zero: "
                       +:+ format_exception e) >>
             raise (SystemExit 1))
      else ret tt
  end.

(** [not v] for what [util.which] returns: a path or [None]. *)
Definition retval_truthy (v : retval) : bool :=
  match v with
  | RNone => false
  | RBool b => b
  | RInt n => negb (n =? 0)%Z
  | RStr s => negb (String.eqb s "")
  | RLines l => negb (bool_decide (l = []))
  | RProc _ => true
  end.

(** load kexec kernel from target dir, similar to /etc/init.d/kexec-load *)
Definition apply_kexec (kexec : pyval) (target : string) : M bool :=
  let grubcfg := "boot/grub/grub.cfg" in
  let target_grubcfg := path_join target grubcfg in
  (* line 317: [kexec is None or kexec.get("mode") != "on"] *)
  let* off :=
    (match kexec with
     | PNone => ret true
     | PDict d =>
         ret (negb (py_eq (dict_get_default d "mode" PNone) (PStr "on")))
     | _ => raise (AttributeError "object has no attribute 'get'")
     end) in
  if off then ret false
  else if negb (isinstance_dict kexec) then
    raise (TypeError "kexec is not a dict.")
  else
    let* which := ext (Which "kexec") in
    (if negb (retval_truthy which)
     then ext_unit (InstallPackages "kexec-tools") else ret tt) >>
    let* isfile := ext_bool (IsFile target_grubcfg) in
    if negb isfile then
      raise (ValueError (grubcfg +:+ " does not exist in target"))
    else
      let* lines := let* v := ext (ReadLines target_grubcfg) in
                    ret (as_lines v) in
      match Grub.resolve target lines with
      | Grub.NoMenuentry =>
          LOG ERROR ("grub config file does not have a menuentry"
                     +:+ chr newline) >>
          ret false
      | Grub.Failed e => raise e
      | Grub.NoKernel =>
          LOG ERROR ("grub config file does not have a kernel"
                     +:+ chr newline) >>
          ret false
      | Grub.Found e =>
          LOG DEBUG ("kexec -l " +:+ Grub.kernel e +:+ " " +:+ Grub.append e
                     +:+ " " +:+ Grub.initrd e) >>
          ext_unit (Subp [PStr "kexec"; PStr "-l"; PStr (Grub.kernel e);
                          PStr (Grub.append e); PStr (Grub.initrd e)]) >>
          ret true
      end.

(** *** [cmd_install] *)

(** [for name in v]: what iterating a value yields. *)
Definition py_iter (v : pyval) : result (list pyval) :=
  match v with
  | PList l => Ok l
  | PStr s => Ok (map (fun c => PStr (chr c)) (list_ascii_of_string s))
  | PDict d => Ok (map PStr (dict_keys d))
  | _ => Raise (TypeError "object is not iterable")
  end.

(** [STAGE_DESCRIPTIONS.get(name, "stage %s" % name)] *)
Definition stage_description (name : pyval) : result string :=
  match name with
  | PList _ | PDict _ => Raise (TypeError "unhashable type")
  | PStr s =>
      Ok (default ("stage " +:+ s)
            ((list_to_map STAGE_DESCRIPTIONS : gmap string string) !! s))
  | _ => Ok ("stage " +:+ py_str name)
  end.

(** Lines 453-464: one turn of the loop over the stages.  [env] is the
    dict the loop keeps updating; its new contents are returned. *)
Definition cmd_install_stage (args_reportstack : reportstack)
    (logfile : string) (env : gmap string string) (name : pyval)
    : M (gmap string string) :=
  let* desc := of_result (stage_description name) in
  let reportstack :=
    new_reportstack ("stage-" +:+ py_str name) desc (Some args_reportstack)
      (rs_enabled args_reportstack) in
  let env := <["CURTIN_REPORTSTACK" := rs_fullname reportstack]> env in
  with_report reportstack
    (let commands_name := py_str name +:+ "_commands" in
     with_log_timer ("stage_" +:+ py_str name)
       (let* cfg := get_cfg in
        let* stage :=
          Stage_init name (dict_get_default cfg commands_name (PDict []))
            env (Some reportstack) (Some logfile) in
        Stage_run stage)) >>
  ret env.

(** Lines 452-464: the loop over the stages. *)
Fixpoint cmd_install_stages (args_reportstack : reportstack)
    (logfile : string) (env : gmap string string) (names : list pyval)
    : M unit :=
  match names with
  | [] => ret tt
  | name :: rest =>
      let* env := cmd_install_stage args_reportstack logfile env name in
      cmd_install_stages args_reportstack logfile env rest
  end.

(** Lines 444-471: the [try] block after [workingd = WorkingDir(cfg)]. *)
Definition cmd_install_try (args_reportstack : reportstack)
    (logfile : string) (workingd : WorkingDir) : M unit :=
  let* cfg := get_cfg in
  let dd_images := get_dd_images (dict_get_default cfg "sources" (PDict [])) in
  if (1 <? length dd_images)%nat then
    raise (ValueError "You may not use more than one disk image")
  else
    LOG DEBUG (py_str (PDict (map (fun kv => (kv.1, PStr kv.2))
                                (WorkingDir_env workingd)))) >>
    let* environ := get_environ in
    let env := list_to_map (WorkingDir_env workingd) ∪ environ in
    let* stages := of_result (py_iter (dict_get_default cfg "stages" PNone)) in
    cmd_install_stages args_reportstack logfile env stages >>
    let* cfg := get_cfg in
    let* kexec := apply_kexec (dict_get_default cfg "kexec" PNone)
                    (wd_target workingd) in
    (if kexec then
       set_cfg (dict_set cfg "power_state"
                  (PDict [("mode", PStr "reboot"); ("delay", PStr "now");
                          ("message", PStr "'rebooting with kexec'")]))
     else ret tt) >>
    writeline_and_stdout logfile INSTALL_PASS_MSG >>
    ext_unit ReportSuccess.

(** Lines 472-479: the [except Exception as e] clause. *)
Definition cmd_install_except (logfile : string) (error_tarfile : pyval)
    (e : exn) : M unit :=
  let exp_msg := "curtin: Installation failed with exception: "
                 +:+ format_exception e in
  writeline logfile exp_msg >>
  LOG ERROR exp_msg >>
  ext_unit (ReportFailure exp_msg) >>
  (if truthy error_tarfile then
     let* cfg := get_cfg in ext_unit (CreateLogTarfile error_tarfile cfg)
   else ret tt) >>
  raise e.

(** Lines 489-512: the teardown of the [elif workingd] branch. *)
Definition cmd_install_teardown (workingd : WorkingDir) : M unit :=
  (* unmount everything (including iscsi disks) *)
  ext_unit (DoUmount (wd_target workingd) true) >>
  let* cfg := get_cfg in
  (if negb (bool_decide (get_iscsi_disks_from_config cfg = []))
   then ext_unit RestartIscsiService else ret tt) >>
  for_each (get_zpool_from_config cfg)
    (fun pool =>
       LOG DEBUG ("Exporting ZFS zpool " +:+ pool) >>
       ext_unit (ZpoolExport pool)) >>
  ext_unit (Rmtree (wd_top workingd)).

(** Lines 480-512: the [finally] clause. *)
Definition cmd_install_finally (instcfg : dict) (logfile : string)
    (workingd : option WorkingDir) : M unit :=
  let log_target_path :=
    dict_get_default instcfg "save_install_log" (PStr SAVE_INSTALL_LOG) in
  (match workingd with
   | Some wd =>
       if truthy log_target_path
       then copy_install_log logfile (wd_target wd) log_target_path
       else ret tt
   | None => ret tt
   end) >>
  if py_eq (dict_get_default instcfg "unmount" (PStr "")) (PStr "disabled")
  then LOG INFO "Skipping unmount: config disabled target unmounting"
  else
    match workingd with
    | Some wd => cmd_install_teardown wd
    | None => ret tt
    end.

(** Lines 441-512: [workingd = None] and the [try] statement.  The first
    statement of the [try] block binds [workingd]; the handler and the
    finalizer see it bound exactly when [WorkingDir(cfg)] returned. *)
Definition cmd_install_guarded (args_reportstack : reportstack)
    (instcfg : dict) (logfile : string) (error_tarfile : pyval) : M unit :=
  let* cfg := get_cfg in
  let* created := attempt (WorkingDir_init cfg) in
  let workingd := match created with Ok wd => Some wd | Raise _ => None end in
  try_finally
    (try_except
       (match created with
        | Ok wd => cmd_install_try args_reportstack logfile wd
        | Raise e => raise e
        end)
       (cmd_install_except logfile error_tarfile))
    (cmd_install_finally instcfg logfile workingd).

(** Lines 416-418 and 441-516 of [cmd_install], on the merged
    configuration the heap holds: the install attempt, its cleanup, the
    power state action and the exit.  The set-up before (merging the
    configuration, exporting the proxy, the configuration dump, the
    reporter and the start banner) prepares what is read here. *)
Definition cmd_install (args_reportstack : reportstack) : M unit :=
  let* cfg := get_cfg in
  let* instcfg :=
    (match dict_get_default cfg "install" (PDict []) with
     | PDict d => ret d
     | _ => raise (AttributeError "object has no attribute 'get'")
     end) in
  let* logfile :=
    (match dict_get_default instcfg "log_file" PNone with
     | PStr s => ret s
     | _ => raise (TypeError "expected str, bytes or os.PathLike object")
     end) in
  let error_tarfile := dict_get_default instcfg "error_tarfile" PNone in
  cmd_install_guarded args_reportstack instcfg logfile error_tarfile >>
  let* cfg := get_cfg in
  apply_power_state (dict_get_default cfg "power_state" PNone) >>
  raise (SystemExit 0).

End Install.

(** * Properties *)

(** ** Reasoning about runs *)

Lemma bind_Ok {A B} (m : M A) (k : A -> M B) h σ a :
  res (m h σ) = Ok a ->
  bind m k h σ =
    Outcome (res (k a (h ++ emitted (m h σ)) (final (m h σ))))
            (emitted (m h σ) ++ emitted (k a (h ++ emitted (m h σ)) (final (m h σ))))
            (final (k a (h ++ emitted (m h σ)) (final (m h σ)))).
Proof. intros H. unfold bind. by rewrite H. Qed.

Lemma bind_Raise {A B} (m : M A) (k : A -> M B) h σ e :
  res (m h σ) = Raise e ->
  bind m k h σ = Outcome (Raise e) (emitted (m h σ)) (final (m h σ)).
Proof. intros H. unfold bind. by rewrite H. Qed.

(** [emits P m]: every event of every run of [m] satisfies [P]. *)
Definition emits {A} (P : event -> Prop) (m : M A) : Prop :=
  forall h σ, Forall P (emitted (m h σ)).

(** [keeps_heap m]: no run of [m] changes the heap. *)
Definition keeps_heap {A} (m : M A) : Prop :=
  forall h σ, final (m h σ) = σ.

Create HintDb run discriminated.

Section Frame.
Context {A B : Type} (P : event -> Prop).

Lemma emits_ret (a : A) : emits P (ret a).
Proof. intros h σ. constructor. Qed.

Lemma emits_raise e : emits P (@raise A e).
Proof. intros h σ. constructor. Qed.

Lemma emits_of_result (r : result A) : emits P (of_result r).
Proof. destruct r; [apply emits_ret | apply emits_raise]. Qed.

Lemma emits_bind (m : M A) (k : A -> M B) :
  emits P m -> (forall a, emits P (k a)) -> emits P (bind m k).
Proof.
  intros Hm Hk h σ. unfold bind. specialize (Hm h σ).
  destruct (res (m h σ)); simpl; [|done].
  apply Forall_app. split; [done | apply Hk].
Qed.

Lemma emits_attempt (m : M A) : emits P m -> emits P (attempt m).
Proof. intros Hm h σ. apply Hm. Qed.

Lemma emits_emit c : P (c, Ret RNone) -> emits P (emit c).
Proof. intros Hc h σ. by repeat constructor. Qed.

Lemma emits_get_cfg : emits P get_cfg.
Proof. intros h σ. constructor. Qed.

Lemma emits_set_cfg c : emits P (set_cfg c).
Proof. intros h σ. constructor. Qed.

Lemma emits_get_environ : emits P get_environ.
Proof. intros h σ. constructor. Qed.

Lemma keeps_heap_ret (a : A) : keeps_heap (ret a).
Proof. done. Qed.

Lemma keeps_heap_raise e : keeps_heap (@raise A e).
Proof. done. Qed.

Lemma keeps_heap_of_result (r : result A) : keeps_heap (of_result r).
Proof. by destruct r. Qed.

Lemma keeps_heap_bind (m : M A) (k : A -> M B) :
  keeps_heap m -> (forall a, keeps_heap (k a)) -> keeps_heap (bind m k).
Proof.
  intros Hm Hk h σ. unfold bind. specialize (Hm h σ).
  destruct (res (m h σ)); simpl; [|done].
  by rewrite Hk.
Qed.

Lemma keeps_heap_attempt (m : M A) : keeps_heap m -> keeps_heap (attempt m).
Proof. intros Hm h σ. apply Hm. Qed.

Lemma keeps_heap_emit c : keeps_heap (emit c).
Proof. done. Qed.

Lemma keeps_heap_get_cfg : keeps_heap get_cfg.
Proof. done. Qed.

Lemma keeps_heap_get_environ : keeps_heap get_environ.
Proof. done. Qed.

End Frame.

#[export] Hint Resolve emits_ret emits_raise emits_of_result emits_bind
  emits_attempt emits_emit emits_get_cfg emits_set_cfg emits_get_environ
  keeps_heap_ret keeps_heap_raise keeps_heap_of_result keeps_heap_bind
  keeps_heap_attempt keeps_heap_emit keeps_heap_get_cfg
  keeps_heap_get_environ : run.

(** ** Python values *)

Lemma pyval_ind' (P : pyval -> Prop) :
  P PNone ->
  (forall b, P (PBool b)) ->
  (forall n, P (PInt n)) ->
  (forall s, P (PStr s)) ->
  (forall l, Forall P l -> P (PList l)) ->
  (forall d, Forall (fun kv => P kv.2) d -> P (PDict d)) ->
  forall v, P v.
Proof.
  intros HNone HBool HInt HStr HList HDict.
  fix IH 1. intros [|b|n|s|l|d];
    [apply HNone | apply HBool | apply HInt | apply HStr | |].
  - apply HList. induction l as [|x l IHl]; constructor; [apply IH | apply IHl].
  - apply HDict. induction d as [|[k x] d IHd]; constructor;
      [apply IH | apply IHd].
Qed.

(** [x == x] holds for every value: comparing a value with itself is what
    [d.get(k, x) != x] does when the key is absent. *)
Lemma py_eq_refl (v : pyval) : py_eq v v = true.
Proof.
  induction v as [|b|n|s|l IH|d IH] using pyval_ind'; simpl.
  - done.
  - by destruct b.
  - apply Z.eqb_refl.
  - apply String.eqb_refl.
  - induction IH as [|x l Hx _ IHl]; [done|]. rewrite Hx. exact IHl.
  - rewrite Nat.eqb_refl. simpl.
    assert (Hsub : forall kv, kv ∈ d -> kv ∈ d) by done.
    revert Hsub. generalize d at 2 3 as d2. intros d2 Hsub.
    induction IH as [|[k x] r Hx _ IHr]; [done|].
    rewrite IHr by (intros kv Hkv; apply Hsub; by right).
    rewrite andb_true_r.
    assert (Hin : (k, x) ∈ d2) by (apply Hsub; by left).
    clear -Hin Hx. simpl in Hx.
    induction d2 as [|[k' x'] d2 IHd2]; [by apply elem_of_nil in Hin|].
    apply elem_of_cons in Hin as [[= <- <-]|Hin].
    + by rewrite bool_decide_eq_true_2, Hx.
    + rewrite IHd2 by done. apply orb_true_r.
Qed.

(** ** Dictionaries *)

Lemma dict_get_del_eq (d : dict) k : dict_get (dict_del d k) k = None.
Proof.
  induction d as [|[k' v] d IH]; [done|].
  unfold dict_del in *. rewrite filter_cons. simpl.
  case_decide as Hk; simpl; [|done].
  by rewrite decide_False.
Qed.

Lemma dict_get_del_ne (d : dict) k k' :
  k ≠ k' -> dict_get (dict_del d k) k' = dict_get d k'.
Proof.
  intros Hne. induction d as [|[k0 v] d IH]; [done|].
  unfold dict_del in *. rewrite filter_cons. simpl.
  case_decide as Hk; simpl.
  - by rewrite IH.
  - assert (k0 = k) as -> by (by destruct (decide (k0 = k))).
    by rewrite decide_False.
Qed.

Lemma dict_get_set_eq (d : dict) k v : dict_get (dict_set d k v) k = Some v.
Proof.
  induction d as [|[k' v'] d IH]; simpl.
  - by rewrite decide_True.
  - case_decide; simpl; [by rewrite decide_True | by rewrite decide_False].
Qed.

Lemma dict_get_set_ne (d : dict) k k' v :
  k ≠ k' -> dict_get (dict_set d k v) k' = dict_get d k'.
Proof.
  intros Hne. induction d as [|[k0 v0] d IH]; simpl.
  - by rewrite decide_False.
  - case_decide as Hk; simpl.
    + subst k0. rewrite !decide_False by done. by apply dict_get_del_ne.
    + case_decide; [done | apply IH].
Qed.

Lemma dict_mem_true (d : dict) k :
  dict_mem d k = true <-> exists v, dict_get d k = Some v.
Proof. unfold dict_mem. rewrite bool_decide_eq_true. done. Qed.

(** ** C1: migration of the legacy proxy setting *)

(** A warning of [migrate_proxy_settings] in a trace. *)
Definition proxy_warning (tr : list event) : Prop :=
  exists msg, (Log WARN msg, Ret RNone) ∈ tr.

(** C1, as amended.  For every configuration whose [proxy] is absent or a
    dictionary, migration returns; afterwards the top-level [http_proxy]
    key is absent and [proxy] is a dictionary.  When the legacy key holds a
    value [X] that is true (not empty): if [proxy.http_proxy] holds a [Y]
    with [Y != X], [Y] is kept and a warning is logged; if [Y == X] or
    [proxy.http_proxy] is absent, [proxy.http_proxy] is [X] afterwards and
    nothing is warned about.  When the legacy value is false (empty) or
    absent, [proxy] is left as it was and nothing is warned about. *)
Theorem migrate_proxy_settings_spec (cfg proxy : dict) h σ :
  dict_get_default cfg "proxy" (PDict []) = PDict proxy ->
  exists cfg' proxy',
    res (migrate_proxy_settings cfg h σ) = Ok cfg'
    /\ dict_get cfg' "http_proxy" = None
    /\ dict_get cfg' "proxy" = Some (PDict proxy')
    /\ (forall X, dict_get cfg "http_proxy" = Some X -> truthy X = true ->
          match dict_get proxy "http_proxy" with
          | Some Y =>
              if py_eq Y X
              then dict_get proxy' "http_proxy" = Some X
                   /\ ~ proxy_warning (emitted (migrate_proxy_settings cfg h σ))
              else dict_get proxy' "http_proxy" = Some Y
                   /\ proxy_warning (emitted (migrate_proxy_settings cfg h σ))
          | None =>
              dict_get proxy' "http_proxy" = Some X
              /\ ~ proxy_warning (emitted (migrate_proxy_settings cfg h σ))
          end)
    /\ (forall X, dict_get cfg "http_proxy" = Some X -> truthy X = false ->
          proxy' = proxy
          /\ ~ proxy_warning (emitted (migrate_proxy_settings cfg h σ)))
    /\ (dict_get cfg "http_proxy" = None ->
          proxy' = proxy
          /\ ~ proxy_warning (emitted (migrate_proxy_settings cfg h σ))).
Proof.
  intros Hproxy. unfold migrate_proxy_settings. rewrite Hproxy.
  assert (Hquiet : forall tr : list event,
             Forall (fun ev => ev.1 ≠ Log WARN (match ev.1 with
                                                 | Log _ m => m | _ => "" end))
                    tr -> ~ proxy_warning tr).
  { intros tr Htr [msg Hm]. rewrite Forall_forall in Htr.
    by apply Htr in Hm. }
  unfold dict_mem, dict_get_default.
  destruct (dict_get cfg "http_proxy") as [X|] eqn:HX; simpl default.
  - rewrite bool_decide_eq_true_2 by eauto.
    destruct (truthy X) eqn:HtX.
    + destruct (dict_get proxy "http_proxy") as [Y|] eqn:HY; simpl default.
      * destruct (py_eq Y X) eqn:Heq; simpl;
          (eexists _, _; split; [reflexivity|]);
          rewrite dict_get_set_ne, dict_get_del_eq, dict_get_set_eq by done;
          (split; [done|]); (split; [done|]);
          (split; [|split; congruence]);
          intros X' [= <-] _; rewrite Heq.
        -- rewrite dict_get_set_eq. split; [done|].
           apply Hquiet. by repeat constructor.
        -- split; [done|]. eexists. apply list_elem_of_here.
      * rewrite py_eq_refl. simpl.
        eexists _, _; split; [reflexivity|].
        rewrite dict_get_set_ne, dict_get_del_eq, dict_get_set_eq by done.
        split; [done|]. split; [done|]. split; [|split; congruence].
        intros X' [= <-] _. rewrite dict_get_set_eq. split; [done|].
        apply Hquiet. by repeat constructor.
    + simpl. eexists _, _; split; [reflexivity|].
      rewrite dict_get_set_ne, dict_get_del_eq, dict_get_set_eq by done.
      split; [done|]. split; [done|]. split; [congruence|].
      split; [|congruence].
      intros _ _ _. split; [done|]. apply Hquiet. constructor.
  - rewrite bool_decide_eq_false_2 by (by intros [? ?]).
    simpl. eexists _, _; split; [reflexivity|].
    rewrite dict_get_set_ne, dict_get_set_eq by done.
    split; [done|]. split; [done|]. split; [congruence|]. split; [congruence|].
    intros _. split; [done|]. apply Hquiet. constructor.
Qed.

Definition heap0 : heap := {| h_cfg := []; h_environ := ∅ |}.

Lemma migrate_proxy_settings_spec_witness :
  dict_get_default
    [("http_proxy", PStr "http://legacy:3128");
     ("proxy", PDict [("http_proxy", PStr "http://squid:3128")])]
    "proxy" (PDict [])
  = PDict [("http_proxy", PStr "http://squid:3128")]
  /\ exists cfg',
       res (migrate_proxy_settings
              [("http_proxy", PStr "http://legacy:3128");
               ("proxy", PDict [("http_proxy", PStr "http://squid:3128")])]
              [] heap0) = Ok cfg'
       /\ dict_get cfg' "http_proxy" = None.
Proof.
  split; [reflexivity|].
  destruct (migrate_proxy_settings_spec
              [("http_proxy", PStr "http://legacy:3128");
               ("proxy", PDict [("http_proxy", PStr "http://squid:3128")])]
              [("http_proxy", PStr "http://squid:3128")] [] heap0)
    as (cfg' & proxy' & Hres & Hlegacy & _); [reflexivity|].
  exists cfg'. split; assumption.
Defined.

(** C1 as stated fails on an empty legacy value.  With [http_proxy: ""]
    and no [proxy.http_proxy], the claim wants [proxy.http_proxy == ""]
    afterwards, but the [if hp:] guard leaves [proxy] without the key; with
    [http_proxy: ""] and a different [proxy.http_proxy], the claim wants a
    warning, but nothing is logged. *)
Lemma migrate_proxy_settings_empty_legacy :
  (dict_get [("http_proxy", PStr "")] "http_proxy" = Some (PStr "")
   /\ migrate_proxy_settings [("http_proxy", PStr "")] [] heap0
      = Outcome (Ok [("proxy", PDict [])]) [] heap0
   /\ dict_get [] "http_proxy" ≠ Some (PStr ""))
  /\ (py_eq (PStr "http://squid:3128") (PStr "") = false
      /\ migrate_proxy_settings
           [("http_proxy", PStr "");
            ("proxy", PDict [("http_proxy", PStr "http://squid:3128")])]
           [] heap0
         = Outcome
             (Ok [("proxy", PDict [("http_proxy", PStr "http://squid:3128")])])
             [] heap0).
Proof. repeat split; try reflexivity. discriminate. Qed.

(** ** C6: the shape check of [apply_kexec] *)

(** C6 at the requests that are not mappings: line 317 calls [kexec.get]
    before line 320 tests [isinstance(kexec, dict)], so every request that
    is neither [None] nor a dict ends in an [AttributeError], before any
    call is made, and not in the [TypeError] of line 321. *)
Theorem apply_kexec_not_a_mapping world (kexec : pyval) target h σ :
  kexec <> PNone -> isinstance_dict kexec = false ->
  apply_kexec world kexec target h σ
  = Outcome (Raise (AttributeError "object has no attribute 'get'")) [] σ.
Proof.
  intros Hnone Hdict. unfold apply_kexec. cbv zeta.
  rewrite bind_Raise with (e := AttributeError "object has no attribute 'get'");
    by destruct kexec.
Qed.

Lemma apply_kexec_str_attribute_error :
  apply_kexec (fun _ _ => Ret RNone) (PStr "on") "/tmp/target" [] heap0
  = Outcome (Raise (AttributeError "object has no attribute 'get'")) [] heap0.
Proof. by apply apply_kexec_not_a_mapping. Defined.

(** The other half of C6 holds: a mapping whose mode is not ["on"], and
    [None], make [apply_kexec] return [False] without any call. *)
Lemma apply_kexec_off world (kexec : pyval) target h σ :
  match kexec with
  | PNone => True
  | PDict d => py_eq (dict_get_default d "mode" PNone) (PStr "on") = false
  | _ => False
  end ->
  apply_kexec world kexec target h σ = Outcome (Ok false) [] σ.
Proof.
  destruct kexec as [| | | | |d]; try done.
  intros Hmode. unfold apply_kexec. simpl. unfold bind. simpl.
  by rewrite Hmode.
Qed.

(** ** C8: power-state command synthesis *)

(** C8 at the delays that start like [+<digits>] but are not of that
    form: [re.match] anchors at the start only, so a plus sign and a digit
    with anything after them are taken for a number of minutes; ["+5abc"]
    comes out as ["5abcm"] instead of unchanged. *)
Theorem load_power_state_plus_prefix (d : dict) (opt : string)
    (c : ascii) (rest : string) :
  opt_map_lookup (dict_get_default d "mode" PNone) = Ok opt ->
  dict_get d "delay" = Some (PStr (String "+" (String c rest))) ->
  is_digit c = true ->
  load_power_state (PDict d)
  = Ok (Some ([PStr "sh"; PStr "-c"; PStr shcmd; PStr "curtin-poweroff";
               PStr (String c rest +:+ "m")]
              ++ [PStr "shutdown"; PStr opt; PStr "now"]
              ++ (if truthy (dict_get_default d "message" PNone)
                  then [dict_get_default d "message" PNone] else []))).
Proof.
  intros Hmode Hdelay Hc.
  assert (Hminutes : resolve_delay (PStr (String "+" (String c rest)))
                     = Ok (String c rest +:+ "m")).
  { unfold resolve_delay. simpl. by rewrite Hc. }
  unfold load_power_state. rewrite Hmode.
  unfold dict_get_default at 1. rewrite Hdelay. cbn [from_option id].
  by rewrite Hminutes.
Qed.

Lemma load_power_state_plus_prefix_witness :
  load_power_state (PDict [("mode", PStr "reboot"); ("delay", PStr "+5abc")])
  = Ok (Some [PStr "sh"; PStr "-c"; PStr shcmd; PStr "curtin-poweroff";
              PStr "5abcm"; PStr "shutdown"; PStr "-r"; PStr "now"]).
Proof.
  by apply (load_power_state_plus_prefix
              [("mode", PStr "reboot"); ("delay", PStr "+5abc")] "-r"
              "5" "abc").
Defined.

Lemma load_power_state_none : load_power_state PNone = Ok None.
Proof. reflexivity. Qed.

Lemma load_power_state_not_a_dict (pstate : pyval) :
  pstate ≠ PNone -> isinstance_dict pstate = false ->
  load_power_state pstate = Raise (TypeError "power_state is not a dict.").
Proof. by destruct pstate. Qed.

Lemma opt_map_lookup_Ok (mode : pyval) (opt : string) :
  opt_map_lookup mode = Ok opt ->
  exists s, mode = PStr s /\ s ∈ ["halt"; "poweroff"; "reboot"].
Proof.
  destruct mode as [| | |s| |]; try done. unfold opt_map_lookup.
  destruct ((list_to_map opt_map : gmap string string) !! s) as [o|] eqn:Hs;
    [|done].
  intros _. exists s. split; [done|].
  apply elem_of_list_to_map_2 in Hs.
  apply (list_elem_of_fmap_2 fst) in Hs. exact Hs.
Qed.

Lemma opt_map_lookup_Raise (mode : pyval) (e : exn) :
  opt_map_lookup mode = Raise e -> exists msg, e = TypeError msg.
Proof.
  destruct mode as [| | |s| |]; simpl; try (intros [= <-]; eauto).
  destruct (_ !! s); intros [= <-]; eauto.
Qed.

Lemma load_power_state_bad_mode (d : dict) :
  (forall s, dict_get d "mode" = Some (PStr s) ->
             s ∉ ["halt"; "poweroff"; "reboot"]) ->
  exists msg, load_power_state (PDict d) = Raise (TypeError msg).
Proof.
  intros Hmode. unfold load_power_state.
  destruct (opt_map_lookup _) as [opt|e] eqn:E.
  - apply opt_map_lookup_Ok in E as (s & Hs & Hin). exfalso.
    unfold dict_get_default in Hs.
    destruct (dict_get d "mode") as [v|] eqn:Hv; [|done].
    simpl in Hs. subst v. by eapply Hmode.
  - apply opt_map_lookup_Raise in E as [msg ->]. eauto.
Qed.

Lemma resolve_delay_now : resolve_delay (PStr "now") = Ok "0".
Proof. reflexivity. Qed.

Lemma resolve_delay_plus_digits (digits : string) :
  match digits with String c _ => is_digit c = true | _ => False end ->
  resolve_delay (PStr ("+" +:+ digits)) = Ok (digits +:+ "m").
Proof.
  destruct digits as [|c r]; [done|]. intros Hc.
  unfold resolve_delay. simpl.
  by rewrite Hc.
Qed.

Lemma resolve_delay_other (s : string) :
  s ≠ "now" -> match_plus_digits s = false ->
  resolve_delay (PStr s) = Ok s.
Proof.
  intros Hnow Hplus. unfold resolve_delay. simpl.
  rewrite (proj2 (String.eqb_neq s "now")) by done.
  by rewrite Hplus.
Qed.

(** ** C5 and C10: the default boot entry *)

Lemma directives_app target lines (a b : list nat) e0 :
  Grub.directives target lines (a ++ b) e0
  = result_bind (Grub.directives target lines a e0)
                (Grub.directives target lines b).
Proof.
  revert e0. induction a as [|i a IH]; intros e0; simpl; [done|].
  destruct (lines !! i) as [line|]; [|done].
  destruct (Grub.directive_step target line e0); [apply IH | done].
Qed.

(** What one turn does, by the words of the line. *)
Lemma directive_step_linux target line e0 e1 toks :
  Grub.directive_step target line e0 = Ok e1 ->
  "linux" ∈ py_split line ->
  Shlex.split line = Ok toks ->
  exists image,
    toks !! 1 = Some image
    /\ Grub.kernel e1 = path_join target image
    /\ Grub.append e1 = "--append=" +:+ String.concat " " (drop 2 toks).
Proof.
  intros Hstep Hlinux Htoks. unfold Grub.directive_step in Hstep.
  rewrite bool_decide_eq_true_2, Htoks in Hstep by done.
  destruct (toks !! 1) as [image|]; [|done].
  exists image. split; [done|].
  case_bool_decide; [|by simplify_eq].
  destruct (toks !! 1); by simplify_eq.
Qed.

Lemma directive_step_initrd target line e0 e1 toks :
  Grub.directive_step target line e0 = Ok e1 ->
  "initrd" ∈ py_split line ->
  Shlex.split line = Ok toks ->
  exists image,
    toks !! 1 = Some image
    /\ Grub.initrd e1 = "--initrd=" +:+ path_join target image.
Proof.
  intros Hstep Hinitrd Htoks. unfold Grub.directive_step in Hstep.
  rewrite (bool_decide_eq_true_2 ("initrd" ∈ _)), Htoks in Hstep by done.
  case_bool_decide.
  - destruct (toks !! 1) as [image|]; [|done]. simplify_eq. eauto.
  - destruct (toks !! 1) as [image|]; [|done]. simplify_eq. eauto.
Qed.

Lemma directive_step_no_linux target line e0 e1 :
  Grub.directive_step target line e0 = Ok e1 ->
  "linux" ∉ py_split line ->
  Grub.kernel e1 = Grub.kernel e0 /\ Grub.append e1 = Grub.append e0.
Proof.
  intros Hstep Hno. unfold Grub.directive_step in Hstep.
  rewrite bool_decide_eq_false_2 in Hstep by done.
  case_bool_decide; [|by simplify_eq].
  destruct (Shlex.split line) as [toks|]; [|done].
  destruct (toks !! 1); by simplify_eq.
Qed.

Lemma directive_step_no_initrd target line e0 e1 :
  Grub.directive_step target line e0 = Ok e1 ->
  "initrd" ∉ py_split line ->
  Grub.initrd e1 = Grub.initrd e0.
Proof.
  intros Hstep Hno. unfold Grub.directive_step in Hstep.
  rewrite (bool_decide_eq_false_2 ("initrd" ∈ _)) in Hstep by done.
  case_bool_decide; [|by simplify_eq].
  destruct (Shlex.split line) as [toks|]; [|done].
  destruct (toks !! 1); by simplify_eq.
Qed.

Lemma directives_no_linux target lines idx e0 e :
  Grub.directives target lines idx e0 = Ok e ->
  (forall j l, j ∈ idx -> lines !! j = Some l -> "linux" ∉ py_split l) ->
  Grub.kernel e = Grub.kernel e0 /\ Grub.append e = Grub.append e0.
Proof.
  revert e0. induction idx as [|i idx IH]; intros e0 Hrun Hno; simpl in Hrun.
  - by simplify_eq.
  - destruct (lines !! i) as [line|] eqn:Hi; [|done].
    destruct (Grub.directive_step target line e0) as [e1|] eqn:Hstep; [|done].
    apply directive_step_no_linux in Hstep as [<- <-];
      [|eapply Hno; [by left | done]].
    apply IH; [done|]. intros j l Hj. apply Hno. by right.
Qed.

Lemma directives_no_initrd target lines idx e0 e :
  Grub.directives target lines idx e0 = Ok e ->
  (forall j l, j ∈ idx -> lines !! j = Some l -> "initrd" ∉ py_split l) ->
  Grub.initrd e = Grub.initrd e0.
Proof.
  revert e0. induction idx as [|i idx IH]; intros e0 Hrun Hno; simpl in Hrun.
  - by simplify_eq.
  - destruct (lines !! i) as [line|] eqn:Hi; [|done].
    destruct (Grub.directive_step target line e0) as [e1|] eqn:Hstep; [|done].
    apply directive_step_no_initrd in Hstep as <-;
      [|eapply Hno; [by left | done]].
    apply IH; [done|]. intros j l Hj. apply Hno. by right.
Qed.

(** A range of indices around one of its members. *)
Lemma seq_split_at (begin stop i : nat) :
  begin <= i < stop ->
  seq begin (stop - begin)
  = seq begin (i - begin) ++ i :: seq (S i) (stop - S i).
Proof.
  intros Hi.
  replace (stop - begin) with ((i - begin) + S (stop - S i)) by lia.
  rewrite seq_app. simpl. by replace (begin + (i - begin)) with i by lia.
Qed.

(** The last line of a range that has a given directive decides. *)
Lemma directives_last target lines begin stop e0 e i l :
  Grub.directives target lines (seq begin (stop - begin)) e0 = Ok e ->
  begin <= i < stop -> lines !! i = Some l ->
  exists e1 e2,
    Grub.directive_step target l e1 = Ok e2
    /\ Grub.directives target lines (seq (S i) (stop - S i)) e2 = Ok e.
Proof.
  intros Hrun Hi Hl. rewrite (seq_split_at begin stop i) in Hrun by done.
  rewrite directives_app in Hrun.
  destruct (Grub.directives target lines (seq begin (i - begin)) e0)
    as [e1|]; [|done].
  simpl in Hrun. rewrite Hl in Hrun.
  destruct (Grub.directive_step target l e1) as [e2|] eqn:Hstep; [|done].
  eauto.
Qed.

(** [os.path.join(target, image)] for an image path that is relative:
    the path under the target. *)
Definition under_target (target image : string) : string :=
  if String.eqb target "" || ends_with_char "/" target
  then target +:+ image else target +:+ "/" +:+ image.

Lemma path_join_relative (target image : string) :
  strip_prefix "/" image = None ->
  path_join target image = under_target target image.
Proof.
  intros Hrel. unfold path_join, under_target. rewrite Hrel.
  by rewrite bool_decide_eq_false_2 by (by intros [? ?]).
Qed.

(** C5, as amended.  When the boot configuration resolves to an entry,
    the line range of the default entry starts after its marker line
    [menu_lines[default]] and ends before the next marker line, or at the
    end of the file when the marker is the last one.  In that range the
    last line with the word [linux] decides the kernel path and the
    arguments: the path is [os.path.join] of the target and the second
    shell word of the line, which for a relative image path is the path
    under the target root, and the arguments are the shell words after it,
    joined by single spaces.  The last line with the word [initrd] decides
    the initrd path in the same way. *)
Theorem resolve_default_entry target lines default menu_lines e :
  Grub.scan lines = (default, menu_lines) ->
  Grub.resolve target lines = Grub.Found e ->
  exists begin stop,
    Grub.index menu_lines default = Ok begin
    /\ Grub.entry_range lines default menu_lines = Ok (begin, stop)
    /\ (Some begin = last menu_lines -> stop = length lines)
    /\ (Some begin <> last menu_lines ->
          exists next, Grub.index menu_lines (default + 1) = Ok next
                       /\ stop = next - 1)
    /\ (forall i l toks,
          begin <= i < stop -> lines !! i = Some l ->
          "linux" ∈ py_split l ->
          (forall j l', i < j < stop -> lines !! j = Some l' ->
                        "linux" ∉ py_split l') ->
          Shlex.split l = Ok toks ->
          exists image,
            toks !! 1 = Some image
            /\ Grub.kernel e = path_join target image
            /\ (strip_prefix "/" image = None ->
                Grub.kernel e = under_target target image)
            /\ Grub.append e
               = "--append=" +:+ String.concat " " (drop 2 toks))
    /\ (forall i l toks,
          begin <= i < stop -> lines !! i = Some l ->
          "initrd" ∈ py_split l ->
          (forall j l', i < j < stop -> lines !! j = Some l' ->
                        "initrd" ∉ py_split l') ->
          Shlex.split l = Ok toks ->
          exists image,
            toks !! 1 = Some image
            /\ Grub.initrd e = "--initrd=" +:+ path_join target image
            /\ (strip_prefix "/" image = None ->
                Grub.initrd e
                = "--initrd=" +:+ under_target target image)).
Proof.
  intros Hscan Hres. unfold Grub.resolve in Hres. rewrite Hscan in Hres.
  destruct menu_lines as [|m menu_lines]; [done|].
  destruct (Grub.entry_range lines default (m :: menu_lines))
    as [[begin stop]|] eqn:Hrange; [|done].
  destruct (Grub.directives target lines (seq begin (stop - begin)) _)
    as [e'|] eqn:Hrun; [|done].
  destruct (String.eqb (Grub.kernel e') ""); [done|]. simplify_eq.
  exists begin, stop.
  assert (Hbegin : Grub.index (m :: menu_lines) default = Ok begin
            /\ (Some begin = last (m :: menu_lines) -> stop = length lines)
            /\ (Some begin <> last (m :: menu_lines) ->
                exists next,
                  Grub.index (m :: menu_lines) (default + 1) = Ok next
                  /\ stop = next - 1)).
  { unfold Grub.entry_range in Hrange.
    destruct (Grub.index (m :: menu_lines) default) as [b|]; [|done].
    case_bool_decide as Hlast.
    - destruct (Grub.index (m :: menu_lines) (default + 1)) as [next|];
        [|done].
      simplify_eq. split; [done|]. split; [done|]. intros _. by exists next.
    - simplify_eq. split; [done|]. split; [done|].
      intros Hne. by destruct Hne. }
  destruct Hbegin as (Hbegin & Hend & Hnext).
  split; [done|]. split; [done|]. split; [done|]. split; [done|]. split.
  - intros i l toks Hi Hl Hlinux Hlast Htoks.
    destruct (directives_last _ _ _ _ _ _ i l Hrun Hi Hl)
      as (e1 & e2 & Hstep & Hrest).
    destruct (directive_step_linux _ _ _ _ _ Hstep Hlinux Htoks)
      as (image & Himage & Hk & Ha).
    exists image. split; [done|].
    apply directives_no_linux in Hrest as [-> ->].
    2:{ intros j l' Hj. apply Hlast. apply elem_of_seq in Hj. lia. }
    split; [done|]. split; [|done].
    intros Hrel. by rewrite Hk, path_join_relative.
  - intros i l toks Hi Hl Hinitrd Hlast Htoks.
    destruct (directives_last _ _ _ _ _ _ i l Hrun Hi Hl)
      as (e1 & e2 & Hstep & Hrest).
    destruct (directive_step_initrd _ _ _ _ _ Hstep Hinitrd Htoks)
      as (image & Himage & Hi').
    exists image. split; [done|].
    apply directives_no_initrd in Hrest as ->.
    2:{ intros j l' Hj. apply Hlast. apply elem_of_seq in Hj. lia. }
    split; [done|]. intros Hrel. by rewrite Hi', path_join_relative.
Qed.

(** Sample boot configurations. *)
Definition nl : string := chr newline.

Definition two_entries (default_line : string) : list string :=
  [default_line +:+ nl;
   "menuentry 'first' {" +:+ nl;
   "  linux /boot/vmlinuz-a root=/dev/sda1 ro" +:+ nl;
   "  initrd /boot/initrd-a" +:+ nl;
   "}" +:+ nl;
   "menuentry 'second' {" +:+ nl;
   "  linux /boot/vmlinuz-b root=/dev/sdb1   ro quiet" +:+ nl;
   "  initrd boot/initrd-b" +:+ nl;
   "}" +:+ nl].

Definition two_kernels : list string :=
  ["menuentry 'only' {" +:+ nl;
   "  linux /boot/vmlinuz-old root=/dev/sda1" +:+ nl;
   "  linux /boot/vmlinuz-new root=/dev/sda2" +:+ nl;
   "  initrd /boot/initrd-old" +:+ nl;
   "  initrd /boot/initrd-new" +:+ nl;
   "}" +:+ nl].

(** The assignment as grub writes it, and one the scan recognises: a word
    character has to follow the closing quote. *)
Definition set_default_1 : string :=
  "set default=" +:+ chr dquote +:+ "1" +:+ chr dquote.
Definition set_default_1x : string := set_default_1 +:+ "x".

(** An entry whose image paths are relative and whose arguments are
    separated by several blanks and quoted. *)
Definition relative_images : list string :=
  ["menuentry 'only' {" +:+ nl;
   "  linux boot/vmlinuz root=/dev/sda1   ro 'console=ttyS0 quiet'" +:+ nl;
   "  initrd boot/initrd.img" +:+ nl;
   "}" +:+ nl].

Lemma resolve_default_entry_witness :
  Grub.scan relative_images = (0%N, [1])
  /\ Grub.resolve "/tmp/target" relative_images
     = Grub.Found {| Grub.kernel := "/tmp/target/boot/vmlinuz";
                     Grub.append
                       := "--append=root=/dev/sda1 ro console=ttyS0 quiet";
                     Grub.initrd := "--initrd=/tmp/target/boot/initrd.img" |}
  /\ exists begin stop,
       Grub.entry_range relative_images 0 [1] = Ok (begin, stop)
       /\ stop = length relative_images.
Proof.
  split; [reflexivity|]. split; [reflexivity|].
  destruct (resolve_default_entry "/tmp/target" relative_images
              0 [1] _ eq_refl eq_refl)
    as (begin & stop & Hbegin & Hrange & Hend & _).
  exists begin, stop. split; [assumption|].
  apply Hend. vm_compute in Hbegin. by injection Hbegin as <-.
Defined.

(** C5 as stated fails.  Where the entry has two [linux] and two [initrd]
    lines, the last of each decides, not the first.  The arguments are not
    everything after the image path: they are the shell words after it,
    joined by single spaces, so runs of blanks and quotes are gone.  And
    with two [menuentry] blocks and the line [set default="1"] as grub
    writes it, the first block is resolved, not the second. *)
Lemma resolve_first_directive_counterexample :
  Grub.resolve "/tmp/target" two_kernels
  = Grub.Found {| Grub.kernel := "/boot/vmlinuz-new";
                  Grub.append := "--append=root=/dev/sda2";
                  Grub.initrd := "--initrd=/boot/initrd-new" |}
  /\ Grub.resolve "/tmp/target" relative_images
     = Grub.Found {| Grub.kernel := "/tmp/target/boot/vmlinuz";
                     Grub.append
                       := "--append=root=/dev/sda1 ro console=ttyS0 quiet";
                     Grub.initrd := "--initrd=/tmp/target/boot/initrd.img" |}
  /\ Grub.scan (two_entries set_default_1) = (0%N, [2; 6])
  /\ Grub.resolve "/tmp/target" (two_entries set_default_1)
     = Grub.Found {| Grub.kernel := "/boot/vmlinuz-a";
                     Grub.append := "--append=root=/dev/sda1 ro";
                     Grub.initrd := "--initrd=/boot/initrd-a" |}.
Proof. repeat split; reflexivity. Qed.

(** ** Running a computation step by step *)

(** [prepend evs o]: the events [evs] happened before those of [o]. *)
Definition prepend {A} (evs : list event) (o : outcome A) : outcome A :=
  Outcome (res o) (evs ++ emitted o) (final o).

(** What [bind] does with the outcome of its first part. *)
Definition obind {A B} (o : outcome A) (k : A -> M B) (h : list event)
    : outcome B :=
  match res o with
  | Raise e => Outcome (Raise e) (emitted o) (final o)
  | Ok a => prepend (emitted o) (k a (h ++ emitted o) (final o))
  end.

Definition oattempt {A} (o : outcome A) : outcome (result A) :=
  Outcome (Ok (res o)) (emitted o) (final o).

Lemma bind_obind {A B} (m : M A) (k : A -> M B) h σ :
  bind m k h σ = obind (m h σ) k h.
Proof. reflexivity. Qed.

Lemma attempt_oattempt {A} (m : M A) h σ : attempt m h σ = oattempt (m h σ).
Proof. reflexivity. Qed.

Lemma prepend_nil {A} (o : outcome A) : prepend [] o = o.
Proof. by destruct o. Qed.

Lemma prepend_Outcome {A} evs (r : result A) evs' σ :
  prepend evs (Outcome r evs' σ) = Outcome r (evs ++ evs') σ.
Proof. reflexivity. Qed.

Lemma prepend_prepend {A} evs evs' (o : outcome A) :
  prepend evs (prepend evs' o) = prepend (evs ++ evs') o.
Proof. unfold prepend. simpl. by rewrite app_assoc. Qed.

Lemma obind_Ok {A B} (a : A) evs σ (k : A -> M B) h :
  obind (Outcome (Ok a) evs σ) k h = prepend evs (k a (h ++ evs) σ).
Proof. reflexivity. Qed.

Lemma obind_Raise {A B} e evs σ (k : A -> M B) h :
  obind (Outcome (Raise e) evs σ) k h = Outcome (Raise e) evs σ.
Proof. reflexivity. Qed.

Lemma obind_prepend {A B} evs (o : outcome A) (k : A -> M B) h :
  obind (prepend evs o) k h = prepend evs (obind o k (h ++ evs)).
Proof.
  unfold obind, prepend. simpl. destruct (res o); simpl; [|done].
  by rewrite !app_assoc.
Qed.

Lemma oattempt_Outcome {A} (r : result A) evs σ :
  oattempt (Outcome r evs σ) = Outcome (Ok r) evs σ.
Proof. reflexivity. Qed.

Lemma oattempt_prepend {A} evs (o : outcome A) :
  oattempt (prepend evs o) = prepend evs (oattempt o).
Proof. reflexivity. Qed.

Lemma res_prepend {A} evs (o : outcome A) : res (prepend evs o) = res o.
Proof. reflexivity. Qed.

Lemma emitted_Outcome {A} (r : result A) evs σ :
  emitted (Outcome r evs σ) = evs.
Proof. reflexivity. Qed.

Lemma res_Outcome {A} (r : result A) evs σ : res (Outcome r evs σ) = r.
Proof. reflexivity. Qed.

Lemma emitted_prepend {A} evs (o : outcome A) :
  emitted (prepend evs o) = evs ++ emitted o.
Proof. reflexivity. Qed.

Lemma final_prepend {A} evs (o : outcome A) : final (prepend evs o) = final o.
Proof. reflexivity. Qed.

Lemma run_ret {A} (a : A) h σ : ret a h σ = Outcome (Ok a) [] σ.
Proof. reflexivity. Qed.

Lemma run_raise {A} e h σ : @raise A e h σ = Outcome (Raise e) [] σ.
Proof. reflexivity. Qed.

Lemma run_emit c h σ : emit c h σ = Outcome (Ok tt) [(c, Ret RNone)] σ.
Proof. reflexivity. Qed.

Lemma run_LOG lvl msg h σ :
  LOG lvl msg h σ = Outcome (Ok tt) [(Log lvl msg, Ret RNone)] σ.
Proof. reflexivity. Qed.

Lemma run_get_cfg h σ : get_cfg h σ = Outcome (Ok (h_cfg σ)) [] σ.
Proof. reflexivity. Qed.

Lemma run_get_environ h σ :
  get_environ h σ = Outcome (Ok (h_environ σ)) [] σ.
Proof. reflexivity. Qed.

Lemma run_set_cfg c h σ :
  set_cfg c h σ
  = Outcome (Ok tt) [] {| h_cfg := c; h_environ := h_environ σ |}.
Proof. reflexivity. Qed.

Lemma run_of_result {A} (r : result A) h σ : of_result r h σ = Outcome r [] σ.
Proof. by destruct r. Qed.

Lemma run_ext_Ret world c v h σ :
  world h c = Ret v -> ext world c h σ = Outcome (Ok v) [(c, Ret v)] σ.
Proof. intros H. unfold ext. by rewrite H. Qed.

Lemma run_ext_Exc world c e h σ :
  world h c = Exc e -> ext world c h σ = Outcome (Raise e) [(c, Exc e)] σ.
Proof. intros H. unfold ext. by rewrite H. Qed.

Lemma run_ext_unit_Ret world c v h σ :
  world h c = Ret v -> ext_unit world c h σ = Outcome (Ok tt) [(c, Ret v)] σ.
Proof. intros H. unfold ext_unit, bind, ext. by rewrite H. Qed.

Lemma run_ext_unit_Exc world c e h σ :
  world h c = Exc e ->
  ext_unit world c h σ = Outcome (Raise e) [(c, Exc e)] σ.
Proof. intros H. unfold ext_unit, bind, ext. by rewrite H. Qed.

Lemma run_ext_bool_Ret world c v h σ :
  world h c = Ret v ->
  ext_bool world c h σ = Outcome (Ok (as_bool v)) [(c, Ret v)] σ.
Proof. intros H. unfold ext_bool, bind, ext. by rewrite H. Qed.

Lemma run_ext_bool_Exc world c e h σ :
  world h c = Exc e ->
  ext_bool world c h σ = Outcome (Raise e) [(c, Exc e)] σ.
Proof. intros H. unfold ext_bool, bind, ext. by rewrite H. Qed.

Lemma run_ext_str_Ret world c v h σ :
  world h c = Ret v ->
  ext_str world c h σ = Outcome (Ok (as_str v)) [(c, Ret v)] σ.
Proof. intros H. unfold ext_str, bind, ext. by rewrite H. Qed.

Lemma run_ext_str_Exc world c e h σ :
  world h c = Exc e ->
  ext_str world c h σ = Outcome (Raise e) [(c, Exc e)] σ.
Proof. intros H. unfold ext_str, bind, ext. by rewrite H. Qed.

Lemma obind_oattempt {A B} (o : outcome A) (k : result A -> M B) h :
  obind (oattempt o) k h
  = prepend (emitted o) (k (res o) (h ++ emitted o) (final o)).
Proof. reflexivity. Qed.

Lemma obind_cases {A B} (o : outcome A) (k : A -> M B) h :
  (exists a, res o = Ok a
     /\ obind o k h = prepend (emitted o) (k a (h ++ emitted o) (final o)))
  \/ (exists e, res o = Raise e
        /\ obind o k h = Outcome (Raise e) (emitted o) (final o)).
Proof. unfold obind. destruct (res o); eauto. Qed.

Global Opaque prepend obind oattempt.

(** Runs the pieces of a computation that do not ask the world. *)
Ltac run_pure :=
  repeat match goal with
    | |- context [bind ?m ?k ?h ?σ] => rewrite (bind_obind m k h σ)
    | |- context [attempt ?m ?h ?σ] => rewrite (attempt_oattempt m h σ)
    | |- context [@ret ?A ?a ?h ?σ] => rewrite (@run_ret A a h σ)
    | |- context [@raise ?A ?e ?h ?σ] => rewrite (@run_raise A e h σ)
    | |- context [emit ?c ?h ?σ] => rewrite (run_emit c h σ)
    | |- context [LOG ?l ?m ?h ?σ] => rewrite (run_LOG l m h σ)
    | |- context [get_cfg ?h ?σ] => rewrite (run_get_cfg h σ)
    | |- context [get_environ ?h ?σ] => rewrite (run_get_environ h σ)
    | |- context [set_cfg ?c ?h ?σ] => rewrite (run_set_cfg c h σ)
    | |- context [of_result ?r ?h ?σ] => rewrite (run_of_result r h σ)
    | |- context [obind (Outcome (Ok ?a) ?evs ?σ) ?k ?h] =>
        rewrite (obind_Ok a evs σ k h)
    | |- context [obind (Outcome (Raise ?e) ?evs ?σ) ?k ?h] =>
        rewrite (obind_Raise e evs σ k h)
    | |- context [obind (prepend ?evs ?o) ?k ?h] =>
        rewrite (obind_prepend evs o k h)
    | |- context [oattempt (Outcome ?r ?evs ?σ)] =>
        rewrite (oattempt_Outcome r evs σ)
    | |- context [oattempt (prepend ?evs ?o)] =>
        rewrite (oattempt_prepend evs o)
    | |- context [prepend ?evs (Outcome ?r ?evs' ?σ)] =>
        rewrite (prepend_Outcome evs r evs' σ)
    | |- context [prepend ?evs (prepend ?evs' ?o)] =>
        rewrite (prepend_prepend evs evs' o)
    | |- context [prepend [] ?o] => rewrite (prepend_nil o)
    | |- context [?l ++ []] => rewrite (app_nil_r l)
    | _ => progress cbn [negb isinstance_dict]
    end.

(** Case analysis on the answer of the world to the next call. *)
Ltac ask_world :=
  match goal with
  | |- context [ext ?w ?c ?h ?σ] =>
      let E := fresh "Hworld" in
      destruct (w h c) as [?v|?e] eqn:E;
      [rewrite (run_ext_Ret w c _ h σ E) | rewrite (run_ext_Exc w c _ h σ E)]
  | |- context [ext_unit ?w ?c ?h ?σ] =>
      let E := fresh "Hworld" in
      destruct (w h c) as [?v|?e] eqn:E;
      [rewrite (run_ext_unit_Ret w c _ h σ E)
      |rewrite (run_ext_unit_Exc w c _ h σ E)]
  | |- context [ext_bool ?w ?c ?h ?σ] =>
      let E := fresh "Hworld" in
      destruct (w h c) as [?v|?e] eqn:E;
      [rewrite (run_ext_bool_Ret w c _ h σ E)
      |rewrite (run_ext_bool_Exc w c _ h σ E)]
  | |- context [ext_str ?w ?c ?h ?σ] =>
      let E := fresh "Hworld" in
      destruct (w h c) as [?v|?e] eqn:E;
      [rewrite (run_ext_str_Ret w c _ h σ E)
      |rewrite (run_ext_str_Exc w c _ h σ E)]
  end.

(** The ways an event can be in a trace given piece by piece. *)
Ltac trace_cases H :=
  cbn [emitted app] in H;
  repeat match type of H with
         | _ ∈ _ ++ _ => apply elem_of_app in H as [H|H]
         | _ ∈ _ :: _ => apply elem_of_cons in H as [H|H]
         | _ ∈ [] => apply elem_of_nil in H; destruct H
         end.

Ltac not_in_trace H := trace_cases H; first [done | by simplify_eq].

Lemma resolve_out_of_range target lines default menu_lines :
  Grub.scan lines = (default, menu_lines) ->
  menu_lines ≠ [] ->
  (N.of_nat (length menu_lines) <= default)%N ->
  Grub.resolve target lines
  = Grub.Failed (IndexError "list index out of range").
Proof.
  intros Hscan Hne Hle. unfold Grub.resolve. rewrite Hscan.
  destruct menu_lines as [|m menu_lines]; [done|].
  unfold Grub.entry_range, Grub.index.
  by rewrite (proj2 (N.ltb_ge _ _) Hle).
Qed.

Lemma resolve_no_menuentry target lines default :
  Grub.scan lines = (default, []) ->
  Grub.resolve target lines = Grub.NoMenuentry.
Proof. intros Hscan. unfold Grub.resolve. by rewrite Hscan. Qed.

(** Once the boot configuration has been read: when the default index the
    scan arrives at is not below the number of [menuentry] lines,
    selecting [menu_lines[default]] ends [apply_kexec] in an [IndexError]
    that nothing handles, unless there is no [menuentry] line at all, in
    which case an error is logged and [False] returned.  (The scan arrives
    at an index only from a line in which a word character follows the
    closing quote of the number.) *)
Theorem apply_kexec_default_out_of_range
    world (kexec : dict) target lines default menu_lines h σ :
  (ReadLines (path_join target "boot/grub/grub.cfg"), Ret (RLines lines))
    ∈ emitted (apply_kexec world (PDict kexec) target h σ) ->
  Grub.scan lines = (default, menu_lines) ->
  (N.of_nat (length menu_lines) <= default)%N ->
  match menu_lines with
  | [] =>
      res (apply_kexec world (PDict kexec) target h σ) = Ok false
      /\ last (emitted (apply_kexec world (PDict kexec) target h σ))
         = Some (Log ERROR ("grub config file does not have a menuentry"
                            +:+ chr newline), Ret RNone)
  | _ :: _ =>
      res (apply_kexec world (PDict kexec) target h σ)
      = Raise (IndexError "list index out of range")
  end.
Proof.
  intros Hread Hscan Hle.
  assert (Hresolve : Grub.resolve target lines
            = match menu_lines with
              | [] => Grub.NoMenuentry
              | _ => Grub.Failed (IndexError "list index out of range")
              end).
  { destruct menu_lines; [by eapply resolve_no_menuentry|].
    by eapply resolve_out_of_range. }
  revert Hread. unfold apply_kexec. run_pure.
  destruct (py_eq _ _); run_pure; [|intros Hread; not_in_trace Hread].
  ask_world; run_pure; [|intros Hread; not_in_trace Hread].
  assert (Hcont : forall h' evs,
    (ReadLines (path_join target "boot/grub/grub.cfg"), Ret (RLines lines))
      ∉ evs ->
    let o := prepend evs
      (obind (ext_bool world (IsFile (path_join target "boot/grub/grub.cfg"))
                h' σ)
         (fun isfile =>
            if negb isfile then
              raise (ValueError ("boot/grub/grub.cfg"
                                 +:+ " does not exist in target"))
            else
              let* lines := let* v := ext world
                              (ReadLines (path_join target "boot/grub/grub.cfg"))
                            in ret (as_lines v) in
              match Grub.resolve target lines with
              | Grub.NoMenuentry =>
                  LOG ERROR ("grub config file does not have a menuentry"
                             +:+ chr newline) >> ret false
              | Grub.Failed e => raise e
              | Grub.NoKernel =>
                  LOG ERROR ("grub config file does not have a kernel"
                             +:+ chr newline) >> ret false
              | Grub.Found e =>
                  LOG DEBUG ("kexec -l " +:+ Grub.kernel e +:+ " "
                             +:+ Grub.append e +:+ " " +:+ Grub.initrd e) >>
                  ext_unit world
                    (Subp [PStr "kexec"; PStr "-l"; PStr (Grub.kernel e);
                           PStr (Grub.append e); PStr (Grub.initrd e)]) >>
                  ret true
              end) h') in
    (ReadLines (path_join target "boot/grub/grub.cfg"), Ret (RLines lines))
      ∈ emitted o ->
    match menu_lines with
    | [] => res o = Ok false
            /\ last (emitted o)
               = Some (Log ERROR ("grub config file does not have a menuentry"
                                  +:+ chr newline), Ret RNone)
    | _ :: _ => res o = Raise (IndexError "list index out of range")
    end).
  { intros h' evs Hevs. cbv zeta.
    ask_world; run_pure.
    2:{ intros Hread. not_in_trace Hread. }
    destruct (as_bool v0); run_pure.
    2:{ intros Hread. not_in_trace Hread. }
    ask_world; run_pure.
    2:{ intros Hread. not_in_trace Hread. }
    intros Hread.
    assert (v1 = RLines lines) as ->.
    { destruct (Grub.resolve target (as_lines v1)); revert Hread; run_pure;
        try ask_world; run_pure; intros Hread; trace_cases Hread;
        first [done | by simplify_eq]. }
    cbn [as_lines]. rewrite Hresolve.
    destruct menu_lines; run_pure; simpl; [|done].
    split; [done|]. by rewrite last_snoc. }
  destruct (retval_truthy v); run_pure.
  - intros Hread. apply (Hcont _ [(Which "kexec", Ret v)]); [|done].
    intros Hin. not_in_trace Hin.
  - ask_world; run_pure.
    + intros Hread.
      apply (Hcont _ [(Which "kexec", Ret v);
                      (InstallPackages "kexec-tools", Ret v0)]); [|done].
      intros Hin. not_in_trace Hin.
    + intros Hread. not_in_trace Hread.
Qed.

(** A world in which every call succeeds; the boot configuration reads as
    [lines] and a child process prints [ok] and exits with [rc]. *)
Definition calm_world (lines : list string) (rc : Z)
    : list event -> call -> reply :=
  fun _ c =>
    match c with
    | Which _ => Ret (RStr "/sbin/kexec")
    | IsFile _ => Ret (RBool true)
    | ReadLines _ => Ret (RLines lines)
    | Mkdtemp => Ret (RStr "/tmp/tmpx")
    | Listdir _ => Ret (RLines [])
    | LoadFile _ => Ret (RStr "log")
    | Popen _ _ _ => Ret (RProc {| reads := ["o"; "k"]; returncode := rc |})
    | Fork => Ret (RInt 1)
    | _ => Ret RNone
    end.

(** One entry, and an assignment of the default 5 that the scan recognises
    (a word character follows the closing quote). *)
Definition one_entry_default_5 : list string :=
  ["set default=" +:+ chr dquote +:+ "5" +:+ chr dquote +:+ "x" +:+ nl;
   "menuentry 'only' {" +:+ nl;
   "  linux /boot/vmlinuz root=/dev/sda1" +:+ nl;
   "}" +:+ nl].

Lemma apply_kexec_default_out_of_range_witness :
  res (apply_kexec (calm_world one_entry_default_5 0)
         (PDict [("mode", PStr "on")]) "/tmp/target" [] heap0)
  = Raise (IndexError "list index out of range").
Proof.
  apply (apply_kexec_default_out_of_range
           (calm_world one_entry_default_5 0) [("mode", PStr "on")]
           "/tmp/target" one_entry_default_5 5 [2] [] heap0).
  - vm_compute. repeat constructor.
  - reflexivity.
  - vm_compute. discriminate.
Defined.

(** ** C4: the placeholder state files *)

(** [placeholder tr path]: in the trace [tr] the file [path] was opened in
    append mode, which creates it when it is missing, and nothing was
    written to it. *)
Definition placeholder (tr : list event) (path : string) : Prop :=
  (exists v, (Open path "ab", Ret v) ∈ tr)
  /\ (forall data r, (Write path data, r) ∉ tr).

(** The paths a call names. *)
Definition call_paths (c : call) : list string :=
  match c with
  | EnsureDir p | Open p _ | Write p _ | JsonDump p _ | Mkdir p | Listdir p
  | IsFile p | LoadFile p | WriteFile p _ _ _ | ReadLines p | Rmtree p => [p]
  | _ => []
  end.

(** The files a call opens, writes or creates. *)
Definition written_paths (c : call) : list string :=
  match c with
  | Open p _ | Write p _ | JsonDump p _ | WriteFile p _ _ _ => [p]
  | _ => []
  end.

(** Two relative names under one directory are different paths. *)
Lemma path_join_inj (a b b' : string) :
  strip_prefix "/" b = None -> strip_prefix "/" b' = None ->
  path_join a b = path_join a b' -> b = b'.
Proof.
  intros Hb Hb'. unfold path_join. rewrite Hb, Hb'.
  rewrite !bool_decide_eq_false_2 by (by intros [? ?]).
  destruct (String.eqb a "" || ends_with_char "/" a).
  - apply (inj (String.app a)).
  - intros H%(inj (String.app a)). by apply (inj (String.app "/")) in H.
Qed.

(** C4: what the code does.  When [WorkingDir] has been created, the
    state files for fstab, network config and network state (and the
    configuration snapshot) are placeholders under the state directory of
    the private root: each was opened in append mode and not written to.
    The interfaces file is left out of that loop: its path is computed
    under the same directory, kept in the object and handed to the stage
    commands as [OUTPUT_INTERFACES], but no call of the creation opens,
    writes or creates a file of that path. *)
Theorem WorkingDir_init_interfaces_missing
    world format_exception (config : dict) h σ wd :
  res (WorkingDir_init world format_exception config h σ) = Ok wd ->
  let tr := emitted (WorkingDir_init world format_exception config h σ) in
  let state_d := path_join (wd_top wd) "state" in
  (wd_fstab wd = path_join state_d "fstab"
   /\ placeholder tr (wd_fstab wd))
  /\ (wd_netconf wd = path_join state_d "network_config"
      /\ placeholder tr (wd_netconf wd))
  /\ (wd_netstate wd = path_join state_d "network_state"
      /\ placeholder tr (wd_netstate wd))
  /\ (wd_config_file wd = path_join state_d "config"
      /\ exists v, (Open (wd_config_file wd) "ab", Ret v) ∈ tr)
  /\ wd_interfaces wd = path_join state_d "interfaces"
  /\ ("OUTPUT_INTERFACES", wd_interfaces wd) ∈ WorkingDir_env wd
  /\ Forall (fun ev => wd_interfaces wd ∉ written_paths ev.1) tr
  /\ ~ placeholder tr (wd_interfaces wd).
Proof.
  cbv zeta. unfold WorkingDir_init.
  assert (Hraise : forall e evs σ',
             res (Outcome (A:=WorkingDir) (Raise e) evs σ') = Ok wd -> False)
    by done.
  run_pure. ask_world; run_pure; [|intros []%Hraise].
  cbn [for_each]. run_pure.
  ask_world; run_pure; [|intros []%Hraise].
  ask_world; run_pure; [|intros []%Hraise].
  destruct (dict_get_default config "install" (PDict []));
    run_pure; try (intros []%Hraise).
  set (target_d := if negb (truthy _) then _ else _).
  destruct target_d as [| | |target| |]; run_pure; try (intros []%Hraise).
  unfold try_except_OSError. run_pure.
  set (state_d := path_join (as_str v) "state").
  assert (Hrest : forall h' evs,
    (forall ev, ev ∈ evs -> written_paths ev.1 = []) ->
    let o := prepend evs
      (obind (obind (ext world (Listdir target) h' σ)
                    (fun v => ret (as_lines v)) h')
         (fun entries =>
            if negb (bool_decide (entries = [])) then
              raise (ValueError ("Provided target dir '" +:+ target
                                 +:+ "' was not empty."))
            else
              ext_unit world (Open (path_join state_d "config") "w") >>
              ext_unit world (JsonDump (path_join state_d "config")
                                (PDict config)) >>
              for_each [path_join state_d "config";
                        path_join state_d "fstab";
                        path_join state_d "network_config";
                        path_join state_d "network_state"]
                (fun f => ext_unit world (Open f "ab")) >>
              ret {| wd_scratch := path_join (as_str v) "scratch";
                     wd_target := target;
                     wd_top := as_str v;
                     wd_interfaces := path_join state_d "interfaces";
                     wd_netconf := path_join state_d "network_config";
                     wd_netstate := path_join state_d "network_state";
                     wd_fstab := path_join state_d "fstab";
                     wd_config := config;
                     wd_config_file := path_join state_d "config" |}) h') in
    res o = Ok wd ->
    (wd_fstab wd = path_join (path_join (wd_top wd) "state") "fstab"
     /\ placeholder (emitted o) (wd_fstab wd))
    /\ (wd_netconf wd
        = path_join (path_join (wd_top wd) "state") "network_config"
        /\ placeholder (emitted o) (wd_netconf wd))
    /\ (wd_netstate wd
        = path_join (path_join (wd_top wd) "state") "network_state"
        /\ placeholder (emitted o) (wd_netstate wd))
    /\ (wd_config_file wd = path_join (path_join (wd_top wd) "state") "config"
        /\ exists v, (Open (wd_config_file wd) "ab", Ret v) ∈ emitted o)
    /\ wd_interfaces wd
       = path_join (path_join (wd_top wd) "state") "interfaces"
    /\ ("OUTPUT_INTERFACES", wd_interfaces wd) ∈ WorkingDir_env wd
    /\ Forall (fun ev => wd_interfaces wd ∉ written_paths ev.1) (emitted o)
    /\ ~ placeholder (emitted o) (wd_interfaces wd)).
  { intros h' evs Hevs. cbv zeta.
    ask_world; run_pure; [|intros []%Hraise].
    destruct (bool_decide _); run_pure; [|intros []%Hraise].
    ask_world; run_pure; [|intros []%Hraise].
    ask_world; run_pure; [|intros []%Hraise].
    cbn [for_each]. run_pure.
    ask_world; run_pure; [|intros []%Hraise].
    ask_world; run_pure; [|intros []%Hraise].
    ask_world; run_pure; [|intros []%Hraise].
    ask_world; run_pure; [|intros []%Hraise].
    cbn [res emitted]. intros [= <-]. cbn [wd_fstab wd_netconf wd_netstate
      wd_config_file wd_interfaces wd_top]. fold state_d.
    match goal with
    | |- context [placeholder ?t _] => set (tr := t)
    end.
    assert (Hnowrite : forall p data r, (Write p data, r) ∉ tr).
    { intros p data r Hin. unfold tr in Hin.
      trace_cases Hin; try by simplify_eq.
      by pose proof (Hevs _ Hin). }
    assert (Hother : forall name,
              name <> "interfaces" -> strip_prefix "/" name = None ->
              path_join state_d "interfaces" <> path_join state_d name).
    { intros name Hne Hrel Heq. apply path_join_inj in Heq; done. }
    assert (Hmissing : Forall (fun ev => path_join state_d "interfaces"
                                         ∉ written_paths ev.1) tr).
    { apply Forall_forall. intros ev Hin Hp. unfold tr in Hin.
      trace_cases Hin; try subst ev; cbn [fst written_paths] in Hp.
      - rewrite (Hevs _ Hin) in Hp. by apply elem_of_nil in Hp.
      - by apply elem_of_nil in Hp.
      - apply list_elem_of_singleton in Hp. by eapply Hother in Hp.
      - apply list_elem_of_singleton in Hp. by eapply Hother in Hp.
      - apply list_elem_of_singleton in Hp. by eapply Hother in Hp.
      - apply list_elem_of_singleton in Hp. by eapply Hother in Hp.
      - apply list_elem_of_singleton in Hp. by eapply Hother in Hp.
      - apply list_elem_of_singleton in Hp. by eapply Hother in Hp. }
    assert (Hnot : ~ placeholder tr (path_join state_d "interfaces")).
    { intros [[w Hin] _]. rewrite Forall_forall in Hmissing.
      apply (Hmissing _ Hin). apply list_elem_of_here. }
    unfold placeholder.
    repeat split; try done; try (intros data r; apply Hnowrite).
    - exists v6. unfold tr. set_solver.
    - exists v7. unfold tr. set_solver.
    - exists v8. unfold tr. set_solver.
    - exists v5. unfold tr. set_solver.
    - unfold WorkingDir_env. cbn [wd_interfaces]. set_solver. }
  ask_world; run_pure.
  - apply Hrest. intros ev Hev. trace_cases Hev; by subst ev.
  - destruct (is_OSError e); run_pure; intros []%Hraise.
Qed.

Definition no_text : exn -> string := fun _ => "".

Definition sample_workingd : WorkingDir :=
  {| wd_scratch := "/tmp/tmpx/scratch";
     wd_target := "/tmp/tmpx/target";
     wd_top := "/tmp/tmpx";
     wd_interfaces := "/tmp/tmpx/state/interfaces";
     wd_netconf := "/tmp/tmpx/state/network_config";
     wd_netstate := "/tmp/tmpx/state/network_state";
     wd_fstab := "/tmp/tmpx/state/fstab";
     wd_config := [];
     wd_config_file := "/tmp/tmpx/state/config" |}.

Lemma WorkingDir_init_interfaces_missing_witness :
  res (WorkingDir_init (calm_world [] 0) no_text [] [] heap0)
  = Ok sample_workingd
  /\ placeholder
       (emitted (WorkingDir_init (calm_world [] 0) no_text [] [] heap0))
       "/tmp/tmpx/state/fstab"
  /\ ("OUTPUT_INTERFACES", "/tmp/tmpx/state/interfaces")
       ∈ WorkingDir_env sample_workingd
  /\ ~ placeholder
         (emitted (WorkingDir_init (calm_world [] 0) no_text [] [] heap0))
         "/tmp/tmpx/state/interfaces".
Proof.
  split; [reflexivity|].
  pose proof (WorkingDir_init_interfaces_missing (calm_world [] 0) no_text []
                [] heap0 sample_workingd eq_refl) as H.
  cbv zeta in H. destruct H as ([_ Hfstab] & _ & _ & _ & _ & Henv & _ & Hnot).
  split; [exact Hfstab|]. split; [exact Henv | exact Hnot].
Defined.

(** The creation of [WorkingDir] in a world where every call succeeds: the
    trace is the one shown; the interfaces path is computed, but no call
    names it, so the file is not created. *)
Lemma WorkingDir_init_interfaces_not_touched :
  WorkingDir_init (calm_world [] 0) no_text [] [] heap0
  = Outcome (Ok sample_workingd)
      [(Mkdtemp, Ret (RStr "/tmp/tmpx"));
       (Mkdir "/tmp/tmpx/state", Ret RNone);
       (Mkdir "/tmp/tmpx/scratch", Ret RNone);
       (EnsureDir "/tmp/tmpx/target", Ret RNone);
       (Listdir "/tmp/tmpx/target", Ret (RLines []));
       (Open "/tmp/tmpx/state/config" "w", Ret RNone);
       (JsonDump "/tmp/tmpx/state/config" (PDict []), Ret RNone);
       (Open "/tmp/tmpx/state/config" "ab", Ret RNone);
       (Open "/tmp/tmpx/state/fstab" "ab", Ret RNone);
       (Open "/tmp/tmpx/state/network_config" "ab", Ret RNone);
       (Open "/tmp/tmpx/state/network_state" "ab", Ret RNone)]
      heap0
  /\ Forall (fun ev => wd_interfaces sample_workingd ∉ call_paths ev.1)
       (emitted (WorkingDir_init (calm_world [] 0) no_text [] [] heap0))
  /\ ~ placeholder
         (emitted (WorkingDir_init (calm_world [] 0) no_text [] [] heap0))
         (wd_interfaces sample_workingd).
Proof.
  assert (Hrun : WorkingDir_init (calm_world [] 0) no_text [] [] heap0
            = Outcome (Ok sample_workingd)
                [(Mkdtemp, Ret (RStr "/tmp/tmpx"));
                 (Mkdir "/tmp/tmpx/state", Ret RNone);
                 (Mkdir "/tmp/tmpx/scratch", Ret RNone);
                 (EnsureDir "/tmp/tmpx/target", Ret RNone);
                 (Listdir "/tmp/tmpx/target", Ret (RLines []));
                 (Open "/tmp/tmpx/state/config" "w", Ret RNone);
                 (JsonDump "/tmp/tmpx/state/config" (PDict []), Ret RNone);
                 (Open "/tmp/tmpx/state/config" "ab", Ret RNone);
                 (Open "/tmp/tmpx/state/fstab" "ab", Ret RNone);
                 (Open "/tmp/tmpx/state/network_config" "ab", Ret RNone);
                 (Open "/tmp/tmpx/state/network_state" "ab", Ret RNone)]
                heap0) by reflexivity.
  rewrite Hrun. split; [reflexivity|]. cbn [emitted]. split.
  - repeat (constructor;
            [intros Hin; simpl in Hin; trace_cases Hin; by simplify_eq|]).
    constructor.
  - intros [[v Hin] _]. trace_cases Hin; by simplify_eq.
Qed.

(** ** C7: failures of the install log *)

(** Nothing was logged in a trace. *)
Definition silent (tr : list event) : Prop :=
  forall lvl msg r, (Log lvl msg, r) ∉ tr.

(** C7, as amended.  A failure to open the install log for clearing (any
    [Exception]), an [OSError] on opening or appending to the log in
    [writeline], and an [OSError] on opening the log of a stage are caught
    and not escalated; they are caught silently, nothing is logged.
    [copy_install_log] warns and returns when the log path is empty or the
    log file does not exist.  The statement says nothing about failures
    while a stage writes command output to the log or while the log is
    copied into the target. *)
Theorem install_log_failures_swallowed
    world target_path (logfile : string) h σ :
  (forall e,
     (Open logfile "w", Exc e) ∈ emitted (clear_install_log world logfile h σ) ->
     is_Exception e = true ->
     res (clear_install_log world logfile h σ) = Ok tt
     /\ silent (emitted (clear_install_log world logfile h σ)))
  /\ (forall output e,
        (Open logfile "a", Exc e) ∈ emitted (writeline world logfile output h σ)
        \/ (exists data, (Write logfile data, Exc e)
                         ∈ emitted (writeline world logfile output h σ)) ->
        is_OSError e = true ->
        res (writeline world logfile output h σ) = Ok tt
        /\ silent (emitted (writeline world logfile output h σ)))
  /\ (forall e,
        (Open logfile "ab", Exc e)
          ∈ emitted (Stage_open_install_log world logfile h σ) ->
        is_OSError e = true ->
        res (Stage_open_install_log world logfile h σ) = Ok None
        /\ silent (emitted (Stage_open_install_log world logfile h σ)))
  /\ (forall target log_target_path,
        logfile = ""
        \/ (IsFile logfile, Ret (RBool false))
             ∈ emitted (copy_install_log world target_path logfile target
                          log_target_path h σ) ->
        res (copy_install_log world target_path logfile target
               log_target_path h σ) = Ok tt
        /\ exists msg,
             last (emitted (copy_install_log world target_path logfile target
                              log_target_path h σ))
             = Some (Log WARN msg, Ret RNone)).
Proof.
  assert (Hsilent : forall A (o : outcome A),
             Forall (fun ev => match ev.1 with Log _ _ => False | _ => True end)
                    (emitted o) -> silent (emitted o)).
  { intros A o Ho lvl msg r Hin. rewrite Forall_forall in Ho.
    by apply Ho in Hin. }
  split; [|split; [|split]].
  - intros e. unfold clear_install_log, try_except. run_pure.
    ask_world; run_pure; [|intros Hin; not_in_trace Hin].
    ask_world; run_pure; [intros Hin; not_in_trace Hin|].
    destruct (is_Exception e0) eqn:He0; run_pure;
      intros Hin He; trace_cases Hin; simplify_eq; try congruence;
      (split; [done|]; apply Hsilent; by repeat constructor).
  - intros output e. unfold writeline, try_except_OSError.
    generalize (if negb (ends_with_char newline output)
                then output +:+ chr newline else output) as out.
    intros out. run_pure.
    ask_world; run_pure.
    + ask_world; run_pure.
      * intros [Hin|[data Hin]]; not_in_trace Hin.
      * destruct (is_OSError e0) eqn:He0; run_pure;
          intros [Hin|[data Hin]] He; trace_cases Hin; simplify_eq;
          try congruence;
          (split; [done|]; apply Hsilent; by repeat constructor).
    + destruct (is_OSError e0) eqn:He0; run_pure;
        intros [Hin|[data Hin]] He; trace_cases Hin; simplify_eq;
        try congruence;
        (split; [done|]; apply Hsilent; by repeat constructor).
  - intros e. unfold Stage_open_install_log, try_except_OSError.
    destruct (negb (truthy (PStr logfile))); run_pure;
      [intros Hin; not_in_trace Hin|].
    ask_world; run_pure; [intros Hin; not_in_trace Hin|].
    destruct (is_OSError e0) eqn:He0; run_pure;
      intros Hin He; trace_cases Hin; simplify_eq; try congruence;
      (split; [done|]; apply Hsilent; by repeat constructor).
  - intros target log_target_path. unfold copy_install_log.
    destruct (negb (truthy (PStr logfile))) eqn:Hempty; run_pure.
    { intros _. split; [done|]. by eexists. }
    intros [->|Hin]; [done|]. revert Hin.
    ask_world; run_pure; [|intros Hin; not_in_trace Hin].
    destruct (as_bool v) eqn:Hv; run_pure.
    + ask_world; run_pure; [ask_world; run_pure|];
        intros Hin; trace_cases Hin; by simplify_eq.
    + intros _. split; [done|]. by eexists.
Qed.

(** A world in which no file can be opened. *)
Definition denied_world : list event -> call -> reply :=
  fun h c =>
    match c with
    | Open _ _ => Exc (OSError "Permission denied")
    | _ => calm_world [] 0 h c
    end.

Definition simple_target_path (target : string) (path : pyval) : string :=
  target +:+ py_str path.

Lemma install_log_failures_swallowed_witness :
  (Open INSTALL_LOG "w", Exc (OSError "Permission denied"))
    ∈ emitted (clear_install_log denied_world INSTALL_LOG [] heap0)
  /\ res (clear_install_log denied_world INSTALL_LOG [] heap0) = Ok tt.
Proof.
  assert (Hin : (Open INSTALL_LOG "w", Exc (OSError "Permission denied"))
                  ∈ emitted (clear_install_log denied_world INSTALL_LOG
                               [] heap0)).
  { vm_compute. repeat constructor. }
  split; [exact Hin|].
  exact (proj1 (proj1 (install_log_failures_swallowed denied_world
                         simple_target_path INSTALL_LOG [] heap0)
                  (OSError "Permission denied") Hin eq_refl)).
Defined.

(** A world in which writing a file into the target fails. *)
Definition full_disk_world : list event -> call -> reply :=
  fun h c =>
    match c with
    | WriteFile _ _ _ _ => Exc (OSError "No space left on device")
    | _ => calm_world [] 0 h c
    end.

Definition top_reportstack : reportstack :=
  new_reportstack "cmd-install" "curtin command install" None true.

(** An install attempt without stages in that world. *)
Definition install_on_full_disk : outcome unit :=
  cmd_install_guarded full_disk_world simple_target_path
    (fun _ => []) (fun _ => []) (fun _ => []) no_text
    top_reportstack [] INSTALL_LOG PNone
    [] {| h_cfg := [("stages", PList [])]; h_environ := ∅ |}.

(** C7 as stated fails twice.  A failure to copy the install log into the
    target is not caught: every step of the install attempt succeeds and
    success is reported, yet the attempt ends in the [OSError] of the copy,
    raised from the finalizer before anything is unmounted or removed.  And
    the failures that are caught are not logged: when the install log cannot
    be opened for clearing, the trace has no log record. *)
Lemma install_log_copy_failure_escalates :
  (res install_on_full_disk = Raise (OSError "No space left on device")
   /\ (ReportSuccess, Ret RNone) ∈ emitted install_on_full_disk
   /\ last (emitted install_on_full_disk)
      = Some (WriteFile "/tmp/tmpx/target/root/curtin-install.log" "log"
                256 "wb",
              Exc (OSError "No space left on device")))
  /\ clear_install_log denied_world INSTALL_LOG [] heap0
     = Outcome (Ok tt)
         [(EnsureDir "/var/log/curtin", Ret RNone);
          (Open INSTALL_LOG "w", Exc (OSError "Permission denied"))]
         heap0.
Proof.
  split; [|reflexivity].
  split; [reflexivity|]. split; [|reflexivity].
  vm_compute. repeat constructor.
Qed.

(** ** C2 and C9: the commands of the stages, by their plan *)

Definition is_popen (ev : event) : bool :=
  match ev.1 with Popen _ _ _ => true | _ => false end.

Definition returned (ev : event) : bool :=
  match ev.2 with Ret _ => true | Exc _ => false end.

(** The output captured from a process: [output] after the read loop. *)
Definition captured (p : process) : string :=
  fold_right String.append "" (reads p).

(** A command that was started and exited with a nonzero return code. *)
Definition failed_launch (ev : event) : option (pyval * process) :=
  match ev with
  | (Popen cmd _ _, Ret (RProc p)) =>
      if (returncode p =? 0)%Z then None else Some (cmd, p)
  | _ => None
  end.

(** The error line 246 raises for it. *)
Definition failure_of (cmd : pyval) (p : process) : exn :=
  ProcessExecutionError (Some (captured p)) (Some (returncode p)) cmd None.

Definition raised {A} (o : outcome A) : option exn :=
  match res o with Raise e => Some e | Ok _ => None end.

(** [stops_at_failure r tr]: after a failed command in the trace [tr] no
    command is started; the run ends in an exception [r], which is the
    error of that command unless a later call raised first. *)
Fixpoint stops_at_failure (r : option exn) (tr : list event) : Prop :=
  match tr with
  | [] => True
  | ev :: rest =>
      match failed_launch ev with
      | Some (cmd, p) =>
          Forall (fun e => is_popen e = false) rest
          /\ r <> None
          /\ (Forall (fun e => returned e = true) rest ->
              r = Some (failure_of cmd p))
      | None => True
      end
      /\ stops_at_failure r rest
  end.

(** The commands a trace starts: the reporting name each child process is
    given in its environment, and the command. *)
Definition launched (ev : event) : option (option string * pyval) :=
  match ev.1 with
  | Popen cmd env _ => Some (env !! "CURTIN_REPORTSTACK", cmd)
  | _ => None
  end.

Definition launches (tr : list event) : list (option string * pyval) :=
  omap launched tr.

(** [follows plan o σ]: the run with outcome [o], started on the heap [σ],
    leaves the heap alone, stops at the first failed command, and starts
    the commands of [plan] in order: all of them when it returns, the
    first few when it raises. *)
Definition follows {A} (plan : list (option string * pyval))
    (o : outcome A) (σ : heap) : Prop :=
  final o = σ
  /\ stops_at_failure (raised o) (emitted o)
  /\ launches (emitted o) `prefix_of` plan
  /\ (is_ok (res o) = true -> launches (emitted o) = plan).

Lemma not_popen_not_failed (ev : event) :
  is_popen ev = false -> failed_launch ev = None.
Proof. by destruct ev as [[] []]. Qed.

Lemma not_popen_not_launched (ev : event) :
  is_popen ev = false -> launched ev = None.
Proof. by destruct ev as [[] ?]. Qed.

Lemma launches_no_popen (tr : list event) :
  Forall (fun e => is_popen e = false) tr -> launches tr = [].
Proof.
  induction 1 as [|ev tr Hev _ IH]; [done|].
  unfold launches. simpl. by rewrite (not_popen_not_launched ev Hev).
Qed.

Lemma launches_app (a b : list event) :
  launches (a ++ b) = launches a ++ launches b.
Proof. apply omap_app. Qed.

Lemma stops_no_failed r (tr : list event) :
  Forall (fun e => failed_launch e = None) tr -> stops_at_failure r tr.
Proof.
  induction 1 as [|ev tr Hev _ IH]; [done|]. simpl. by rewrite Hev.
Qed.

Lemma stops_no_popen r (tr : list event) :
  Forall (fun e => is_popen e = false) tr -> stops_at_failure r tr.
Proof.
  intros H. apply stops_no_failed. eapply Forall_impl; [done|].
  apply not_popen_not_failed.
Qed.

Lemma stops_None (tr : list event) :
  stops_at_failure None tr -> Forall (fun e => failed_launch e = None) tr.
Proof.
  induction tr as [|ev tr IH]; [done|]. simpl. intros [Hev Htr].
  constructor; [|by apply IH].
  destruct (failed_launch ev) as [[cmd p]|]; [|done]. by destruct Hev as (_&?&_).
Qed.

Lemma stops_app_l r (a b : list event) :
  Forall (fun e => failed_launch e = None) a ->
  stops_at_failure r b -> stops_at_failure r (a ++ b).
Proof.
  induction 1 as [|ev a Hev _ IH]; [done|]. intros Hb. simpl.
  rewrite Hev. auto.
Qed.

Lemma stops_app_r r (a b : list event) :
  stops_at_failure r a ->
  Forall (fun e => is_popen e = false) b ->
  stops_at_failure r (a ++ b).
Proof.
  intros Ha Hb. induction a as [|ev a IH]; simpl.
  - by apply stops_no_popen.
  - destruct Ha as [Hev Ha]. split; [|by apply IH].
    destruct (failed_launch ev) as [[cmd p]|]; [|done].
    destruct Hev as (Hno & Hr & Hret). split; [|split; [done|]].
    + apply Forall_app. done.
    + intros [? _]%Forall_app. auto.
Qed.

(** A run that starts no command follows the empty plan. *)
Lemma follows_quiet {A} (o : outcome A) σ :
  final o = σ -> Forall (fun e => is_popen e = false) (emitted o) ->
  follows [] o σ.
Proof.
  intros Hσ Hq. split; [done|]. split; [by apply stops_no_popen|].
  rewrite launches_no_popen by done. split; [done|done].
Qed.

Lemma follows_outcome {A} plan (r : result A) evs σ' σ (o : outcome A) :
  o = Outcome r evs σ' -> follows plan (Outcome r evs σ') σ -> follows plan o σ.
Proof. by intros ->. Qed.

(** Sequencing: the plans follow one another. *)
Lemma follows_obind {A B} p1 p2 (o : outcome A) (k : A -> M B) h σ :
  follows p1 o σ ->
  (forall a, res o = Ok a -> follows p2 (k a (h ++ emitted o) σ) σ) ->
  follows (p1 ++ p2) (obind o k h) σ.
Proof.
  intros (Hσ & Hstop & Hpre & Hall) Hk.
  destruct (obind_cases o k h) as [(a & Ha & ->)|(e & He & ->)].
  - destruct (Hk a Ha) as (Hσ2 & Hstop2 & Hpre2 & Hall2).
    rewrite Hσ in *. unfold follows.
    rewrite final_prepend, emitted_prepend, res_prepend, launches_app.
    unfold raised in *. rewrite res_prepend. rewrite Ha in Hstop, Hall.
    rewrite (Hall eq_refl).
    split; [done|]. split; [|split].
    + apply stops_app_l; [|done]. by apply stops_None.
    + by apply prefix_app.
    + intros Hok. by rewrite Hall2.
  - unfold follows, raised in *. simpl. rewrite He in Hstop.
    split; [done|]. split; [done|]. split; [|done].
    by apply prefix_app_r.
Qed.

Lemma follows_bind {A B} p1 p2 (m : M A) (k : A -> M B) h σ :
  follows p1 (m h σ) σ ->
  (forall a, res (m h σ) = Ok a ->
             follows p2 (k a (h ++ emitted (m h σ)) σ) σ) ->
  follows (p1 ++ p2) (bind m k h σ) σ.
Proof. rewrite bind_obind. apply follows_obind. Qed.

(** Events before and after that start nothing do not matter. *)
Lemma follows_wrap {A} plan (o : outcome A) σ pre post :
  follows plan o σ ->
  Forall (fun e => is_popen e = false) pre ->
  Forall (fun e => is_popen e = false) post ->
  follows plan (Outcome (res o) (pre ++ emitted o ++ post) (final o)) σ.
Proof.
  intros (Hσ & Hstop & Hpre & Hall) Hq1 Hq2. unfold follows, raised in *.
  simpl. rewrite !launches_app, (launches_no_popen pre),
    (launches_no_popen post), app_nil_r by done. simpl.
  split; [done|]. split; [|done].
  apply stops_app_l.
  - eapply Forall_impl; [done|]. apply not_popen_not_failed.
  - by apply stops_app_r.
Qed.

Lemma string_app_nil_r (s : string) : s +:+ "" = s.
Proof.
  induction s as [|c s IH]; [done|].
  change (String c (s +:+ "") = String c s). by f_equal.
Qed.

Lemma string_app_assoc (a b c : string) : (a +:+ b) +:+ c = a +:+ (b +:+ c).
Proof.
  induction a as [|x a IH]; [done|].
  change (String x ((a +:+ b) +:+ c) = String x (a +:+ (b +:+ c))).
  by f_equal.
Qed.

(** What the [with] statements add around their body. *)
Lemma with_log_timer_run {A} msg (body : M A) h σ :
  with_log_timer msg body h σ
  = Outcome (res (body h σ))
      ([] ++ emitted (body h σ) ++ [(LogTimerDone msg, Ret RNone)])
      (final (body h σ)).
Proof.
  unfold with_log_timer. rewrite bind_obind, attempt_oattempt, obind_oattempt.
  run_pure. by rewrite app_nil_r.
Qed.

Definition report_start (stack : reportstack) : list event :=
  if rs_enabled stack
  then [(ReportStart (rs_fullname stack) (rs_description stack), Ret RNone)]
  else [].

Definition report_finish (stack : reportstack) (success : bool)
    : list event :=
  if rs_enabled stack
  then [(ReportFinish (rs_fullname stack) (rs_description stack) success,
         Ret RNone)]
  else [].

Lemma with_report_run {A} stack (body : M A) h σ :
  with_report stack body h σ
  = Outcome (res (body (h ++ report_start stack) σ))
      (report_start stack
       ++ emitted (body (h ++ report_start stack) σ)
       ++ report_finish stack (is_ok (res (body (h ++ report_start stack) σ))))
      (final (body (h ++ report_start stack) σ)).
Proof.
  unfold with_report, report_start, report_finish.
  destruct (rs_enabled stack); run_pure;
    rewrite obind_oattempt; run_pure; by rewrite ?app_nil_r.
Qed.

Lemma report_start_quiet stack :
  Forall (fun e => is_popen e = false) (report_start stack).
Proof. unfold report_start. destruct (rs_enabled stack); by repeat constructor. Qed.

Lemma report_finish_quiet stack b :
  Forall (fun e => is_popen e = false) (report_finish stack b).
Proof. unfold report_finish. destruct (rs_enabled stack); by repeat constructor. Qed.

Lemma follows_with_log_timer {A} plan msg (body : M A) h σ :
  follows plan (body h σ) σ -> follows plan (with_log_timer msg body h σ) σ.
Proof.
  intros H. rewrite with_log_timer_run.
  apply follows_wrap; [done|constructor|by repeat constructor].
Qed.

Lemma follows_with_report {A} plan stack (body : M A) h σ :
  follows plan (body (h ++ report_start stack) σ) σ ->
  follows plan (with_report stack body h σ) σ.
Proof.
  intros H. rewrite with_report_run.
  apply follows_wrap;
    [done | apply report_start_quiet | apply report_finish_quiet].
Qed.

(** The read loop forwards every piece of output and starts nothing; it
    returns all the output unless a write raised. *)
Lemma Stage_read_loop_run world self rs output h σ :
  final (Stage_read_loop world self rs output h σ) = σ
  /\ Forall (fun e => is_popen e = false)
       (emitted (Stage_read_loop world self rs output h σ))
  /\ match res (Stage_read_loop world self rs output h σ) with
     | Ok out =>
         out = output +:+ fold_right String.append "" rs
         /\ Forall (fun e => returned e = true)
              (emitted (Stage_read_loop world self rs output h σ))
     | Raise _ =>
         ~ Forall (fun e => returned e = true)
             (emitted (Stage_read_loop world self rs output h σ))
     end.
Proof.
  revert output h. induction rs as [|data rs IH]; intros output h.
  - cbn [Stage_read_loop fold_right]. rewrite run_ret. cbn [final emitted res].
    by rewrite string_app_nil_r.
  - cbn [Stage_read_loop fold_right]. unfold Stage_write. run_pure.
    ask_world; run_pure.
    2:{ simpl. split; [done|]. split; [by repeat constructor|].
        by intros [[=] _]%Forall_cons. }
    destruct (stage_install_log self) as [f|]; run_pure.
    + ask_world; run_pure.
      2:{ simpl. split; [done|]. split; [by repeat constructor|].
          by intros [_ [[=] _]%Forall_cons]%Forall_cons. }
      match goal with
      | |- context [Stage_read_loop world self rs ?out ?h'] =>
          destruct (IH out h') as (Hσ & Hq & Hres)
      end.
      rewrite final_prepend, emitted_prepend, res_prepend.
      split; [done|]. split; [by repeat constructor|].
      destruct (res _) as [out|e].
      * destruct Hres as [-> Hret]. rewrite string_app_assoc.
        split; [done|]. by repeat constructor.
      * intros Hall. apply Hres. by do 2 apply Forall_cons in Hall as [_ Hall].
    + match goal with
      | |- context [Stage_read_loop world self rs ?out ?h'] =>
          destruct (IH out h') as (Hσ & Hq & Hres)
      end.
      rewrite final_prepend, emitted_prepend, res_prepend.
      split; [done|]. split; [by repeat constructor|].
      destruct (res _) as [out|e].
      * destruct Hres as [-> Hret]. rewrite string_app_assoc.
        split; [done|]. by repeat constructor.
      * intros Hall. apply Hres. by apply Forall_cons in Hall as [_ Hall].
Qed.

(** The plan of one command: a falsy command starts nothing. *)
Definition command_plan (stack : reportstack) (cmdname : string) (cmd : pyval)
    : list (option string * pyval) :=
  if truthy cmd
  then [(Some (rs_fullname stack +:+ "/" +:+ cmdname), cmd)]
  else [].

(** A run that starts one command and nothing else. *)
Lemma follows_launch {A} cmd env shell reply name (r : result A) rest σ :
  env !! "CURTIN_REPORTSTACK" = Some name ->
  Forall (fun e => is_popen e = false) rest ->
  (forall p, reply = Ret (RProc p) -> returncode p ≠ 0%Z ->
     is_ok r = false
     /\ (Forall (fun e => returned e = true) rest ->
         r = Raise (failure_of cmd p))) ->
  follows [(Some name, cmd)]
    (Outcome r ((Popen cmd env shell, reply) :: rest) σ) σ.
Proof.
  intros Henv Hq Hfail. unfold follows, raised.
  cbn [final emitted res].
  change (launches ((Popen cmd env shell, reply) :: rest))
    with ((env !! "CURTIN_REPORTSTACK", cmd) :: launches rest).
  rewrite Henv, (launches_no_popen _ Hq).
  split; [done|]. split; [|done].
  cbn [stops_at_failure]. split; [|by apply stops_no_popen].
  destruct reply as [[| | | | |p]|]; try done. cbn [failed_launch].
  destruct (returncode p =? 0)%Z eqn:Hrc; [done|].
  destruct (Hfail p eq_refl) as [Hr Hret]; [lia|].
  split; [done|]. split; [by destruct r|].
  intros Hall. rewrite (Hret Hall). done.
Qed.

Lemma Stage_run_command_follows world format_exception self cmdname cmd h σ :
  follows (command_plan (stage_reportstack self) cmdname cmd)
    (Stage_run_command world format_exception self cmdname cmd h σ) σ.
Proof.
  unfold Stage_run_command, command_plan.
  destruct (truthy cmd); cbn [negb].
  2:{ rewrite run_ret. by apply follows_quiet. }
  destruct (join_cmd cmd) as [joined|e]; run_pure.
  2:{ split; [done|]. split; [done|]. split; [|done]. apply prefix_nil. }
  apply follows_with_log_timer, follows_with_report.
  unfold try_except_OSError. run_pure.
  set (env := <["CURTIN_REPORTSTACK":=_]> (stage_env self)).
  assert (Henv : env !! "CURTIN_REPORTSTACK"
                 = Some (rs_fullname (stage_reportstack self)
                         +:+ "/" +:+ cmdname))
    by apply lookup_insert_eq.
  ask_world; run_pure.
  - match goal with
    | |- context [Stage_read_loop world self ?rs ?out0 ?h'] =>
        destruct (Stage_read_loop_run world self rs out0 h' σ)
          as (Hσ & Hq & Hres);
        destruct (obind_cases (Stage_read_loop world self rs out0 h' σ)
                    (fun output =>
                       if negb (returncode (as_proc v) =? 0)%Z
                       then LOG WARN (cmdname +:+ " command failed") >>
                            raise (ProcessExecutionError (Some output)
                                     (Some (returncode (as_proc v))) cmd None)
                       else ret tt) h')
          as [(out & Hout & ->)|(e & He & ->)]
    end.
    + rewrite Hout in Hres. destruct Hres as [-> Hret]. rewrite Hσ.
      destruct (returncode (as_proc v) =? 0)%Z eqn:Hrc; run_pure;
        cbn [app]; (apply follows_launch; [done| |]).
      * done.
      * intros p [= ->] Hp. simpl in Hrc. apply Z.eqb_eq in Hrc. contradiction.
      * apply Forall_app. split; [done|]. by repeat constructor.
      * intros p [= ->] Hp. split; [done|]. intros _. reflexivity.
    + rewrite He in Hres. rewrite Hσ. run_pure. cbn [app].
      apply follows_launch; [done|done|].
      intros p [= ->] Hp. split; [done|]. intros Hall. by destruct Hres.
  - destruct (is_OSError e); run_pure; cbn [app];
      (apply follows_launch; [done|by repeat constructor|done]).
Qed.

Lemma follows_for_each {A} (xs : list A) (body : A -> M unit)
    (plan : A -> list (option string * pyval)) h σ :
  (forall x h', follows (plan x) (body x h' σ) σ) ->
  follows (flat_map plan xs) (for_each xs body h σ) σ.
Proof.
  intros Hbody. revert h. induction xs as [|x xs IH]; intros h.
  - cbn [for_each flat_map]. rewrite run_ret. by apply follows_quiet.
  - cbn [for_each flat_map]. apply follows_bind; [apply Hbody|].
    intros _ _. apply IH.
Qed.

(** The plan of a stage: its commands that are not falsy, by ascending
    name, each under the reporting name of the stage. *)
Definition stage_plan (stack : reportstack) (commands : pyval)
    : list (option string * pyval) :=
  match commands with
  | PDict d =>
      map (fun name => (Some (rs_fullname stack +:+ "/" +:+ name),
                        dict_get_default d name PNone))
          (filter (fun name => truthy (dict_get_default d name PNone) = true)
                  (sorted_keys d))
  | _ => []
  end.

Lemma flat_map_command_plan stack (d : dict) (names : list string) :
  flat_map (fun name => command_plan stack name (dict_get_default d name PNone))
           names
  = map (fun name => (Some (rs_fullname stack +:+ "/" +:+ name),
                      dict_get_default d name PNone))
        (filter (fun name => truthy (dict_get_default d name PNone) = true)
                names).
Proof.
  induction names as [|name names IH]; [done|].
  cbn [flat_map]. rewrite filter_cons, IH. unfold command_plan.
  destruct (truthy (dict_get_default d name PNone)) eqn:Ht.
  - by rewrite decide_True.
  - by rewrite decide_False.
Qed.

Lemma Stage_run_follows world format_exception self h σ :
  follows (stage_plan (stage_reportstack self) (stage_commands self))
    (Stage_run world format_exception self h σ) σ.
Proof.
  unfold Stage_run, stage_plan.
  destruct (stage_commands self) as [| | | | |d];
    try (rewrite run_raise; by apply follows_quiet).
  rewrite <- flat_map_command_plan.
  apply follows_for_each. intros name h'. apply Stage_run_command_follows.
Qed.

Lemma Stage_init_quiet world name commands env reportstack logfile h σ :
  final (Stage_init world name commands env reportstack logfile h σ) = σ
  /\ Forall (fun e => is_popen e = false)
       (emitted (Stage_init world name commands env reportstack logfile h σ))
  /\ forall stage,
       res (Stage_init world name commands env reportstack logfile h σ)
       = Ok stage ->
       stage_commands stage = commands
       /\ stage_reportstack stage
          = match reportstack with
            | Some r => r
            | None => new_reportstack ("stage-" +:+ py_str name)
                        ("basic stage " +:+ py_str name) None false
            end.
Proof.
  unfold Stage_init, Stage_open_install_log, try_except_OSError.
  destruct (negb (truthy (PStr (default INSTALL_LOG logfile)))); run_pure.
  { split; [done|]. split; [done|]. by intros stage [= <-]. }
  ask_world; run_pure.
  - split; [done|]. split; [by repeat constructor|]. by intros stage [= <-].
  - destruct (is_OSError e); run_pure.
    + split; [done|]. split; [by repeat constructor|]. by intros stage [= <-].
    + split; [done|]. split; [by repeat constructor|]. done.
Qed.

(** The plan of a stage of the install: the commands under
    [<name>_commands], reported under [stage-<name>]. *)
Definition install_stage_plan (config : dict) (args_reportstack : reportstack)
    (name : pyval) : list (option string * pyval) :=
  match stage_description name with
  | Ok desc =>
      stage_plan
        (new_reportstack ("stage-" +:+ py_str name) desc
           (Some args_reportstack) (rs_enabled args_reportstack))
        (dict_get_default config (py_str name +:+ "_commands") (PDict []))
  | Raise _ => []
  end.

(** The plan of the install: the plans of its stages, in the order of the
    list of stages. *)
Definition install_plan (config : dict) (args_reportstack : reportstack)
    (names : list pyval) : list (option string * pyval) :=
  flat_map (install_stage_plan config args_reportstack) names.

Lemma cmd_install_stage_follows
    world format_exception args_reportstack logfile env name h σ :
  follows (install_stage_plan (h_cfg σ) args_reportstack name)
    (cmd_install_stage world format_exception args_reportstack logfile env
       name h σ) σ.
Proof.
  unfold cmd_install_stage, install_stage_plan.
  destruct (stage_description name) as [desc|e]; run_pure.
  2:{ by apply follows_quiet. }
  set (stack := new_reportstack _ desc _ _).
  match goal with
  | |- follows ?plan (obind (with_report stack ?body ?h0 σ) ?k ?h1) σ =>
      rewrite <- (app_nil_r plan);
      apply (follows_obind plan [] (with_report stack body h0 σ) k h1 σ)
  end.
  2:{ intros _ _. rewrite run_ret. by apply follows_quiet. }
  apply follows_with_report, follows_with_log_timer. run_pure.
  match goal with
  | |- follows ?plan (obind (Stage_init world ?n ?c ?e ?r ?l ?h0 σ) ?k ?h1) σ =>
      destruct (Stage_init_quiet world n c e r l h0 σ) as (Hσ & Hq & Hstage);
      change plan with ([] ++ plan);
      apply (follows_obind [] plan (Stage_init world n c e r l h0 σ) k h1 σ)
  end.
  - by apply follows_quiet.
  - intros stage Hok. destruct (Hstage stage Hok) as [Hc Hr].
    rewrite <- Hc, <- Hr. apply Stage_run_follows.
Qed.

Lemma cmd_install_stages_follows
    world format_exception args_reportstack logfile env names h σ :
  follows (install_plan (h_cfg σ) args_reportstack names)
    (cmd_install_stages world format_exception args_reportstack logfile env
       names h σ) σ.
Proof.
  revert env h. induction names as [|name names IH]; intros env h.
  - cbn [cmd_install_stages]. rewrite run_ret. by apply follows_quiet.
  - cbn [cmd_install_stages]. unfold install_plan. cbn [flat_map].
    apply follows_bind; [apply cmd_install_stage_follows|].
    intros env' _. apply IH.
Qed.

(** After a failed command nothing is started, whatever comes before. *)
Lemma stops_at_failure_split r (pre : list event) ev post cmd p :
  stops_at_failure r (pre ++ ev :: post) ->
  failed_launch ev = Some (cmd, p) ->
  Forall (fun e => is_popen e = false) post
  /\ r <> None
  /\ (Forall (fun e => returned e = true) post -> r = Some (failure_of cmd p)).
Proof.
  intros Hstop Hev. induction pre as [|ev' pre IH].
  - destruct Hstop as [Hstop _]. by rewrite Hev in Hstop.
  - destruct Hstop as [_ Hstop]. by apply IH.
Qed.

(** [sorted] puts the keys of a dict, each of which occurs once, in
    strictly ascending order. *)
Lemma dict_keys_NoDup (d : dict) : NoDup (dict_keys d).
Proof.
  induction d as [|[k v] d IH]; simpl; [constructor|].
  constructor; [|by apply NoDup_filter].
  rewrite list_elem_of_filter. intros [Hne _]. by apply Hne.
Qed.

Lemma StronglySorted_strict (l : list string) :
  StronglySorted String.le l -> NoDup l ->
  StronglySorted (strict String.le) l.
Proof.
  induction 1 as [|x l Hl IH Hx]; intros Hnd; [constructor|].
  apply NoDup_cons in Hnd as [Hnotin Hnd].
  constructor; [by apply IH|].
  rewrite Forall_forall in Hx |- *. intros y Hy. split; [by apply Hx|].
  intros Hyx. assert (x = y) as -> by (apply (anti_symm String.le); auto).
  done.
Qed.

Lemma sorted_keys_sorted (d : dict) :
  StronglySorted (strict String.le) (sorted_keys d)
  /\ sorted_keys d ≡ₚ dict_keys d.
Proof.
  unfold sorted_keys. split; [|apply merge_sort_Permutation].
  apply StronglySorted_strict; [apply (StronglySorted_merge_sort _)|].
  rewrite merge_sort_Permutation. apply dict_keys_NoDup.
Qed.

(** The configuration of an install of two stages. *)
Definition two_stage_config : dict :=
  [("stages", PList [PStr "early"; PStr "late"]);
   ("early_commands",
    PDict [("20_next", PStr "true"); ("00_skip", PStr "");
           ("10_first", PList [PStr "echo"; PStr "hi"])]);
   ("late_commands", PDict [("99_last", PStr "sync")])].

Definition two_stage_heap : heap :=
  {| h_cfg := two_stage_config; h_environ := ∅ |}.

Definition idle_stage : Stage :=
  MkStage (PStr "early") (PDict []) ∅ None top_reportstack.

(** ** C3: the cleanup *)

(** The teardown actions of lines 489-512. *)
Definition is_teardown (ev : event) : bool :=
  match ev.1 with
  | DoUmount _ _ | RestartIscsiService | ZpoolExport _ | Rmtree _ => true
  | _ => false
  end.

Definition teardown_call (ev : event) : option call :=
  if is_teardown ev then Some ev.1 else None.

Definition teardown_calls (tr : list event) : list call :=
  omap teardown_call tr.

Definition no_teardown (ev : event) : Prop := is_teardown ev = false.

(** The teardown the [finally] clause is to do for the working directory
    [wd] on the configuration [cfg]. *)
Definition teardown_plan (get_iscsi_disks_from_config : dict -> list string)
    (get_zpool_from_config : dict -> list string)
    (cfg : dict) (wd : WorkingDir) : list call :=
  [DoUmount (wd_target wd) true]
  ++ (if bool_decide (get_iscsi_disks_from_config cfg = [])
      then [] else [RestartIscsiService])
  ++ map ZpoolExport (get_zpool_from_config cfg)
  ++ [Rmtree (wd_top wd)].

Lemma teardown_calls_app (a b : list event) :
  teardown_calls (a ++ b) = teardown_calls a ++ teardown_calls b.
Proof. apply omap_app. Qed.

Lemma teardown_calls_none (tr : list event) :
  Forall no_teardown tr -> teardown_calls tr = [].
Proof.
  induction 1 as [|ev tr Hev _ IH]; [done|].
  unfold teardown_calls in *. simpl. unfold teardown_call at 1.
  by rewrite Hev.
Qed.

Lemma emits_ext world (P : event -> Prop) c :
  (forall r, P (c, r)) -> emits P (ext world c).
Proof.
  intros Hc h σ. unfold ext. destruct (world h c); repeat constructor; apply Hc.
Qed.

Lemma emits_for_each {A} (P : event -> Prop) (xs : list A)
    (body : A -> M unit) :
  (forall x, emits P (body x)) -> emits P (for_each xs body).
Proof.
  intros Hbody. induction xs as [|x xs IH]; simpl.
  - apply emits_ret.
  - apply emits_bind; [apply Hbody | intros _; apply IH].
Qed.

Lemma keeps_heap_ext world c : keeps_heap (ext world c).
Proof. intros h σ. unfold ext. by destruct (world h c). Qed.

Lemma keeps_heap_for_each {A} (xs : list A) (body : A -> M unit) :
  (forall x, keeps_heap (body x)) -> keeps_heap (for_each xs body).
Proof.
  intros Hbody. induction xs as [|x xs IH]; simpl.
  - apply keeps_heap_ret.
  - apply keeps_heap_bind; [apply Hbody | intros _; apply IH].
Qed.

Create HintDb quiet discriminated.

(** One step of a proof that a run makes no teardown call, by the shape of
    the program. *)
Ltac quiet_step :=
  lazymatch goal with
  | |- forall _, _ => intro
  | |- emits _ (ret _) => apply emits_ret
  | |- emits _ (raise _) => apply emits_raise
  | |- emits _ (of_result _) => apply emits_of_result
  | |- emits _ (bind _ _) => apply emits_bind
  | |- emits _ (attempt _) => apply emits_attempt
  | |- emits _ (emit _) => apply emits_emit; reflexivity
  | |- emits _ (LOG _ _) => apply emits_emit; reflexivity
  | |- emits _ get_cfg => apply emits_get_cfg
  | |- emits _ get_environ => apply emits_get_environ
  | |- emits _ (set_cfg _) => apply emits_set_cfg
  | |- emits _ (ext _ _) => apply emits_ext; intro; reflexivity
  | |- emits _ (for_each _ _) => apply emits_for_each
  | |- emits _ (if ?b then _ else _) => destruct b
  | |- emits _ (match ?x with _ => _ end) => destruct x
  | |- emits _ _ => solve [auto with quiet nocore]
  end.

Ltac quiet :=
  unfold ext_unit, ext_bool, ext_str, try_except, try_except_OSError,
    try_finally, with_report, with_log_timer;
  cbv beta zeta; repeat quiet_step.

Section Quiet.
Variable world : list event -> call -> reply.
Variable format_exception : exn -> string.

Lemma writeline_quiet fname output :
  emits no_teardown (writeline world fname output).
Proof. unfold writeline. quiet. Qed.
Hint Resolve writeline_quiet : quiet.

Lemma writeline_and_stdout_quiet logfile message :
  emits no_teardown (writeline_and_stdout world logfile message).
Proof. unfold writeline_and_stdout. quiet. Qed.

Lemma WorkingDir_init_quiet config :
  emits no_teardown (WorkingDir_init world format_exception config).
Proof. unfold WorkingDir_init. quiet. Qed.

Lemma Stage_init_no_teardown name commands env reportstack logfile :
  emits no_teardown (Stage_init world name commands env reportstack logfile).
Proof. unfold Stage_init, Stage_open_install_log. quiet. Qed.

Lemma Stage_read_loop_quiet self rs output :
  emits no_teardown (Stage_read_loop world self rs output).
Proof.
  revert output. induction rs as [|data rs IH]; intros output; simpl.
  - apply emits_ret.
  - apply emits_bind; [unfold Stage_write; quiet | intros _; apply IH].
Qed.
Hint Resolve Stage_read_loop_quiet : quiet.

Lemma Stage_run_quiet self :
  emits no_teardown (Stage_run world format_exception self).
Proof. unfold Stage_run, Stage_run_command. quiet. Qed.
Hint Resolve Stage_init_no_teardown Stage_run_quiet : quiet.

Lemma cmd_install_stages_quiet args_reportstack logfile env names :
  emits no_teardown
    (cmd_install_stages world format_exception args_reportstack logfile env
       names).
Proof.
  revert env. induction names as [|name names IH]; intros env; simpl.
  - apply emits_ret.
  - apply emits_bind; [|intros env'; apply IH].
    unfold cmd_install_stage. quiet.
Qed.

Lemma apply_kexec_quiet kexec target :
  emits no_teardown (apply_kexec world kexec target).
Proof. unfold apply_kexec. quiet. Qed.
Hint Resolve cmd_install_stages_quiet apply_kexec_quiet
  writeline_and_stdout_quiet : quiet.

Lemma cmd_install_try_quiet get_dd_images args_reportstack logfile workingd :
  emits no_teardown
    (cmd_install_try world get_dd_images format_exception args_reportstack
       logfile workingd).
Proof. unfold cmd_install_try. quiet. Qed.

End Quiet.

(** A call after which the cleanup goes on: one that returned, or an
    [open] or [write] that failed with the [IOError] or [OSError] that
    [writeline] passes over. *)
Definition harmless (ev : event) : bool :=
  match ev with
  | (_, Ret _) => true
  | (Open _ _, Exc e) | (Write _ _, Exc e) => is_OSError e
  | (_, Exc _) => false
  end.

(** [settles plan o σ]: the run with outcome [o], started on the heap [σ],
    leaves the heap alone and makes the teardown calls of [plan] in order:
    all of them when it returns, the first few when it raises; and it
    returns when every call it makes is harmless. *)
Definition settles {A} (plan : list call) (o : outcome A) (σ : heap) : Prop :=
  final o = σ
  /\ teardown_calls (emitted o) `prefix_of` plan
  /\ (is_ok (res o) = true -> teardown_calls (emitted o) = plan)
  /\ (Forall (fun e => harmless e = true) (emitted o) -> is_ok (res o) = true).

(** [reraises e o σ]: the run leaves the heap alone, makes no teardown
    call and ends in the exception [e] when every call it makes is
    harmless. *)
Definition reraises {A} (e : exn) (o : outcome A) (σ : heap) : Prop :=
  final o = σ
  /\ teardown_calls (emitted o) = []
  /\ (Forall (fun e => harmless e = true) (emitted o) -> res o = Raise e).

Lemma teardown_calls_cons (ev : event) (tr : list event) :
  teardown_calls (ev :: tr)
  = (if is_teardown ev then [ev.1] else []) ++ teardown_calls tr.
Proof.
  unfold teardown_calls. simpl. unfold teardown_call at 1.
  by destruct (is_teardown ev).
Qed.

Lemma teardown_calls_nil : teardown_calls [] = [].
Proof. done. Qed.

Lemma settles_outcome {A} plan (r : result A) evs σ' σ (o : outcome A) :
  o = Outcome r evs σ' -> settles plan (Outcome r evs σ') σ -> settles plan o σ.
Proof. by intros ->. Qed.

Lemma settles_bind {A B} p1 p2 (m : M A) (k : A -> M B) h σ :
  settles p1 (m h σ) σ ->
  (forall a, res (m h σ) = Ok a ->
             settles p2 (k a (h ++ emitted (m h σ)) σ) σ) ->
  settles (p1 ++ p2) (bind m k h σ) σ.
Proof.
  intros (Hf & Hp & Hall & Hok) Hk. unfold bind.
  destruct (res (m h σ)) as [a|e] eqn:Hr.
  - destruct (Hk a eq_refl) as (Hf2 & Hp2 & Hall2 & Hok2).
    rewrite Hf. unfold settles. cbn [final emitted res].
    rewrite teardown_calls_app, (Hall eq_refl).
    split; [done|]. split; [by apply prefix_app|].
    split; [by intros ->%Hall2|].
    intros [_ ?]%Forall_app. auto.
  - unfold settles. cbn [final emitted res].
    split; [done|]. split; [by apply prefix_app_r|].
    split; [done|]. intros Hh. by apply Hok in Hh.
Qed.

Lemma settles_ret {A} (a : A) h σ : settles [] (ret a h σ) σ.
Proof. by repeat split. Qed.

Lemma settles_emit c h σ : is_teardown (c, Ret RNone) = false ->
  settles [] (emit c h σ) σ.
Proof.
  intros Hc. unfold settles, emit. cbn [final emitted res].
  rewrite teardown_calls_cons, Hc. by repeat split.
Qed.

Lemma settles_get_cfg h σ : settles [] (get_cfg h σ) σ.
Proof. by repeat split. Qed.

(** A call that is no teardown and that nothing passes over. *)
Lemma settles_ext world c h σ :
  (forall r, is_teardown (c, r) = false) ->
  (forall e, harmless (c, Exc e) = false) ->
  settles [] (ext world c h σ) σ.
Proof.
  intros Hc Hh. unfold settles, ext.
  destruct (world h c) as [v|e]; cbn [final emitted res];
    rewrite teardown_calls_cons, Hc; repeat split; try done.
  intros Hall. apply Forall_cons in Hall as [Hall _]. by rewrite Hh in Hall.
Qed.

(** A teardown call. *)
Lemma settles_teardown world c h σ :
  (forall r, is_teardown (c, r) = true) ->
  (forall e, harmless (c, Exc e) = false) ->
  settles [c] (ext_unit world c h σ) σ.
Proof.
  intros Hc Hh. unfold settles, ext_unit, bind, ext.
  destruct (world h c) as [v|e]; cbn [final emitted res ret app];
    rewrite teardown_calls_cons, Hc; repeat split; try done.
  intros Hall. apply Forall_cons in Hall as [Hall _]. by rewrite Hh in Hall.
Qed.

Lemma settles_for_each {A} (xs : list A) (body : A -> M unit)
    (plan : A -> list call) h σ :
  (forall x h', settles (plan x) (body x h' σ) σ) ->
  settles (flat_map plan xs) (for_each xs body h σ) σ.
Proof.
  intros Hbody. revert h. induction xs as [|x xs IH]; intros h; simpl.
  - apply settles_ret.
  - apply settles_bind; [apply Hbody | intros _ _; apply IH].
Qed.

Lemma reraises_raise {A} e h σ : reraises e (@raise A e h σ) σ.
Proof. by repeat split. Qed.

Lemma reraises_bind {A B} e (m : M A) (k : A -> M B) h σ :
  settles [] (m h σ) σ ->
  (forall a, res (m h σ) = Ok a ->
             reraises e (k a (h ++ emitted (m h σ)) σ) σ) ->
  reraises e (bind m k h σ) σ.
Proof.
  intros (Hf & Hp & Hall & Hok) Hk. unfold bind.
  apply prefix_nil_inv in Hp.
  destruct (res (m h σ)) as [a|e'] eqn:Hr.
  - destruct (Hk a eq_refl) as (Hf2 & Hp2 & Hok2).
    rewrite Hf. unfold reraises. cbn [final emitted res].
    rewrite teardown_calls_app, Hp, Hp2.
    split; [done|]. split; [done|].
    intros [_ ?]%Forall_app. auto.
  - unfold reraises. cbn [final emitted res].
    split; [done|]. split; [done|]. intros Hh. by apply Hok in Hh.
Qed.

(** One step of a proof that a run makes no teardown call and returns
    when its calls do, by the shape of the program. *)
Ltac settle_step :=
  lazymatch goal with
  | |- forall _, _ => intro
  | |- settles [] (ret _ _ _) _ => apply settles_ret
  | |- settles [] (bind _ _ _ _) _ => apply (settles_bind [] [])
  | |- settles [] (emit _ _ _) _ => apply settles_emit; reflexivity
  | |- settles [] (LOG _ _ _ _) _ => apply settles_emit; reflexivity
  | |- settles [] (get_cfg _ _) _ => apply settles_get_cfg
  | |- settles [] (ext _ _ _ _) _ => apply settles_ext; intro; reflexivity
  | |- settles _ ((if ?b then _ else _) _ _) _ => destruct b
  | |- settles _ (match ?x with _ => _ end _ _) _ => destruct x
  end.

Ltac settle :=
  unfold ext_unit, ext_bool, ext_str; cbv beta zeta; repeat settle_step.

Section Cleanup.
Variable world : list event -> call -> reply.
Variable target_path : string -> pyval -> string.
Variable get_dd_images : pyval -> list string.
Variable get_iscsi_disks_from_config : dict -> list string.
Variable get_zpool_from_config : dict -> list string.
Variable format_exception : exn -> string.

(** [writeline] passes over the [IOError] and [OSError] of its calls. *)
Lemma writeline_settles fname output h σ :
  settles [] (writeline world fname output h σ) σ.
Proof.
  unfold writeline, try_except_OSError. run_pure.
  ask_world; run_pure.
  - ask_world; run_pure.
    + unfold settles. cbn [final emitted res app].
      rewrite ?teardown_calls_cons. by repeat split.
    + destruct (is_OSError e) eqn:He; run_pure;
        unfold settles; cbn [final emitted res app];
        rewrite ?teardown_calls_cons; repeat split; try done.
      intros Hall. apply Forall_cons in Hall as [_ Hall].
      apply Forall_cons in Hall as [Hall _]. simpl in Hall. congruence.
  - destruct (is_OSError e) eqn:He; run_pure;
      unfold settles; cbn [final emitted res app];
      rewrite ?teardown_calls_cons; repeat split; try done.
    intros Hall. apply Forall_cons in Hall as [Hall _].
    simpl in Hall. congruence.
Qed.

Lemma copy_install_log_settles logfile target log_target_path h σ :
  settles []
    (copy_install_log world target_path logfile target log_target_path h σ) σ.
Proof. unfold copy_install_log. settle. Qed.

Lemma flat_map_singleton {A B} (f : A -> B) (l : list A) :
  flat_map (fun x => [f x]) l = map f l.
Proof. induction l as [|x l IH]; simpl; by rewrite ?IH. Qed.

(** The teardown makes the calls of its plan, in order. *)
Lemma cmd_install_teardown_settles workingd h σ :
  settles
    (teardown_plan get_iscsi_disks_from_config get_zpool_from_config
       (h_cfg σ) workingd)
    (cmd_install_teardown world get_iscsi_disks_from_config
       get_zpool_from_config workingd h σ) σ.
Proof.
  unfold cmd_install_teardown, teardown_plan.
  apply settles_bind; [by apply settles_teardown|]. intros _ _.
  match goal with
  | |- settles ?p _ _ => change p with ([] ++ p)
  end.
  apply settles_bind; [apply settles_get_cfg|].
  intros cfg [= <-].
  apply settles_bind.
  { destruct (bool_decide (get_iscsi_disks_from_config (h_cfg σ) = []));
      cbn [negb]; [apply settles_ret | by apply settles_teardown]. }
  intros _ _. apply settles_bind; [|intros _ _; by apply settles_teardown].
  rewrite <- flat_map_singleton. apply settles_for_each. intros pool h'.
  change [ZpoolExport pool] with ([] ++ [ZpoolExport pool]).
  apply settles_bind; [by apply settles_emit|].
  intros _ _. by apply settles_teardown.
Qed.

(** The [finally] clause of an attempt whose working directory was
    created, when unmounting is not disabled. *)
Lemma cmd_install_finally_settles instcfg logfile workingd h σ :
  py_eq (dict_get_default instcfg "unmount" (PStr "")) (PStr "disabled")
  = false ->
  settles
    (teardown_plan get_iscsi_disks_from_config get_zpool_from_config
       (h_cfg σ) workingd)
    (cmd_install_finally world target_path get_iscsi_disks_from_config
       get_zpool_from_config instcfg logfile (Some workingd) h σ) σ.
Proof.
  intros Hunmount. unfold cmd_install_finally. rewrite Hunmount.
  match goal with
  | |- settles ?p _ _ => change p with ([] ++ p)
  end.
  apply settles_bind.
  - destruct (truthy _); [apply copy_install_log_settles | apply settles_ret].
  - intros _ _. apply cmd_install_teardown_settles.
Qed.

(** Without a working directory, or with unmounting disabled, the
    [finally] clause tears nothing down. *)
Lemma cmd_install_finally_idle instcfg logfile workingd h σ :
  workingd = None
  \/ py_eq (dict_get_default instcfg "unmount" (PStr "")) (PStr "disabled")
     = true ->
  settles []
    (cmd_install_finally world target_path get_iscsi_disks_from_config
       get_zpool_from_config instcfg logfile workingd h σ) σ.
Proof.
  intros Hidle. unfold cmd_install_finally.
  apply (settles_bind [] []).
  - destruct workingd as [wd|]; [|apply settles_ret].
    destruct (truthy _); [apply copy_install_log_settles | apply settles_ret].
  - intros _ _. destruct (py_eq _ _).
    + by apply settles_emit.
    + destruct Hidle as [->|?]; [apply settles_ret | done].
Qed.

(** The handler reports the failure and raises the exception again. *)
Lemma cmd_install_except_reraises logfile error_tarfile e h σ :
  reraises e
    (cmd_install_except world format_exception logfile error_tarfile e h σ) σ.
Proof.
  unfold cmd_install_except. cbv zeta.
  apply reraises_bind; [apply writeline_settles|]. intros _ _.
  apply reraises_bind; [by apply settles_emit|]. intros _ _.
  apply reraises_bind; [settle|]. intros _ _.
  apply reraises_bind; [settle|]. intros _ _.
  apply reraises_raise.
Qed.

End Cleanup.

(** What the [try] statements do with the outcome of their body. *)
Lemma try_finally_run {A} (body : M A) (finalizer : M unit) h σ :
  try_finally body finalizer h σ
  = Outcome
      (match res (finalizer (h ++ emitted (body h σ)) (final (body h σ))) with
       | Ok _ => res (body h σ)
       | Raise e => Raise e
       end)
      (emitted (body h σ)
       ++ emitted (finalizer (h ++ emitted (body h σ)) (final (body h σ))))
      (final (finalizer (h ++ emitted (body h σ)) (final (body h σ)))).
Proof.
  unfold try_finally, bind, attempt, of_result. cbn [res emitted final].
  destruct (res (finalizer _ _)); [|done].
  destruct (res (body h σ)); cbn [res emitted final ret raise];
    by rewrite app_nil_r.
Qed.

Lemma try_except_run {A} (body : M A) (handler : exn -> M A) h σ :
  try_except body handler h σ
  = match res (body h σ) with
    | Ok a => Outcome (Ok a) (emitted (body h σ)) (final (body h σ))
    | Raise e =>
        if is_Exception e
        then prepend (emitted (body h σ))
               (handler e (h ++ emitted (body h σ)) (final (body h σ)))
        else Outcome (Raise e) (emitted (body h σ)) (final (body h σ))
    end.
Proof.
  unfold try_except. rewrite bind_obind, attempt_oattempt, obind_oattempt.
  destruct (res (body h σ)) as [a|e]; [by run_pure|].
  destruct (is_Exception e); [done | by run_pure].
Qed.

(** The [try] block with its handler: what follows the block makes no
    teardown call and, when its calls are harmless, leaves the outcome of
    the block as it is. *)
Lemma try_except_reraises {A} (body : M A) (handler : exn -> M A) h σ :
  (forall e h', reraises e (handler e h' (final (body h σ))) (final (body h σ))) ->
  exists tail,
    emitted (try_except body handler h σ) = emitted (body h σ) ++ tail
    /\ final (try_except body handler h σ) = final (body h σ)
    /\ teardown_calls tail = []
    /\ (Forall (fun e => harmless e = true) tail ->
        res (try_except body handler h σ) = res (body h σ)).
Proof.
  intros Hhandler. rewrite try_except_run.
  destruct (res (body h σ)) as [a|e] eqn:Hres.
  - exists []. cbn [emitted final res]. by rewrite app_nil_r.
  - destruct (is_Exception e).
    + destruct (Hhandler e (h ++ emitted (body h σ))) as (Hf & Hq & Hr).
      eexists. rewrite emitted_prepend, final_prepend, res_prepend.
      split; [done|]. split; [done|]. split; [done|]. done.
    + exists []. cbn [emitted final res]. by rewrite app_nil_r.
Qed.

(** The handler never returns. *)
Lemma cmd_install_except_raises
    world format_exception logfile error_tarfile e h σ :
  is_ok (res (cmd_install_except world format_exception logfile error_tarfile
                e h σ)) = false.
Proof.
  assert (Hbind : forall A B (m : M A) (k : A -> M B) h' σ',
             (forall a h'' σ'', is_ok (res (k a h'' σ'')) = false) ->
             is_ok (res (bind m k h' σ')) = false).
  { intros A B m k h' σ' Hk. unfold bind.
    destruct (res (m h' σ')); cbn [res]; [apply Hk | done]. }
  unfold cmd_install_except. cbv zeta.
  do 4 (apply Hbind; intros _ ? ?). done.
Qed.



(** An install of two stages whose first command fails, on a configuration
    with an iSCSI disk and two ZFS pools. *)
Abbreviation failing_install :=
  (cmd_install_guarded (calm_world [] 1) simple_target_path
     (fun _ => []) (fun _ => ["disk0"]) (fun _ => ["pool0"; "pool1"]) no_text
     top_reportstack [] INSTALL_LOG PNone [] two_stage_heap).

Definition two_stage_workingd : WorkingDir :=
  {| wd_scratch := "/tmp/tmpx/scratch";
     wd_target := "/tmp/tmpx/target";
     wd_top := "/tmp/tmpx";
     wd_interfaces := "/tmp/tmpx/state/interfaces";
     wd_netconf := "/tmp/tmpx/state/network_config";
     wd_netstate := "/tmp/tmpx/state/network_state";
     wd_fstab := "/tmp/tmpx/state/fstab";
     wd_config := two_stage_config;
     wd_config_file := "/tmp/tmpx/state/config" |}.





(** ** The commands of the stages within the install attempt *)

Definition no_popen (ev : event) : Prop := is_popen ev = false.

(** [halts m]: every run of [m] stops at the first failed command. *)
Definition halts {A} (m : M A) : Prop :=
  forall h σ, stops_at_failure (raised (m h σ)) (emitted (m h σ)).

Lemma halts_quiet {A} (m : M A) : emits no_popen m -> halts m.
Proof. intros Hm h σ. apply stops_no_popen, Hm. Qed.

Lemma halts_bind {A B} (m : M A) (k : A -> M B) :
  halts m -> (forall a, halts (k a)) -> halts (bind m k).
Proof.
  intros Hm Hk h σ. specialize (Hm h σ). unfold bind, raised in *.
  destruct (res (m h σ)) as [a|e] eqn:Hres; cbn [res emitted]; [|done].
  apply stops_app_l; [by apply stops_None | apply Hk].
Qed.

(** A run that goes on after one that stops at the first failed command,
    starts nothing, and keeps the exception when its calls return. *)
Lemma stops_extend r r' (a b : list event) :
  stops_at_failure r a ->
  Forall no_popen b ->
  (r <> None -> r' <> None) ->
  (r <> None -> Forall (fun e => returned e = true) b -> r' = r) ->
  stops_at_failure r' (a ++ b).
Proof.
  intros Ha Hb Hsome Hsame. induction a as [|ev a IH]; simpl.
  - by apply stops_no_popen.
  - destruct Ha as [Hev Ha]. split; [|by apply IH].
    destruct (failed_launch ev) as [[cmd p]|]; [|done].
    destruct Hev as (Hno & Hr & Hret). split; [|split; [auto|]].
    + apply Forall_app. done.
    + intros [Hra Hrb]%Forall_app. rewrite (Hsame Hr Hrb). auto.
Qed.

Lemma returned_harmless (tr : list event) :
  Forall (fun e => returned e = true) tr ->
  Forall (fun e => harmless e = true) tr.
Proof.
  intros H. eapply Forall_impl; [exact H|].
  intros [c [v|e]]; [by destruct c | done].
Qed.

Section NoCommand.
Variable world : list event -> call -> reply.
Variable target_path : string -> pyval -> string.
Variable get_dd_images : pyval -> list string.
Variable get_iscsi_disks_from_config : dict -> list string.
Variable get_zpool_from_config : dict -> list string.
Variable format_exception : exn -> string.

Lemma writeline_no_popen fname output :
  emits no_popen (writeline world fname output).
Proof. unfold writeline. quiet. Qed.
Hint Resolve writeline_no_popen : quiet.

Lemma writeline_and_stdout_no_popen logfile message :
  emits no_popen (writeline_and_stdout world logfile message).
Proof. unfold writeline_and_stdout. quiet. Qed.

Lemma WorkingDir_init_no_popen config :
  emits no_popen (WorkingDir_init world format_exception config).
Proof. unfold WorkingDir_init. quiet. Qed.

Lemma apply_kexec_no_popen kexec target :
  emits no_popen (apply_kexec world kexec target).
Proof. unfold apply_kexec. quiet. Qed.

Lemma cmd_install_except_no_popen logfile error_tarfile e :
  emits no_popen
    (cmd_install_except world format_exception logfile error_tarfile e).
Proof. unfold cmd_install_except. quiet. Qed.

Lemma cmd_install_finally_no_popen instcfg logfile workingd :
  emits no_popen
    (cmd_install_finally world target_path get_iscsi_disks_from_config
       get_zpool_from_config instcfg logfile workingd).
Proof.
  unfold cmd_install_finally, cmd_install_teardown, copy_install_log. quiet.
Qed.
Hint Resolve writeline_and_stdout_no_popen apply_kexec_no_popen : quiet.

(** The [try] block stops at the first failed command. *)
Lemma cmd_install_try_halts args_reportstack logfile workingd :
  halts (cmd_install_try world get_dd_images format_exception
           args_reportstack logfile workingd).
Proof.
  unfold cmd_install_try.
  apply halts_bind; [apply halts_quiet; quiet|]. intros cfg.
  destruct (_ <? _)%nat; [apply halts_quiet; quiet|].
  apply halts_bind; [apply halts_quiet; quiet|]. intros _.
  apply halts_bind; [apply halts_quiet; quiet|]. intros environ.
  apply halts_bind; [apply halts_quiet; quiet|]. intros stages.
  apply halts_bind; [|intros _; apply halts_quiet; quiet].
  intros h σ. apply cmd_install_stages_follows.
Qed.

(** The install attempt, by its parts: the creation of the working
    directory, the [try] block with its handler, the [finally] clause. *)
Lemma cmd_install_guarded_run args_reportstack instcfg logfile error_tarfile
    h σ :
  let created := WorkingDir_init world format_exception (h_cfg σ) h σ in
  let guarded :=
    try_except
      (match res created with
       | Ok wd =>
           cmd_install_try world get_dd_images format_exception
             args_reportstack logfile wd
       | Raise e => raise e
       end)
      (cmd_install_except world format_exception logfile error_tarfile)
      (h ++ emitted created) (final created) in
  let finished :=
    cmd_install_finally world target_path get_iscsi_disks_from_config
      get_zpool_from_config instcfg logfile
      (match res created with Ok wd => Some wd | Raise _ => None end)
      ((h ++ emitted created) ++ emitted guarded) (final guarded) in
  cmd_install_guarded world target_path get_dd_images
    get_iscsi_disks_from_config get_zpool_from_config format_exception
    args_reportstack instcfg logfile error_tarfile h σ
  = Outcome
      (match res finished with
       | Ok _ => res guarded
       | Raise e => Raise e
       end)
      (emitted created ++ emitted guarded ++ emitted finished)
      (final finished).
Proof.
  cbv zeta. unfold cmd_install_guarded.
  rewrite bind_obind, run_get_cfg, obind_Ok, prepend_nil.
  rewrite bind_obind, attempt_oattempt, obind_oattempt.
  rewrite !app_nil_r. rewrite try_finally_run. by rewrite prepend_Outcome.
Qed.

(** The whole install attempt stops at the first failed command: the
    handler and the [finally] clause start nothing, and the exception of
    the command is the one the caller gets when their calls return. *)
Lemma cmd_install_guarded_halts args_reportstack instcfg logfile
    error_tarfile :
  halts (cmd_install_guarded world target_path get_dd_images
           get_iscsi_disks_from_config get_zpool_from_config format_exception
           args_reportstack instcfg logfile error_tarfile).
Proof.
  intros h σ. rewrite cmd_install_guarded_run. cbv zeta.
  set (created := WorkingDir_init world format_exception (h_cfg σ) h σ).
  set (guarded := try_except _ _ _ _).
  set (finished := cmd_install_finally _ _ _ _ _ _ _ _ _).
  unfold raised. cbn [res emitted].
  apply stops_app_l.
  { eapply Forall_impl; [apply WorkingDir_init_no_popen|].
    apply not_popen_not_failed. }
  assert (Hfin : Forall no_popen (emitted finished))
    by apply cmd_install_finally_no_popen.
  assert (Hfinok : Forall (fun e => harmless e = true) (emitted finished) ->
                   is_ok (res finished) = true).
  { unfold finished.
    destruct (res created) as [wd|e0];
      [destruct (py_eq (dict_get_default instcfg "unmount" (PStr ""))
                   (PStr "disabled")) eqn:Hunmount|].
    - apply cmd_install_finally_idle. by right.
    - by apply cmd_install_finally_settles.
    - apply cmd_install_finally_idle. by left. }
  clearbody finished. revert Hfinok Hfin.
  unfold guarded. clear guarded. rewrite try_except_run.
  destruct (res created) as [wd|e0].
  - set (block := cmd_install_try _ _ _ _ _ _ _ _).
    pose proof (cmd_install_try_halts args_reportstack logfile wd
                  (h ++ emitted created) (final created)) as Hblock.
    fold block in Hblock. unfold raised in Hblock.
    destruct (res block) as [[]|e] eqn:Hres.
    + cbn [res emitted]. intros Hfinok Hfin.
      apply stops_None in Hblock. apply stops_no_failed.
      apply Forall_app. split; [done|].
      eapply Forall_impl; [exact Hfin | apply not_popen_not_failed].
    + destruct (is_Exception e).
      * rewrite res_prepend, emitted_prepend. intros Hfinok Hfin.
        set (handled := cmd_install_except _ _ _ _ _ _ _).
        pose proof (cmd_install_except_raises world format_exception
                      logfile error_tarfile e
                      ((h ++ emitted created) ++ emitted block)
                      (final block)) as Hraises.
        pose proof (cmd_install_except_reraises world format_exception
                      logfile error_tarfile e
                      ((h ++ emitted created) ++ emitted block)
                      (final block)) as (_ & _ & Hsame).
        pose proof (cmd_install_except_no_popen logfile error_tarfile e
                      ((h ++ emitted created) ++ emitted block)
                      (final block)) as Hquiet.
        fold handled in Hraises, Hsame, Hquiet.
        rewrite <- app_assoc.
        apply (stops_extend (Some e)); [done | by apply Forall_app | |].
        -- intros _. destruct (res finished); [|done].
           by destruct (res handled).
        -- intros _ [Hh Hf]%Forall_app.
           apply returned_harmless in Hh, Hf.
           rewrite (Hsame Hh). by destruct (res finished); [|apply Hfinok in Hf].
      * cbn [res emitted]. intros Hfinok Hfin.
        apply (stops_extend (Some e)); [done | done | |].
        -- intros _. by destruct (res finished).
        -- intros _ Hf%returned_harmless.
           by destruct (res finished); [|apply Hfinok in Hf].
  - rewrite run_raise. cbn [res]. intros Hfinok Hfin.
    apply stops_no_popen.
    destruct (is_Exception e0).
    + rewrite emitted_prepend. cbn [emitted app]. apply Forall_app. split; [|done].
      apply cmd_install_except_no_popen.
    + cbn [emitted app]. done.
Qed.

End NoCommand.

(** A failed command within the install attempt: the calls of the [try]
    block after the start of the command, then those of the handler and of
    the [finally] clause.  The handler passes over a failed [open] or
    [write] of the log. *)
Lemma failed_command_in_attempt
    world target_path get_dd_images get_iscsi_disks_from_config
    get_zpool_from_config format_exception args_reportstack instcfg logfile
    error_tarfile h σ wd pre cmd cenv shell p post :
  returncode p ≠ 0%Z ->
  res (WorkingDir_init world format_exception (h_cfg σ) h σ) = Ok wd ->
  let created := WorkingDir_init world format_exception (h_cfg σ) h σ in
  let block :=
    cmd_install_try world get_dd_images format_exception args_reportstack
      logfile wd (h ++ emitted created) (final created) in
  let o :=
    cmd_install_guarded world target_path get_dd_images
      get_iscsi_disks_from_config get_zpool_from_config format_exception
      args_reportstack instcfg logfile error_tarfile h σ in
  emitted block = pre ++ (Popen cmd cenv shell, Ret (RProc p)) :: post ->
  exists handled finished,
    emitted o = emitted created ++ emitted block ++ handled ++ finished
    /\ Forall (fun e => is_popen e = false) (post ++ handled ++ finished)
    /\ (exists e, res o = Raise e)
    /\ (Forall (fun e => returned e = true) post ->
        Forall (fun e => harmless e = true) (handled ++ finished) ->
        res o = Raise (ProcessExecutionError (Some (captured p))
                         (Some (returncode p)) cmd None)).
Proof.
  intros Hrc Hwd created block o Heq. fold created in Hwd.
  assert (Hfailed : failed_launch (Popen cmd cenv shell, Ret (RProc p))
                    = Some (cmd, p)).
  { simpl. by rewrite (proj2 (Z.eqb_neq _ _) Hrc). }
  pose proof (cmd_install_try_halts world get_dd_images format_exception
                args_reportstack logfile wd (h ++ emitted created)
                (final created)) as Hstop.
  fold block in Hstop. rewrite Heq in Hstop.
  destruct (stops_at_failure_split _ _ _ _ _ _ Hstop Hfailed)
    as (Hq & Hr & Hret).
  unfold raised in Hr, Hret.
  destruct (res block) as [[]|e] eqn:Hblock; [done|]. clear Hr.
  unfold o. rewrite cmd_install_guarded_run. cbv zeta. fold created.
  rewrite Hwd. fold block.
  set (finished := cmd_install_finally _ _ _ _ _ _ _ _ _).
  assert (Hfin : Forall no_popen (emitted finished))
    by apply cmd_install_finally_no_popen.
  assert (Hfinok : Forall (fun e => harmless e = true) (emitted finished) ->
                   is_ok (res finished) = true).
  { unfold finished.
    destruct (py_eq (dict_get_default instcfg "unmount" (PStr ""))
                (PStr "disabled")) eqn:Hunmount.
    - apply cmd_install_finally_idle. by right.
    - by apply cmd_install_finally_settles. }
  revert Hfin Hfinok. generalize finished. clear finished.
  rewrite try_except_run. fold block. rewrite Hblock.
  destruct (is_Exception e) eqn:Hexc.
  - set (handled := cmd_install_except _ _ _ _ _ _ _).
    pose proof (cmd_install_except_raises world format_exception logfile
                  error_tarfile e ((h ++ emitted created) ++ emitted block)
                  (final block)) as Hraises.
    pose proof (cmd_install_except_reraises world format_exception
                  logfile error_tarfile e
                  ((h ++ emitted created) ++ emitted block)
                  (final block)) as (_ & _ & Hsame).
    pose proof (cmd_install_except_no_popen world format_exception logfile
                  error_tarfile e ((h ++ emitted created) ++ emitted block)
                  (final block)) as Hquiet.
    fold handled in Hraises, Hsame, Hquiet. clearbody handled.
    intros finished Hfin Hfinok.
    exists (emitted handled), (emitted finished).
    rewrite emitted_Outcome, res_Outcome, emitted_prepend, res_prepend.
    split; [by rewrite <- !app_assoc|].
    split; [by rewrite !Forall_app|].
    split.
    { destruct (res finished); [|eauto]. destruct (res handled); [done|eauto]. }
    intros Hpost [Hh Hf]%Forall_app.
    specialize (Hfinok Hf). destruct (res finished); [|done].
    rewrite (Hsame Hh). f_equal. specialize (Hret Hpost). by simplify_eq.
  - intros finished Hfin Hfinok.
    exists [], (emitted finished).
    rewrite emitted_Outcome, res_Outcome. cbn [emitted res app].
    split; [done|].
    split; [by rewrite !Forall_app|].
    split.
    { destruct (res finished); eauto. }
    intros Hpost Hf.
    specialize (Hfinok Hf). destruct (res finished); [|done].
    f_equal. specialize (Hret Hpost). by simplify_eq.
Qed.

(** C2, as amended.  When a command of a stage exits with a nonzero return
    code, no command is started after it, neither in its stage nor in a
    later one, and the run ends in an exception.  The exception is the
    process-execution error with all the output captured and the exit code
    when every call made after the start of the command returns: the
    forwarding of its output to stdout and to the install log, which
    nothing guards, can raise, and then that exception ends the run.
    This holds for [Stage.run], for the loop over the stages and for the
    whole install attempt, whose handler and [finally] clause start no
    command and raise the error again; there a failed [open] or [write] of
    the log in the handler is passed over and changes nothing. *)
Theorem failed_command_stops_the_stages
    world target_path get_dd_images get_iscsi_disks_from_config
    get_zpool_from_config format_exception args_reportstack instcfg logfile
    error_tarfile env names self h σ pre cmd cenv shell p post :
  returncode p ≠ 0%Z ->
  (emitted (Stage_run world format_exception self h σ)
   = pre ++ (Popen cmd cenv shell, Ret (RProc p)) :: post ->
   Forall (fun e => is_popen e = false) post
   /\ (exists e, res (Stage_run world format_exception self h σ) = Raise e)
   /\ (Forall (fun e => returned e = true) post ->
       res (Stage_run world format_exception self h σ)
       = Raise (ProcessExecutionError (Some (captured p))
                  (Some (returncode p)) cmd None)))
  /\ (emitted (cmd_install_stages world format_exception args_reportstack
                 logfile env names h σ)
      = pre ++ (Popen cmd cenv shell, Ret (RProc p)) :: post ->
      Forall (fun e => is_popen e = false) post
      /\ (exists e, res (cmd_install_stages world format_exception
                           args_reportstack logfile env names h σ) = Raise e)
      /\ (Forall (fun e => returned e = true) post ->
          res (cmd_install_stages world format_exception args_reportstack
                 logfile env names h σ)
          = Raise (ProcessExecutionError (Some (captured p))
                     (Some (returncode p)) cmd None)))
  /\ (emitted (cmd_install_guarded world target_path get_dd_images
                 get_iscsi_disks_from_config get_zpool_from_config
                 format_exception args_reportstack instcfg logfile
                 error_tarfile h σ)
      = pre ++ (Popen cmd cenv shell, Ret (RProc p)) :: post ->
      Forall (fun e => is_popen e = false) post
      /\ (exists e, res (cmd_install_guarded world target_path get_dd_images
                           get_iscsi_disks_from_config get_zpool_from_config
                           format_exception args_reportstack instcfg logfile
                           error_tarfile h σ) = Raise e)
      /\ (Forall (fun e => returned e = true) post ->
          res (cmd_install_guarded world target_path get_dd_images
                 get_iscsi_disks_from_config get_zpool_from_config
                 format_exception args_reportstack instcfg logfile
                 error_tarfile h σ)
          = Raise (ProcessExecutionError (Some (captured p))
                     (Some (returncode p)) cmd None)))
  /\ (forall wd,
        res (WorkingDir_init world format_exception (h_cfg σ) h σ) = Ok wd ->
        let created := WorkingDir_init world format_exception (h_cfg σ) h σ in
        let block :=
          cmd_install_try world get_dd_images format_exception
            args_reportstack logfile wd (h ++ emitted created)
            (final created) in
        let o :=
          cmd_install_guarded world target_path get_dd_images
            get_iscsi_disks_from_config get_zpool_from_config
            format_exception args_reportstack instcfg logfile error_tarfile
            h σ in
        emitted block = pre ++ (Popen cmd cenv shell, Ret (RProc p)) :: post ->
        exists handled finished,
          emitted o = emitted created ++ emitted block ++ handled ++ finished
          /\ Forall (fun e => is_popen e = false)
               (post ++ handled ++ finished)
          /\ (exists e, res o = Raise e)
          /\ (Forall (fun e => returned e = true) post ->
              Forall (fun e => harmless e = true) (handled ++ finished) ->
              res o = Raise (ProcessExecutionError (Some (captured p))
                               (Some (returncode p)) cmd None))).
Proof.
  intros Hrc.
  assert (Hfailed : failed_launch (Popen cmd cenv shell, Ret (RProc p))
                    = Some (cmd, p)).
  { simpl. by rewrite (proj2 (Z.eqb_neq _ _) Hrc). }
  assert (Hgen : forall A (o : outcome A),
    stops_at_failure (raised o) (emitted o) ->
    emitted o = pre ++ (Popen cmd cenv shell, Ret (RProc p)) :: post ->
    Forall (fun e => is_popen e = false) post
    /\ (exists e, res o = Raise e)
    /\ (Forall (fun e => returned e = true) post ->
        res o = Raise (ProcessExecutionError (Some (captured p))
                         (Some (returncode p)) cmd None))).
  { intros A o Hstop Heq. rewrite Heq in Hstop.
    destruct (stops_at_failure_split _ _ _ _ _ _ Hstop Hfailed)
      as (Hq & Hr & Hret).
    unfold raised in *. split; [done|]. split.
    - destruct (res o); [done|eauto].
    - intros Hall. specialize (Hret Hall). destruct (res o); by simplify_eq. }
  split; [|split; [|split]].
  - apply Hgen. apply Stage_run_follows.
  - apply Hgen. apply cmd_install_stages_follows.
  - apply Hgen. apply cmd_install_guarded_halts.
  - intros wd Hwd. by apply failed_command_in_attempt.
Qed.

Lemma failed_command_stops_the_stages_witness :
  returncode {| reads := ["o"; "k"]; returncode := 1 |} ≠ 0%Z
  /\ exists pre env post,
       emitted failing_install
       = pre ++ (Popen (PList [PStr "echo"; PStr "hi"]) env false,
                 Ret (RProc {| reads := ["o"; "k"]; returncode := 1 |}))
             :: post
       /\ Forall (fun e => is_popen e = false) post
       /\ res failing_install
          = Raise (ProcessExecutionError (Some "ok") (Some 1%Z)
                     (PList [PStr "echo"; PStr "hi"]) None).
Proof.
  assert (Hrc : returncode {| reads := ["o"; "k"]; returncode := 1 |} ≠ 0%Z)
    by done.
  split; [exact Hrc|].
  exists (take 15 (emitted failing_install)),
         (<["CURTIN_REPORTSTACK" := "cmd-install/stage-early/10_first"]>
            (list_to_map (WorkingDir_env two_stage_workingd))),
         (drop 16 (emitted failing_install)).
  assert (Heq : emitted failing_install
                = take 15 (emitted failing_install)
                  ++ (Popen (PList [PStr "echo"; PStr "hi"])
                        (<["CURTIN_REPORTSTACK" :=
                             "cmd-install/stage-early/10_first"]>
                           (list_to_map (WorkingDir_env two_stage_workingd)))
                        false,
                      Ret (RProc {| reads := ["o"; "k"]; returncode := 1 |}))
                  :: drop 16 (emitted failing_install))
    by (vm_compute; reflexivity).
  destruct (failed_command_stops_the_stages (calm_world [] 1)
              simple_target_path (fun _ => []) (fun _ => ["disk0"])
              (fun _ => ["pool0"; "pool1"]) no_text top_reportstack []
              INSTALL_LOG PNone ∅ [] idle_stage [] two_stage_heap
              (take 15 (emitted failing_install))
              (PList [PStr "echo"; PStr "hi"])
              (<["CURTIN_REPORTSTACK" :=
                   "cmd-install/stage-early/10_first"]>
                 (list_to_map (WorkingDir_env two_stage_workingd))) false
              {| reads := ["o"; "k"]; returncode := 1 |}
              (drop 16 (emitted failing_install)) Hrc)
    as (_ & _ & Hattempt & _).
  destruct (Hattempt Heq) as (Hquiet & _ & Hres).
  split; [exact Heq|]. split; [exact Hquiet|].
  change (captured {| reads := ["o"; "k"]; returncode := 1 |}) with "ok" in Hres.
  apply Hres. vm_compute. repeat constructor.
Defined.

(** A world in which stdout is closed and every command exits with 1. *)
Definition closed_stdout_world : list event -> call -> reply :=
  fun h c =>
    match c with
    | StdoutWrite _ => Exc (OSError "Broken pipe")
    | _ => calm_world [] 1 h c
    end.

Definition echo_stage : Stage :=
  MkStage (PStr "early")
    (PDict [("10_first", PList [PStr "echo"; PStr "hi"]);
            ("20_next", PStr "true")])
    ∅ None top_reportstack.

(** C2 as stated fails when the output of the command cannot be
    forwarded.  The command is started, prints and exits with 1, but the
    first write of its output to stdout raises: [Stage.run] ends in that
    [OSError], which carries neither the output nor the exit code, and not
    in the process-execution error.  (No command is started afterwards.) *)
Lemma failed_command_error_replaced :
  emitted (Stage_run closed_stdout_world no_text echo_stage [] heap0)
  = [(ReportStart "cmd-install/10_first" "running 'echo hi'", Ret RNone);
     (Popen (PList [PStr "echo"; PStr "hi"])
        (<["CURTIN_REPORTSTACK" := "cmd-install/10_first"]> ∅) false,
      Ret (RProc {| reads := ["o"; "k"]; returncode := 1 |}));
     (StdoutWrite "o", Exc (OSError "Broken pipe"));
     (ReportFinish "cmd-install/10_first" "running 'echo hi'" false,
      Ret RNone);
     (LogTimerDone "10_first", Ret RNone)]
  /\ returncode {| reads := ["o"; "k"]; returncode := 1 |} <> 0%Z
  /\ res (Stage_run closed_stdout_world no_text echo_stage [] heap0)
     = Raise (OSError "Broken pipe")
  /\ res (Stage_run closed_stdout_world no_text echo_stage [] heap0)
     <> Raise (ProcessExecutionError (Some "ok") (Some 1%Z)
                 (PList [PStr "echo"; PStr "hi"]) None).
Proof.
  split; [vm_compute; reflexivity|]. split; [done|].
  assert (Hres : res (Stage_run closed_stdout_world no_text echo_stage []
                        heap0)
                 = Raise (OSError "Broken pipe")) by (vm_compute; reflexivity).
  split; [exact Hres|]. rewrite Hres. discriminate.
Qed.

(** ** Further properties *)

Lemma apply_kexec_off_witness :
  apply_kexec (fun _ _ => Ret RNone) (PDict [("mode", PStr "off")])
    "/tmp/target" [] heap0
  = Outcome (Ok false) [] heap0.
Proof. by apply apply_kexec_off. Defined.

(** The part of power-state command synthesis that is as the specification
    says: no configuration gives no command; a configuration that is not a
    mapping, or whose mode is not one of halt, poweroff and reboot, is a
    [TypeError]; for a mode that is one of them the command is the shell
    wrapper with the delay token, followed by [shutdown], the option of the
    mode, [now] and the message when there is one, and the delay token is
    ["5"] when no delay is configured, ["0"] for the delay ["now"], the
    delay without its plus sign and with ["m"] after it for a text that
    starts with a plus sign and a digit (so ["+5"] gives ["5m"]), and the
    delay itself for a text that is not ["now"] and does not start with a
    plus sign and a digit. *)
Theorem load_power_state_synthesis :
  load_power_state PNone = Ok None
  /\ (forall pstate,
        pstate <> PNone -> isinstance_dict pstate = false ->
        load_power_state pstate
        = Raise (TypeError "power_state is not a dict."))
  /\ (forall d : dict,
        (forall s, dict_get d "mode" = Some (PStr s) ->
                   s ∉ ["halt"; "poweroff"; "reboot"]) ->
        exists msg, load_power_state (PDict d) = Raise (TypeError msg))
  /\ (forall (d : dict) mode opt token,
        dict_get d "mode" = Some (PStr mode) ->
        (mode, opt) ∈ opt_map ->
        match dict_get d "delay" with
        | None => token = "5"
        | Some (PStr s) =>
            if String.eqb s "now" then token = "0"
            else
              match s with
              | String c0 (String c rest) =>
                  if Ascii.eqb c0 "+" && is_digit c
                  then token = String c rest +:+ "m"
                  else token = s
              | _ => token = s
              end
        | Some _ => False
        end ->
        load_power_state (PDict d)
        = Ok (Some ([PStr "sh"; PStr "-c"; PStr shcmd; PStr "curtin-poweroff";
                     PStr token]
                    ++ [PStr "shutdown"; PStr opt; PStr "now"]
                    ++ (if truthy (dict_get_default d "message" PNone)
                        then [dict_get_default d "message" PNone]
                        else [])))).
Proof.
  split; [apply load_power_state_none|].
  split; [apply load_power_state_not_a_dict|].
  split; [apply load_power_state_bad_mode|].
  intros d mode opt token Hmode Hopt Htoken.
  assert (Hlookup : opt_map_lookup (dict_get_default d "mode" PNone) = Ok opt).
  { unfold dict_get_default. rewrite Hmode. cbn [from_option id].
    unfold opt_map_lookup.
    apply elem_of_list_to_map_1 in Hopt; [by rewrite Hopt|].
    apply (bool_decide_unpack _). by vm_compute. }
  assert (Hdelay : resolve_delay (dict_get_default d "delay" (PStr "5"))
                   = Ok token).
  { unfold dict_get_default.
    destruct (dict_get d "delay") as [[| | |s| |]|]; cbn [from_option id];
      try done.
    - destruct (String.eqb s "now") eqn:Hnow.
      + apply String.eqb_eq in Hnow. by subst.
      + unfold resolve_delay. cbn [py_eq py_str]. rewrite Hnow.
        destruct s as [|c0 [|c1 rest]]; [by subst..|].
        cbn [match_plus_digits].
        destruct (Ascii.eqb c0 "+" && is_digit c1); by subst.
    - by subst. }
  unfold load_power_state. by rewrite Hlookup, Hdelay.
Qed.

Lemma load_power_state_synthesis_witness :
  load_power_state (PDict [("mode", PStr "reboot"); ("delay", PStr "+5");
                           ("message", PStr "bye")])
  = Ok (Some [PStr "sh"; PStr "-c"; PStr shcmd; PStr "curtin-poweroff";
              PStr "5m"; PStr "shutdown"; PStr "-r"; PStr "now";
              PStr "bye"]).
Proof.
  destruct load_power_state_synthesis as (_ & _ & _ & Hcmd).
  apply (Hcmd [("mode", PStr "reboot"); ("delay", PStr "+5");
               ("message", PStr "bye")] "reboot" "-r" "5m").
  - reflexivity.
  - set_solver.
  - reflexivity.
Defined.

(** With more than one disk image among the sources the [try] block ends
    in a [ValueError] before anything is logged or run. *)
Theorem cmd_install_try_one_disk_image
    world get_dd_images format_exception args_reportstack logfile workingd
    h σ :
  (1 < length (get_dd_images (dict_get_default (h_cfg σ) "sources" (PDict []))))%nat ->
  cmd_install_try world get_dd_images format_exception args_reportstack
    logfile workingd h σ
  = Outcome (Raise (ValueError "You may not use more than one disk image"))
      [] σ.
Proof.
  intros Hmany. unfold cmd_install_try.
  rewrite bind_obind, run_get_cfg, obind_Ok, prepend_nil.
  by rewrite (proj2 (Nat.ltb_lt _ _) Hmany).
Qed.

Lemma cmd_install_try_one_disk_image_witness :
  cmd_install_try (calm_world [] 0) (fun _ => ["a.img"; "b.img"]) no_text
    top_reportstack INSTALL_LOG two_stage_workingd [] two_stage_heap
  = Outcome (Raise (ValueError "You may not use more than one disk image"))
      [] two_stage_heap.
Proof. apply cmd_install_try_one_disk_image. simpl. lia. Defined.

Section Idle.
Variable world : list event -> call -> reply.
Variable target_path : string -> pyval -> string.
Variable get_dd_images : pyval -> list string.
Variable get_iscsi_disks_from_config : dict -> list string.
Variable get_zpool_from_config : dict -> list string.
Variable format_exception : exn -> string.

Lemma cmd_install_except_quiet logfile error_tarfile e :
  emits no_teardown
    (cmd_install_except world format_exception logfile error_tarfile e).
Proof.
  unfold cmd_install_except. pose proof (writeline_quiet world). quiet.
Qed.

End Idle.

(** Without a working directory, or with unmounting disabled, the install
    attempt makes no teardown call: nothing is unmounted and the temporary
    root stays. *)
Theorem no_teardown_without_working_dir_or_unmount
    world target_path get_dd_images get_iscsi_disks_from_config
    get_zpool_from_config format_exception args_reportstack instcfg logfile
    error_tarfile h σ :
  is_ok (res (WorkingDir_init world format_exception (h_cfg σ) h σ)) = false
  \/ py_eq (dict_get_default instcfg "unmount" (PStr "")) (PStr "disabled")
     = true ->
  teardown_calls
    (emitted (cmd_install_guarded world target_path get_dd_images
                get_iscsi_disks_from_config get_zpool_from_config
                format_exception args_reportstack instcfg logfile
                error_tarfile h σ))
  = [].
Proof.
  intros Hidle.
  rewrite (cmd_install_guarded_run world target_path get_dd_images
             get_iscsi_disks_from_config get_zpool_from_config
             format_exception).
  cbv zeta. cbn [emitted]. rewrite !teardown_calls_app.
  set (created := WorkingDir_init world format_exception (h_cfg σ) h σ) in *.
  rewrite (teardown_calls_none (emitted created))
    by apply WorkingDir_init_quiet.
  rewrite teardown_calls_none.
  2:{ match goal with
      | |- Forall _ (emitted (?m ?h' ?σ')) =>
          assert (Hm : emits no_teardown m); [|apply Hm]
      end.
      pose proof (cmd_install_except_quiet world format_exception).
      pose proof (cmd_install_try_quiet world format_exception get_dd_images).
      destruct (res created); quiet. }
  cbn [app].
  match goal with
  | |- teardown_calls (emitted ?fin) = [] =>
      assert (Hfin : settles [] fin (final (try_except
        (match res created with
         | Ok wd => cmd_install_try world get_dd_images format_exception
                      args_reportstack logfile wd
         | Raise e => raise e
         end)
        (cmd_install_except world format_exception logfile error_tarfile)
        (h ++ emitted created) (final created))))
  end.
  { apply cmd_install_finally_idle.
    destruct Hidle as [Hwd|Hunmount]; [left | by right].
    by destruct (res created). }
  destruct Hfin as (_ & Hp & _). by apply prefix_nil_inv in Hp.
Qed.

Lemma no_teardown_without_working_dir_or_unmount_witness :
  teardown_calls
    (emitted (cmd_install_guarded (calm_world [] 1) simple_target_path
                (fun _ => []) (fun _ => ["disk0"])
                (fun _ => ["pool0"; "pool1"]) no_text top_reportstack
                [("unmount", PStr "disabled")] INSTALL_LOG PNone []
                two_stage_heap))
  = [].
Proof.
  apply no_teardown_without_working_dir_or_unmount. right. reflexivity.
Defined.

(** ** Proxy migration: what it leaves alone *)

Lemma dict_del_del (d : dict) k : dict_del (dict_del d k) k = dict_del d k.
Proof.
  unfold dict_del. induction d as [|[k' v] d IH]; [done|].
  rewrite filter_cons. case_decide as Hk; simpl in Hk.
  - rewrite filter_cons. rewrite decide_True by done. by rewrite IH.
  - done.
Qed.

Lemma dict_del_absent (d : dict) k : dict_get d k = None -> dict_del d k = d.
Proof.
  unfold dict_del. induction d as [|[k' v] d IH]; [done|]. simpl.
  case_decide as Hk; [done|]. intros Hd. rewrite filter_cons.
  rewrite decide_True by done. by rewrite IH.
Qed.

Lemma dict_set_set (d : dict) k v :
  dict_set (dict_set d k v) k v = dict_set d k v.
Proof.
  induction d as [|[k' v'] d IH]; simpl.
  - by rewrite decide_True.
  - case_decide as Hk; simpl.
    + rewrite decide_True by done. by rewrite dict_del_del.
    + rewrite decide_False by done. by rewrite IH.
Qed.

(** The configuration migration returns: the old one without the legacy
    key, with [proxy] set to the old [proxy] or to it with [http_proxy]
    added. *)
Lemma migrate_proxy_settings_shape (cfg cfg' : dict) h σ :
  res (migrate_proxy_settings cfg h σ) = Ok cfg' ->
  exists proxy proxy',
    dict_get_default cfg "proxy" (PDict []) = PDict proxy
    /\ cfg' = dict_set (dict_del cfg "http_proxy") "proxy" (PDict proxy')
    /\ (proxy' = proxy
        \/ exists hp, proxy' = dict_set proxy "http_proxy" hp).
Proof.
  unfold migrate_proxy_settings.
  destruct (dict_get_default cfg "proxy" (PDict [])) as [| | | | |proxy]
    eqn:Hproxy; try done.
  intros Hres. exists proxy. revert Hres.
  unfold dict_mem.
  destruct (dict_get cfg "http_proxy") as [X|] eqn:HX.
  - rewrite bool_decide_eq_true_2 by eauto.
    destruct (truthy _); [destruct (negb _)|]; simpl;
      intros [= <-]; eexists; (split; [done|]); (split; [done|]); eauto.
  - rewrite bool_decide_eq_false_2 by (by intros [? ?]). simpl.
    intros [= <-]. exists proxy. rewrite (dict_del_absent cfg) by done. auto.
Qed.

(** Proxy migration touches nothing but the legacy key and
    [proxy.http_proxy], and migrating a migrated configuration changes
    nothing and logs nothing. *)
Theorem migrate_proxy_settings_frame (cfg cfg' : dict) h σ :
  res (migrate_proxy_settings cfg h σ) = Ok cfg' ->
  (forall k, k <> "http_proxy" -> k <> "proxy" ->
             dict_get cfg' k = dict_get cfg k)
  /\ (exists proxy proxy',
        dict_get_default cfg "proxy" (PDict []) = PDict proxy
        /\ dict_get cfg' "proxy" = Some (PDict proxy')
        /\ forall k, k <> "http_proxy" ->
                     dict_get proxy' k = dict_get proxy k)
  /\ (forall h' σ',
        migrate_proxy_settings cfg' h' σ' = Outcome (Ok cfg') [] σ').
Proof.
  intros Hres.
  destruct (migrate_proxy_settings_shape _ _ _ _ Hres)
    as (proxy & proxy' & Hproxy & -> & Hproxy').
  split; [|split].
  - intros k Hk1 Hk2.
    by rewrite dict_get_set_ne, dict_get_del_ne.
  - exists proxy, proxy'. split; [done|]. split; [apply dict_get_set_eq|].
    intros k Hk. destruct Hproxy' as [->|[hp ->]]; [done|].
    by apply dict_get_set_ne.
  - intros h' σ'. unfold migrate_proxy_settings, dict_get_default, dict_mem.
    rewrite dict_get_set_eq. simpl.
    rewrite dict_get_set_ne, dict_get_del_eq by done.
    rewrite bool_decide_eq_false_2 by (by intros [? ?]).
    unfold bind, ret. cbn [res emitted final fst snd app].
    by rewrite dict_set_set.
Qed.

Lemma migrate_proxy_settings_frame_witness :
  exists cfg',
    res (migrate_proxy_settings
           [("http_proxy", PStr "http://legacy:3128");
            ("stages", PList [PStr "early"]);
            ("proxy", PDict [("no_proxy", PStr "localhost")])]
           [] heap0) = Ok cfg'
    /\ dict_get cfg' "stages" = Some (PList [PStr "early"])
    /\ migrate_proxy_settings cfg' [] heap0 = Outcome (Ok cfg') [] heap0.
Proof.
  eexists. split; [reflexivity|].
  destruct (migrate_proxy_settings_frame
              [("http_proxy", PStr "http://legacy:3128");
               ("stages", PList [PStr "early"]);
               ("proxy", PDict [("no_proxy", PStr "localhost")])]
              _ [] heap0 eq_refl) as (Hframe & _ & Hagain).
  split; [by rewrite Hframe | apply Hagain].
Defined.

(** ** The scan of the boot configuration: where the entries are *)

(** The numbers of the lines with the word [menuentry], counting from [n]. *)
Fixpoint menu_from (n : nat) (ls : list string) : list nat :=
  match ls with
  | [] => []
  | l :: r => (if Grub.has_menuentry l then [n] else []) ++ menu_from (S n) r
  end.

Lemma scan_fold (ls : list string) n d acc :
  (fold_left Grub.scan_step (Grub.enumerate n ls) (d, acc)).2
  = acc ++ menu_from n ls.
Proof.
  revert n d acc. induction ls as [|l ls IH]; intros n d acc; simpl.
  - by rewrite app_nil_r.
  - unfold Grub.scan_step at 2. cbn [fst snd]. rewrite IH.
    destruct (Grub.has_menuentry l); [by rewrite <- app_assoc | done].
Qed.

Lemma elem_of_menu_from (ls : list string) n m :
  m ∈ menu_from n ls
  <-> n <= m /\ exists l, ls !! (m - n) = Some l /\ Grub.has_menuentry l = true.
Proof.
  revert n. induction ls as [|l ls IH]; intros n; simpl.
  - split; [by intros ?%elem_of_nil | by intros (_ & ? & ? & _)].
  - rewrite elem_of_app, IH. split.
    + intros [Hm|(Hle & l' & Hl' & Hmenu)].
      * destruct (Grub.has_menuentry l) eqn:Hl; [|by apply elem_of_nil in Hm].
        apply list_elem_of_singleton in Hm as ->. split; [done|].
        exists l. by rewrite Nat.sub_diag.
      * split; [lia|]. exists l'. split; [|done].
        replace (m - n) with (S (m - S n)) by lia. done.
    + intros (Hle & l' & Hl' & Hmenu).
      destruct (decide (m = n)) as [->|Hne].
      * rewrite Nat.sub_diag in Hl'. simplify_eq/=. left.
        rewrite Hmenu. by apply list_elem_of_singleton.
      * right. split; [lia|]. exists l'. split; [|done].
        replace (m - n) with (S (m - S n)) in Hl' by lia. done.
Qed.

Lemma menu_from_sorted (ls : list string) n :
  StronglySorted lt (menu_from n ls).
Proof.
  revert n. induction ls as [|l ls IH]; intros n; simpl; [constructor|].
  destruct (Grub.has_menuentry l); simpl; [|apply IH].
  constructor; [apply IH|]. apply Forall_forall. intros m Hm.
  apply elem_of_menu_from in Hm as [Hm _]. lia.
Qed.

Lemma sorted_lookup_lt (l : list nat) i j a b :
  StronglySorted lt l -> l !! i = Some a -> l !! j = Some b -> i < j -> a < b.
Proof.
  intros Hl. revert i j. induction Hl as [|x l Hl IH Hx]; intros i j; [done|].
  destruct i as [|i], j as [|j]; simpl; try lia.
  - intros [= <-] Hb _. rewrite Forall_forall in Hx. apply Hx.
    by eapply list_elem_of_lookup_2.
  - intros Ha Hb Hij. apply (IH i j); [done|done|lia].
Qed.

(** The marker lines the scan collects are the lines with the word
    [menuentry], by ascending line number, counting from 1. *)
Lemma scan_menu_lines lines default menu_lines :
  Grub.scan lines = (default, menu_lines) ->
  StronglySorted lt menu_lines
  /\ forall m, m ∈ menu_lines
               <-> 1 <= m /\ exists l, lines !! (m - 1) = Some l
                                       /\ Grub.has_menuentry l = true.
Proof.
  intros Hscan.
  assert (menu_lines = menu_from 1 lines) as ->.
  { unfold Grub.scan in Hscan.
    pose proof (scan_fold lines 1 0%N []) as Hfold.
    rewrite Hscan in Hfold. done. }
  split; [apply menu_from_sorted | apply elem_of_menu_from].
Qed.

(** The line range of the default entry.  Whenever the default index is
    below the number of marker lines, the range is found (neither
    [menu_lines[default]] nor [menu_lines[default + 1]] is out of range);
    it starts right after the marker line of the entry, lies within the
    file, so that [lines[i]] exists for every [i] of the range, and holds
    no marker line: it ends before the next one, or at the end of the
    file. *)
Theorem entry_range_in_file lines default menu_lines :
  Grub.scan lines = (default, menu_lines) ->
  (default < N.of_nat (length menu_lines))%N ->
  exists begin stop marker,
    Grub.entry_range lines default menu_lines = Ok (begin, stop)
    /\ menu_lines !! N.to_nat default = Some begin
    /\ 1 <= begin <= stop /\ stop <= length lines
    /\ lines !! (begin - 1) = Some marker
    /\ Grub.has_menuentry marker = true
    /\ (forall i, begin <= i < stop ->
          exists l, lines !! i = Some l /\ Grub.has_menuentry l = false)
    /\ (stop = length lines
        \/ exists l, lines !! stop = Some l /\ Grub.has_menuentry l = true).
Proof.
  intros Hscan Hlt.
  destruct (scan_menu_lines _ _ _ Hscan) as [Hsorted Hmem].
  destruct (lookup_lt_is_Some_2 menu_lines (N.to_nat default)) as [begin Hb];
    [lia|].
  assert (Hbm : begin ∈ menu_lines) by by eapply list_elem_of_lookup_2.
  apply Hmem in Hbm as (Hb1 & marker & Hmarker & Hmenu).
  assert (Hblen : begin - 1 < length lines) by by eapply lookup_lt_Some.
  assert (Hline : forall i, i < length lines -> S i ∉ menu_lines ->
            exists l, lines !! i = Some l /\ Grub.has_menuentry l = false).
  { intros i Hi Hnot. destruct (lookup_lt_is_Some_2 lines i Hi) as [l Hl].
    exists l. split; [done|]. destruct (Grub.has_menuentry l) eqn:E; [|done].
    destruct Hnot. apply Hmem. split; [lia|]. exists l.
    by replace (S i - 1) with i by lia. }
  unfold Grub.entry_range, Grub.index.
  rewrite (proj2 (N.ltb_lt _ _) Hlt), Hb.
  destruct (decide (S (N.to_nat default) < length menu_lines)) as [Hnext|Hlast].
  - destruct (lookup_lt_is_Some_2 menu_lines (S (N.to_nat default)) Hnext)
      as [next Hn].
    pose proof (sorted_lookup_lt _ _ _ _ _ Hsorted Hb Hn (Nat.lt_succ_diag_r _))
      as Hbn.
    assert (Hnm : next ∈ menu_lines) by by eapply list_elem_of_lookup_2.
    apply Hmem in Hnm as (Hn1 & nl & Hnl & Hnmenu).
    assert (Hnlen : next - 1 < length lines) by by eapply lookup_lt_Some.
    rewrite bool_decide_eq_true_2.
    2:{ rewrite last_lookup. intros Heq. symmetry in Heq.
        pose proof (sorted_lookup_lt _ _ _ _ _ Hsorted Hb Heq). lia. }
    replace (default + 1)%N with (N.of_nat (S (N.to_nat default))) by lia.
    rewrite (proj2 (N.ltb_lt _ _)) by lia. rewrite Nat2N.id, Hn.
    exists begin, (next - 1), marker.
    split; [done|]. split; [done|]. split; [lia|]. split; [lia|].
    split; [done|]. split; [done|]. split; [|right; eauto].
    intros i Hi. apply Hline; [lia|]. intros Hin.
    apply list_elem_of_lookup_1 in Hin as [j Hj].
    destruct (decide (j <= N.to_nat default)) as [Hle|Hgt].
    + destruct (decide (j = N.to_nat default)) as [->|Hne]; [simplify_eq; lia|].
      pose proof (sorted_lookup_lt _ _ _ _ _ Hsorted Hj Hb). lia.
    + destruct (decide (j = S (N.to_nat default))) as [->|Hne];
        [simplify_eq; lia|].
      pose proof (sorted_lookup_lt _ _ _ _ _ Hsorted Hn Hj). lia.
  - rewrite bool_decide_eq_false_2.
    2:{ rewrite last_lookup. intros Hne. apply Hne.
        replace (pred (length menu_lines)) with (N.to_nat default) by lia.
        done. }
    exists begin, (length lines), marker.
    split; [done|]. split; [done|]. split; [lia|]. split; [lia|].
    split; [done|]. split; [done|]. split; [|by left].
    intros i Hi. apply Hline; [lia|]. intros Hin.
    apply list_elem_of_lookup_1 in Hin as [j Hj].
    assert (j < length menu_lines) by by eapply lookup_lt_Some.
    destruct (decide (j = N.to_nat default)) as [->|Hne]; [simplify_eq; lia|].
    pose proof (sorted_lookup_lt _ _ _ _ _ Hsorted Hj Hb). lia.
Qed.

Lemma entry_range_in_file_witness :
  Grub.scan (two_entries set_default_1x) = (1%N, [2; 6])
  /\ Grub.entry_range (two_entries set_default_1x) 1 [2; 6] = Ok (6, 9)
  /\ exists l, two_entries set_default_1x !! 8 = Some l
               /\ Grub.has_menuentry l = false.
Proof.
  split; [reflexivity|].
  destruct (entry_range_in_file (two_entries set_default_1x) 1 [2; 6]
              eq_refl eq_refl)
    as (begin & stop & marker & Hrange & _ & _ & _ & _ & _ & Hlines & _).
  assert (Hcomputed : Grub.entry_range (two_entries set_default_1x) 1 [2; 6]
                      = Ok (6, 9)) by reflexivity.
  split; [exact Hcomputed|].
  rewrite Hcomputed in Hrange. injection Hrange as <- <-.
  apply Hlines. lia.
Defined.

(** ** The scan of the boot configuration: which lines set the default *)

(** A digit, a double quote and a word character in a row: a quoted
    number that a word directly follows. *)
Fixpoint number_quote_word (s : string) : bool :=
  match s with
  | String d r =>
      match r with
      | String q (String w _) =>
          (is_digit d && Ascii.eqb q dquote && is_word w)
          || number_quote_word r
      | _ => false
      end
  | EmptyString => false
  end.

Lemma strip_prefix_Some (p s r : string) :
  strip_prefix p s = Some r -> s = p +:+ r.
Proof.
  revert s. induction p as [|a p IH]; intros s; simpl.
  - by intros [= ->].
  - destruct s as [|b s]; [done|].
    destruct (Ascii.eqb a b) eqn:Hab; [|done].
    apply Ascii.eqb_eq in Hab as ->. intros Hs.
    change (String b s = String b (p +:+ r)). f_equal. by apply IH.
Qed.

Lemma number_quote_word_cons (c : ascii) (s : string) :
  number_quote_word s = true -> number_quote_word (String c s) = true.
Proof.
  intros Hs. destruct s as [|q [|w s]]; try done.
  change (number_quote_word (String c (String q (String w s))))
    with ((is_digit c && Ascii.eqb q dquote && is_word w)
          || number_quote_word (String q (String w s))).
  rewrite Hs. apply orb_true_r.
Qed.

Lemma number_quote_word_app (a s : string) :
  number_quote_word s = true -> number_quote_word (a +:+ s) = true.
Proof.
  intros Hs. induction a as [|c a IH]; [done|].
  change (number_quote_word (String c (a +:+ s)) = true).
  by apply number_quote_word_cons.
Qed.

Lemma span_digits_nil (s rest : string) :
  Grub.span_digits s = (EmptyString, rest) -> s = rest.
Proof.
  destruct s as [|c s]; simpl; [by intros [= <-]|].
  destruct (is_digit c); [by destruct (Grub.span_digits s)|].
  by intros [= <-].
Qed.

Lemma span_digits_number_quote_word (s ds t : string) (d w : ascii) :
  Grub.span_digits s = (String d ds, String dquote (String w t)) ->
  is_word w = true ->
  number_quote_word s = true.
Proof.
  intros Hspan Hw. revert d ds Hspan.
  induction s as [|c s IH]; intros d ds Hspan; [done|].
  cbn [Grub.span_digits] in Hspan.
  destruct (is_digit c) eqn:Hc; [|done].
  destruct (Grub.span_digits s) as [ds' rest'] eqn:Hs.
  injection Hspan as -> -> ->. destruct ds as [|d' ds].
  - apply span_digits_nil in Hs as ->.
    change ((is_digit d && Ascii.eqb dquote dquote && is_word w)
            || number_quote_word (String dquote (String w t)) = true).
    by rewrite Hc, Hw.
  - apply number_quote_word_cons. by eapply IH.
Qed.

Lemma set_default_here_number (s : string) :
  Grub.set_default_here s = true -> number_quote_word s = true.
Proof.
  unfold Grub.set_default_here.
  destruct (strip_prefix _ s) as [r|] eqn:Hr; [|done].
  apply strip_prefix_Some in Hr as ->.
  destruct (Grub.span_digits r) as [ds rest] eqn:Hds.
  destruct ds as [|d ds]; [done|].
  destruct rest as [|q [|w rest]]; try done.
  intros [Hq Hw]%andb_true_iff. apply Ascii.eqb_eq in Hq as ->.
  apply number_quote_word_app.
  by eapply span_digits_number_quote_word.
Qed.

Lemma search_set_default_number (prev : ascii) (s : string) :
  Grub.search_word_start Grub.set_default_here prev s = true ->
  number_quote_word s = true.
Proof.
  revert prev. induction s as [|c s IH]; intros prev; [done|].
  cbn [Grub.search_word_start].
  intros [[_ Hhere]%andb_true_iff|Hrest]%orb_true_iff.
  - by apply set_default_here_number.
  - apply number_quote_word_cons. by eapply IH.
Qed.

Lemma number_quote_word_space_r (s : string) :
  number_quote_word (s +:+ " ") = number_quote_word s.
Proof.
  induction s as [|d s IH]; [done|].
  destruct s as [|q [|w s]].
  - done.
  - change ((is_digit d && Ascii.eqb q dquote && is_word " ") || false
            = false).
    by rewrite andb_false_r.
  - change ((String q (String w s)) +:+ " ")
      with (String q (String w (s +:+ " "))) in IH.
    change ((is_digit d && Ascii.eqb q dquote && is_word w)
            || number_quote_word (String q (String w (s +:+ " ")))
            = (is_digit d && Ascii.eqb q dquote && is_word w)
              || number_quote_word (String q (String w s))).
    by rewrite IH.
Qed.

(** A line is taken for an assignment of the default only if it holds a
    quoted number whose closing quote a word character directly follows:
    the pattern ends in a word boundary after the closing quote. *)
Lemma has_set_default_number (line : string) :
  Grub.has_set_default line = true -> number_quote_word line = true.
Proof.
  unfold Grub.has_set_default. intros H%search_set_default_number.
  change (" " +:+ line +:+ " ") with (String " " (line +:+ " ")) in H.
  rewrite <- (number_quote_word_space_r line).
  destruct (line +:+ " ") as [|q [|w r]]; try done.
Qed.

(** Lines without such a quoted number leave the default index alone. *)
Lemma scan_default_unread (lines : list string) :
  Forall (fun line => number_quote_word line = false) lines ->
  (Grub.scan lines).1 = 0%N.
Proof.
  intros Hlines. unfold Grub.scan.
  assert (Hfold : forall n st,
            (fold_left Grub.scan_step (Grub.enumerate n lines) st).1 = st.1).
  { induction Hlines as [|line lines Hline _ IH]; intros n st; [done|].
    simpl. rewrite IH. unfold Grub.scan_step. cbn [fst snd].
    destruct (Grub.has_set_default line) eqn:Hset; [|done].
    apply has_set_default_number in Hset. congruence. }
  by rewrite Hfold.
Qed.

(** The default entry of a boot configuration in which no closing quote of
    a number is directly followed by a word character (a letter, a digit
    or an underscore, in the sense of [Py.is_word]) is entry 0, whatever
    its [set default="N"] lines say: such lines are not recognised, since
    after their closing quote comes the end of the line, a blank or
    punctuation. *)
Theorem scan_default_needs_word_after_quote (lines : list string) :
  Forall (fun line => number_quote_word line = false) lines ->
  (Grub.scan lines).1 = 0%N.
Proof. apply scan_default_unread. Qed.

Lemma scan_default_needs_word_after_quote_witness :
  Forall (fun line => number_quote_word line = false)
    (two_entries ("set default=" +:+ chr dquote +:+ "1" +:+ chr dquote))
  /\ (Grub.scan
        (two_entries ("set default=" +:+ chr dquote +:+ "1" +:+ chr dquote))).1
     = 0%N.
Proof.
  assert (Hlines : Forall (fun line => number_quote_word line = false)
            (two_entries ("set default=" +:+ chr dquote +:+ "1"
                          +:+ chr dquote)))
    by (unfold two_entries;
        repeat (constructor; [vm_compute; reflexivity|]); constructor).
  split; [exact Hlines|].
  by apply scan_default_needs_word_after_quote.
Defined.

(** ** The directives of the default entry: lines without an image *)

(** A line with the word [linux] or [initrd] that [shlex.split] cannot
    split, or splits into fewer than two words, ends the turn of the loop
    in an exception: the [ValueError] of [shlex], or the [IndexError] of
    [split_line[1]]. *)
Lemma directive_step_no_image target line e :
  "linux" ∈ py_split line \/ "initrd" ∈ py_split line ->
  match Shlex.split line with
  | Ok toks => toks !! 1 = None
  | Raise _ => True
  end ->
  exists x, Grub.directive_step target line e = Raise x.
Proof.
  intros Hword Hsplit. unfold Grub.directive_step.
  destruct (Shlex.split line) as [toks|x].
  - rewrite Hsplit.
    destruct (bool_decide ("linux" ∈ py_split line)) eqn:Hlinux; [eauto|].
    apply bool_decide_eq_false in Hlinux.
    destruct Hword as [?|Hinitrd]; [done|].
    rewrite bool_decide_eq_true_2 by done. eauto.
  - destruct (bool_decide ("linux" ∈ py_split line)) eqn:Hlinux; [eauto|].
    apply bool_decide_eq_false in Hlinux.
    destruct Hword as [?|Hinitrd]; [done|].
    rewrite bool_decide_eq_true_2 by done. eauto.
Qed.

Lemma directives_fail target lines idx i line e0 :
  i ∈ idx -> lines !! i = Some line ->
  (forall e, exists x, Grub.directive_step target line e = Raise x) ->
  exists x, Grub.directives target lines idx e0 = Raise x.
Proof.
  intros Hi Hline Hfail. revert e0.
  induction idx as [|j idx IH]; intros e0; [by apply elem_of_nil in Hi|].
  simpl. destruct (lines !! j) as [l|] eqn:Hl; [|eauto].
  destruct (Grub.directive_step target l e0) as [e'|x] eqn:Hstep; [|eauto].
  apply elem_of_cons in Hi as [->|Hi]; [|by apply IH].
  simplify_eq. destruct (Hfail e0) as [x Hx]. congruence.
Qed.

(** ** [apply_kexec]: when the kernel is loaded *)

Lemma resolve_Found_kernel target lines e :
  Grub.resolve target lines = Grub.Found e -> Grub.kernel e <> "".
Proof.
  unfold Grub.resolve. destruct (Grub.scan lines) as [default menu_lines].
  destruct menu_lines; [done|].
  destruct (Grub.entry_range _ _ _) as [[begin stop]|]; [|done].
  destruct (Grub.directives _ _ _ _) as [e'|]; [|done].
  destruct (String.eqb (Grub.kernel e') "") eqn:Hk; [done|].
  intros [= <-]. by apply String.eqb_neq.
Qed.

(** The runs of lines 323-370, from the look at the boot configuration
    file on: the calls made and the result. *)
Inductive kexec_load_run (target : string) : list event -> result bool -> Prop :=
| KL_isfile_raises x :
    kexec_load_run target
      [(IsFile (path_join target "boot/grub/grub.cfg"), Exc x)] (Raise x)
| KL_no_file v :
    as_bool v = false ->
    kexec_load_run target
      [(IsFile (path_join target "boot/grub/grub.cfg"), Ret v)]
      (Raise (ValueError ("boot/grub/grub.cfg" +:+ " does not exist in target")))
| KL_read_raises v x :
    as_bool v = true ->
    kexec_load_run target
      [(IsFile (path_join target "boot/grub/grub.cfg"), Ret v);
       (ReadLines (path_join target "boot/grub/grub.cfg"), Exc x)] (Raise x)
| KL_no_menuentry v lines :
    as_bool v = true ->
    Grub.resolve target (as_lines lines) = Grub.NoMenuentry ->
    kexec_load_run target
      [(IsFile (path_join target "boot/grub/grub.cfg"), Ret v);
       (ReadLines (path_join target "boot/grub/grub.cfg"), Ret lines);
       (Log ERROR ("grub config file does not have a menuentry"
                   +:+ chr newline), Ret RNone)]
      (Ok false)
| KL_no_kernel v lines :
    as_bool v = true ->
    Grub.resolve target (as_lines lines) = Grub.NoKernel ->
    kexec_load_run target
      [(IsFile (path_join target "boot/grub/grub.cfg"), Ret v);
       (ReadLines (path_join target "boot/grub/grub.cfg"), Ret lines);
       (Log ERROR ("grub config file does not have a kernel"
                   +:+ chr newline), Ret RNone)]
      (Ok false)
| KL_failed v lines x :
    as_bool v = true ->
    Grub.resolve target (as_lines lines) = Grub.Failed x ->
    kexec_load_run target
      [(IsFile (path_join target "boot/grub/grub.cfg"), Ret v);
       (ReadLines (path_join target "boot/grub/grub.cfg"), Ret lines)]
      (Raise x)
| KL_loaded v lines e r :
    as_bool v = true ->
    Grub.resolve target (as_lines lines) = Grub.Found e ->
    kexec_load_run target
      [(IsFile (path_join target "boot/grub/grub.cfg"), Ret v);
       (ReadLines (path_join target "boot/grub/grub.cfg"), Ret lines);
       (Log DEBUG ("kexec -l " +:+ Grub.kernel e +:+ " " +:+ Grub.append e
                   +:+ " " +:+ Grub.initrd e), Ret RNone);
       (Subp [PStr "kexec"; PStr "-l"; PStr (Grub.kernel e);
              PStr (Grub.append e); PStr (Grub.initrd e)], r)]
      (match r with Ret _ => Ok true | Exc x => Raise x end).

(** The runs of [apply_kexec] that get past the test of the mode: the
    look for the tool, its installation when it is not found, and the
    rest. *)
Inductive kexec_run (target : string) : list event -> result bool -> Prop :=
| KR_which_raises x :
    kexec_run target [(Which "kexec", Exc x)] (Raise x)
| KR_install_raises v x :
    retval_truthy v = false ->
    kexec_run target
      [(Which "kexec", Ret v); (InstallPackages "kexec-tools", Exc x)]
      (Raise x)
| KR_installed v v' tr r :
    retval_truthy v = false ->
    kexec_load_run target tr r ->
    kexec_run target
      ((Which "kexec", Ret v) :: (InstallPackages "kexec-tools", Ret v') :: tr)
      r
| KR_found v tr r :
    retval_truthy v = true ->
    kexec_load_run target tr r ->
    kexec_run target ((Which "kexec", Ret v) :: tr) r.

Lemma kexec_load_run_sound world target h σ evs :
  let o :=
    prepend evs
      (obind (ext_bool world (IsFile (path_join target "boot/grub/grub.cfg"))
                h σ)
         (fun isfile =>
            if negb isfile then
              raise (ValueError ("boot/grub/grub.cfg"
                                 +:+ " does not exist in target"))
            else
              let* lines := let* v := ext world
                              (ReadLines (path_join target "boot/grub/grub.cfg"))
                            in ret (as_lines v) in
              match Grub.resolve target lines with
              | Grub.NoMenuentry =>
                  LOG ERROR ("grub config file does not have a menuentry"
                             +:+ chr newline) >> ret false
              | Grub.Failed e => raise e
              | Grub.NoKernel =>
                  LOG ERROR ("grub config file does not have a kernel"
                             +:+ chr newline) >> ret false
              | Grub.Found e =>
                  LOG DEBUG ("kexec -l " +:+ Grub.kernel e +:+ " "
                             +:+ Grub.append e +:+ " " +:+ Grub.initrd e) >>
                  ext_unit world
                    (Subp [PStr "kexec"; PStr "-l"; PStr (Grub.kernel e);
                           PStr (Grub.append e); PStr (Grub.initrd e)]) >>
                  ret true
              end) h) in
  final o = σ
  /\ exists tr, emitted o = evs ++ tr /\ kexec_load_run target tr (res o).
Proof.
  cbv zeta. ask_world; run_pure.
  2:{ split; [done|]. eexists. split; [done|]. constructor. }
  destruct (as_bool v) eqn:Hv; cbn [negb]; run_pure.
  2:{ split; [done|]. eexists. split; [done|]. by constructor. }
  ask_world; run_pure.
  2:{ split; [done|]. eexists. split; [by rewrite <- app_assoc|].
      by constructor. }
  destruct (Grub.resolve target (as_lines v0)) as [| |x|e] eqn:Hresolve;
    run_pure.
  - split; [done|]. eexists. split; [by rewrite <- !app_assoc|].
    by constructor.
  - split; [done|]. eexists. split; [by rewrite <- !app_assoc|].
    by constructor.
  - split; [done|]. eexists. split; [by rewrite <- !app_assoc|].
    by constructor.
  - ask_world; run_pure.
    + split; [done|]. eexists. split; [by rewrite <- !app_assoc|].
      by apply (KL_loaded target v v0 e (Ret v1)).
    + split; [done|]. eexists. split; [by rewrite <- !app_assoc|].
      by apply (KL_loaded target v v0 e (Exc e0)).
Qed.

(** Every run of [apply_kexec] leaves the configuration alone and is one
    of: no call at all (the request is off, or not a mapping), or a run
    that looks for the tool and goes on as above. *)
Lemma apply_kexec_sound world kexec target h σ :
  final (apply_kexec world kexec target h σ) = σ
  /\ (emitted (apply_kexec world kexec target h σ) = []
      /\ res (apply_kexec world kexec target h σ) <> Ok true
      \/ kexec_run target (emitted (apply_kexec world kexec target h σ))
           (res (apply_kexec world kexec target h σ))).
Proof.
  unfold apply_kexec. cbv zeta.
  destruct kexec as [| | | | |d]; run_pure; try (split; [done|]; by left).
  destruct (py_eq _ _); cbn [negb]; run_pure; [|split; [done|]; by left].
  ask_world; run_pure.
  2:{ split; [done|]. right. constructor. }
  destruct (retval_truthy v) eqn:Hv; cbn [negb]; run_pure.
  - match goal with
    | |- context [prepend ?evs (obind ?m ?k ?h')] =>
        destruct (kexec_load_run_sound world target h' σ evs)
          as (Hf & tr & Htr & Hrun)
    end.
    split; [exact Hf|]. right. rewrite Htr. by apply KR_found.
  - ask_world; run_pure.
    2:{ split; [done|]. right. by constructor. }
    match goal with
    | |- context [prepend ?evs (obind ?m ?k ?h')] =>
        destruct (kexec_load_run_sound world target h' σ evs)
          as (Hf & tr & Htr & Hrun)
    end.
    split; [exact Hf|]. right. rewrite Htr. by apply KR_installed.
Qed.

(** Finds an event in a trace given piece by piece. *)
Ltac in_trace :=
  repeat first [assumption | apply list_elem_of_here
               | apply list_elem_of_further].

Lemma kexec_run_facts target tr r :
  kexec_run target tr r ->
  (r = Ok true <-> exists args v, (Subp args, Ret v) ∈ tr)
  /\ (forall args rp, (Subp args, rp) ∈ tr ->
        exists v e,
          (ReadLines (path_join target "boot/grub/grub.cfg"), Ret v) ∈ tr
          /\ Grub.resolve target (as_lines v) = Grub.Found e
          /\ Grub.kernel e <> ""
          /\ args = [PStr "kexec"; PStr "-l"; PStr (Grub.kernel e);
                     PStr (Grub.append e); PStr (Grub.initrd e)]
          /\ last tr = Some (Subp args, rp))
  /\ (forall pkg rp, (InstallPackages pkg, rp) ∈ tr ->
        pkg = "kexec-tools"
        /\ exists v, (Which "kexec", Ret v) ∈ tr /\ retval_truthy v = false)
  /\ (forall v, (IsFile (path_join target "boot/grub/grub.cfg"), Ret v) ∈ tr ->
        as_bool v = false ->
        r = Raise (ValueError "boot/grub/grub.cfg does not exist in target"))
  /\ (forall v x,
        (ReadLines (path_join target "boot/grub/grub.cfg"), Ret v) ∈ tr ->
        Grub.resolve target (as_lines v) = Grub.Failed x ->
        r = Raise x).
Proof.
  assert (Hload : forall tr r, kexec_load_run target tr r ->
    (r = Ok true <-> exists args v, (Subp args, Ret v) ∈ tr)
    /\ (forall args rp, (Subp args, rp) ∈ tr ->
          exists v e,
            (ReadLines (path_join target "boot/grub/grub.cfg"), Ret v) ∈ tr
            /\ Grub.resolve target (as_lines v) = Grub.Found e
            /\ Grub.kernel e <> ""
            /\ args = [PStr "kexec"; PStr "-l"; PStr (Grub.kernel e);
                       PStr (Grub.append e); PStr (Grub.initrd e)]
            /\ last tr = Some (Subp args, rp))
    /\ (forall pkg rp, (InstallPackages pkg, rp) ∉ tr)
    /\ (forall v, (Which "kexec", v) ∉ tr)
    /\ tr <> []
    /\ (forall v, (IsFile (path_join target "boot/grub/grub.cfg"), Ret v) ∈ tr ->
          as_bool v = false ->
          r = Raise (ValueError "boot/grub/grub.cfg does not exist in target"))
    /\ (forall v x,
          (ReadLines (path_join target "boot/grub/grub.cfg"), Ret v) ∈ tr ->
          Grub.resolve target (as_lines v) = Grub.Failed x ->
          r = Raise x)).
  { clear tr r. intros tr r Hrun.
    destruct Hrun as [x|v Hv|v x Hv|v ls Hv Hres|v ls Hv Hres|v ls x Hv Hres
                      |v ls e rp Hv Hres];
      (split; [split|split; [|split; [|split; [|split; [|split]]]]]).
    all: try done.
    all: try (intros; destruct_and?;
              repeat match goal with
                     | H : exists _, _ |- _ => destruct H
                     end;
              match goal with
              | H : _ ∈ _ |- _ => trace_cases H; simplify_eq
              end; try congruence; done).
    all: try (intros ? ? Hin; trace_cases Hin; by simplify_eq).
    all: try (intros ? Hin; trace_cases Hin; by simplify_eq).
    - destruct rp as [v1|]; [|done]. intros _. eexists _, v1.
      do 3 apply list_elem_of_further. apply list_elem_of_here.
    - intros args rp0 Hin. trace_cases Hin; simplify_eq.
      exists ls, e. split; [in_trace|]. split; [done|].
      split; [by eapply resolve_Found_kernel|]. done. }
  intros Hrun.
  destruct Hrun as [x|v x Hv|v v' tr r Hv Hrun|v tr r Hv Hrun].
  - repeat split; try done; try (intros; trace_cases H; by simplify_eq).
    all: intros; repeat match goal with
                        | H : exists _, _ |- _ => destruct H
                        | H : _ ∈ _ |- _ => trace_cases H; simplify_eq
                        end.
  - repeat split; try done; try (intros; trace_cases H; by simplify_eq).
    all: intros; repeat match goal with
                        | H : exists _, _ |- _ => destruct H
                        | H : _ ∈ _ |- _ => trace_cases H; simplify_eq
                        end.
    exists v. split; [in_trace|done].
  - destruct (Hload _ _ Hrun) as (Htrue & Hsubp & Hpkg & Hwhich & Hne & Hfile
                                  & Hfail).
    split; [|split; [|split; [|split]]].
    + rewrite Htrue. split; intros (args & w & Hin); exists args, w;
        [in_trace|]. trace_cases Hin; by simplify_eq.
    + intros args rp Hin. trace_cases Hin; simplify_eq.
      destruct (Hsubp _ _ Hin) as (w & e & ? & ? & ? & ? & Hlast).
      exists w, e. split; [in_trace|]. repeat (split; [done|]).
      destruct tr as [|ev tr]; [done|]. exact Hlast.
    + intros pkg rp Hin. trace_cases Hin; simplify_eq.
      * split; [done|]. exists v. split; [in_trace|done].
      * by apply Hpkg in Hin.
    + intros w Hin. trace_cases Hin; simplify_eq. by apply Hfile.
    + intros w x Hin. trace_cases Hin; simplify_eq. by apply Hfail.
  - destruct (Hload _ _ Hrun) as (Htrue & Hsubp & Hpkg & Hwhich & Hne & Hfile
                                  & Hfail).
    split; [|split; [|split; [|split]]].
    + rewrite Htrue. split; intros (args & w & Hin); exists args, w;
        [in_trace|]. trace_cases Hin; by simplify_eq.
    + intros args rp Hin. trace_cases Hin; simplify_eq.
      destruct (Hsubp _ _ Hin) as (w & e & ? & ? & ? & ? & Hlast).
      exists w, e. split; [in_trace|]. repeat (split; [done|]).
      destruct tr as [|ev tr]; [done|]. exact Hlast.
    + intros pkg rp Hin. trace_cases Hin; simplify_eq.
      by apply Hpkg in Hin.
    + intros w Hin. trace_cases Hin; simplify_eq. by apply Hfile.
    + intros w x Hin. trace_cases Hin; simplify_eq. by apply Hfail.
Qed.

(** [apply_kexec] leaves the configuration alone.  It returns [True]
    exactly when [kexec -l] was called and returned; that call is the last
    one, and its arguments are the kernel (not empty), the arguments and
    the initrd resolved from the boot configuration that was read.
    [kexec-tools] is installed only when [which] did not find the tool.
    When the boot configuration file is missing, the result is the
    [ValueError] that says so; when the resolution of the boot entry
    fails, its exception is the result. *)
Theorem apply_kexec_loads_kernel world kexec target h σ :
  let o := apply_kexec world kexec target h σ in
  let grubcfg := path_join target "boot/grub/grub.cfg" in
  final o = σ
  /\ (res o = Ok true <-> exists args v, (Subp args, Ret v) ∈ emitted o)
  /\ (forall args rp, (Subp args, rp) ∈ emitted o ->
        exists v e,
          (ReadLines grubcfg, Ret v) ∈ emitted o
          /\ Grub.resolve target (as_lines v) = Grub.Found e
          /\ Grub.kernel e <> ""
          /\ args = [PStr "kexec"; PStr "-l"; PStr (Grub.kernel e);
                     PStr (Grub.append e); PStr (Grub.initrd e)]
          /\ last (emitted o) = Some (Subp args, rp))
  /\ (forall pkg rp, (InstallPackages pkg, rp) ∈ emitted o ->
        pkg = "kexec-tools"
        /\ exists v, (Which "kexec", Ret v) ∈ emitted o
                     /\ retval_truthy v = false)
  /\ (forall v, (IsFile grubcfg, Ret v) ∈ emitted o ->
        as_bool v = false ->
        res o = Raise (ValueError "boot/grub/grub.cfg does not exist in target"))
  /\ (forall v x,
        (ReadLines grubcfg, Ret v) ∈ emitted o ->
        Grub.resolve target (as_lines v) = Grub.Failed x ->
        res o = Raise x).
Proof.
  cbv zeta.
  destruct (apply_kexec_sound world kexec target h σ)
    as [Hfinal [[Hnil Hne]|Hrun]].
  - split; [done|]. rewrite Hnil.
    split; [split; [done|by intros (? & ? & ?%elem_of_nil)]|].
    repeat split; intros; by match goal with
                             | H : _ ∈ [] |- _ => apply elem_of_nil in H
                             end.
  - split; [done|]. by apply kexec_run_facts.
Qed.

(** ** The directives of the default entry: which exception *)

(** [shlex.split] fails with a [ValueError] only. *)
Lemma shlex_run_raises st tok quoted acc s x :
  Shlex.run st tok quoted acc s = Raise x -> exists msg, x = ValueError msg.
Proof.
  revert st tok quoted acc.
  induction s as [|c s IH]; intros st tok quoted acc; simpl.
  - destruct st as [| |q|back]; try done.
    + by destruct (String.eqb tok "" && negb quoted).
    + intros [= <-]. eauto.
    + intros [= <-]. eauto.
  - destruct st as [| |q|[q|]];
      repeat match goal with
             | |- context [if ?b then _ else _] => destruct b
             end; apply IH.
Qed.

(** A line with the word [linux] or [initrd] but without an image: the
    line cannot be split by [shlex], or has no second shell word. *)
Definition no_image (line : string) : Prop :=
  ("linux" ∈ py_split line \/ "initrd" ∈ py_split line)
  /\ match Shlex.split line with
     | Ok toks => toks !! 1 = None
     | Raise _ => True
     end.

(** The exception such a line ends the loop with: the one of [shlex], or
    the [IndexError] of [split_line[1]]. *)
Definition line_error (line : string) : exn :=
  match Shlex.split line with
  | Ok _ => IndexError "list index out of range"
  | Raise x => x
  end.

Lemma directive_step_cases target line e :
  (no_image line
   /\ Grub.directive_step target line e = Raise (line_error line))
  \/ (~ no_image line
      /\ exists e', Grub.directive_step target line e = Ok e').
Proof.
  unfold no_image, line_error, Grub.directive_step.
  destruct (decide ("linux" ∈ py_split line)) as [Hl|Hl];
    destruct (decide ("initrd" ∈ py_split line)) as [Hi|Hi];
    rewrite ?(bool_decide_eq_true_2 _ Hl), ?(bool_decide_eq_false_2 _ Hl);
    destruct (Shlex.split line) as [toks|x];
    try destruct (toks !! 1) as [image|] eqn:Himage;
    rewrite ?(bool_decide_eq_true_2 _ Hi), ?(bool_decide_eq_false_2 _ Hi);
    rewrite ?Himage;
    first [by left; split; [split; [auto|done]|done]
          | right; split; [|by eauto]; try (by intros [_ ?]);
            by intros [[?|?] _]].
Qed.

Lemma directives_raises target lines idx e0 x :
  Grub.directives target lines idx e0 = Raise x ->
  x = IndexError "list index out of range" \/ exists msg, x = ValueError msg.
Proof.
  revert e0. induction idx as [|i idx IH]; intros e0; simpl; [done|].
  destruct (lines !! i) as [line|]; [|intros [= <-]; by left].
  destruct (directive_step_cases target line e0)
    as [[Hno ->]|[_ [e' ->]]]; [|apply IH].
  intros [= <-]. unfold line_error.
  destruct (Shlex.split line) as [toks|y] eqn:Hsplit; [by left|].
  right. by eapply shlex_run_raises.
Qed.

(** The first line without an image decides. *)
Lemma directives_first_failure target lines begin stop i line e0 :
  begin <= i < stop ->
  lines !! i = Some line -> no_image line ->
  (forall j l, begin <= j < i -> lines !! j = Some l -> ~ no_image l) ->
  Grub.directives target lines (seq begin (stop - begin)) e0
  = Raise (line_error line).
Proof.
  intros Hi Hline Hno Hbefore.
  rewrite (seq_split_at begin stop i) by done. rewrite directives_app.
  assert (Hprefix : forall n b e,
            b + n = i -> begin <= b ->
            exists e1, Grub.directives target lines (seq b n) e = Ok e1).
  { induction n as [|n IH]; intros b e Hb Hle; simpl; [eauto|].
    destruct (lookup_lt_is_Some_2 lines b) as [l Hl].
    { apply lookup_lt_Some in Hline. lia. }
    rewrite Hl.
    destruct (directive_step_cases target l e) as [[Hbad _]|[_ [e' ->]]].
    - destruct (Hbefore b l); [lia|done|done].
    - apply IH; lia. }
  destruct (Hprefix (i - begin) begin e0) as [e1 ->]; [lia|lia|].
  simpl. rewrite Hline.
  by destruct (directive_step_cases target line e1) as [[_ ->]|[? _]].
Qed.

(** A run of [apply_kexec] in which the resolution of the boot entry
    failed: its exception is the result, the read of the boot
    configuration is the last call and [kexec] is not called. *)
Lemma kexec_run_failed target tr r v x :
  kexec_run target tr r ->
  (ReadLines (path_join target "boot/grub/grub.cfg"), Ret v) ∈ tr ->
  Grub.resolve target (as_lines v) = Grub.Failed x ->
  r = Raise x
  /\ last tr = Some (ReadLines (path_join target "boot/grub/grub.cfg"), Ret v)
  /\ forall args rp, (Subp args, rp) ∉ tr.
Proof.
  assert (Hload : forall tr r,
    kexec_load_run target tr r ->
    (ReadLines (path_join target "boot/grub/grub.cfg"), Ret v) ∈ tr ->
    Grub.resolve target (as_lines v) = Grub.Failed x ->
    r = Raise x
    /\ last tr
       = Some (ReadLines (path_join target "boot/grub/grub.cfg"), Ret v)
    /\ (forall args rp, (Subp args, rp) ∉ tr)
    /\ tr <> []).
  { clear tr r. intros tr r Hrun Hin Hfailed.
    destruct Hrun; trace_cases Hin; simplify_eq; try congruence.
    split; [congruence|]. split; [done|]. split; [|done].
    intros args rp Hsub. trace_cases Hsub; by simplify_eq. }
  intros Hrun Hin Hfailed.
  destruct Hrun as [y|w y Hw|w w' tr r Hw Hrun|w tr r Hw Hrun];
    try (trace_cases Hin; by simplify_eq).
  - trace_cases Hin; try by simplify_eq.
    destruct (Hload _ _ Hrun Hin Hfailed) as (-> & Hlast & Hnone & Hne).
    split; [done|]. split.
    + destruct tr as [|ev tr]; [done|]. exact Hlast.
    + intros args rp Hsub. trace_cases Hsub; try by simplify_eq.
      by eapply Hnone.
  - trace_cases Hin; try by simplify_eq.
    destruct (Hload _ _ Hrun Hin Hfailed) as (-> & Hlast & Hnone & Hne).
    split; [done|]. split.
    + destruct tr as [|ev tr]; [done|]. exact Hlast.
    + intros args rp Hsub. trace_cases Hsub; try by simplify_eq.
      by eapply Hnone.
Qed.

(** A run of [apply_kexec] in which the boot entry was resolved: the call
    of [kexec -l] with what was resolved is the last one and decides. *)
Lemma kexec_run_found target tr r v e :
  kexec_run target tr r ->
  (ReadLines (path_join target "boot/grub/grub.cfg"), Ret v) ∈ tr ->
  Grub.resolve target (as_lines v) = Grub.Found e ->
  exists rp,
    last tr = Some (Subp [PStr "kexec"; PStr "-l"; PStr (Grub.kernel e);
                          PStr (Grub.append e); PStr (Grub.initrd e)], rp)
    /\ r = match rp with Ret _ => Ok true | Exc y => Raise y end.
Proof.
  assert (Hload : forall tr r,
    kexec_load_run target tr r ->
    (ReadLines (path_join target "boot/grub/grub.cfg"), Ret v) ∈ tr ->
    Grub.resolve target (as_lines v) = Grub.Found e ->
    tr <> []
    /\ exists rp,
         last tr = Some (Subp [PStr "kexec"; PStr "-l"; PStr (Grub.kernel e);
                               PStr (Grub.append e); PStr (Grub.initrd e)],
                         rp)
         /\ r = match rp with Ret _ => Ok true | Exc y => Raise y end).
  { clear tr r. intros tr r Hrun Hin Hfound.
    destruct Hrun; trace_cases Hin; simplify_eq; try congruence.
    match goal with
    | H1 : Grub.resolve _ _ = Grub.Found ?a,
      H2 : Grub.resolve _ _ = Grub.Found ?b |- _ =>
        rewrite H1 in H2; injection H2 as ->
    end.
    split; [done|]. eexists. split; [reflexivity|done]. }
  intros Hrun Hin Hfound.
  destruct Hrun as [y|w y Hw|w w' tr r Hw Hrun|w tr r Hw Hrun];
    try (trace_cases Hin; by simplify_eq).
  - trace_cases Hin; try by simplify_eq.
    destruct (Hload _ _ Hrun Hin Hfound) as (Hne & rp & Hlast & ->).
    exists rp. split; [|done]. destruct tr as [|ev tr]; [done|]. exact Hlast.
  - trace_cases Hin; try by simplify_eq.
    destruct (Hload _ _ Hrun Hin Hfound) as (Hne & rp & Hlast & ->).
    exists rp. split; [|done]. destruct tr as [|ev tr]; [done|]. exact Hlast.
Qed.
(** A line of the default entry that has the word [linux] or [initrd] but
    no second shell word (or quotes that do not close) makes [apply_kexec]
    raise once the boot configuration has been read: the resolution of the
    boot entry fails with an [IndexError] or with the [ValueError] of
    [shlex], nothing handles it, and [kexec] is not called.  The exception
    is that of the first such line of the entry: the error of [shlex] when
    it cannot split the line, the [IndexError] of [split_line[1]]
    otherwise. *)
Theorem bare_directive_fails
    world kexec target h σ v default menu_lines begin stop i line :
  (ReadLines (path_join target "boot/grub/grub.cfg"), Ret v)
    ∈ emitted (apply_kexec world kexec target h σ) ->
  Grub.scan (as_lines v) = (default, menu_lines) ->
  Grub.entry_range (as_lines v) default menu_lines = Ok (begin, stop) ->
  begin <= i < stop ->
  as_lines v !! i = Some line ->
  "linux" ∈ py_split line \/ "initrd" ∈ py_split line ->
  match Shlex.split line with
  | Ok toks => toks !! 1 = None
  | Raise _ => True
  end ->
  exists x,
    Grub.resolve target (as_lines v) = Grub.Failed x
    /\ res (apply_kexec world kexec target h σ) = Raise x
    /\ (x = IndexError "list index out of range"
        \/ exists msg, x = ValueError msg)
    /\ (forall args rp,
          (Subp args, rp) ∉ emitted (apply_kexec world kexec target h σ))
    /\ last (emitted (apply_kexec world kexec target h σ))
       = Some (ReadLines (path_join target "boot/grub/grub.cfg"), Ret v)
    /\ ((forall j l, begin <= j < i -> as_lines v !! j = Some l ->
                     ~ no_image l) ->
        x = match Shlex.split line with
            | Ok _ => IndexError "list index out of range"
            | Raise y => y
            end).
Proof.
  intros Hread Hscan Hrange Hi Hline Hword Hsplit.
  assert (Hno : no_image line) by done.
  assert (Hfail : exists x,
            Grub.directives target (as_lines v) (seq begin (stop - begin))
              {| Grub.kernel := ""; Grub.append := ""; Grub.initrd := "" |}
            = Raise x
            /\ ((forall j l, begin <= j < i -> as_lines v !! j = Some l ->
                             ~ no_image l) ->
                x = line_error line)).
  { destruct (directives_fail target (as_lines v) (seq begin (stop - begin))
                i line
                {| Grub.kernel := ""; Grub.append := ""; Grub.initrd := "" |})
      as [x Hx]; [apply elem_of_seq; lia | done | |].
    { intros e. by apply directive_step_no_image. }
    exists x. split; [done|]. intros Hbefore.
    rewrite (directives_first_failure target (as_lines v) begin stop i line)
      in Hx by done.
    by injection Hx. }
  destruct Hfail as (x & Hx & Hfirst).
  assert (Hresolve : Grub.resolve target (as_lines v) = Grub.Failed x).
  { unfold Grub.resolve. rewrite Hscan.
    destruct menu_lines as [|m menu_lines].
    { unfold Grub.entry_range, Grub.index in Hrange. simpl in Hrange.
      by destruct (default <? N.of_nat 0)%N. }
    by rewrite Hrange, Hx. }
  exists x. split; [done|].
  destruct (apply_kexec_sound world kexec target h σ)
    as [_ [[Hnil _]|Hrun]].
  { rewrite Hnil in Hread. by apply elem_of_nil in Hread. }
  destruct (kexec_run_failed _ _ _ _ _ Hrun Hread Hresolve)
    as (Hres & Hlast & Hnone).
  split; [done|]. split; [by eapply directives_raises|].
  split; [done|]. split; [done|]. exact Hfirst.
Qed.

Definition bare_linux_entry : list string :=
  ["menuentry 'only' {" +:+ nl;
   "  linux" +:+ nl;
   "  initrd /boot/initrd" +:+ nl;
   "}" +:+ nl].

Lemma bare_directive_fails_witness :
  res (apply_kexec (calm_world bare_linux_entry 0)
         (PDict [("mode", PStr "on")]) "/tmp/target" [] heap0)
  = Raise (IndexError "list index out of range").
Proof.
  destruct (bare_directive_fails (calm_world bare_linux_entry 0)
              (PDict [("mode", PStr "on")]) "/tmp/target" [] heap0
              (RLines bare_linux_entry) 0 [1] 1 4 1 ("  linux" +:+ nl))
    as (x & _ & Hres & _ & _ & _ & Hfirst).
  - vm_compute. repeat constructor.
  - reflexivity.
  - reflexivity.
  - lia.
  - reflexivity.
  - left. vm_compute. apply list_elem_of_here.
  - vm_compute. reflexivity.
  - rewrite Hres, Hfirst; [reflexivity|]. intros j l Hj. lia.
Defined.

(** ** C10: a default index beyond the entries *)

(** C10: what the code does.  The pattern of line 335 ends in a word
    boundary after the closing quote, so in a boot configuration as grub
    writes it, where the end of the line, a blank or punctuation follows
    the closing quote of a number, no [set default="N"] line is taken for
    an assignment: the default index is 0 whatever [N] is.  With at least
    one [menuentry] line, the marker line selected is that of the first
    entry and its range is found: selecting the marker raises no
    [IndexError], however large [N] is; the first entry is resolved, and
    when it has a kernel, [kexec -l] is called with it and [True] is
    returned when that call returns. *)
Theorem apply_kexec_default_not_read
    world kexec target h σ v first rest :
  (ReadLines (path_join target "boot/grub/grub.cfg"), Ret v)
    ∈ emitted (apply_kexec world kexec target h σ) ->
  Forall (fun line => number_quote_word line = false) (as_lines v) ->
  (Grub.scan (as_lines v)).2 = first :: rest ->
  let stop := match rest with
              | [] => length (as_lines v)
              | next :: _ => next - 1
              end in
  (Grub.scan (as_lines v)).1 = 0%N
  /\ Grub.entry_range (as_lines v) (Grub.scan (as_lines v)).1
       (Grub.scan (as_lines v)).2 = Ok (first, stop)
  /\ Grub.resolve target (as_lines v)
     = match Grub.directives target (as_lines v) (seq first (stop - first))
               {| Grub.kernel := ""; Grub.append := ""; Grub.initrd := "" |}
       with
       | Raise x => Grub.Failed x
       | Ok e => if String.eqb (Grub.kernel e) "" then Grub.NoKernel
                 else Grub.Found e
       end
  /\ (forall e,
        Grub.resolve target (as_lines v) = Grub.Found e ->
        exists rp,
          last (emitted (apply_kexec world kexec target h σ))
          = Some (Subp [PStr "kexec"; PStr "-l"; PStr (Grub.kernel e);
                        PStr (Grub.append e); PStr (Grub.initrd e)], rp)
          /\ res (apply_kexec world kexec target h σ)
             = match rp with Ret _ => Ok true | Exc x => Raise x end).
Proof.
  intros Hread Hlines Hmenu stop.
  assert (Hdefault : (Grub.scan (as_lines v)).1 = 0%N).
  { by apply scan_default_unread. }
  destruct (Grub.scan (as_lines v)) as [default menu_lines] eqn:Hscan.
  cbn [fst snd] in *. subst default menu_lines.
  assert (Hrange : Grub.entry_range (as_lines v) 0 (first :: rest)
                   = Ok (first, stop)).
  { destruct (scan_menu_lines _ _ _ Hscan) as [Hsorted _].
    unfold Grub.entry_range, Grub.index. cbn [length N.ltb].
    replace (0 <? N.of_nat (S (length rest)))%N with true
      by (symmetry; apply N.ltb_lt; lia).
    change (N.to_nat 0) with 0. change ((first :: rest) !! 0) with (Some first).
    cbv beta iota.
    destruct rest as [|next rest].
    - by rewrite bool_decide_eq_false_2 by (by intros []).
    - rewrite bool_decide_eq_true_2.
      2:{ intros Hlast. symmetry in Hlast.
          apply StronglySorted_inv in Hsorted as [_ Hlt].
          rewrite last_cons_cons in Hlast.
          rewrite last_lookup in Hlast.
          apply list_elem_of_lookup_2 in Hlast.
          rewrite Forall_forall in Hlt. apply Hlt in Hlast. lia. }
      replace (0 + 1 <? N.of_nat (S (length (next :: rest))))%N
        with true by (symmetry; apply N.ltb_lt; simpl; lia).
      change (N.to_nat (0 + 1)) with 1.
      done. }
  split; [done|]. split; [done|]. split.
  { unfold Grub.resolve. by rewrite Hscan, Hrange. }
  intros e Hfound.
  destruct (apply_kexec_sound world kexec target h σ)
    as [_ [[Hnil _]|Hrun]].
  { rewrite Hnil in Hread. by apply elem_of_nil in Hread. }
  by eapply kexec_run_found.
Qed.

(** One entry, and the assignment of the default 5 as grub writes it. *)
Definition one_entry_default_5_as_written : list string :=
  ["set default=" +:+ chr dquote +:+ "5" +:+ chr dquote +:+ nl;
   "menuentry 'only' {" +:+ nl;
   "  linux /boot/vmlinuz root=/dev/sda1" +:+ nl;
   "  initrd /boot/initrd.img" +:+ nl;
   "}" +:+ nl].

Lemma apply_kexec_default_not_read_witness :
  Grub.scan one_entry_default_5_as_written = (0%N, [2])
  /\ last (emitted (apply_kexec
                      (calm_world one_entry_default_5_as_written 0)
                      (PDict [("mode", PStr "on")]) "/tmp/target" [] heap0))
     = Some (Subp [PStr "kexec"; PStr "-l"; PStr "/boot/vmlinuz";
                   PStr "--append=root=/dev/sda1";
                   PStr "--initrd=/boot/initrd.img"], Ret RNone)
  /\ res (apply_kexec (calm_world one_entry_default_5_as_written 0)
            (PDict [("mode", PStr "on")]) "/tmp/target" [] heap0)
     = Ok true.
Proof.
  split; [reflexivity|].
  assert (Hlast : last (emitted (apply_kexec
                      (calm_world one_entry_default_5_as_written 0)
                      (PDict [("mode", PStr "on")]) "/tmp/target" [] heap0))
     = Some (Subp [PStr "kexec"; PStr "-l"; PStr "/boot/vmlinuz";
                   PStr "--append=root=/dev/sda1";
                   PStr "--initrd=/boot/initrd.img"], Ret RNone))
    by (vm_compute; reflexivity).
  split; [exact Hlast|].
  destruct (apply_kexec_default_not_read
              (calm_world one_entry_default_5_as_written 0)
              (PDict [("mode", PStr "on")]) "/tmp/target" [] heap0
              (RLines one_entry_default_5_as_written) 2 [])
    as (_ & _ & _ & Hloaded).
  - vm_compute. repeat constructor.
  - unfold one_entry_default_5_as_written. cbn [as_lines].
    repeat (constructor; [vm_compute; reflexivity|]). constructor.
  - reflexivity.
  - destruct (Hloaded {| Grub.kernel := "/boot/vmlinuz";
                         Grub.append := "--append=root=/dev/sda1";
                         Grub.initrd := "--initrd=/boot/initrd.img" |})
      as (rp & Hrp & Hres); [reflexivity|].
    rewrite Hlast in Hrp. injection Hrp as <-. exact Hres.
Defined.

(** ** [apply_power_state]: the parent and the child *)

(** [apply_power_state] leaves the configuration alone and forks only
    when there is a power-state command.  In the parent (a nonzero
    process id) it returns at once and runs nothing.  In the child it
    runs the command and never returns to its caller: the process ends
    with status 0 when the command returned and with status 1, after a
    warning, when it raised. *)
Theorem apply_power_state_forks world format_exception pstate h σ :
  let o := apply_power_state world format_exception pstate h σ in
  final o = σ
  /\ (forall rp, (Fork, rp) ∈ emitted o ->
        exists cmd, load_power_state pstate = Ok (Some cmd))
  /\ (forall v, (Fork, Ret v) ∈ emitted o -> as_int v <> 0%Z ->
        res o = Ok tt /\ forall args rp, (Subp args, rp) ∉ emitted o)
  /\ (forall v, (Fork, Ret v) ∈ emitted o -> as_int v = 0%Z ->
        exists cmd rp,
          load_power_state pstate = Ok (Some cmd)
          /\ (Subp cmd, rp) ∈ emitted o
          /\ match rp with
             | Ret _ => res o = Raise (SystemExit 0)
             | Exc x =>
                 if is_Exception x
                 then res o = Raise (SystemExit 1)
                      /\ exists msg, (Log WARN msg, Ret RNone) ∈ emitted o
                 else res o = Raise x
             end)
  /\ (forall x, (Fork, Exc x) ∈ emitted o -> res o = Raise x)
  /\ (load_power_state pstate = Ok None -> emitted o = [] /\ res o = Ok tt)
  /\ (forall x, load_power_state pstate = Raise x ->
        emitted o = [] /\ res o = Raise x).
Proof.
  cbv zeta. unfold apply_power_state.
  destruct (load_power_state pstate) as [[[|c cmd]|]|x] eqn:Hload; run_pure.
  1,3,4: repeat split; intros; cbn [emitted res final] in *; try done;
           try (by intros ?%elem_of_nil); try (by simplify_eq);
           by match goal with H : _ ∈ [] |- _ => apply elem_of_nil in H end.
  ask_world; run_pure.
  2:{ split; [done|]. repeat split; intros; cbn [emitted res final] in *; try done;
        repeat match goal with
               | H : _ ∈ _ |- _ => trace_cases H; simplify_eq
               end; eauto. }
  destruct (as_int v =? 0)%Z eqn:Hfid; run_pure.
  2:{ apply Z.eqb_neq in Hfid. split; [done|].
      repeat split; intros; cbn [emitted res final] in *; try done;
        repeat match goal with
               | H : _ ∈ _ |- _ => trace_cases H; simplify_eq
               end; eauto.
      intros Hin. trace_cases Hin; simplify_eq. }
  apply Z.eqb_eq in Hfid. unfold try_except. run_pure.
  ask_world; run_pure; cbn [is_Exception]; run_pure.
  - split; [done|]. repeat split; intros; cbn [emitted res final] in *; try done;
      repeat match goal with
             | H : _ ∈ _ |- _ => trace_cases H; simplify_eq
             end; eauto.
    eexists _, (Ret v0). split; [done|]. split; [in_trace|done].
  - destruct (is_Exception e) eqn:He; run_pure.
    + split; [done|]. repeat split; intros; cbn [emitted res final] in *; try done;
        repeat match goal with
               | H : _ ∈ _ |- _ => trace_cases H; simplify_eq
               end; eauto.
      eexists _, (Exc e). split; [done|]. split; [in_trace|]. rewrite He.
      split; [done|]. eexists. in_trace.
    + split; [done|]. repeat split; intros; cbn [emitted res final] in *; try done;
        repeat match goal with
               | H : _ ∈ _ |- _ => trace_cases H; simplify_eq
               end; eauto.
      eexists _, (Exc e). split; [done|]. split; [in_trace|]. by rewrite He.
Qed.

(** ** [WorkingDir]: the target directory *)

(** What holds of every run [o] of the creation of the working directory
    for [config], started on the heap [σ]. *)
Definition working_dir_run (format_exception : exn -> string)
    (config : dict) (σ : heap) (o : outcome WorkingDir) : Prop :=
  final o = σ
  /\ (forall p rp, (Rmtree p, rp) ∉ emitted o)
  /\ (forall wd, res o = Ok wd ->
        exists top install entries,
          (Mkdtemp, Ret top) ∈ emitted o
          /\ wd_top wd = as_str top
          /\ wd_scratch wd = path_join (as_str top) "scratch"
          /\ wd_config wd = config
          /\ dict_get_default config "install" (PDict []) = PDict install
          /\ PStr (wd_target wd)
             = (if truthy (dict_get_default install "target" PNone)
                then dict_get_default install "target" PNone
                else PStr (path_join (as_str top) "target"))
          /\ (Listdir (wd_target wd), Ret entries) ∈ emitted o
          /\ as_lines entries = [])
  /\ (forall t entries,
        (Listdir t, Ret entries) ∈ emitted o -> as_lines entries <> [] ->
        res o = Raise (ValueError ("Provided target dir '" +:+ t
                                   +:+ "' was not empty."))
        /\ last (emitted o) = Some (Listdir t, Ret entries))
  /\ (forall t x,
        (EnsureDir t, Exc x) ∈ emitted o -> is_OSError x = true ->
        res o = Raise (ValueError ("Unable to create target directory '"
                                   +:+ t +:+ "': " +:+ format_exception x))).

(** A run that raised without listing the target or failing to create
    it. *)
Lemma working_dir_run_early format_exception config σ x (tr : list event) :
  Forall (fun ev => match ev with
                    | (Rmtree _, _) | (Listdir _, Ret _)
                    | (EnsureDir _, Exc _) => False
                    | _ => True
                    end) tr ->
  working_dir_run format_exception config σ (Outcome (Raise x) tr σ).
Proof.
  intros Htr. rewrite Forall_forall in Htr. unfold working_dir_run.
  cbn [final emitted res]. split; [done|].
  split; [intros p rp Hin; by apply Htr in Hin|]. split; [done|].
  split; [intros t entries Hin; by apply Htr in Hin|].
  intros t y Hin; by apply Htr in Hin.
Qed.

(** A run that raised after it found the target empty. *)
Lemma working_dir_run_late format_exception config σ x (tr : list event)
    (listed : retval) :
  as_lines listed = [] ->
  Forall (fun ev => match ev with
                    | (Rmtree _, _) | (EnsureDir _, Exc _) => False
                    | (Listdir _, Ret entries) => entries = listed
                    | _ => True
                    end) tr ->
  working_dir_run format_exception config σ (Outcome (Raise x) tr σ).
Proof.
  intros Hempty Htr. rewrite Forall_forall in Htr. unfold working_dir_run.
  cbn [final emitted res]. split; [done|].
  split; [intros p rp Hin; by apply Htr in Hin|]. split; [done|].
  split; [intros t entries Hin Hne; apply Htr in Hin; by subst|].
  intros t y Hin; by apply Htr in Hin.
Qed.

Ltac fails_late H :=
  rewrite ?app_nil_l; cbn [app];
  eapply working_dir_run_late; [exact H|];
  repeat (constructor; [done|]); constructor.

Ltac fails_early :=
  rewrite ?app_nil_l; cbn [app];
  apply working_dir_run_early; repeat (constructor; [done|]); constructor.

Lemma WorkingDir_init_run world format_exception (config : dict) h σ :
  working_dir_run format_exception config σ
    (WorkingDir_init world format_exception config h σ).
Proof.
  unfold WorkingDir_init.
  run_pure. ask_world; run_pure; [|fails_early].
  cbn [for_each]. run_pure.
  ask_world; run_pure; [|fails_early].
  ask_world; run_pure; [|fails_early].
  destruct (dict_get_default config "install" (PDict [])) as [| | | | |install]
    eqn:Hinstall; run_pure; try fails_early.
  set (target_d := if negb (truthy _) then _ else _).
  destruct target_d as [| | |target| |] eqn:Htarget; run_pure;
    try fails_early.
  assert (Htarget' : PStr target
            = (if truthy (dict_get_default install "target" PNone)
               then dict_get_default install "target" PNone
               else PStr (path_join (as_str v) "target"))).
  { unfold target_d in Htarget.
    by destruct (truthy (dict_get_default install "target" PNone)). }
  clear Htarget. clearbody target_d.
  unfold try_except_OSError. run_pure.
  ask_world; run_pure.
  2:{ destruct (is_OSError e) eqn:He; run_pure.
      - unfold working_dir_run. cbn [final emitted res app].
        split; [done|].
        split; [intros p rp Hin; trace_cases Hin; by simplify_eq|].
        split; [done|].
        split; [intros t entries Hin; trace_cases Hin; by simplify_eq|].
        intros t x Hin _. trace_cases Hin; by simplify_eq.
      - unfold working_dir_run. cbn [final emitted res app].
        split; [done|].
        split; [intros p rp Hin; trace_cases Hin; by simplify_eq|].
        split; [done|].
        split; [intros t entries Hin; trace_cases Hin; by simplify_eq|].
        intros t x Hin Hx. trace_cases Hin; simplify_eq. congruence. }
  ask_world; run_pure; [|fails_early].
  destruct (bool_decide (as_lines v3 = [])) eqn:Hempty; cbn [negb]; run_pure.
  2:{ apply bool_decide_eq_false in Hempty.
      unfold working_dir_run. cbn [final emitted res app].
      split; [done|].
      split; [intros p rp Hin; trace_cases Hin; by simplify_eq|].
      split; [done|].
      split; [|intros t x Hin; trace_cases Hin; by simplify_eq].
      intros t entries Hin _. trace_cases Hin; by simplify_eq. }
  apply bool_decide_eq_true in Hempty.
  ask_world; run_pure; [|fails_late Hempty].
  ask_world; run_pure; [|fails_late Hempty].
  ask_world; run_pure; [|fails_late Hempty].
  ask_world; run_pure; [|fails_late Hempty].
  ask_world; run_pure; [|fails_late Hempty].
  ask_world; run_pure; [|fails_late Hempty].
  unfold working_dir_run. cbn [final emitted res app].
  split; [done|].
  split; [intros p rp Hin; trace_cases Hin; by simplify_eq|].
  split.
  { intros wd [= <-]. exists v, install, v3.
    cbn [wd_top wd_scratch wd_config wd_target].
    split; [in_trace|]. repeat (split; [done|]). split; [in_trace|done]. }
  split; [|intros t x Hin; trace_cases Hin; by simplify_eq].
  intros t entries Hin Hne. trace_cases Hin; by simplify_eq.
Qed.

(** The creation of the working directory leaves the configuration alone
    and removes nothing, also when it fails.  When it returns, the private
    root is the directory [mkdtemp] made, the scratch directory lies under
    it, and the target is the configured [install.target] when that is set
    (true), else [target] under the private root; the target was listed
    and found empty.  A target that is not empty ends the creation in a
    [ValueError], right after the listing; a target that cannot be created
    ([OSError]) in a [ValueError] that names it. *)
Theorem WorkingDir_init_target world format_exception (config : dict) h σ :
  let o := WorkingDir_init world format_exception config h σ in
  final o = σ
  /\ (forall p rp, (Rmtree p, rp) ∉ emitted o)
  /\ (forall wd, res o = Ok wd ->
        exists top install entries,
          (Mkdtemp, Ret top) ∈ emitted o
          /\ wd_top wd = as_str top
          /\ wd_scratch wd = path_join (as_str top) "scratch"
          /\ wd_config wd = config
          /\ dict_get_default config "install" (PDict []) = PDict install
          /\ PStr (wd_target wd)
             = (if truthy (dict_get_default install "target" PNone)
                then dict_get_default install "target" PNone
                else PStr (path_join (as_str top) "target"))
          /\ (Listdir (wd_target wd), Ret entries) ∈ emitted o
          /\ as_lines entries = [])
  /\ (forall t entries,
        (Listdir t, Ret entries) ∈ emitted o -> as_lines entries <> [] ->
        res o = Raise (ValueError ("Provided target dir '" +:+ t
                                   +:+ "' was not empty."))
        /\ last (emitted o) = Some (Listdir t, Ret entries))
  /\ (forall t x,
        (EnsureDir t, Exc x) ∈ emitted o -> is_OSError x = true ->
        res o = Raise (ValueError ("Unable to create target directory '"
                                   +:+ t +:+ "': " +:+ format_exception x))).
Proof. apply WorkingDir_init_run. Qed.

(** ** The child processes of the stages: shell and environment *)

(** [returns Q m]: every value [m] returns satisfies [Q]. *)
Definition returns {A} (Q : A -> Prop) (m : M A) : Prop :=
  forall h σ a, res (m h σ) = Ok a -> Q a.

Lemma emits_bind_returns {A B} (P : event -> Prop) (Q : A -> Prop)
    (m : M A) (k : A -> M B) :
  emits P m -> returns Q m -> (forall a, Q a -> emits P (k a)) ->
  emits P (bind m k).
Proof.
  intros Hm HQ Hk h σ. unfold bind. specialize (Hm h σ).
  destruct (res (m h σ)) as [a|e] eqn:Hres; simpl; [|done].
  apply Forall_app. split; [done|]. by eapply Hk, HQ.
Qed.

Lemma emits_impl {A} (P Q : event -> Prop) (m : M A) :
  (forall ev, P ev -> Q ev) -> emits P m -> emits Q m.
Proof. intros HPQ Hm h σ. eapply Forall_impl; [apply Hm | done]. Qed.

(** A child process of a stage whose environment is [env] but for the
    reporting name: it is started through a shell unless the command is a
    list, its command is not empty, and it is given [env] with
    [CURTIN_REPORTSTACK] set. *)
Definition child_of (env : gmap string string) (ev : event) : Prop :=
  match ev.1 with
  | Popen cmd cenv shell =>
      shell = negb (isinstance_list cmd)
      /\ truthy cmd = true
      /\ is_Some (cenv !! "CURTIN_REPORTSTACK")
      /\ delete "CURTIN_REPORTSTACK" cenv = delete "CURTIN_REPORTSTACK" env
  | _ => True
  end.

Lemma child_of_env (env env' : gmap string string) (ev : event) :
  delete "CURTIN_REPORTSTACK" env = delete "CURTIN_REPORTSTACK" env' ->
  child_of env ev -> child_of env' ev.
Proof.
  intros Henv. unfold child_of. destruct ev.1; try done.
  by rewrite Henv.
Qed.

(** One step of a proof that a run starts only such children, by the shape
    of the program. *)
Ltac children_step :=
  lazymatch goal with
  | |- forall _, _ => intro
  | |- emits _ (ret _) => apply emits_ret
  | |- emits _ (raise _) => apply emits_raise
  | |- emits _ (of_result _) => apply emits_of_result
  | |- emits _ (bind _ _) => apply emits_bind
  | |- emits _ (attempt _) => apply emits_attempt
  | |- emits _ (emit _) => apply emits_emit; done
  | |- emits _ (LOG _ _) => apply emits_emit; done
  | |- emits _ get_cfg => apply emits_get_cfg
  | |- emits _ get_environ => apply emits_get_environ
  | |- emits _ (set_cfg _) => apply emits_set_cfg
  | |- emits _ (ext _ _) => apply emits_ext; intro; done
  | |- emits _ (for_each _ _) => apply emits_for_each
  | |- emits _ (if ?b then _ else _) => destruct b eqn:?
  | |- emits _ (match ?x with _ => _ end) => destruct x eqn:?
  | |- emits _ _ => solve [auto with quiet nocore]
  end.

Ltac children :=
  unfold ext_unit, ext_bool, ext_str, try_except, try_except_OSError,
    try_finally, with_report, with_log_timer;
  cbv beta zeta; repeat children_step.

Section Children.
Variable world : list event -> call -> reply.
Variable format_exception : exn -> string.

Lemma Stage_read_loop_children env self rs output :
  emits (child_of env) (Stage_read_loop world self rs output).
Proof.
  revert output. induction rs as [|data rs IH]; intros output; simpl.
  - apply emits_ret.
  - apply emits_bind; [unfold Stage_write; children | intros _; apply IH].
Qed.

Lemma Stage_run_children self :
  emits (child_of (stage_env self)) (Stage_run world format_exception self).
Proof.
  pose proof (Stage_read_loop_children (stage_env self)) as Hloop.
  unfold Stage_run, Stage_run_command. children.
  apply emits_ext. intros rp. unfold child_of. cbn [fst].
  split; [done|]. split; [by destruct (truthy _)|].
  rewrite lookup_insert_eq, delete_insert_eq. eauto.
Qed.

Lemma Stage_init_returns name commands env reportstack logfile :
  returns (fun stage => stage_env stage = env)
    (Stage_init world name commands env reportstack logfile).
Proof.
  intros h σ stage. unfold Stage_init, bind. cbv zeta.
  destruct (res (Stage_open_install_log world _ h σ)); [|done].
  cbn [res ret]. by intros [= <-].
Qed.

Lemma Stage_init_children env' name commands env reportstack logfile :
  emits (child_of env')
    (Stage_init world name commands env reportstack logfile).
Proof. unfold Stage_init, Stage_open_install_log. children. Qed.

Lemma cmd_install_stage_children args_reportstack logfile env name :
  emits (child_of env)
    (cmd_install_stage world format_exception args_reportstack logfile env
       name)
  /\ returns (fun env' => delete "CURTIN_REPORTSTACK" env'
                          = delete "CURTIN_REPORTSTACK" env)
       (cmd_install_stage world format_exception args_reportstack logfile env
          name).
Proof.
  split.
  - unfold cmd_install_stage.
    apply emits_bind; [apply emits_of_result|]. intros desc. cbv zeta.
    apply emits_bind; [|intros _; apply emits_ret].
    unfold with_report, with_log_timer.
    apply emits_bind; [children|]. intros _.
    apply emits_bind; [|children]. apply emits_attempt.
    apply emits_bind; [|children]. apply emits_attempt.
    apply emits_bind; [apply emits_get_cfg|]. intros cfg.
    eapply emits_bind_returns;
      [apply Stage_init_children | apply Stage_init_returns|].
    intros stage Hstage. cbv beta in Hstage.
    eapply emits_impl; [|apply Stage_run_children].
    intros ev. apply child_of_env. rewrite Hstage. apply delete_insert_eq.
  - intros h σ env'. unfold cmd_install_stage, bind. cbv zeta.
    destruct (res (of_result _ h σ)); [|done].
    match goal with
    | |- context [res (with_report ?s ?b ?h' ?σ')] =>
        destruct (res (with_report s b h' σ'))
    end; [|done].
    cbn [res ret]. intros [= <-]. apply delete_insert_eq.
Qed.

Lemma cmd_install_stages_children args_reportstack logfile env names :
  emits (child_of env)
    (cmd_install_stages world format_exception args_reportstack logfile env
       names).
Proof.
  revert env. induction names as [|name names IH]; intros env; simpl.
  - apply emits_ret.
  - destruct (cmd_install_stage_children args_reportstack logfile env name)
      as [Hstage Henv].
    eapply emits_bind_returns; [exact Hstage | exact Henv |].
    intros env' Henv'. cbv beta in Henv'.
    eapply emits_impl; [|apply IH]. intros ev. by apply child_of_env.
Qed.

End Children.

Lemma no_popen_child_of env (ev : event) : no_popen ev -> child_of env ev.
Proof. destruct ev as [[] rp]; done. Qed.

Lemma WorkingDir_env_lookup (wd : WorkingDir) (environ : gmap string string) :
  (forall k v, (k, v) ∈ WorkingDir_env wd ->
     k <> "CURTIN_REPORTSTACK"
     /\ (list_to_map (WorkingDir_env wd) ∪ environ) !! k = Some v)
  /\ (forall k, k ∉ (WorkingDir_env wd).*1 ->
        (list_to_map (WorkingDir_env wd) ∪ environ) !! k = environ !! k).
Proof.
  split.
  - intros k v Hin. split.
    + unfold WorkingDir_env in Hin. trace_cases Hin; by simplify_eq.
    + apply lookup_union_Some_l. apply elem_of_list_to_map_1; [|done].
      unfold WorkingDir_env. cbn [fmap list_fmap fst].
      apply (bool_decide_unpack _). by vm_compute.
  - intros k Hk. apply lookup_union_r. by apply not_elem_of_list_to_map_1.
Qed.

(** Every command of the stages is started through a shell unless it is
    a list, is not empty, and runs in the environment of the installer
    with the variables of the working directory ([WORKING_DIR],
    [TARGET_MOUNT_POINT], [OUTPUT_FSTAB], ...) set over it and
    [CURTIN_REPORTSTACK] set; no other variable is changed. *)
Theorem stage_children_environment
    world get_dd_images format_exception args_reportstack logfile workingd
    h σ cmd cenv shell rp :
  (Popen cmd cenv shell, rp)
    ∈ emitted (cmd_install_try world get_dd_images format_exception
                 args_reportstack logfile workingd h σ) ->
  shell = negb (isinstance_list cmd)
  /\ truthy cmd = true
  /\ is_Some (cenv !! "CURTIN_REPORTSTACK")
  /\ (forall k v, (k, v) ∈ WorkingDir_env workingd -> cenv !! k = Some v)
  /\ (forall k, k <> "CURTIN_REPORTSTACK" ->
                k ∉ (WorkingDir_env workingd).*1 ->
                cenv !! k = h_environ σ !! k).
Proof.
  set (env := list_to_map (WorkingDir_env workingd) ∪ h_environ σ).
  assert (Hall : Forall (child_of env)
            (emitted (cmd_install_try world get_dd_images format_exception
                        args_reportstack logfile workingd h σ))).
  { unfold cmd_install_try.
    rewrite bind_obind, run_get_cfg, obind_Ok, prepend_nil.
    destruct (_ <? _)%nat; [by rewrite run_raise|].
    rewrite bind_obind, run_LOG, obind_Ok.
    rewrite bind_obind, run_get_environ, obind_Ok, prepend_nil.
    rewrite bind_obind, run_of_result.
    destruct (py_iter _) as [stages|e];
      [rewrite obind_Ok, prepend_nil
      |rewrite obind_Raise, prepend_Outcome; by repeat constructor].
    rewrite emitted_prepend. apply Forall_app. split; [by repeat constructor|].
    apply emits_bind.
    - apply cmd_install_stages_children.
    - intros _. eapply emits_impl; [apply no_popen_child_of|].
      pose proof (apply_kexec_no_popen world).
      pose proof (writeline_and_stdout_no_popen world).
      quiet. }
  intros Hin. rewrite Forall_forall in Hall. apply Hall in Hin.
  destruct Hin as (Hshell & Hcmd & Hstack & Henv).
  destruct (WorkingDir_env_lookup workingd (h_environ σ)) as [Hwd Hrest].
  fold env in Hwd, Hrest.
  assert (Hsame : forall k, k <> "CURTIN_REPORTSTACK" -> cenv !! k = env !! k).
  { intros k Hk.
    rewrite <- (lookup_delete_ne cenv "CURTIN_REPORTSTACK" k) by done.
    rewrite Henv. by apply lookup_delete_ne. }
  split; [done|]. split; [done|]. split; [done|]. split.
  - intros k v Hkv. destruct (Hwd k v Hkv) as [Hk Hv]. by rewrite Hsame.
  - intros k Hk Hnot. rewrite Hsame by done. by apply Hrest.
Qed.

Lemma stage_children_environment_witness :
  exists cenv rp,
    (Popen (PList [PStr "echo"; PStr "hi"]) cenv false, rp)
      ∈ emitted (cmd_install_try (calm_world [] 0) (fun _ => []) no_text
                   top_reportstack INSTALL_LOG two_stage_workingd
                   [] two_stage_heap)
    /\ cenv !! "TARGET_MOUNT_POINT" = Some "/tmp/tmpx/target".
Proof.
  exists (<["CURTIN_REPORTSTACK" := "cmd-install/stage-early/10_first"]>
            (list_to_map (WorkingDir_env two_stage_workingd))),
         (Ret (RProc {| reads := ["o"; "k"]; returncode := 0 |})).
  assert (Hin : (Popen (PList [PStr "echo"; PStr "hi"])
                   (<["CURTIN_REPORTSTACK" :=
                        "cmd-install/stage-early/10_first"]>
                      (list_to_map (WorkingDir_env two_stage_workingd)))
                   false,
                 Ret (RProc {| reads := ["o"; "k"]; returncode := 0 |}))
                ∈ emitted (cmd_install_try (calm_world [] 0) (fun _ => [])
                             no_text top_reportstack INSTALL_LOG
                             two_stage_workingd [] two_stage_heap)).
  { apply list_elem_of_lookup_2 with 4. vm_compute. reflexivity. }
  split; [exact Hin|].
  destruct (stage_children_environment _ _ _ _ _ _ _ _ _ _ _ _ Hin)
    as (_ & _ & _ & Hwd & _).
  apply Hwd. unfold WorkingDir_env. in_trace.
Defined.


(** ** The output of a command: forwarded and logged *)

Definition stdout_data (ev : event) : option string :=
  match ev.1 with StdoutWrite data => Some data | _ => None end.

(** What a trace writes to the standard output, piece by piece. *)
Definition forwarded (tr : list event) : list string := omap stdout_data tr.

Definition log_data (ev : event) : option (string * string) :=
  match ev.1 with Write f data => Some (f, data) | _ => None end.

(** What a trace writes to files: the file and the data of each write. *)
Definition logged (tr : list event) : list (string * string) :=
  omap log_data tr.

(** What is to be written to the install log of a stage for the pieces
    [rs] of output: nothing when the log could not be opened. *)
Definition log_copy (self : Stage) (rs : list string)
    : list (string * string) :=
  match stage_install_log self with
  | Some f => map (pair f) rs
  | None => []
  end.

Lemma forwarded_app (a b : list event) :
  forwarded (a ++ b) = forwarded a ++ forwarded b.
Proof. apply omap_app. Qed.

Lemma logged_app (a b : list event) : logged (a ++ b) = logged a ++ logged b.
Proof. apply omap_app. Qed.

(** The read loop forwards the pieces of output in order, each to the
    standard output first and then to the install log; all of them when
    it returns. *)
Lemma Stage_read_loop_tee world self rs output h σ :
  forwarded (emitted (Stage_read_loop world self rs output h σ))
    `prefix_of` rs
  /\ logged (emitted (Stage_read_loop world self rs output h σ))
       `prefix_of` log_copy self rs
  /\ length (logged (emitted (Stage_read_loop world self rs output h σ)))
     <= length (forwarded (emitted (Stage_read_loop world self rs output h σ)))
  /\ (is_ok (res (Stage_read_loop world self rs output h σ)) = true ->
      forwarded (emitted (Stage_read_loop world self rs output h σ)) = rs
      /\ logged (emitted (Stage_read_loop world self rs output h σ))
         = log_copy self rs).
Proof.
  unfold log_copy.
  revert output h. induction rs as [|data rs IH]; intros output h.
  - cbn [Stage_read_loop]. rewrite run_ret. cbn [emitted res].
    by destruct (stage_install_log self).
  - cbn [Stage_read_loop]. unfold Stage_write. run_pure.
    ask_world; run_pure.
    2:{ cbn. split; [by eexists|]. split; [apply prefix_nil|]. split; [lia|].
        done. }
    destruct (stage_install_log self) as [f|] eqn:Hlog; run_pure.
    + ask_world; run_pure.
      2:{ cbn. split; [by eexists|]. split; [by eexists|]. split; [lia|].
          done. }
      match goal with
      | |- context [Stage_read_loop world self rs ?out ?h'] =>
          destruct (IH out h') as (Hfw & Hlg & Hlen & Hok)
      end.
      rewrite emitted_prepend, res_prepend, forwarded_app, logged_app.
      cbn [map app forwarded logged omap stdout_data log_data fst
           option_bind mbind from_option].
      change (omap stdout_data ?l) with (forwarded l).
      change (omap log_data ?l) with (logged l).
      split; [by apply prefix_cons|]. split; [by apply prefix_cons|].
      split; [simpl; lia|]. intros Hres. destruct (Hok Hres) as [-> ->].
      done.
    + match goal with
      | |- context [Stage_read_loop world self rs ?out ?h'] =>
          destruct (IH out h') as (Hfw & Hlg & Hlen & Hok)
      end.
      rewrite emitted_prepend, res_prepend, forwarded_app, logged_app.
      cbn [map app forwarded logged omap stdout_data log_data fst
           option_bind mbind from_option].
      change (omap stdout_data ?l) with (forwarded l).
      change (omap log_data ?l) with (logged l).
      split; [by apply prefix_cons|]. split; [done|].
      split; [simpl; lia|]. intros Hres. destruct (Hok Hres) as [-> ->].
      done.
Qed.

Lemma report_start_silent stack :
  forwarded (report_start stack) = [] /\ logged (report_start stack) = []
  /\ Forall (fun e => returned e = true) (report_start stack)
  /\ Forall (fun e => is_popen e = false) (report_start stack).
Proof. unfold report_start. destruct (rs_enabled stack); by repeat constructor. Qed.

Lemma report_finish_silent stack ok :
  forwarded (report_finish stack ok) = []
  /\ logged (report_finish stack ok) = []
  /\ Forall (fun e => returned e = true) (report_finish stack ok)
  /\ Forall (fun e => is_popen e = false) (report_finish stack ok).
Proof.
  unfold report_finish. destruct (rs_enabled stack), ok; by repeat constructor.
Qed.

Lemma popen_not_quiet (tr : list event) cmd env shell r :
  Forall (fun e => is_popen e = false) tr -> (Popen cmd env shell, r) ∉ tr.
Proof.
  intros Hq Hin. rewrite Forall_forall in Hq. by specialize (Hq _ Hin).
Qed.

(** The started process of a command, from its launch in the trace. *)
Ltac launched_process Hin :=
  repeat (rewrite ?elem_of_app, ?elem_of_cons, ?elem_of_nil in Hin);
  repeat match type of Hin with
    | _ \/ _ => destruct Hin as [Hin|Hin]
    end;
  try match goal with
    | Hq : Forall (fun e => is_popen e = false) ?tr, Hin : _ ∈ ?tr |- _ =>
        destruct (popen_not_quiet _ _ _ _ _ Hq Hin)
    end;
  try done; try (by simplify_eq).

Lemma forwarded_cons ev tr :
  forwarded (ev :: tr)
  = match stdout_data ev with
    | Some data => data :: forwarded tr
    | None => forwarded tr
    end.
Proof. unfold forwarded. simpl. by destruct (stdout_data ev). Qed.

Lemma logged_cons ev tr :
  logged (ev :: tr)
  = match log_data ev with
    | Some w => w :: logged tr
    | None => logged tr
    end.
Proof. unfold logged. simpl. by destruct (log_data ev). Qed.

Ltac tee_trace :=
  repeat rewrite ?forwarded_app, ?logged_app, ?forwarded_cons, ?logged_cons;
  cbn [stdout_data log_data fst];
  change (forwarded []) with (@nil string);
  change (logged []) with (@nil (string * string));
  repeat match goal with
    | H : forwarded _ = [] |- _ => rewrite H
    | H : logged _ = [] |- _ => rewrite H
    end;
  rewrite ?app_nil_r; cbn [app].

(** [Stage.run] with [Stage.write], lines 204-209 and 224-246: the output
    of a started command is passed on piece by piece, in the
    order read, each piece to the standard output first and then to the
    install log of the stage (to no file when the log could not be opened),
    and nothing else is written to either.  What went out is always a
    prefix of what the process wrote; when no call of the command failed,
    all of it went out to both, and the command ends well exactly when the
    return code is 0, otherwise in a process-execution error that carries
    the whole output and the return code. *)
Theorem command_output_forwarded
    world format_exception self cmdname cmd h σ cmd' cenv shell p :
  (Popen cmd' cenv shell, Ret (RProc p))
    ∈ emitted (Stage_run_command world format_exception self cmdname cmd h σ) ->
  forwarded (emitted (Stage_run_command world format_exception self cmdname
                        cmd h σ))
    `prefix_of` reads p
  /\ logged (emitted (Stage_run_command world format_exception self cmdname
                        cmd h σ))
       `prefix_of` log_copy self (reads p)
  /\ length (logged (emitted (Stage_run_command world format_exception self
                                cmdname cmd h σ)))
     <= length (forwarded (emitted (Stage_run_command world format_exception
                                      self cmdname cmd h σ)))
  /\ (Forall (fun e => returned e = true)
        (emitted (Stage_run_command world format_exception self cmdname cmd
                    h σ)) ->
      forwarded (emitted (Stage_run_command world format_exception self
                            cmdname cmd h σ)) = reads p
      /\ logged (emitted (Stage_run_command world format_exception self
                            cmdname cmd h σ)) = log_copy self (reads p)
      /\ res (Stage_run_command world format_exception self cmdname cmd h σ)
         = if (returncode p =? 0)%Z then Ok tt
           else Raise (ProcessExecutionError (Some (captured p))
                         (Some (returncode p)) cmd None)).
Proof.
  unfold Stage_run_command.
  destruct (truthy cmd); cbn [negb].
  2:{ rewrite run_ret. by intros ?%elem_of_nil. }
  destruct (join_cmd cmd) as [joined|e]; run_pure.
  2:{ by intros ?%elem_of_nil. }
  rewrite with_log_timer_run, with_report_run. cbn [emitted res].
  set (stack := new_reportstack _ _ _ _).
  destruct (report_start_silent stack) as (Hs1 & Hs2 & Hs3 & Hs4).
  set (env := <["CURTIN_REPORTSTACK":=_]> (stage_env self)).
  unfold try_except_OSError. run_pure.
  ask_world; run_pure.
  - match goal with
    | |- context [report_finish stack ?ok] =>
        destruct (report_finish_silent stack ok) as (Hf1 & Hf2 & Hf3 & Hf4);
        set (fin := report_finish stack ok) in *; clearbody fin
    end.
    match goal with
    | |- context [Stage_read_loop world self ?rs ?out0 ?h'] =>
        destruct (Stage_read_loop_run world self rs out0 h' σ)
          as (Hσ & Hq & Hres);
        destruct (Stage_read_loop_tee world self rs out0 h' σ)
          as (Hfw & Hlg & Hlen & Hall);
        destruct (obind_cases (Stage_read_loop world self rs out0 h' σ)
                    (fun output =>
                       if negb (returncode (as_proc v) =? 0)%Z
                       then LOG WARN (cmdname +:+ " command failed") >>
                            raise (ProcessExecutionError (Some output)
                                     (Some (returncode (as_proc v))) cmd None)
                       else ret tt) h')
          as [(out & Hout & ->)|(e & He & ->)];
        set (L := Stage_read_loop world self rs out0 h' σ) in *;
        clearbody L
    end.
    + rewrite Hout in Hres. destruct Hres as [-> Hret].
      rewrite Hout in Hall. destruct (Hall eq_refl) as [Hfw' Hlg'].
      destruct (returncode (as_proc v) =? 0)%Z eqn:Hrc; run_pure;
        cbn [emitted res final app]; intros Hin.
      * assert (Hv : v = RProc p) by launched_process Hin.
        subst v. cbn [as_proc] in *. tee_trace.
        split; [done|]. split; [done|]. split; [done|]. intros _.
        by rewrite Hrc.
      * assert (Hv : v = RProc p) by launched_process Hin.
        subst v. cbn [as_proc] in *. tee_trace.
        split; [done|]. split; [done|]. split; [done|]. intros _.
        by rewrite Hrc.
    + rewrite He in Hres. run_pure. cbn [emitted res final app].
      intros Hin.
      assert (Hv : v = RProc p) by launched_process Hin.
      subst v. cbn [as_proc] in *. tee_trace.
      split; [done|]. split; [done|]. split; [done|]. intros Hret.
      destruct Hres. apply Forall_app in Hret as [Hret _].
      apply Forall_app in Hret as [_ Hret].
      apply Forall_cons in Hret as [_ Hret].
      by apply Forall_app in Hret as [Hret _].
  - destruct (is_OSError e); run_pure; cbn [emitted res final app];
      match goal with
      | |- context [report_finish stack ?ok] =>
          destruct (report_finish_silent stack ok) as (_ & _ & _ & Hf4)
      end;
      intros Hin; launched_process Hin.
Qed.

(** A stage that logs to the install log. *)
Definition logging_stage : Stage :=
  MkStage (PStr "early") (PDict []) ∅ (Some INSTALL_LOG) top_reportstack.

Lemma command_output_forwarded_witness :
  forwarded (emitted (Stage_run_command (calm_world [] 1) no_text
                        logging_stage "10_first" (PStr "false") [] heap0))
  = ["o"; "k"]
  /\ logged (emitted (Stage_run_command (calm_world [] 1) no_text
                        logging_stage "10_first" (PStr "false") [] heap0))
     = [(INSTALL_LOG, "o"); (INSTALL_LOG, "k")]
  /\ res (Stage_run_command (calm_world [] 1) no_text logging_stage
            "10_first" (PStr "false") [] heap0)
     = Raise (ProcessExecutionError (Some "ok") (Some 1%Z) (PStr "false")
                None).
Proof.
  assert (Hin : (Popen (PStr "false")
                   (<["CURTIN_REPORTSTACK":="cmd-install/10_first"]> ∅) true,
                 Ret (RProc {| reads := ["o"; "k"]; returncode := 1 |}))
                ∈ emitted (Stage_run_command (calm_world [] 1) no_text
                             logging_stage "10_first" (PStr "false") []
                             heap0)).
  { vm_compute. in_trace. }
  assert (Hret : Forall (fun e => returned e = true)
                   (emitted (Stage_run_command (calm_world [] 1) no_text
                               logging_stage "10_first" (PStr "false") []
                               heap0))).
  { vm_compute. repeat constructor. }
  destruct (command_output_forwarded (calm_world [] 1) no_text logging_stage
              "10_first" (PStr "false") [] heap0 _ _ _ _ Hin)
    as (_ & _ & _ & Hall).
  exact (Hall Hret).
Defined.

(** ** The verdict of the install *)

(** The calls that mark the course of the install: the two reports of the
    legacy reporter, the commands run without a shell, and the fork. *)
Definition is_verdict (ev : event) : bool :=
  match ev.1 with ReportSuccess | ReportFailure _ => true | _ => false end.

Definition special (ev : event) : bool :=
  match ev.1 with
  | ReportSuccess | ReportFailure _ | Subp _ | Fork => true
  | _ => false
  end.

Definition routine (ev : event) : Prop := special ev = false.

Definition is_milestone (ev : event) : bool :=
  match ev.1 with ReportSuccess | ReportFailure _ | Fork => true | _ => false end.

Definition no_milestone (ev : event) : Prop := is_milestone ev = false.

(** [kexec -l] (the only command run without a shell before the power
    state is applied) returned. *)
Definition kexec_loaded (ev : event) : bool :=
  match ev with (Subp _, Ret _) => true | _ => false end.

(** Line 467: the power state that replaces the configured one. *)
Definition reboot_with_kexec : pyval :=
  PDict [("mode", PStr "reboot"); ("delay", PStr "now");
         ("message", PStr "'rebooting with kexec'")].

Section Routine.
Variable world : list event -> call -> reply.
Variable format_exception : exn -> string.

Lemma writeline_routine fname output :
  emits routine (writeline world fname output).
Proof. unfold writeline. quiet. Qed.
Hint Resolve writeline_routine : quiet.

Lemma writeline_and_stdout_routine logfile message :
  emits routine (writeline_and_stdout world logfile message).
Proof. unfold writeline_and_stdout. quiet. Qed.

Lemma WorkingDir_init_routine config :
  emits routine (WorkingDir_init world format_exception config).
Proof. unfold WorkingDir_init. quiet. Qed.

Lemma Stage_init_routine name commands env reportstack logfile :
  emits routine (Stage_init world name commands env reportstack logfile).
Proof. unfold Stage_init, Stage_open_install_log. quiet. Qed.

Lemma Stage_read_loop_routine self rs output :
  emits routine (Stage_read_loop world self rs output).
Proof.
  revert output. induction rs as [|data rs IH]; intros output; simpl.
  - apply emits_ret.
  - apply emits_bind; [unfold Stage_write; quiet | intros _; apply IH].
Qed.
Hint Resolve Stage_read_loop_routine : quiet.

Lemma Stage_run_routine self :
  emits routine (Stage_run world format_exception self).
Proof. unfold Stage_run, Stage_run_command. quiet. Qed.
Hint Resolve Stage_init_routine Stage_run_routine : quiet.

Lemma cmd_install_stages_routine args_reportstack logfile env names :
  emits routine
    (cmd_install_stages world format_exception args_reportstack logfile env
       names).
Proof.
  revert env. induction names as [|name names IH]; intros env; simpl.
  - apply emits_ret.
  - apply emits_bind; [|intros env'; apply IH].
    unfold cmd_install_stage. quiet.
Qed.

Lemma apply_kexec_no_milestone kexec target :
  emits no_milestone (apply_kexec world kexec target).
Proof. unfold apply_kexec. quiet. Qed.

End Routine.

Lemma writeline_and_stdout_written world logfile message h σ :
  final (writeline_and_stdout world logfile message h σ) = σ
  /\ (res (writeline_and_stdout world logfile message h σ) = Ok tt ->
      exists v, (StdoutWrite (message +:+ chr newline), Ret v)
                ∈ emitted (writeline_and_stdout world logfile message h σ)).
Proof.
  unfold writeline_and_stdout, writeline, try_except_OSError. run_pure.
  ask_world; run_pure; [ask_world; run_pure|];
    try (destruct (is_OSError e) eqn:?; run_pure);
    try (ask_world; run_pure);
    cbn [final res emitted]; (split; [done|]); intros Hres;
    try discriminate; eexists; cbn [app]; in_trace.
Qed.

Lemma kexec_loaded_spec (tr : list event) :
  existsb kexec_loaded tr = true
  <-> exists args v, (Subp args, Ret v) ∈ tr.
Proof.
  rewrite existsb_exists. split.
  - intros ([c [w|]] & Hin & Hev); destruct c; try done.
    exists args, w. by apply list_elem_of_In.
  - intros (args & v & Hin). exists (Subp args, Ret v).
    split; [by apply list_elem_of_In|done].
Qed.

Lemma kexec_loaded_app (a b : list event) :
  existsb kexec_loaded (a ++ b)
  = existsb kexec_loaded a || existsb kexec_loaded b.
Proof. apply existsb_app. Qed.

Lemma routine_not_loaded (tr : list event) :
  Forall routine tr -> existsb kexec_loaded tr = false.
Proof.
  induction 1 as [|[c r] tr Hev _ IH]; [done|]. simpl. rewrite IH.
  by destruct c, r.
Qed.

Lemma routine_no_verdict (tr : list event) :
  Forall routine tr -> Forall (fun e => is_verdict e = false) tr.
Proof.
  intros H. eapply Forall_impl; [exact H|]. by intros [[] ?].
Qed.

Lemma no_milestone_no_verdict (tr : list event) :
  Forall no_milestone tr -> Forall (fun e => is_verdict e = false) tr.
Proof.
  intros H. eapply Forall_impl; [exact H|]. by intros [[] ?].
Qed.

(** [apply_kexec] returns [True] exactly when [kexec -l] returned. *)
Lemma apply_kexec_loaded world kexec target h σ :
  final (apply_kexec world kexec target h σ) = σ
  /\ (res (apply_kexec world kexec target h σ) = Ok true
      <-> existsb kexec_loaded (emitted (apply_kexec world kexec target h σ))
          = true).
Proof.
  destruct (apply_kexec_sound world kexec target h σ)
    as [Hfinal [[Hnil Hne]|Hrun]]; (split; [done|]).
  - rewrite Hnil. simpl. split; [done|discriminate].
  - rewrite kexec_loaded_spec. by destruct (kexec_run_facts _ _ _ Hrun).
Qed.

(** What holds of a run [o] of the [try] block, started on the heap [σ],
    that came to its report of success. *)
Definition clean_run (get_dd_images : pyval -> list string)
    (args_reportstack : reportstack) (σ : heap) (o : outcome unit) : Prop :=
  exists r pre names,
    emitted o = pre ++ [(ReportSuccess, r)]
    /\ res o = match r with Ret _ => Ok tt | Exc e => Raise e end
    /\ Forall (fun e => is_verdict e = false) pre
    /\ length (get_dd_images (dict_get_default (h_cfg σ) "sources" (PDict [])))
       <= 1
    /\ py_iter (dict_get_default (h_cfg σ) "stages" PNone) = Ok names
    /\ launches pre = install_plan (h_cfg σ) args_reportstack names
    /\ Forall (fun e => failed_launch e = None) pre
    /\ (exists v, (StdoutWrite (INSTALL_PASS_MSG +:+ chr newline), Ret v) ∈ pre)
    /\ h_environ (final o) = h_environ σ
    /\ h_cfg (final o)
       = if existsb kexec_loaded pre
         then dict_set (h_cfg σ) "power_state" reboot_with_kexec
         else h_cfg σ.

(** Lines 466-471: the end of the [try] block, after the stages. *)
Lemma cmd_install_try_end world logfile target h σ :
  let o :=
    (let* cfg := get_cfg in
     let* kexec := apply_kexec world (dict_get_default cfg "kexec" PNone)
                     target in
     (if kexec then
        set_cfg (dict_set cfg "power_state"
                   (PDict [("mode", PStr "reboot"); ("delay", PStr "now");
                           ("message", PStr "'rebooting with kexec'")]))
      else ret tt) >>
     writeline_and_stdout world logfile INSTALL_PASS_MSG >>
     ext_unit world ReportSuccess) h σ in
  Forall no_popen (emitted o)
  /\ (Forall (fun e => is_verdict e = false) (emitted o)
      /\ (exists e, res o = Raise e)
      \/ exists r pre,
           emitted o = pre ++ [(ReportSuccess, r)]
           /\ res o = match r with Ret _ => Ok tt | Exc e => Raise e end
           /\ Forall (fun e => is_verdict e = false) pre
           /\ (exists v, (StdoutWrite (INSTALL_PASS_MSG +:+ chr newline), Ret v)
                         ∈ pre)
           /\ h_environ (final o) = h_environ σ
           /\ h_cfg (final o)
              = if existsb kexec_loaded pre
                then dict_set (h_cfg σ) "power_state" reboot_with_kexec
                else h_cfg σ).
Proof.
  cbv zeta. split.
  { apply (emits_bind no_popen); [apply emits_get_cfg|]. intros cfg.
    apply emits_bind; [apply apply_kexec_no_popen|]. intros kexec.
    apply emits_bind; [destruct kexec; [apply emits_set_cfg|apply emits_ret]|].
    intros _. apply emits_bind; [apply writeline_and_stdout_no_popen|].
    intros _. unfold ext_unit. apply emits_bind; [|intros; apply emits_ret].
    by apply emits_ext. }
  run_pure.
  set (kexec := dict_get_default (h_cfg σ) "kexec" PNone).
  destruct (apply_kexec_loaded world kexec target h σ) as [HσK HK].
  pose proof (no_milestone_no_verdict _
                (apply_kexec_no_milestone world kexec target h σ)) as HvK.
  match goal with
  | |- context [obind ?o ?k ?h'] =>
      destruct (obind_cases o k h') as [(b & Hb & ->)|(e & He & ->)]
  end.
  2:{ left. cbn [emitted res]. eauto. }
  rewrite HσK.
  assert (Hloaded : existsb kexec_loaded
                      (emitted (apply_kexec world kexec target h σ)) = b).
  { destruct b; [by apply HK|]. apply not_true_is_false.
    rewrite <- HK, Hb. discriminate. }
  set (K := emitted (apply_kexec world kexec target h σ)) in *. clearbody K.
  set (σ' := if b then {| h_cfg := dict_set (h_cfg σ) "power_state"
                                     reboot_with_kexec;
                          h_environ := h_environ σ |} else σ).
  assert (Hrun : forall k : unit -> M unit,
            bind (if b then
                    set_cfg (dict_set (h_cfg σ) "power_state"
                      (PDict [("mode", PStr "reboot"); ("delay", PStr "now");
                              ("message", PStr "'rebooting with kexec'")]))
                  else ret tt) k (h ++ K) σ
            = k tt (h ++ K) σ').
  { intros k. subst σ'. destruct b; run_pure; by rewrite ?app_nil_r. }
  rewrite Hrun. run_pure.
  destruct (writeline_and_stdout_written world logfile INSTALL_PASS_MSG
              (h ++ K) σ') as [HσW HW].
  pose proof (routine_no_verdict _
                (writeline_and_stdout_routine world logfile INSTALL_PASS_MSG
                   (h ++ K) σ')) as HvW.
  pose proof (routine_not_loaded _
                (writeline_and_stdout_routine world logfile INSTALL_PASS_MSG
                   (h ++ K) σ')) as HlW.
  match goal with
  | |- context [obind ?o ?k ?h'] =>
      destruct (obind_cases o k h') as [([] & HWok & ->)|(e & He & ->)]
  end.
  2:{ left. rewrite emitted_prepend, res_prepend. cbn [emitted res].
      split; [by apply Forall_app|eauto]. }
  destruct (HW HWok) as [v Hv]. rewrite HσW.
  set (W := emitted (writeline_and_stdout world logfile INSTALL_PASS_MSG
                       (h ++ K) σ')) in *. clearbody W.
  assert (Hσ' : h_environ σ' = h_environ σ
                /\ h_cfg σ'
                   = if existsb kexec_loaded (K ++ W)
                     then dict_set (h_cfg σ) "power_state" reboot_with_kexec
                     else h_cfg σ).
  { rewrite kexec_loaded_app, Hloaded, HlW, orb_false_r. subst σ'.
    by destruct b. }
  destruct Hσ' as [Henv Hcfg].
  ask_world; run_pure; right;
    [exists (Ret v0), (K ++ W) | exists (Exc e), (K ++ W)];
    cbn [emitted res final];
    (split; [by rewrite app_assoc|]); (split; [done|]);
    (split; [by apply Forall_app|]);
    (split; [exists v; apply elem_of_app; by right|done]).
Qed.

Lemma cmd_install_try_run
    world get_dd_images format_exception args_reportstack logfile workingd
    h σ :
  Forall (fun e => is_verdict e = false)
    (emitted (cmd_install_try world get_dd_images format_exception
                args_reportstack logfile workingd h σ))
  /\ (exists e, res (cmd_install_try world get_dd_images format_exception
                       args_reportstack logfile workingd h σ) = Raise e)
  \/ clean_run get_dd_images args_reportstack σ
       (cmd_install_try world get_dd_images format_exception
          args_reportstack logfile workingd h σ).
Proof.
  unfold cmd_install_try. run_pure.
  destruct (1 <? length _)%nat eqn:Hdd; run_pure.
  { left. split; [done|eauto]. }
  apply Nat.ltb_ge in Hdd.
  destruct (py_iter _) as [names|e] eqn:Hiter; run_pure.
  2:{ left. split; [by repeat constructor|eauto]. }
  match goal with
  | |- context [cmd_install_stages world format_exception args_reportstack
                  logfile ?env names ?h' σ] =>
      destruct (cmd_install_stages_follows world format_exception
                  args_reportstack logfile env names h' σ)
        as (HσS & HstopS & HpreS & HallS);
      pose proof (cmd_install_stages_routine world format_exception
                    args_reportstack logfile env names h' σ) as HrS;
      set (S := cmd_install_stages world format_exception args_reportstack
                  logfile env names h' σ) in *
  end.
  match goal with
  | |- context [obind ?o ?k ?h'] =>
      destruct (obind_cases o k h') as [([] & HS & ->)|(e & He & ->)]
  end.
  2:{ left. rewrite emitted_prepend, res_prepend. cbn [emitted res].
      split; [|eauto]. apply Forall_app. split; [by repeat constructor|].
      by apply routine_no_verdict. }
  rewrite HσS.
  match goal with
  | |- context [prepend (emitted S) (_ ?h' σ)] =>
      pose proof (cmd_install_try_end world logfile (wd_target workingd) h' σ)
        as HT
  end.
  cbv zeta in HT.
  match type of HT with
  | Forall no_popen (emitted ?t) /\ _ => set (T := t) in *
  end.
  clearbody T.
  rewrite !emitted_prepend, !res_prepend. unfold clean_run.
  rewrite !final_prepend, !emitted_prepend, !res_prepend.
  set (l := (Log DEBUG _, Ret RNone)). cbn [app].
  assert (HvS := routine_no_verdict _ HrS).
  assert (HlS := routine_not_loaded _ HrS).
  unfold raised in HstopS. rewrite HS in HstopS, HallS.
  apply stops_None in HstopS. specialize (HallS eq_refl).
  destruct HT as [HpT [[HvT [e He]]|(r & pre & HeT & HrT & Hvpre & Hout & Henv
                                     & Hcfg)]].
  { left. split; [|eauto]. constructor; [done|]. by apply Forall_app. }
  right. exists r, (l :: emitted S ++ pre), names.
  rewrite HeT in HpT. apply Forall_app in HpT as [HpT _].
  split; [by rewrite HeT, app_assoc|]. split; [done|].
  split; [constructor; [done|]; by apply Forall_app|].
  split; [done|]. split; [done|].
  split.
  { change (l :: emitted S ++ pre) with ([l] ++ emitted S ++ pre).
    rewrite !launches_app, (launches_no_popen pre) by done.
    by rewrite app_nil_r. }
  split.
  { constructor; [done|]. apply Forall_app. split; [done|].
    eapply Forall_impl; [exact HpT|]. apply not_popen_not_failed. }
  split.
  { destruct Hout as [v Hv]. exists v. apply list_elem_of_further.
    apply elem_of_app. by right. }
  split; [done|].
  rewrite Hcfg.
  change (l :: emitted S ++ pre) with ([l] ++ emitted S ++ pre).
  by rewrite !kexec_loaded_app, HlS.
Qed.

(** The [try] block comes to its report of success only after a clean
    run.  When it returned, or when the report of success was made at all:
    that report is its last call and the first report of the legacy
    reporter, and the block returns exactly when the report does; the
    sources hold at most one disk image; all the commands of the install
    plan have been started, in order, and none of them exited with a
    nonzero return code; the message of success has been written to the
    standard output; [os.environ] is as before, and the configuration is
    as before but for [power_state], which is the reboot through kexec
    exactly when [kexec -l] returned. *)
Theorem success_reported_after_clean_run
    world get_dd_images format_exception args_reportstack logfile workingd
    h σ :
  res (cmd_install_try world get_dd_images format_exception args_reportstack
         logfile workingd h σ) = Ok tt
  \/ (exists r, (ReportSuccess, r)
                ∈ emitted (cmd_install_try world get_dd_images
                             format_exception args_reportstack logfile
                             workingd h σ)) ->
  exists r pre names,
    emitted (cmd_install_try world get_dd_images format_exception
               args_reportstack logfile workingd h σ)
    = pre ++ [(ReportSuccess, r)]
    /\ res (cmd_install_try world get_dd_images format_exception
              args_reportstack logfile workingd h σ)
       = match r with Ret _ => Ok tt | Exc e => Raise e end
    /\ Forall (fun e => is_verdict e = false) pre
    /\ length (get_dd_images (dict_get_default (h_cfg σ) "sources" (PDict [])))
       <= 1
    /\ py_iter (dict_get_default (h_cfg σ) "stages" PNone) = Ok names
    /\ launches pre = install_plan (h_cfg σ) args_reportstack names
    /\ Forall (fun e => failed_launch e = None) pre
    /\ (exists v, (StdoutWrite (INSTALL_PASS_MSG +:+ chr newline), Ret v) ∈ pre)
    /\ h_environ (final (cmd_install_try world get_dd_images format_exception
                           args_reportstack logfile workingd h σ))
       = h_environ σ
    /\ h_cfg (final (cmd_install_try world get_dd_images format_exception
                       args_reportstack logfile workingd h σ))
       = if existsb kexec_loaded pre
         then dict_set (h_cfg σ) "power_state" reboot_with_kexec
         else h_cfg σ.
Proof.
  intros Hyp.
  destruct (cmd_install_try_run world get_dd_images format_exception
              args_reportstack logfile workingd h σ)
    as [[Hv [e He]]|Hclean]; [|exact Hclean].
  exfalso. destruct Hyp as [Hok|[r Hin]]; [congruence|].
  rewrite Forall_forall in Hv. by specialize (Hv _ Hin).
Qed.

(** The install of two stages with a request to load the kernel for
    kexec. *)
Definition kexec_install_heap : heap :=
  {| h_cfg := ("install", PDict [("log_file", PStr INSTALL_LOG)])
              :: ("kexec", PDict [("mode", PStr "on")]) :: two_stage_config;
     h_environ := ∅ |}.

Lemma success_reported_after_clean_run_witness :
  exists r pre names,
    emitted (cmd_install_try (calm_world (two_entries set_default_1) 0) (fun _ => []) no_text
               top_reportstack INSTALL_LOG two_stage_workingd []
               kexec_install_heap)
    = pre ++ [(ReportSuccess, r)]
    /\ res (cmd_install_try (calm_world (two_entries set_default_1) 0) (fun _ => []) no_text
              top_reportstack INSTALL_LOG two_stage_workingd []
              kexec_install_heap)
       = match r with Ret _ => Ok tt | Exc e => Raise e end
    /\ Forall (fun e => is_verdict e = false) pre
    /\ length ((fun _ : pyval => @nil string)
                 (dict_get_default (h_cfg kexec_install_heap) "sources"
                    (PDict [])))
       <= 1
    /\ py_iter (dict_get_default (h_cfg kexec_install_heap) "stages" PNone)
       = Ok names
    /\ launches pre
       = install_plan (h_cfg kexec_install_heap) top_reportstack names
    /\ Forall (fun e => failed_launch e = None) pre
    /\ (exists v, (StdoutWrite (INSTALL_PASS_MSG +:+ chr newline), Ret v) ∈ pre)
    /\ h_environ (final (cmd_install_try (calm_world (two_entries set_default_1) 0)
                           (fun _ => []) no_text top_reportstack INSTALL_LOG
                           two_stage_workingd [] kexec_install_heap))
       = h_environ kexec_install_heap
    /\ h_cfg (final (cmd_install_try (calm_world (two_entries set_default_1) 0)
                       (fun _ => []) no_text top_reportstack INSTALL_LOG
                       two_stage_workingd [] kexec_install_heap))
       = if existsb kexec_loaded pre
         then dict_set (h_cfg kexec_install_heap) "power_state"
                reboot_with_kexec
         else h_cfg kexec_install_heap.
Proof.
  apply (success_reported_after_clean_run (calm_world (two_entries set_default_1) 0)
           (fun _ => []) no_text top_reportstack INSTALL_LOG
           two_stage_workingd [] kexec_install_heap).
  left. vm_compute. reflexivity.
Defined.


(** ** The power state: applied only after a reported success *)

Definition is_fork (ev : event) : bool :=
  match ev.1 with Fork => true | _ => false end.

Definition no_fork (ev : event) : Prop := is_fork ev = false.

Lemma routine_no_fork ev : routine ev -> no_fork ev.
Proof. by destruct ev as [[] ?]. Qed.

Lemma no_milestone_no_fork ev : no_milestone ev -> no_fork ev.
Proof. by destruct ev as [[] ?]. Qed.

Section NoFork.
Variable world : list event -> call -> reply.
Variable target_path : string -> pyval -> string.
Variable get_dd_images : pyval -> list string.
Variable get_iscsi_disks_from_config : dict -> list string.
Variable get_zpool_from_config : dict -> list string.
Variable format_exception : exn -> string.

Lemma writeline_no_fork fname output :
  emits no_fork (writeline world fname output).
Proof. eapply emits_impl; [apply routine_no_fork|apply writeline_routine]. Qed.

Lemma writeline_and_stdout_no_fork logfile message :
  emits no_fork (writeline_and_stdout world logfile message).
Proof.
  eapply emits_impl; [apply routine_no_fork|].
  apply writeline_and_stdout_routine.
Qed.

Lemma WorkingDir_init_no_fork config :
  emits no_fork (WorkingDir_init world format_exception config).
Proof.
  eapply emits_impl; [apply routine_no_fork|apply WorkingDir_init_routine].
Qed.

Lemma cmd_install_stages_no_fork args_reportstack logfile env names :
  emits no_fork
    (cmd_install_stages world format_exception args_reportstack logfile env
       names).
Proof.
  eapply emits_impl; [apply routine_no_fork|].
  apply cmd_install_stages_routine.
Qed.

Lemma apply_kexec_no_fork kexec target :
  emits no_fork (apply_kexec world kexec target).
Proof.
  eapply emits_impl; [apply no_milestone_no_fork|].
  apply apply_kexec_no_milestone.
Qed.
Hint Resolve writeline_no_fork writeline_and_stdout_no_fork
  WorkingDir_init_no_fork cmd_install_stages_no_fork apply_kexec_no_fork
  : quiet.

Lemma cmd_install_try_no_fork args_reportstack logfile workingd :
  emits no_fork
    (cmd_install_try world get_dd_images format_exception args_reportstack
       logfile workingd).
Proof. unfold cmd_install_try. quiet. Qed.

Lemma cmd_install_except_no_fork logfile error_tarfile e :
  emits no_fork
    (cmd_install_except world format_exception logfile error_tarfile e).
Proof. unfold cmd_install_except. quiet. Qed.

Lemma cmd_install_finally_no_fork instcfg logfile workingd :
  emits no_fork
    (cmd_install_finally world target_path get_iscsi_disks_from_config
       get_zpool_from_config instcfg logfile workingd).
Proof.
  unfold cmd_install_finally, cmd_install_teardown, copy_install_log. quiet.
Qed.

Lemma cmd_install_finally_routine instcfg logfile workingd :
  emits routine
    (cmd_install_finally world target_path get_iscsi_disks_from_config
       get_zpool_from_config instcfg logfile workingd).
Proof.
  unfold cmd_install_finally, cmd_install_teardown, copy_install_log. quiet.
Qed.
Hint Resolve cmd_install_try_no_fork cmd_install_except_no_fork
  cmd_install_finally_no_fork : quiet.

Lemma cmd_install_guarded_no_fork args_reportstack instcfg logfile
    error_tarfile :
  emits no_fork
    (cmd_install_guarded world target_path get_dd_images
       get_iscsi_disks_from_config get_zpool_from_config format_exception
       args_reportstack instcfg logfile error_tarfile).
Proof. unfold cmd_install_guarded. quiet. Qed.

End NoFork.

(** One step of a proof that a run leaves the heap alone, by the shape of
    the program. *)
Ltac steady_step :=
  lazymatch goal with
  | |- forall _, _ => intro
  | |- keeps_heap (ret _) => apply keeps_heap_ret
  | |- keeps_heap (raise _) => apply keeps_heap_raise
  | |- keeps_heap (of_result _) => apply keeps_heap_of_result
  | |- keeps_heap (bind _ _) => apply keeps_heap_bind
  | |- keeps_heap (attempt _) => apply keeps_heap_attempt
  | |- keeps_heap (emit _) => apply keeps_heap_emit
  | |- keeps_heap (LOG _ _) => apply keeps_heap_emit
  | |- keeps_heap get_cfg => apply keeps_heap_get_cfg
  | |- keeps_heap get_environ => apply keeps_heap_get_environ
  | |- keeps_heap (ext _ _) => apply keeps_heap_ext
  | |- keeps_heap (for_each _ _) => apply keeps_heap_for_each
  | |- keeps_heap (if ?b then _ else _) => destruct b
  | |- keeps_heap (match ?x with _ => _ end) => destruct x
  end.

Ltac steady :=
  unfold ext_unit, ext_bool, ext_str, try_except, try_except_OSError,
    try_finally, with_report, with_log_timer;
  cbv beta zeta; repeat steady_step.

Lemma cmd_install_finally_steady
    world target_path get_iscsi_disks_from_config get_zpool_from_config
    instcfg logfile workingd :
  keeps_heap
    (cmd_install_finally world target_path get_iscsi_disks_from_config
       get_zpool_from_config instcfg logfile workingd).
Proof.
  unfold cmd_install_finally, cmd_install_teardown, copy_install_log,
    writeline.
  steady.
Qed.

Lemma finally_returned {A} (rf : result unit) (r : result A) a :
  match rf with Ok _ => r | Raise e => Raise e end = Ok a -> r = Ok a.
Proof. by destruct rf. Qed.

(** An install attempt that returned: success was reported once, no
    failure was; what came after the report is the cleanup. *)
Lemma cmd_install_guarded_returned
    world target_path get_dd_images get_iscsi_disks_from_config
    get_zpool_from_config format_exception args_reportstack instcfg logfile
    error_tarfile h σ :
  res (cmd_install_guarded world target_path get_dd_images
         get_iscsi_disks_from_config get_zpool_from_config format_exception
         args_reportstack instcfg logfile error_tarfile h σ) = Ok tt ->
  exists pre post v,
    emitted (cmd_install_guarded world target_path get_dd_images
               get_iscsi_disks_from_config get_zpool_from_config
               format_exception args_reportstack instcfg logfile
               error_tarfile h σ)
    = pre ++ (ReportSuccess, Ret v) :: post
    /\ Forall (fun e => is_verdict e = false) pre
    /\ Forall routine post
    /\ h_environ (final (cmd_install_guarded world target_path get_dd_images
                           get_iscsi_disks_from_config get_zpool_from_config
                           format_exception args_reportstack instcfg logfile
                           error_tarfile h σ))
       = h_environ σ
    /\ h_cfg (final (cmd_install_guarded world target_path get_dd_images
                       get_iscsi_disks_from_config get_zpool_from_config
                       format_exception args_reportstack instcfg logfile
                       error_tarfile h σ))
       = if existsb kexec_loaded pre
         then dict_set (h_cfg σ) "power_state" reboot_with_kexec
         else h_cfg σ.
Proof.
  rewrite cmd_install_guarded_run. cbv zeta. cbn [res emitted final].
  destruct (WorkingDir_init_run world format_exception (h_cfg σ) h σ)
    as [Hσc _].
  pose proof (WorkingDir_init_routine world format_exception (h_cfg σ) h σ)
    as Hrc.
  set (created := WorkingDir_init world format_exception (h_cfg σ) h σ) in *.
  rewrite Hσc. rewrite try_except_run.
  match goal with
  | |- context [cmd_install_finally ?w ?tp ?gi ?gz ?ic ?lf ?wd] =>
      pose proof (cmd_install_finally_steady w tp gi gz ic lf wd) as Hσf;
      pose proof (cmd_install_finally_routine w tp gi gz ic lf wd) as Hrf
  end.
  intros Hres%finally_returned. revert Hres.
  destruct (res created) as [wd|e] eqn:Hcreated.
  2:{ rewrite run_raise. cbn [res emitted final].
      destruct (is_Exception e); [|done]. rewrite res_prepend.
      intros Hres.
      pose proof (cmd_install_except_raises world format_exception logfile
                    error_tarfile e ((h ++ emitted created) ++ []) σ) as Hx.
      by rewrite Hres in Hx. }
  destruct (cmd_install_try_run world get_dd_images format_exception
              args_reportstack logfile wd (h ++ emitted created) σ)
    as [[_ [e He]]|(r & pre & names & Hem & Hr & Hv & _ & _ & _ & _ & _ & Henv
                    & Hcfg)].
  { rewrite He. destruct (is_Exception e); [|done]. rewrite res_prepend.
    intros Hres.
    match goal with
    | _ : res (cmd_install_except ?w ?f ?l ?t ?x ?h' ?s) = _ |- _ =>
        pose proof (cmd_install_except_raises w f l t x h' s) as Hx
    end.
    by rewrite Hres in Hx. }
  rewrite Hr. destruct r as [v|x]; [|destruct (is_Exception x)].
  2:{ rewrite res_prepend. intros Hres.
      match goal with
      | _ : res (cmd_install_except ?w ?f ?l ?t ?x ?h' ?s) = _ |- _ =>
          pose proof (cmd_install_except_raises w f l t x h' s) as Hx
      end.
      by rewrite Hres in Hx. }
  2:{ done. }
  intros _. cbn [res emitted final]. rewrite Hσf.
  eexists (emitted created ++ pre), _, v.
  split; [by rewrite Hem, <- !app_assoc|].
  split; [apply Forall_app; split; [by apply routine_no_verdict|done]|].
  split; [apply Hrf|]. split; [done|].
  rewrite Hcfg, kexec_loaded_app, (routine_not_loaded _ Hrc). done.
Qed.

(** The runs of [apply_power_state]: nothing at all without a command;
    otherwise the record of the command and the fork, and in the child
    the command. *)
Lemma apply_power_state_run world format_exception pstate h σ :
  final (apply_power_state world format_exception pstate h σ) = σ
  /\ (emitted (apply_power_state world format_exception pstate h σ) = []
      \/ exists cmd r post,
           load_power_state pstate = Ok (Some cmd)
           /\ emitted (apply_power_state world format_exception pstate h σ)
              = (Log INFO ("powering off with " +:+ py_str (PList cmd)),
                 Ret RNone) :: (Fork, r) :: post
           /\ match r with
              | Exc x =>
                  post = []
                  /\ res (apply_power_state world format_exception pstate h σ)
                     = Raise x
              | Ret pid =>
                  if (as_int pid =? 0)%Z
                  then exists rp tail,
                         post = (Subp cmd, rp) :: tail
                         /\ Forall routine tail
                         /\ res (apply_power_state world format_exception
                                   pstate h σ)
                            = Raise (match rp with
                                     | Ret _ => SystemExit 0
                                     | Exc x => if is_Exception x
                                                then SystemExit 1 else x
                                     end)
                  else post = []
                       /\ res (apply_power_state world format_exception
                                 pstate h σ) = Ok tt
              end).
Proof.
  unfold apply_power_state.
  destruct (load_power_state pstate) as [[[|c cmd]|]|x] eqn:Hload; run_pure;
    try (split; [done|by left]).
  ask_world; run_pure.
  2:{ split; [done|]. right. by eexists _, (Exc e), []. }
  destruct (as_int v =? 0)%Z eqn:Hfid; run_pure.
  2:{ split; [done|]. right. eexists _, (Ret v), []. by rewrite Hfid. }
  unfold try_except. run_pure.
  ask_world; run_pure; cbn [is_Exception]; run_pure.
  - split; [done|]. right. eexists _, (Ret v), _. rewrite Hfid.
    split; [done|]. split; [done|]. by eexists (Ret v0), [].
  - destruct (is_Exception e) eqn:He; run_pure.
    + split; [done|]. right. eexists _, (Ret v), _. rewrite Hfid.
      split; [done|]. split; [done|]. eexists (Exc e), _. rewrite He.
      split; [done|]. split; [|done]. by repeat constructor.
    + split; [done|]. right. eexists _, (Ret v), _. rewrite Hfid.
      split; [done|]. split; [done|]. eexists (Exc e), []. by rewrite He.
Qed.

Lemma is_fork_routine (tr : list event) r :
  Forall no_fork tr -> (Fork, r) ∉ tr.
Proof.
  intros Hq Hin. rewrite Forall_forall in Hq. by specialize (Hq _ Hin).
Qed.

Lemma no_verdict_no_failure (tr : list event) msg r :
  Forall (fun e => is_verdict e = false) tr -> (ReportFailure msg, r) ∉ tr.
Proof.
  intros Hq Hin. rewrite Forall_forall in Hq. by specialize (Hq _ Hin).
Qed.

(** The install from the merged configuration on (lines 415-516): the
    power state is applied only after a reported success.  Whenever the
    process forks, the install attempt has returned: success was reported
    and no failure was, at any point of the run.  The command is the one of
    the configured [power_state], or the reboot through kexec, whatever was
    configured, when [kexec -l] returned; its record is the last call
    before the fork.  In the parent the run ends in [SystemExit 0] without
    a further call; in the child it runs the command and ends with status 0
    when the command returned, with status 1 when it raised an
    [Exception]; a failed fork is raised as it is. *)
Theorem power_state_after_success
    world target_path get_dd_images get_iscsi_disks_from_config
    get_zpool_from_config format_exception args_reportstack h σ r :
  (Fork, r)
    ∈ emitted (cmd_install world target_path get_dd_images
                 get_iscsi_disks_from_config get_zpool_from_config
                 format_exception args_reportstack h σ) ->
  exists pre post v cmd,
    emitted (cmd_install world target_path get_dd_images
               get_iscsi_disks_from_config get_zpool_from_config
               format_exception args_reportstack h σ)
    = pre ++ (Fork, r) :: post
    /\ (ReportSuccess, Ret v) ∈ pre
    /\ (forall msg r',
          (ReportFailure msg, r')
            ∉ emitted (cmd_install world target_path get_dd_images
                         get_iscsi_disks_from_config get_zpool_from_config
                         format_exception args_reportstack h σ))
    /\ load_power_state
         (if existsb kexec_loaded pre then reboot_with_kexec
          else dict_get_default (h_cfg σ) "power_state" PNone)
       = Ok (Some cmd)
    /\ last pre
       = Some (Log INFO ("powering off with " +:+ py_str (PList cmd)),
               Ret RNone)
    /\ match r with
       | Exc x =>
           post = []
           /\ res (cmd_install world target_path get_dd_images
                     get_iscsi_disks_from_config get_zpool_from_config
                     format_exception args_reportstack h σ) = Raise x
       | Ret pid =>
           if (as_int pid =? 0)%Z
           then exists rp tail,
                  post = (Subp cmd, rp) :: tail
                  /\ res (cmd_install world target_path get_dd_images
                            get_iscsi_disks_from_config get_zpool_from_config
                            format_exception args_reportstack h σ)
                     = Raise (match rp with
                              | Ret _ => SystemExit 0
                              | Exc x => if is_Exception x
                                         then SystemExit 1 else x
                              end)
           else post = []
                /\ res (cmd_install world target_path get_dd_images
                          get_iscsi_disks_from_config get_zpool_from_config
                          format_exception args_reportstack h σ)
                   = Raise (SystemExit 0)
       end.
Proof.
  unfold cmd_install. run_pure.
  destruct (dict_get_default (h_cfg σ) "install" (PDict []))
    as [| | | | |instcfg]; run_pure; try (by intros ?%elem_of_nil).
  destruct (dict_get_default instcfg "log_file" PNone)
    as [| | |logfile| |]; run_pure; try (by intros ?%elem_of_nil).
  match goal with
  | |- context [cmd_install_guarded ?w ?tp ?gd ?gi ?gz ?fe ?rs ?ic ?lf ?et
                  h σ] =>
      pose proof (cmd_install_guarded_returned w tp gd gi gz fe rs ic lf et
                    h σ) as HG;
      pose proof (cmd_install_guarded_no_fork w tp gd gi gz fe rs ic lf et
                    h σ) as HfG;
      set (G := cmd_install_guarded w tp gd gi gz fe rs ic lf et h σ) in *;
      clearbody G
  end.
  match goal with
  | |- context [obind ?o ?k ?h'] =>
      destruct (obind_cases o k h') as [([] & HGok & ->)|(e & He & ->)]
  end.
  2:{ rewrite emitted_Outcome. intros Hin. exfalso.
      exact (is_fork_routine _ _ HfG Hin). }
  destruct (HG HGok) as (pre & post & v & Hem & Hvpre & Hrpost & Henv & Hcfg).
  clear HG. run_pure.
  assert (Hpstate : dict_get_default (h_cfg (final G)) "power_state" PNone
                    = if existsb kexec_loaded pre then reboot_with_kexec
                      else dict_get_default (h_cfg σ) "power_state" PNone).
  { rewrite Hcfg. destruct (existsb kexec_loaded pre); [|done].
    unfold dict_get_default. by rewrite dict_get_set_eq. }
  rewrite Hpstate.
  set (pstate := if existsb kexec_loaded pre then reboot_with_kexec
                 else dict_get_default (h_cfg σ) "power_state" PNone).
  destruct (apply_power_state_run world format_exception pstate
              (h ++ emitted G) (final G))
    as [HσP [Hnil|(cmd & r0 & postP & Hload & HemP & HresP)]].
  { match goal with
    | |- context [obind ?o ?k ?h'] =>
        destruct (obind_cases o k h') as [([] & _ & ->)|(e & _ & ->)]
    end; rewrite ?emitted_prepend; run_pure;
      rewrite ?emitted_prepend, ?emitted_Outcome, Hnil, ?app_nil_r;
      intros Hin; exfalso; exact (is_fork_routine _ _ HfG Hin). }
  set (P := apply_power_state world format_exception pstate (h ++ emitted G)
              (final G)) in *.
  clearbody P.
  assert (Hloaded : existsb kexec_loaded
                      (emitted G ++
                       [(Log INFO ("powering off with "
                                   +:+ py_str (PList cmd)), Ret RNone)])
                    = existsb kexec_loaded pre).
  { rewrite Hem, !kexec_loaded_app. cbn [existsb kexec_loaded].
    by rewrite (routine_not_loaded _ Hrpost), !orb_false_r. }
  assert (Hnofail : forall tail,
            Forall (fun e => is_verdict e = false) tail ->
            forall msg r',
              (ReportFailure msg, r')
                ∉ emitted G ++
                  (Log INFO ("powering off with " +:+ py_str (PList cmd)),
                   Ret RNone) :: (Fork, r0) :: tail).
  { intros tail Htail msg r' Hin. rewrite Hem in Hin.
    apply elem_of_app in Hin as [Hin|Hin].
    - apply elem_of_app in Hin as [Hin|Hin];
        [by apply no_verdict_no_failure in Hin|].
      apply elem_of_cons in Hin as [Hin|Hin]; [done|].
      by apply no_verdict_no_failure in Hin; [|apply routine_no_verdict].
    - apply elem_of_cons in Hin as [Hin|Hin]; [done|].
      apply elem_of_cons in Hin as [Hin|Hin]; [done|].
      by apply no_verdict_no_failure in Hin. }
  assert (Hexit : emitted (obind P (fun _ : unit => @raise unit (SystemExit 0))
                             (h ++ emitted G)) = emitted P
                  /\ res (obind P (fun _ : unit => @raise unit (SystemExit 0))
                            (h ++ emitted G))
                     = match res P with
                       | Ok _ => Raise (SystemExit 0)
                       | Raise x => Raise x
                       end).
  { destruct (obind_cases P (fun _ : unit => @raise unit (SystemExit 0))
                (h ++ emitted G)) as [([] & HP & ->)|(e & HP & ->)];
      rewrite HP; run_pure;
      rewrite ?emitted_prepend, ?res_prepend, ?emitted_Outcome, ?res_Outcome,
        ?app_nil_r; done. }
  destruct Hexit as [HemX HresX].
  rewrite emitted_prepend, res_prepend, HemX, HresX, HemP.
  intros Hin.
  assert (Hpost : Forall no_fork postP).
  { destruct r0 as [pid|x]; [destruct (as_int pid =? 0)%Z|].
    - destruct HresP as (rp & tail & -> & Htail & _).
      constructor; [done|]. eapply Forall_impl; [exact Htail|].
      apply routine_no_fork.
    - by destruct HresP as [-> _].
    - by destruct HresP as [-> _]. }
  assert (Hr : r = r0).
  { apply elem_of_app in Hin as [Hin|Hin];
      [by apply is_fork_routine in Hin|].
    apply elem_of_cons in Hin as [Hin|Hin]; [done|].
    apply elem_of_cons in Hin as [Hin|Hin]; [by simplify_eq|].
    by apply is_fork_routine in Hin. }
  subst r0.
  exists (emitted G ++ [(Log INFO ("powering off with "
                                   +:+ py_str (PList cmd)), Ret RNone)]),
    postP, v, cmd.
  split; [by rewrite <- app_assoc|].
  split; [rewrite Hem; apply elem_of_app; left; apply elem_of_app; right;
          apply list_elem_of_here|].
  split.
  { destruct r as [pid|x]; [destruct (as_int pid =? 0)%Z|].
    - destruct HresP as (rp & tail & -> & Htail & _).
      apply Hnofail. constructor; [done|]. by apply routine_no_verdict.
    - destruct HresP as [-> _]. by apply Hnofail.
    - destruct HresP as [-> _]. by apply Hnofail. }
  split; [rewrite Hloaded; exact Hload|].
  split; [apply last_snoc|].
  destruct r as [pid|x]; [destruct (as_int pid =? 0)%Z|].
  - destruct HresP as (rp & tail & -> & Htail & ->). exists rp, tail.
    split; reflexivity.
  - destruct HresP as [-> ->]. split; reflexivity.
  - destruct HresP as [-> ->]. split; reflexivity.
Qed.

(** The replies to the forks of a trace. *)
Definition fork_replies (tr : list event) : list reply :=
  omap (fun ev => match ev.1 with Fork => Some ev.2 | _ => None end) tr.

Lemma fork_replies_elem (tr : list event) r :
  r ∈ fork_replies tr -> (Fork, r) ∈ tr.
Proof.
  unfold fork_replies. rewrite list_elem_of_omap.
  intros ([c rp] & Hin & Hev). destruct c; simpl in Hev; by simplify_eq.
Qed.

Abbreviation kexec_install_run :=
  (cmd_install (calm_world (two_entries set_default_1) 0) simple_target_path
     (fun _ => []) (fun _ => []) (fun _ => []) no_text top_reportstack []
     kexec_install_heap).

Lemma power_state_after_success_witness :
  exists pre post v cmd,
    emitted kexec_install_run = pre ++ (Fork, Ret (RInt 1)) :: post
    /\ (ReportSuccess, Ret v) ∈ pre
    /\ (forall msg r', (ReportFailure msg, r') ∉ emitted kexec_install_run)
    /\ load_power_state
         (if existsb kexec_loaded pre then reboot_with_kexec
          else dict_get_default (h_cfg kexec_install_heap) "power_state"
                 PNone)
       = Ok (Some cmd)
    /\ last pre
       = Some (Log INFO ("powering off with " +:+ py_str (PList cmd)),
               Ret RNone)
    /\ post = []
    /\ res kexec_install_run = Raise (SystemExit 0).
Proof.
  apply (power_state_after_success
           (calm_world (two_entries set_default_1) 0) simple_target_path
           (fun _ => []) (fun _ => []) (fun _ => []) no_text top_reportstack
           [] kexec_install_heap (Ret (RInt 1))).
  apply fork_replies_elem.
  assert (Hforks : fork_replies (emitted kexec_install_run)
                   = [Ret (RInt 1)]) by (vm_compute; reflexivity).
  rewrite Hforks. apply list_elem_of_here.
Defined.

(** ** C9: the commands of the install, in order *)

Lemma WorkingDir_init_steady world format_exception config :
  keeps_heap (WorkingDir_init world format_exception config).
Proof. unfold WorkingDir_init, try_except_OSError. steady. Qed.

(** The [try] block starts the commands of the stages that the
    configuration lists under [stages], and no other. *)
Lemma cmd_install_try_launches
    world get_dd_images format_exception args_reportstack logfile workingd
    h σ names :
  py_iter (dict_get_default (h_cfg σ) "stages" PNone) = Ok names ->
  launches
    (emitted (cmd_install_try world get_dd_images format_exception
                args_reportstack logfile workingd h σ))
    `prefix_of` install_plan (h_cfg σ) args_reportstack names
  /\ (res (cmd_install_try world get_dd_images format_exception
             args_reportstack logfile workingd h σ) = Ok tt ->
      launches
        (emitted (cmd_install_try world get_dd_images format_exception
                    args_reportstack logfile workingd h σ))
      = install_plan (h_cfg σ) args_reportstack names).
Proof.
  intros Hiter. unfold cmd_install_try. run_pure.
  destruct (1 <? length _)%nat; run_pure.
  { split; [apply prefix_nil | done]. }
  rewrite Hiter. run_pure.
  match goal with
  | |- context [cmd_install_stages world format_exception args_reportstack
                  logfile ?env names ?h' σ] =>
      destruct (cmd_install_stages_follows world format_exception
                  args_reportstack logfile env names h' σ)
        as (HσS & _ & HpreS & HallS);
      set (S := cmd_install_stages world format_exception args_reportstack
                  logfile env names h' σ) in *
  end.
  match goal with
  | |- context [obind ?o ?k ?h'] =>
      destruct (obind_cases o k h') as [([] & HS & ->)|(e & He & ->)]
  end.
  2:{ rewrite emitted_prepend, res_prepend. cbn [emitted res].
      change (?l :: emitted S) with ([l] ++ emitted S).
      rewrite launches_app. split; [done|done]. }
  rewrite HσS.
  match goal with
  | |- context [prepend (emitted S) (_ ?h' σ)] =>
      pose proof (cmd_install_try_end world logfile (wd_target workingd) h' σ)
        as HT
  end.
  cbv zeta in HT.
  match type of HT with
  | Forall no_popen (emitted ?t) /\ _ => set (T := t) in *
  end.
  destruct HT as [HpT _]. clearbody T.
  rewrite !emitted_prepend, !res_prepend.
  rewrite HS in HallS. specialize (HallS eq_refl).
  rewrite !launches_app, (launches_no_popen (emitted T)) by done.
  rewrite app_nil_r, HallS. cbn. rewrite app_nil_r. split; [done | done].
Qed.

(** So does the whole install attempt: the creation of the working
    directory, the handler and the [finally] clause start no command. *)
Lemma cmd_install_guarded_launches
    world target_path get_dd_images get_iscsi_disks_from_config
    get_zpool_from_config format_exception args_reportstack instcfg logfile
    error_tarfile h σ names :
  py_iter (dict_get_default (h_cfg σ) "stages" PNone) = Ok names ->
  launches
    (emitted (cmd_install_guarded world target_path get_dd_images
                get_iscsi_disks_from_config get_zpool_from_config
                format_exception args_reportstack instcfg logfile
                error_tarfile h σ))
    `prefix_of` install_plan (h_cfg σ) args_reportstack names
  /\ (res (cmd_install_guarded world target_path get_dd_images
             get_iscsi_disks_from_config get_zpool_from_config
             format_exception args_reportstack instcfg logfile
             error_tarfile h σ) = Ok tt ->
      launches
        (emitted (cmd_install_guarded world target_path get_dd_images
                    get_iscsi_disks_from_config get_zpool_from_config
                    format_exception args_reportstack instcfg logfile
                    error_tarfile h σ))
      = install_plan (h_cfg σ) args_reportstack names).
Proof.
  intros Hiter. rewrite cmd_install_guarded_run. cbv zeta.
  pose proof (WorkingDir_init_steady world format_exception (h_cfg σ) h σ)
    as Hσ.
  pose proof (WorkingDir_init_no_popen world format_exception (h_cfg σ) h σ)
    as Hcreated.
  set (created := WorkingDir_init world format_exception (h_cfg σ) h σ) in *.
  set (guarded := try_except _ _ _ _).
  set (finished := cmd_install_finally _ _ _ _ _ _ _ _ _).
  assert (Hfin : Forall no_popen (emitted finished))
    by apply cmd_install_finally_no_popen.
  clearbody finished. rewrite res_Outcome, emitted_Outcome.
  rewrite !launches_app, (launches_no_popen (emitted created)),
    (launches_no_popen (emitted finished)), app_nil_r by done.
  cbn [app].
  assert (Hguarded :
    launches (emitted guarded)
      `prefix_of` install_plan (h_cfg σ) args_reportstack names
    /\ (res guarded = Ok tt ->
        launches (emitted guarded)
        = install_plan (h_cfg σ) args_reportstack names)).
  { unfold guarded. rewrite try_except_run, Hσ.
    destruct (res created) as [wd|e0].
    - destruct (cmd_install_try_launches world get_dd_images format_exception
                  args_reportstack logfile wd (h ++ emitted created) σ names
                  Hiter) as [Hpre Hall].
      set (block := cmd_install_try _ _ _ _ _ _ _ _) in *.
      destruct (res block) as [[]|e] eqn:Hres.
      + rewrite emitted_Outcome, res_Outcome. split; [done|]. intros _.
        by apply Hall.
      + destruct (is_Exception e).
        * rewrite emitted_prepend, res_prepend, launches_app.
          rewrite (launches_no_popen
                     (emitted (cmd_install_except _ _ _ _ _ _ _)))
            by apply cmd_install_except_no_popen.
          rewrite app_nil_r. split; [done|]. intros Hok.
          pose proof (cmd_install_except_raises world format_exception logfile
                        error_tarfile e
                        ((h ++ emitted created) ++ emitted block)
                        (final block)) as Hraises.
          clear -Hok Hraises.
          set (X := cmd_install_except _ _ _ _ _ _ _) in *. clearbody X.
          destruct (res X); [done|discriminate Hok].
        * rewrite emitted_Outcome, res_Outcome. split; [done|done].
    - rewrite run_raise. cbn [res emitted].
      destruct (is_Exception e0).
      + rewrite emitted_prepend, res_prepend. cbn [app].
        rewrite launches_no_popen by apply cmd_install_except_no_popen.
        split; [apply prefix_nil|]. intros Hok.
        pose proof (cmd_install_except_raises world format_exception logfile
                      error_tarfile e0 ((h ++ emitted created) ++ [])
                      σ) as Hraises.
        cbn [final] in Hok. clear -Hok Hraises.
        set (X := cmd_install_except _ _ _ _ _ _ _) in *. clearbody X.
        destruct (res X); [done|discriminate Hok].
      + cbn [emitted res]. split; [apply prefix_nil | done]. }
  clearbody guarded. destruct Hguarded as [Hpre Hall].
  split; [done|]. intros Hok. apply Hall.
  destruct (res finished); [done | discriminate].
Qed.

(** C9.  The commands an install starts are those of the install plan of
    the configuration, in its order: the stages in the order of the list
    that the configuration holds under [stages], and within a stage the
    commands by strictly ascending name, those mapped to a falsy value left
    out.  This holds for the [try] block of [cmd_install], which takes the
    list of stages from the configuration, and for the whole install
    attempt; for the loop over a given list of stages; and for one stage.
    All the commands are started when the run returns, the first few when
    it raises.  A command mapped to a falsy value does nothing: no call, no
    log record. *)
Theorem stage_commands_run_in_order
    world target_path get_dd_images get_iscsi_disks_from_config
    get_zpool_from_config format_exception args_reportstack instcfg logfile
    error_tarfile workingd env names h σ :
  (forall stages,
     py_iter (dict_get_default (h_cfg σ) "stages" PNone) = Ok stages ->
     (launches
        (emitted (cmd_install_try world get_dd_images format_exception
                    args_reportstack logfile workingd h σ))
        `prefix_of` install_plan (h_cfg σ) args_reportstack stages
      /\ (res (cmd_install_try world get_dd_images format_exception
                 args_reportstack logfile workingd h σ) = Ok tt ->
          launches
            (emitted (cmd_install_try world get_dd_images format_exception
                        args_reportstack logfile workingd h σ))
          = install_plan (h_cfg σ) args_reportstack stages))
     /\ (launches
           (emitted (cmd_install_guarded world target_path get_dd_images
                       get_iscsi_disks_from_config get_zpool_from_config
                       format_exception args_reportstack instcfg logfile
                       error_tarfile h σ))
           `prefix_of` install_plan (h_cfg σ) args_reportstack stages
         /\ (res (cmd_install_guarded world target_path get_dd_images
                    get_iscsi_disks_from_config get_zpool_from_config
                    format_exception args_reportstack instcfg logfile
                    error_tarfile h σ) = Ok tt ->
             launches
               (emitted (cmd_install_guarded world target_path get_dd_images
                           get_iscsi_disks_from_config get_zpool_from_config
                           format_exception args_reportstack instcfg logfile
                           error_tarfile h σ))
             = install_plan (h_cfg σ) args_reportstack stages)))
  /\ (launches
        (emitted (cmd_install_stages world format_exception args_reportstack
                    logfile env names h σ))
        `prefix_of` install_plan (h_cfg σ) args_reportstack names
      /\ (res (cmd_install_stages world format_exception args_reportstack
                 logfile env names h σ) = Ok tt ->
          launches
            (emitted (cmd_install_stages world format_exception
                        args_reportstack logfile env names h σ))
          = install_plan (h_cfg σ) args_reportstack names))
  /\ (forall self,
        launches (emitted (Stage_run world format_exception self h σ))
          `prefix_of` stage_plan (stage_reportstack self) (stage_commands self)
        /\ (res (Stage_run world format_exception self h σ) = Ok tt ->
            launches (emitted (Stage_run world format_exception self h σ))
            = stage_plan (stage_reportstack self) (stage_commands self)))
  /\ (forall d : dict,
        StronglySorted (strict String.le) (sorted_keys d)
        /\ sorted_keys d ≡ₚ dict_keys d)
  /\ (forall self cmdname cmd,
        truthy cmd = false ->
        Stage_run_command world format_exception self cmdname cmd h σ
        = Outcome (Ok tt) [] σ).
Proof.
  split; [|split; [|split; [|split]]].
  - intros stages Hiter. split.
    + by apply cmd_install_try_launches.
    + by apply cmd_install_guarded_launches.
  - destruct (cmd_install_stages_follows world format_exception
                args_reportstack logfile env names h σ)
      as (_ & _ & Hpre & Hall).
    split; [done|]. intros Hok. apply Hall. by rewrite Hok.
  - intros self.
    destruct (Stage_run_follows world format_exception self h σ)
      as (_ & _ & Hpre & Hall).
    split; [done|]. intros Hok. apply Hall. by rewrite Hok.
  - apply sorted_keys_sorted.
  - intros self cmdname cmd Hcmd. unfold Stage_run_command. by rewrite Hcmd.
Qed.

(** The install of two stages, from its configuration: the [try] block
    takes the stages [early] and [late] from [stages]. *)
Abbreviation two_stage_install :=
  (cmd_install_try (calm_world [] 0) (fun _ => []) no_text top_reportstack
     INSTALL_LOG two_stage_workingd [] two_stage_heap).

Lemma stage_commands_run_in_order_witness :
  py_iter (dict_get_default (h_cfg two_stage_heap) "stages" PNone)
  = Ok [PStr "early"; PStr "late"]
  /\ res two_stage_install = Ok tt
  /\ launches (emitted two_stage_install)
     = [(Some "cmd-install/stage-early/10_first",
         PList [PStr "echo"; PStr "hi"]);
        (Some "cmd-install/stage-early/20_next", PStr "true");
        (Some "cmd-install/stage-late/99_last", PStr "sync")].
Proof.
  assert (Hiter : py_iter (dict_get_default (h_cfg two_stage_heap) "stages"
                             PNone)
                  = Ok [PStr "early"; PStr "late"]) by reflexivity.
  assert (Hok : res two_stage_install = Ok tt) by (vm_compute; reflexivity).
  split; [exact Hiter|]. split; [exact Hok|].
  destruct (stage_commands_run_in_order (calm_world [] 0) simple_target_path
              (fun _ => []) (fun _ => []) (fun _ => []) no_text
              top_reportstack [] INSTALL_LOG PNone two_stage_workingd ∅ []
              [] two_stage_heap) as [Htry _].
  destruct (Htry _ Hiter) as [[_ Hall] _].
  rewrite (Hall Hok). vm_compute. reflexivity.
Defined.

(** ** The set-up of the install *)

(** [len(v)] *)
Definition py_len (v : pyval) : result nat :=
  match v with
  | PStr s => Ok (String.length s)
  | PList l => Ok (length l)
  | PDict d => Ok (length (dict_keys d))
  | _ => Raise (TypeError "object has no len()")
  end.

(** [p in s] for two strings. *)
Fixpoint is_infix (p s : string) : bool :=
  String.prefix p s
  || match s with
     | EmptyString => false
     | String _ s' => is_infix p s'
     end.

(** [v[k]] for a string [k], when [k in v]: [None] stands for a [k] that
    is not in [v]. *)
Definition item_if_in (v : pyval) (k : string) : result (option pyval) :=
  match v with
  | PDict d => Ok (dict_get d k)
  | PStr s =>
      if is_infix k s
      then Raise (TypeError "string indices must be integers")
      else Ok None
  | PList l =>
      if existsb (py_eq (PStr k)) l
      then Raise (TypeError "list indices must be integers or slices, not str")
      else Ok None
  | _ => Raise (TypeError "argument is not iterable")
  end.

(** [os.environ[k] = v] *)
Definition set_environ (k v : string) : M unit :=
  fun _ σ =>
    Outcome (Ok tt) [] {| h_cfg := h_cfg σ; h_environ := <[k:=v]> (h_environ σ) |}.

Definition has_nul (s : string) : bool :=
  existsb (Ascii.eqb Ascii.zero) (list_ascii_of_string s).

(** [os.environ[k] = v] for any value: the environment takes strings
    without a null character. *)
Definition putenv (k : string) (v : pyval) : M unit :=
  match v with
  | PStr s =>
      if has_nul s then raise (ValueError "embedded null byte")
      else set_environ k s
  | _ => raise (TypeError "str expected")
  end.

(** Lines 412-413: the body of the loop over the names of the proxy
    settings. *)
Definition export_proxy_setting (cfg : dict) (k : string) : M unit :=
  let* proxy :=
    (match dict_get cfg "proxy" with
     | Some proxy => ret proxy
     | None => raise (OtherException "KeyError" "'proxy'")
     end) in
  let* item := of_result (item_if_in proxy k) in
  match item with
  | Some v => putenv k v
  | None => ret tt
  end.

Section Setup.
Variable world : list event -> call -> reply.
(** [config.dump_config] and [version.version_string()], from modules
    that are not among the sources. *)
Variable dump_config : dict -> string.
Variable version_string : string.

Definition INSTALL_START_MSG : string :=
  "curtin: Installation started. (" +:+ version_string +:+ ")".

(** Lines 404-440 of [cmd_install], on the merged configuration the heap
    holds.  The two assignments of [post_files], to the legacy reporter
    and to the reporting scope of the arguments, make no call and change
    neither the configuration nor the environment. *)
Definition cmd_install_setup : M unit :=
  LOG INFO INSTALL_START_MSG >>
  let* environ := get_environ in
  LOG DEBUG ("LANG=" +:+ default "None" (environ !! "LANG")) >>
  let* cfg := get_cfg in
  LOG DEBUG ("merged config: " +:+ py_str (PDict cfg)) >>
  let* n := of_result (py_len (dict_get_default cfg "sources" (PList []))) in
  if (n =? 0)%nat then raise (BadUsage "no sources provided to install")
  else
    let* cfg := migrate_proxy_settings cfg in
    set_cfg cfg >>
    for_each ["http_proxy"; "https_proxy"; "no_proxy"]
      (export_proxy_setting cfg) >>
    let* instcfg :=
      (match dict_get_default cfg "install" (PDict []) with
       | PDict d => ret d
       | _ => raise (AttributeError "object has no attribute 'get'")
       end) in
    let logfile := dict_get_default instcfg "log_file" PNone in
    (* Generate curtin configuration dump and add to write_files unless
       installation config disables dump *)
    let yaml_dump_file :=
      dict_get_default instcfg "save_install_config"
        (PStr SAVE_INSTALL_CONFIG) in
    (if truthy yaml_dump_file then
       match dict_get_default cfg "write_files" (PDict []) with
       | PDict write_files =>
           set_cfg
             (dict_set cfg "write_files"
                (PDict (dict_set write_files "curtin_install_cfg"
                          (PDict [("path", yaml_dump_file);
                                  ("permissions", PStr "0400");
                                  ("owner", PStr "root:root");
                                  ("content", PStr (dump_config cfg))]))))
       | PList _ =>
           raise (TypeError "list indices must be integers or slices, not str")
       | _ => raise (TypeError "object does not support item assignment")
       end
     else ret tt) >>
    (* Load reporter *)
    let* logfile :=
      (match logfile with
       | PStr s => ret s
       | _ => raise (TypeError "expected str, bytes or os.PathLike object")
       end) in
    clear_install_log world logfile >>
    let* cfg := get_cfg in
    ext_unit world (LoadReporter cfg) >>
    writeline_and_stdout world logfile INSTALL_START_MSG.

End Setup.

Lemma run_set_environ k v h σ :
  set_environ k v h σ
  = Outcome (Ok tt) []
      {| h_cfg := h_cfg σ; h_environ := <[k:=v]> (h_environ σ) |}.
Proof. reflexivity. Qed.

(** What the export of the proxy settings makes of the environment. *)
Definition exported (proxy : dict) (names : list string)
    (env : gmap string string) : gmap string string :=
  foldl (fun env k =>
           match dict_get proxy k with
           | Some (PStr v) => <[k:=v]> env
           | _ => env
           end) env names.

Lemma exported_cons proxy n names env :
  exported proxy (n :: names) env
  = exported proxy names
      (match dict_get proxy n with
       | Some (PStr v) => <[n:=v]> env
       | _ => env
       end).
Proof. reflexivity. Qed.

Lemma exported_lookup proxy names env k :
  exported proxy names env !! k
  = if bool_decide (k ∈ names)
    then match dict_get proxy k with
         | Some (PStr v) => Some v
         | _ => env !! k
         end
    else env !! k.
Proof.
  revert env. induction names as [|n names IH]; intros env; [done|].
  rewrite exported_cons, IH.
  destruct (decide (k = n)) as [->|Hne].
  - rewrite (bool_decide_eq_true_2 (n ∈ n :: names)) by apply list_elem_of_here.
    destruct (dict_get proxy n) as [[|?|?|v|?|?]|]; rewrite ?lookup_insert_eq;
      by destruct (bool_decide _).
  - assert (Hlook : (match dict_get proxy n with
                     | Some (PStr v) => <[n:=v]> env
                     | _ => env
                     end) !! k = env !! k).
    { destruct (dict_get proxy n) as [[|?|?|v|?|?]|]; try done.
      by apply lookup_insert_ne. }
    rewrite Hlook.
    destruct (bool_decide (k ∈ names)) eqn:Hin.
    + apply bool_decide_eq_true in Hin.
      by rewrite (bool_decide_eq_true_2 (k ∈ n :: names))
        by by apply list_elem_of_further.
    + apply bool_decide_eq_false in Hin.
      rewrite (bool_decide_eq_false_2 (k ∈ n :: names)); [done|].
      intros [?|?]%elem_of_cons; done.
Qed.

(** Lines 411-413: the loop that exports the proxy settings.  It makes no
    call and leaves the configuration alone; when it returns, every
    setting that is there has gone to the environment. *)
Lemma export_proxy_setting_run (cfg proxy : dict) k h σ :
  dict_get cfg "proxy" = Some (PDict proxy) ->
  export_proxy_setting cfg k h σ
  = match dict_get proxy k with
    | Some (PStr v) =>
        if has_nul v
        then Outcome (Raise (ValueError "embedded null byte")) [] σ
        else Outcome (Ok tt) []
               {| h_cfg := h_cfg σ; h_environ := <[k:=v]> (h_environ σ) |}
    | Some _ => Outcome (Raise (TypeError "str expected")) [] σ
    | None => Outcome (Ok tt) [] σ
    end.
Proof.
  intros Hproxy. unfold export_proxy_setting. rewrite Hproxy. run_pure.
  cbn [item_if_in]. run_pure.
  destruct (dict_get proxy k) as [[|?|?|v|?|?]|]; cbn [putenv]; run_pure;
    try done.
  destruct (has_nul v); by run_pure.
Qed.

(** Lines 411-413: the loop that exports the proxy settings.  It makes no
    call and leaves the configuration alone; when it returns, every
    setting that is there has gone to the environment. *)
Lemma export_proxy_run (cfg : dict) (proxy : dict) names h σ :
  dict_get cfg "proxy" = Some (PDict proxy) ->
  emitted (for_each names (export_proxy_setting cfg) h σ) = []
  /\ h_cfg (final (for_each names (export_proxy_setting cfg) h σ)) = h_cfg σ
  /\ (res (for_each names (export_proxy_setting cfg) h σ) = Ok tt ->
      h_environ (final (for_each names (export_proxy_setting cfg) h σ))
      = exported proxy names (h_environ σ)
      /\ Forall (fun k => match dict_get proxy k with
                          | Some (PStr v) => has_nul v = false
                          | Some _ => False
                          | None => True
                          end) names).
Proof.
  intros Hproxy. revert h σ.
  induction names as [|k names IH]; intros h σ.
  - cbn [for_each]. rewrite run_ret. by cbn.
  - cbn [for_each]. rewrite bind_obind.
    rewrite (export_proxy_setting_run cfg proxy k h σ Hproxy).
    rewrite exported_cons.
    destruct (dict_get proxy k) as [[|?|?|v|?|?]|] eqn:Hk;
      rewrite ?obind_Raise, ?obind_Ok, ?prepend_nil;
      try (by split; [|split]).
    + destruct (has_nul v) eqn:Hnul;
        rewrite ?obind_Raise, ?obind_Ok, ?prepend_nil;
        [by split; [|split]|].
      destruct (IH (h ++ [])
                  {| h_cfg := h_cfg σ; h_environ := <[k:=v]> (h_environ σ) |})
        as (Hem & Hcfg & Hok).
      split; [done|]. split; [done|]. intros Hres.
      destruct (Hok Hres) as [Henv Hall]. split; [done|].
      constructor; [by rewrite Hk|done].
    + destruct (IH (h ++ []) σ) as (Hem & Hcfg & Hok).
      split; [done|]. split; [done|]. intros Hres.
      destruct (Hok Hres) as [Henv Hall]. split; [done|].
      constructor; [by rewrite Hk|done].
Qed.

Lemma migrate_proxy_settings_steady cfg : keeps_heap (migrate_proxy_settings cfg).
Proof. unfold migrate_proxy_settings. steady. Qed.

Lemma clear_install_log_steady world logfile :
  keeps_heap (clear_install_log world logfile).
Proof. unfold clear_install_log. steady. Qed.

(** The result of the proxy migration depends on the configuration
    only. *)
Lemma migrate_proxy_settings_pure cfg h σ h' σ' :
  res (migrate_proxy_settings cfg h σ) = res (migrate_proxy_settings cfg h' σ').
Proof.
  unfold migrate_proxy_settings.
  destruct (dict_get_default cfg "proxy" (PDict [])); try done.
  destruct (dict_mem cfg "http_proxy"); [|done].
  destruct (truthy _); [|done]. by destruct (negb _).
Qed.

(** A legacy setting that is a truthy value goes to a [proxy] that has
    none. *)
Lemma migrate_proxy_settings_moves (cfg cfg' proxy : dict) hp h σ :
  dict_get cfg "http_proxy" = Some hp -> truthy hp = true ->
  (forall proxy0, dict_get cfg "proxy" = Some (PDict proxy0) ->
                  dict_get proxy0 "http_proxy" = None) ->
  res (migrate_proxy_settings cfg h σ) = Ok cfg' ->
  dict_get cfg' "proxy" = Some (PDict proxy) ->
  dict_get proxy "http_proxy" = Some hp.
Proof.
  intros Hhp Htruthy Hnone. unfold migrate_proxy_settings, dict_mem.
  rewrite Hhp, bool_decide_eq_true_2 by eauto.
  assert (Hend : forall proxy0,
            dict_get proxy0 "http_proxy" = None ->
            res ((let* pc :=
                    (let* proxy' :=
                       (if truthy (dict_get_default cfg "http_proxy" PNone)
                        then
                          if negb (py_eq (dict_get_default proxy0 "http_proxy"
                                            (dict_get_default cfg "http_proxy"
                                               PNone))
                                     (dict_get_default cfg "http_proxy" PNone))
                          then
                            LOG WARN
                              ("legacy http_proxy setting ("
                               +:+ py_str (dict_get_default cfg "http_proxy"
                                             PNone)
                               +:+ ") differs from proxy/http_proxy ("
                               +:+ py_str (dict_get_default proxy0
                                             "http_proxy" PNone)
                               +:+ "), using "
                               +:+ py_str (dict_get_default proxy0
                                             "http_proxy" PNone))
                            >> ret proxy0
                          else
                            LOG DEBUG
                              "legacy 'http_proxy' migrated to proxy/http_proxy"
                            >> ret (dict_set proxy0 "http_proxy"
                                      (dict_get_default cfg "http_proxy"
                                         PNone))
                        else ret proxy0) in
                     ret (proxy', dict_del cfg "http_proxy")) in
                  ret (dict_set pc.2 "proxy" (PDict pc.1))) h σ) = Ok cfg' ->
            dict_get cfg' "proxy" = Some (PDict proxy) ->
            dict_get proxy "http_proxy" = Some hp).
  { intros proxy0 Hp0. unfold dict_get_default. rewrite Hhp, Hp0.
    cbn [default from_option id]. rewrite Htruthy, py_eq_refl. cbn [negb].
    run_pure. cbn [res fst snd]. intros [= <-].
    rewrite dict_get_set_eq. intros [= <-]. apply dict_get_set_eq. }
  unfold dict_get_default at 1.
  destruct (dict_get cfg "proxy") as [p|] eqn:Hp; cbn [default from_option id].
  - destruct p as [|?|?|?|?|proxy0]; try done.
    apply Hend. by apply Hnone.
  - by apply Hend.
Qed.

(** Lines 433-439: the install log is cleared, the reporter loaded and
    the start of the install announced. *)
Lemma cmd_install_setup_end world version_string logfile h σ :
  let o :=
    (clear_install_log world logfile >>
     (let* cfg0 := get_cfg in
      ext_unit world (LoadReporter cfg0) >>
      writeline_and_stdout world logfile (INSTALL_START_MSG version_string)))
      h σ in
  final o = σ
  /\ (res o = Ok tt ->
      (exists v, (LoadReporter (h_cfg σ), Ret v) ∈ emitted o)
      /\ (exists v,
            (StdoutWrite (INSTALL_START_MSG version_string +:+ chr newline),
             Ret v) ∈ emitted o)).
Proof.
  cbv zeta. run_pure.
  pose proof (clear_install_log_steady world logfile h σ) as HσC.
  match goal with
  | |- context [obind ?o ?k ?h'] =>
      destruct (obind_cases o k h') as [([] & HC & ->)|(e & HC & ->)]
  end.
  2:{ by rewrite HσC. }
  rewrite HσC. run_pure.
  set (C := emitted (clear_install_log world logfile h σ)). clearbody C.
  ask_world; run_pure.
  2:{ done. }
  match goal with
  | |- context [writeline_and_stdout world logfile ?msg ?h' σ] =>
      destruct (writeline_and_stdout_written world logfile msg h' σ)
        as [HσW HW];
      set (W := writeline_and_stdout world logfile msg h' σ) in *;
      clearbody W
  end.
  rewrite !final_prepend, !res_prepend, !emitted_prepend.
  split; [done|]. intros Hres. destruct (HW Hres) as [w Hw]. split.
  - exists v. rewrite !elem_of_app, !elem_of_cons. auto 10.
  - exists w. rewrite !elem_of_app. auto 10.
Qed.

(** Lines 415-439: from the look at the install settings on. *)
Lemma cmd_install_setup_dump world dump_config version_string (cfg : dict)
    h σ :
  let o :=
    (let* instcfg :=
       (match dict_get_default cfg "install" (PDict []) with
        | PDict d => ret d
        | _ => raise (AttributeError "object has no attribute 'get'")
        end) in
     (if truthy (dict_get_default instcfg "save_install_config"
                   (PStr SAVE_INSTALL_CONFIG))
      then
        match dict_get_default cfg "write_files" (PDict []) with
        | PDict write_files =>
            set_cfg
              (dict_set cfg "write_files"
                 (PDict (dict_set write_files "curtin_install_cfg"
                           (PDict [("path",
                                    dict_get_default instcfg
                                      "save_install_config"
                                      (PStr SAVE_INSTALL_CONFIG));
                                   ("permissions", PStr "0400");
                                   ("owner", PStr "root:root");
                                   ("content", PStr (dump_config cfg))]))))
        | PList _ =>
            raise (TypeError "list indices must be integers or slices, not str")
        | _ => raise (TypeError "object does not support item assignment")
        end
      else ret tt) >>
     let* logfile :=
       (match dict_get_default instcfg "log_file" PNone with
        | PStr s => ret s
        | _ => raise (TypeError "expected str, bytes or os.PathLike object")
        end) in
     clear_install_log world logfile >>
     (let* cfg0 := get_cfg in
      ext_unit world (LoadReporter cfg0) >>
      writeline_and_stdout world logfile (INSTALL_START_MSG version_string)))
      h σ in
  h_environ (final o) = h_environ σ
  /\ (res o = Ok tt ->
      exists instcfg logfile,
        dict_get_default cfg "install" (PDict []) = PDict instcfg
        /\ dict_get_default instcfg "log_file" PNone = PStr logfile
        /\ (if truthy (dict_get_default instcfg "save_install_config"
                         (PStr SAVE_INSTALL_CONFIG))
            then exists write_files,
                   dict_get_default cfg "write_files" (PDict [])
                   = PDict write_files
                   /\ h_cfg (final o)
                      = dict_set cfg "write_files"
                          (PDict
                             (dict_set write_files "curtin_install_cfg"
                                (PDict
                                   [("path",
                                     dict_get_default instcfg
                                       "save_install_config"
                                       (PStr SAVE_INSTALL_CONFIG));
                                    ("permissions", PStr "0400");
                                    ("owner", PStr "root:root");
                                    ("content", PStr (dump_config cfg))])))
            else h_cfg (final o) = h_cfg σ)
        /\ (exists v, (LoadReporter (h_cfg (final o)), Ret v) ∈ emitted o)
        /\ (exists v,
              (StdoutWrite (INSTALL_START_MSG version_string +:+ chr newline),
               Ret v) ∈ emitted o)).
Proof.
  cbv zeta.
  destruct (dict_get_default cfg "install" (PDict []))
    as [|?|?|?|?|instcfg]; run_pure; try done.
  set (ydf := dict_get_default instcfg "save_install_config"
                (PStr SAVE_INSTALL_CONFIG)).
  assert (Hrest : forall σ',
            h_environ σ' = h_environ σ ->
            (if truthy ydf
             then exists write_files,
                    dict_get_default cfg "write_files" (PDict [])
                    = PDict write_files
                    /\ h_cfg σ'
                       = dict_set cfg "write_files"
                           (PDict
                              (dict_set write_files "curtin_install_cfg"
                                 (PDict
                                    [("path", ydf);
                                     ("permissions", PStr "0400");
                                     ("owner", PStr "root:root");
                                     ("content", PStr (dump_config cfg))])))
             else h_cfg σ' = h_cfg σ) ->
            forall h',
              let o :=
                (let* logfile :=
                   (match dict_get_default instcfg "log_file" PNone with
                    | PStr s => ret s
                    | _ => raise (TypeError
                                    "expected str, bytes or os.PathLike object")
                    end) in
                 clear_install_log world logfile >>
                 (let* cfg0 := get_cfg in
                  ext_unit world (LoadReporter cfg0) >>
                  writeline_and_stdout world logfile
                    (INSTALL_START_MSG version_string))) h' σ' in
              h_environ (final o) = h_environ σ
              /\ (res o = Ok tt ->
                  exists instcfg0 logfile,
                    PDict instcfg = PDict instcfg0
                    /\ dict_get_default instcfg0 "log_file" PNone
                       = PStr logfile
                    /\ (if truthy (dict_get_default instcfg0
                                     "save_install_config"
                                     (PStr SAVE_INSTALL_CONFIG))
                        then exists write_files,
                               dict_get_default cfg "write_files" (PDict [])
                               = PDict write_files
                               /\ h_cfg (final o)
                                  = dict_set cfg "write_files"
                                      (PDict
                                         (dict_set write_files
                                            "curtin_install_cfg"
                                            (PDict
                                               [("path",
                                                 dict_get_default instcfg0
                                                   "save_install_config"
                                                   (PStr SAVE_INSTALL_CONFIG));
                                                ("permissions", PStr "0400");
                                                ("owner", PStr "root:root");
                                                ("content",
                                                 PStr (dump_config cfg))])))
                        else h_cfg (final o) = h_cfg σ)
                    /\ (exists v, (LoadReporter (h_cfg (final o)), Ret v)
                                  ∈ emitted o)
                    /\ (exists v,
                          (StdoutWrite (INSTALL_START_MSG version_string
                                        +:+ chr newline), Ret v)
                            ∈ emitted o))).
  { intros σ' Henv Hcfg h'. cbv zeta.
    destruct (dict_get_default instcfg "log_file" PNone)
      as [|?|?|logfile|?|?] eqn:Hlog;
      try (by rewrite bind_obind, run_raise, obind_Raise).
    rewrite (bind_obind (ret logfile)), run_ret, obind_Ok, prepend_nil.
    destruct (cmd_install_setup_end world version_string logfile
                (h' ++ []) σ') as [Hσ Hok].
    cbv zeta in Hσ, Hok. rewrite Hσ. split; [done|]. intros Hres.
    destruct (Hok Hres) as [Hload Hout].
    exists instcfg, logfile. split; [done|]. split; [done|].
    split; [exact Hcfg|]. done. }
  destruct (truthy ydf) eqn:Hydf.
  - destruct (dict_get_default cfg "write_files" (PDict []))
      as [|?|?|?|?|write_files] eqn:Hwf;
      rewrite ?run_raise, ?obind_Raise; try done.
    rewrite run_set_cfg, obind_Ok, prepend_nil.
    apply Hrest; [done|]. by exists write_files.
  - rewrite run_ret, obind_Ok, prepend_nil.
    by apply Hrest.
Qed.

(** The set-up of the install (lines 404-440), when it returns.  The
    sources are not empty.  The configuration is the migrated one, with
    the dump of itself added to [write_files] under [curtin_install_cfg]
    (path, permissions 0400, owner root:root, content) unless
    [install.save_install_config] is falsy; the dump is that of the
    migrated configuration before the entry is added.  The environment is
    the old one but for [http_proxy], [https_proxy] and [no_proxy], each of
    which has the value of the migrated [proxy] settings where there is
    one; so a legacy [http_proxy] setting that is a non-empty string
    reaches the environment when [proxy] has no [http_proxy] of its own.
    The reporter was loaded with the final configuration, and the start of
    the install was written to the standard output. *)
Theorem cmd_install_setup_done world dump_config version_string h σ :
  res (cmd_install_setup world dump_config version_string h σ) = Ok tt ->
  exists (cfg1 proxy instcfg : dict) logfile n,
    py_len (dict_get_default (h_cfg σ) "sources" (PList [])) = Ok (S n)
    /\ res (migrate_proxy_settings (h_cfg σ) h σ) = Ok cfg1
    /\ dict_get cfg1 "proxy" = Some (PDict proxy)
    /\ (forall k,
          h_environ (final (cmd_install_setup world dump_config
                              version_string h σ)) !! k
          = if bool_decide (k ∈ ["http_proxy"; "https_proxy"; "no_proxy"])
            then match dict_get proxy k with
                 | Some (PStr v) => Some v
                 | _ => h_environ σ !! k
                 end
            else h_environ σ !! k)
    /\ (forall hp,
          dict_get (h_cfg σ) "http_proxy" = Some (PStr hp) -> hp <> "" ->
          (forall proxy0, dict_get (h_cfg σ) "proxy" = Some (PDict proxy0) ->
                          dict_get proxy0 "http_proxy" = None) ->
          h_environ (final (cmd_install_setup world dump_config
                              version_string h σ)) !! "http_proxy"
          = Some hp)
    /\ dict_get_default cfg1 "install" (PDict []) = PDict instcfg
    /\ dict_get_default instcfg "log_file" PNone = PStr logfile
    /\ (if truthy (dict_get_default instcfg "save_install_config"
                     (PStr SAVE_INSTALL_CONFIG))
        then exists write_files,
               dict_get_default cfg1 "write_files" (PDict [])
               = PDict write_files
               /\ h_cfg (final (cmd_install_setup world dump_config
                                  version_string h σ))
                  = dict_set cfg1 "write_files"
                      (PDict
                         (dict_set write_files "curtin_install_cfg"
                            (PDict
                               [("path",
                                 dict_get_default instcfg
                                   "save_install_config"
                                   (PStr SAVE_INSTALL_CONFIG));
                                ("permissions", PStr "0400");
                                ("owner", PStr "root:root");
                                ("content", PStr (dump_config cfg1))])))
        else h_cfg (final (cmd_install_setup world dump_config
                             version_string h σ)) = cfg1)
    /\ (exists v,
          (LoadReporter
             (h_cfg (final (cmd_install_setup world dump_config
                              version_string h σ))), Ret v)
            ∈ emitted (cmd_install_setup world dump_config version_string
                         h σ))
    /\ (exists v,
          (StdoutWrite (INSTALL_START_MSG version_string +:+ chr newline),
           Ret v)
            ∈ emitted (cmd_install_setup world dump_config version_string
                         h σ)).
Proof.
  unfold cmd_install_setup. run_pure.
  destruct (py_len _) as [[|n]|e] eqn:Hlen; run_pure; cbn [Nat.eqb];
    run_pure; try done.
  match goal with
  | |- context [migrate_proxy_settings (h_cfg σ) ?h0 σ] =>
      pose proof (migrate_proxy_settings_steady (h_cfg σ) h0 σ) as HσM;
      pose proof (migrate_proxy_settings_pure (h_cfg σ) h0 σ h σ) as HpM
  end.
  match goal with
  | |- context [obind ?o ?k ?h'] =>
      destruct (obind_cases o k h') as [(cfg1 & HM & ->)|(e & HM & ->)]
  end.
  2:{ by rewrite res_prepend. }
  rewrite HσM.
  destruct (migrate_proxy_settings_shape _ _ _ _ HM)
    as (proxy0 & proxy & Hp0 & Hcfg1 & _).
  assert (Hproxy : dict_get cfg1 "proxy" = Some (PDict proxy)).
  { rewrite Hcfg1. apply dict_get_set_eq. }
  rewrite HM in HpM. symmetry in HpM.
  match goal with
  | |- context [migrate_proxy_settings (h_cfg σ) ?h0 σ] =>
      set (evM := emitted (migrate_proxy_settings (h_cfg σ) h0 σ)) in *;
      clearbody evM
  end.
  clear HM HσM Hcfg1 Hp0.
  rewrite (bind_obind (set_cfg cfg1)), run_set_cfg, obind_Ok, prepend_nil.
  rewrite (bind_obind (for_each _ _)).
  match goal with
  | |- context [for_each ?names (export_proxy_setting cfg1) ?h1 ?σ1] =>
      destruct (export_proxy_run cfg1 proxy names h1 σ1 Hproxy)
        as (HemF & HcfgF & HokF);
      set (F := for_each names (export_proxy_setting cfg1) h1 σ1) in *
  end.
  match goal with
  | |- context [obind ?o ?k ?h'] =>
      destruct (obind_cases o k h') as [([] & HF & ->)|(e & HF & ->)]
  end.
  2:{ by rewrite !res_prepend. }
  destruct (HokF HF) as [HenvF HallF]. clear HokF.
  rewrite HemF.
  match goal with
  | |- context [prepend [] (_ ?h2 (final F))] =>
      pose proof (cmd_install_setup_dump world dump_config version_string
                    cfg1 h2 (final F)) as HD
  end.
  cbv zeta in HD.
  match type of HD with
  | h_environ (final ?d) = _ /\ _ => set (D := d) in *
  end.
  clearbody D. clearbody F. cbn [h_cfg h_environ] in HcfgF, HenvF.
  rewrite !final_prepend, !res_prepend, !emitted_prepend.
  intros Hres. destruct HD as [HenvD HokD].
  destruct (HokD Hres)
    as (instcfg & logfile & Hinst & Hlog & Hdump & Hload & Hout).
  exists cfg1, proxy, instcfg, logfile, n.
  split; [done|]. split; [exact HpM|]. split; [exact Hproxy|].
  split.
  { intros k. rewrite HenvD, HenvF. apply exported_lookup. }
  split.
  { intros hp Hhp Hne Hnone. rewrite HenvD, HenvF, exported_lookup.
    rewrite bool_decide_eq_true_2 by apply list_elem_of_here.
    assert (Htruthy : truthy (PStr hp) = true).
    { cbn [truthy]. by destruct hp. }
    by rewrite (migrate_proxy_settings_moves (h_cfg σ) cfg1 proxy (PStr hp)
                  h σ Hhp Htruthy Hnone HpM Hproxy). }
  split; [exact Hinst|]. split; [exact Hlog|].
  split.
  { destruct (truthy _); [exact Hdump|]. by rewrite Hdump. }
  split.
  - destruct Hload as [v Hv]. exists v. rewrite !elem_of_app. auto 10.
  - destruct Hout as [v Hv]. exists v. rewrite !elem_of_app. auto 10.
Qed.

(** A configuration with a source and the legacy proxy setting. *)
Definition legacy_proxy_heap : heap :=
  {| h_cfg := [("sources", PDict [("00_cmdline", PStr "cp:///")]);
               ("http_proxy", PStr "http://squid:3128");
               ("install", PDict [("log_file", PStr INSTALL_LOG)])];
     h_environ := ∅ |}.

Lemma cmd_install_setup_done_witness :
  res (cmd_install_setup (calm_world [] 0) (fun _ => "dump") "1.0" []
         legacy_proxy_heap) = Ok tt
  /\ h_environ (final (cmd_install_setup (calm_world [] 0) (fun _ => "dump")
                         "1.0" [] legacy_proxy_heap)) !! "http_proxy"
     = Some "http://squid:3128".
Proof.
  assert (Hok : res (cmd_install_setup (calm_world [] 0) (fun _ => "dump")
                       "1.0" [] legacy_proxy_heap) = Ok tt)
    by (vm_compute; reflexivity).
  split; [exact Hok|].
  destruct (cmd_install_setup_done (calm_world [] 0) (fun _ => "dump") "1.0"
              [] legacy_proxy_heap Hok)
    as (cfg1 & proxy & instcfg & logfile & n & _ & _ & _ & _ & Hlegacy & _).
  apply Hlegacy; [reflexivity|discriminate|].
  intros proxy0 Hproxy0. discriminate Hproxy0.
Defined.

(** * tests/vmtests/test_bcache_basic.py *)

Module Bcache.

(** [s.rstrip()] *)
Fixpoint rstrip_rev (r : list ascii) : list ascii :=
  match r with
  | [] => []
  | c :: r' => if is_space c then rstrip_rev r' else r
  end.

Definition py_rstrip (s : string) : string :=
  string_of_list_ascii (rev (rstrip_rev (rev (list_ascii_of_string s)))).

(** Lines 34-37 of [test_bcache_status]: the loop over the lines of the
    collected [bcache_super_vda2], from the value [uuid] of
    [bcache_cset_uuid] on. *)
Fixpoint cset_uuid (lines : list string) (uuid : option string)
    : result (option string) :=
  match lines with
  | [] => Ok uuid
  | line :: rest =>
      if negb (String.eqb line "") then
        match py_split line with
        | [] => Raise (IndexError "list index out of range")
        | first :: fields =>
            if String.eqb first "cset.uuid"
            then cset_uuid rest (Some (py_rstrip (List.last fields first)))
            else cset_uuid rest uuid
        end
      else cset_uuid rest uuid
  end.

(** [test_bcache_status], on the lines of the two collected files
    ([load_collect_file(...).splitlines()]); a failed assertion is an
    [AssertionError]. *)
Definition test_bcache_status (super_lines ls_lines : list string)
    : result unit :=
  match cset_uuid super_lines None with
  | Raise e => Raise e
  | Ok None => Raise (OtherException "AssertionError" "unexpectedly None")
  | Ok (Some uuid) =>
      if bool_decide (uuid ∈ ls_lines) then Ok tt
      else Raise (OtherException "AssertionError" "False is not true")
  end.

End Bcache.

(** ** The bcache test: which line decides *)

Definition no_space (s : string) : Prop :=
  Forall (fun c => is_space c = false) (list_ascii_of_string s).

Lemma list_ascii_of_string_app (a b : string) :
  list_ascii_of_string (a +:+ b)
  = list_ascii_of_string a ++ list_ascii_of_string b.
Proof.
  induction a as [|c a IH]; [done|].
  change (String c a +:+ b) with (String c (a +:+ b)). simpl. by rewrite IH.
Qed.

Lemma py_split_aux_no_space cur s :
  no_space cur -> Forall no_space (py_split_aux cur s).
Proof.
  revert cur. induction s as [|c s IH]; intros cur Hcur; simpl.
  - destruct (String.eqb cur ""); by repeat constructor.
  - destruct (is_space c) eqn:Hc.
    + apply Forall_app. split.
      * destruct (String.eqb cur ""); by repeat constructor.
      * apply IH. constructor.
    + apply IH. unfold no_space. rewrite list_ascii_of_string_app.
      apply Forall_app. split; [done|]. by repeat constructor.
Qed.

Lemma py_split_no_space s : Forall no_space (py_split s).
Proof. apply py_split_aux_no_space. constructor. Qed.

(** A field of [split()] has no whitespace at its end, or elsewhere:
    [rstrip()] leaves it as it is. *)
Lemma py_rstrip_no_space s : no_space s -> Bcache.py_rstrip s = s.
Proof.
  unfold no_space, Bcache.py_rstrip. intros Hs.
  assert (Hrev : Bcache.rstrip_rev (rev (list_ascii_of_string s))
                 = rev (list_ascii_of_string s)).
  { apply Forall_rev in Hs. destruct Hs as [|c r Hc _]; [done|].
    simpl. by rewrite Hc. }
  rewrite Hrev, rev_involutive. apply string_of_list_ascii_of_string.
Qed.

(** A line the loop can take: empty, or with a field. *)
Definition has_field (line : string) : Prop :=
  line = "" \/ py_split line <> [].

(** A line that sets the value: its first field is [cset.uuid]. *)
Definition names_cset (line : string) : bool :=
  match py_split line with
  | first :: _ => String.eqb first "cset.uuid"
  | [] => false
  end.

Lemma first_failure {A} (P : A -> Prop) `{!forall x, Decision (P x)}
    (l : list A) :
  Forall P l
  \/ exists pre x post, l = pre ++ x :: post /\ ~ P x /\ Forall P pre.
Proof.
  induction l as [|x l IH]; [by left|].
  destruct (decide (P x)) as [Hx|Hx].
  - destruct IH as [IH|(pre & y & post & -> & Hy & Hpre)].
    + left. by constructor.
    + right. exists (x :: pre), y, post. split; [done|]. split; [done|].
      by constructor.
  - right. by exists [], x, l.
Qed.

Lemma last_match {A} (q : A -> bool) (l : list A) :
  Forall (fun x => q x = false) l
  \/ exists pre x post,
       l = pre ++ x :: post /\ q x = true
       /\ Forall (fun x => q x = false) post.
Proof.
  induction l as [|x l IH]; [by left|].
  destruct IH as [IH|(pre & y & post & -> & Hy & Hpost)].
  - destruct (q x) eqn:Hx.
    + right. by exists [], x, l.
    + left. by constructor.
  - right. by exists (x :: pre), y, post.
Qed.

#[local] Instance has_field_dec line : Decision (has_field line).
Proof. unfold has_field. apply _. Defined.

Lemma py_split_empty : py_split "" = [].
Proof. reflexivity. Qed.

Lemma cset_uuid_none lines acc :
  Forall has_field lines ->
  Forall (fun l => names_cset l = false) lines ->
  Bcache.cset_uuid lines acc = Ok acc.
Proof.
  intros Hf Hn. revert acc.
  induction lines as [|line lines IH]; intros acc; [done|].
  apply Forall_cons in Hf as [Hline Hf]. apply Forall_cons in Hn as [Hc Hn].
  cbn [Bcache.cset_uuid]. unfold names_cset in Hc.
  destruct (String.eqb line "") eqn:Hempty; cbn [negb]; [by apply IH|].
  apply String.eqb_neq in Hempty. destruct Hline as [?|Hline]; [done|].
  destruct (py_split line) as [|first fields]; [done|]. rewrite Hc.
  by apply IH.
Qed.

Lemma cset_uuid_blank pre line post acc :
  Forall has_field pre -> ~ has_field line ->
  Bcache.cset_uuid (pre ++ line :: post) acc
  = Raise (IndexError "list index out of range").
Proof.
  intros Hf Hline. revert acc.
  induction Hf as [|l pre Hl _ IH]; intros acc.
  - cbn [app Bcache.cset_uuid]. unfold has_field in Hline.
    destruct (String.eqb line "") eqn:Hempty.
    { apply String.eqb_eq in Hempty. tauto. }
    cbn [negb]. destruct (py_split line); [done|]. exfalso. apply Hline.
    by right.
  - cbn [app Bcache.cset_uuid].
    destruct (String.eqb l "") eqn:Hempty; cbn [negb]; [by apply IH|].
    apply String.eqb_neq in Hempty. destruct Hl as [?|Hl]; [done|].
    destruct (py_split l) as [|first fields]; [done|].
    destruct (String.eqb first "cset.uuid"); apply IH.
Qed.

Lemma cset_uuid_last pre line post fields acc :
  Forall has_field pre ->
  py_split line = "cset.uuid" :: fields ->
  Bcache.cset_uuid (pre ++ line :: post) acc
  = Bcache.cset_uuid post (Some (List.last fields "cset.uuid")).
Proof.
  intros Hf Hline. revert acc.
  induction Hf as [|l pre Hl _ IH]; intros acc.
  - cbn [app Bcache.cset_uuid].
    destruct (String.eqb line "") eqn:Hempty.
    { apply String.eqb_eq in Hempty. subst line.
      by rewrite py_split_empty in Hline. }
    cbn [negb]. rewrite Hline. cbn [String.eqb Ascii.eqb Bool.eqb andb].
    rewrite py_rstrip_no_space; [done|].
    pose proof (py_split_no_space line) as Hns. rewrite Hline in Hns.
    rewrite Forall_forall in Hns. apply Hns.
    destruct fields as [|f fields]; [apply list_elem_of_here|].
    apply list_elem_of_further, list_elem_of_In.
    change (In (List.last (f :: fields) "cset.uuid") (f :: fields)).
    clear. revert f. induction fields as [|g fields IH]; intros f; [by left|].
    right. apply IH.
  - cbn [app Bcache.cset_uuid].
    destruct (String.eqb l "") eqn:Hempty; cbn [negb]; [by apply IH|].
    apply String.eqb_neq in Hempty. destruct Hl as [?|Hl]; [done|].
    destruct (py_split l) as [|first flds]; [done|].
    destruct (String.eqb first "cset.uuid"); apply IH.
Qed.

(** [test_bcache_status] is decided by the last line of the collected
    [bcache_super_vda2] whose first field is [cset.uuid]: the test passes
    exactly when every line is empty or has a field, there is such a line,
    and its last field is a line of the collected [bcache_ls]; the
    [rstrip()] of that field changes nothing.  A line of blanks only is not
    skipped: whatever comes after it, the test ends in an [IndexError], not
    in a failed assertion. *)
Theorem bcache_status_decided_by_last_line
    (super_lines ls_lines : list string) :
  (Bcache.test_bcache_status super_lines ls_lines = Ok tt
   <-> Forall has_field super_lines
       /\ exists pre line post fields,
            super_lines = pre ++ line :: post
            /\ py_split line = "cset.uuid" :: fields
            /\ Forall (fun l => names_cset l = false) post
            /\ List.last fields "cset.uuid" ∈ ls_lines)
  /\ (forall pre line post,
        super_lines = pre ++ line :: post ->
        Forall has_field pre -> line <> "" -> py_split line = [] ->
        Bcache.test_bcache_status super_lines ls_lines
        = Raise (IndexError "list index out of range")).
Proof.
  split.
  - split.
    + intros Htest. unfold Bcache.test_bcache_status in Htest.
      destruct (first_failure has_field super_lines)
        as [Hall|(pre & x & post & -> & Hx & Hpre)].
      2:{ by rewrite cset_uuid_blank in Htest. }
      split; [done|].
      destruct (last_match names_cset super_lines)
        as [Hnone|(pre & x & post & -> & Hx & Hpost)].
      { by rewrite cset_uuid_none in Htest. }
      apply Forall_app in Hall as [Hpre Hrest].
      apply Forall_cons in Hrest as [_ Hfpost].
      unfold names_cset in Hx.
      destruct (py_split x) as [|first fields] eqn:Hsplit; [done|].
      apply String.eqb_eq in Hx. subst first.
      rewrite (cset_uuid_last pre x post fields None Hpre Hsplit) in Htest.
      rewrite cset_uuid_none in Htest by done.
      exists pre, x, post, fields. split; [done|]. split; [done|].
      split; [done|]. by case_bool_decide.
    + intros (Hall & pre & x & post & fields & -> & Hsplit & Hpost & Hin).
      apply Forall_app in Hall as [Hpre Hrest].
      apply Forall_cons in Hrest as [_ Hfpost].
      unfold Bcache.test_bcache_status.
      rewrite (cset_uuid_last pre x post fields None Hpre Hsplit).
      rewrite cset_uuid_none by done. by rewrite bool_decide_eq_true_2.
  - intros pre line post -> Hpre Hne Hsplit.
    unfold Bcache.test_bcache_status. rewrite cset_uuid_blank; [done|done|].
    intros [?|?]; done.
Qed.

Lemma bcache_status_decided_by_last_line_witness :
  Bcache.test_bcache_status
    ["cset.uuid" +:+ chr "009" +:+ "7b3a"; "   "; "dev.label (empty)"] ["7b3a"]
  = Raise (IndexError "list index out of range").
Proof.
  destruct (bcache_status_decided_by_last_line
              ["cset.uuid" +:+ chr "009" +:+ "7b3a"; "   ";
               "dev.label (empty)"] ["7b3a"]) as [_ Hblank].
  apply (Hblank ["cset.uuid" +:+ chr "009" +:+ "7b3a"] "   "
           ["dev.label (empty)"]); [reflexivity| |discriminate|reflexivity].
  apply Forall_cons. split; [|apply Forall_nil_2].
  right. vm_compute. discriminate.
Defined.

(** ** The report of a failed install *)

(** The runs of the handler (lines 472-479) that come to the report of
    the failure: what is written to the log file, the error record, the
    report, and the tar file of the logs when one is configured. *)
Lemma cmd_install_except_run world format_exception logfile error_tarfile e
    h σ :
  let msg := "curtin: Installation failed with exception: "
             +:+ format_exception e in
  let o := cmd_install_except world format_exception logfile error_tarfile e
             h σ in
  final o = σ
  /\ exists wl,
       Forall routine wl /\ Forall no_teardown wl
       /\ (emitted o = wl /\ (exists x, res o = Raise x)
           \/ exists r tar,
                emitted o = wl ++ (Log ERROR msg, Ret RNone)
                            :: (ReportFailure msg, r) :: tar
                /\ match r with
                   | Exc x => tar = [] /\ res o = Raise x
                   | Ret _ =>
                       if truthy error_tarfile
                       then exists r',
                              tar = [(CreateLogTarfile error_tarfile (h_cfg σ),
                                      r')]
                              /\ res o = Raise (match r' with
                                                | Ret _ => e
                                                | Exc x => x
                                                end)
                       else tar = [] /\ res o = Raise e
                   end).
Proof.
  cbv zeta. unfold cmd_install_except. cbv zeta.
  set (msg := "curtin: Installation failed with exception: "
              +:+ format_exception e).
  rewrite bind_obind.
  destruct (writeline_settles world logfile msg h σ) as (HσW & _).
  pose proof (writeline_routine world logfile msg h σ) as HrW.
  pose proof (writeline_quiet world logfile msg h σ) as HqW.
  set (W := writeline world logfile msg h σ) in *. clearbody W.
  match goal with
  | |- context [obind W ?k ?h'] =>
      destruct (obind_cases W k h') as [([] & HW & ->)|(x & HW & ->)]
  end.
  2:{ split; [done|]. exists (emitted W). split; [done|]. split; [done|].
      left. rewrite emitted_Outcome, res_Outcome. eauto. }
  rewrite HσW. run_pure. ask_world; run_pure.
  2:{ split; [done|]. exists (emitted W). split; [done|]. split; [done|].
      right. exists (Exc e0), []. rewrite emitted_Outcome, res_Outcome.
      by rewrite <- !app_assoc. }
  destruct (truthy error_tarfile) eqn:Htar; run_pure.
  - ask_world; run_pure; (split; [done|]); exists (emitted W);
      (split; [done|]); (split; [done|]); right.
    + exists (Ret v), [(CreateLogTarfile error_tarfile (h_cfg σ), Ret v0)].
      rewrite emitted_Outcome, res_Outcome.
      split; [by rewrite <- !app_assoc|]. by exists (Ret v0).
    + exists (Ret v), [(CreateLogTarfile error_tarfile (h_cfg σ), Exc e0)].
      rewrite emitted_Outcome, res_Outcome.
      split; [by rewrite <- !app_assoc|]. by exists (Exc e0).
  - split; [done|]. exists (emitted W). split; [done|]. split; [done|].
    right. exists (Ret v), []. rewrite emitted_Outcome, res_Outcome.
    split; [by rewrite <- !app_assoc|]. done.
Qed.

Definition is_failure_report (ev : event) : bool :=
  match ev.1 with ReportFailure _ => true | _ => false end.

Definition no_failure_report (ev : event) : Prop :=
  is_failure_report ev = false.

Definition is_tar (ev : event) : bool :=
  match ev.1 with CreateLogTarfile _ _ => true | _ => false end.

Definition no_tar (ev : event) : Prop := is_tar ev = false.

Lemma routine_no_failure_report ev : routine ev -> no_failure_report ev.
Proof. by destruct ev as [[] ?]. Qed.

Lemma no_verdict_no_failure_report (tr : list event) :
  Forall (fun e => is_verdict e = false) tr -> Forall no_failure_report tr.
Proof. intros H. eapply Forall_impl; [exact H|]. by intros [[] ?]. Qed.

Lemma cmd_install_finally_no_tar
    world target_path get_iscsi_disks_from_config get_zpool_from_config
    instcfg logfile workingd :
  emits no_tar
    (cmd_install_finally world target_path get_iscsi_disks_from_config
       get_zpool_from_config instcfg logfile workingd).
Proof.
  unfold cmd_install_finally, cmd_install_teardown, copy_install_log,
    writeline.
  quiet.
Qed.

(** The [finally] clause returns when its calls are harmless. *)
Lemma cmd_install_finally_returns
    world target_path get_iscsi_disks_from_config get_zpool_from_config
    instcfg logfile workingd h σ :
  Forall (fun ev => harmless ev = true)
    (emitted (cmd_install_finally world target_path
                get_iscsi_disks_from_config get_zpool_from_config instcfg
                logfile workingd h σ)) ->
  is_ok (res (cmd_install_finally world target_path
                get_iscsi_disks_from_config get_zpool_from_config instcfg
                logfile workingd h σ)) = true.
Proof.
  destruct workingd as [wd|].
  - destruct (py_eq (dict_get_default instcfg "unmount" (PStr ""))
                (PStr "disabled")) eqn:Hunmount.
    + apply (cmd_install_finally_idle world target_path
               get_iscsi_disks_from_config get_zpool_from_config instcfg
               logfile (Some wd) h σ). by right.
    + by apply (cmd_install_finally_settles world target_path
                  get_iscsi_disks_from_config get_zpool_from_config instcfg
                  logfile wd h σ).
  - apply (cmd_install_finally_idle world target_path
             get_iscsi_disks_from_config get_zpool_from_config instcfg
             logfile None h σ). by left.
Qed.

(** The body of the [try] statement: what it reports when it raises. *)
Lemma cmd_install_try_raised
    world get_dd_images format_exception args_reportstack logfile workingd
    h σ e :
  res (cmd_install_try world get_dd_images format_exception args_reportstack
         logfile workingd h σ) = Raise e ->
  Forall no_failure_report
    (emitted (cmd_install_try world get_dd_images format_exception
                args_reportstack logfile workingd h σ))
  /\ forall v,
       (ReportSuccess, Ret v)
         ∉ emitted (cmd_install_try world get_dd_images format_exception
                      args_reportstack logfile workingd h σ).
Proof.
  intros Hres.
  destruct (cmd_install_try_run world get_dd_images format_exception
              args_reportstack logfile workingd h σ)
    as [[Hv _]|(r & pre & names & Hem & Hr & Hv & _)].
  - split; [by apply no_verdict_no_failure_report|].
    intros v Hin. rewrite Forall_forall in Hv. by specialize (Hv _ Hin).
  - rewrite Hem. rewrite Hres in Hr. destruct r as [v|x]; [done|]. split.
    + apply Forall_app. split; [by apply no_verdict_no_failure_report|].
      by repeat constructor.
    + intros v Hin. apply elem_of_app in Hin as [Hin|Hin].
      * rewrite Forall_forall in Hv. by specialize (Hv _ Hin).
      * by apply list_elem_of_singleton in Hin.
Qed.

Lemma not_in_no_failure_report (tr : list event) msg r :
  Forall no_failure_report tr -> (ReportFailure msg, r) ∉ tr.
Proof.
  intros Hq Hin. rewrite Forall_forall in Hq. by specialize (Hq _ Hin).
Qed.

(** The report of a failed install, whenever one is made.  It is made
    once, by the handler of the install attempt, for an [Exception] the
    [try] block (or the creation of the working directory) raised; its
    message is the failure message with the text of that exception, the
    record of the same message comes right before it, and no success has
    been reported.  No teardown call comes before it.  The tar file of the
    logs is created right after it when [install.error_tarfile] is truthy
    and the report returned, and not otherwise.  The attempt then ends in
    an exception: that of the [try] block when the report and the calls
    after it are harmless. *)
Theorem failure_reported_once
    world target_path get_dd_images get_iscsi_disks_from_config
    get_zpool_from_config format_exception args_reportstack instcfg logfile
    error_tarfile h σ msg r :
  (ReportFailure msg, r)
    ∈ emitted (cmd_install_guarded world target_path get_dd_images
                 get_iscsi_disks_from_config get_zpool_from_config
                 format_exception args_reportstack instcfg logfile
                 error_tarfile h σ) ->
  exists e pre post,
    emitted (cmd_install_guarded world target_path get_dd_images
               get_iscsi_disks_from_config get_zpool_from_config
               format_exception args_reportstack instcfg logfile
               error_tarfile h σ)
    = pre ++ (ReportFailure msg, r) :: post
    /\ is_Exception e = true
    /\ msg = "curtin: Installation failed with exception: "
             +:+ format_exception e
    /\ Forall no_failure_report pre
    /\ Forall no_failure_report post
    /\ (forall v, (ReportSuccess, Ret v) ∉ pre ++ post)
    /\ teardown_calls pre = []
    /\ last pre = Some (Log ERROR msg, Ret RNone)
    /\ (exists e', res (cmd_install_guarded world target_path get_dd_images
                          get_iscsi_disks_from_config get_zpool_from_config
                          format_exception args_reportstack instcfg logfile
                          error_tarfile h σ) = Raise e')
    /\ (if match r with Ret _ => truthy error_tarfile | Exc _ => false end
        then exists c r' rest,
               post = (CreateLogTarfile error_tarfile c, r') :: rest
               /\ Forall no_tar rest
        else Forall no_tar post)
    /\ (Forall (fun ev => harmless ev = true) ((ReportFailure msg, r) :: post) ->
        res (cmd_install_guarded world target_path get_dd_images
               get_iscsi_disks_from_config get_zpool_from_config
               format_exception args_reportstack instcfg logfile
               error_tarfile h σ) = Raise e).
Proof.
  rewrite cmd_install_guarded_run. cbv zeta.
  rewrite emitted_Outcome, res_Outcome.
  destruct (WorkingDir_init_run world format_exception (h_cfg σ) h σ)
    as [Hσc _].
  pose proof (WorkingDir_init_routine world format_exception (h_cfg σ) h σ)
    as Hrc.
  pose proof (WorkingDir_init_quiet world format_exception (h_cfg σ) h σ)
    as Hqc.
  set (created := WorkingDir_init world format_exception (h_cfg σ) h σ) in *.
  rewrite Hσc.
  match goal with
  | |- context [cmd_install_finally ?w ?tp ?gi ?gz ?ic ?lf ?wd] =>
      pose proof (cmd_install_finally_routine w tp gi gz ic lf wd) as Hrf;
      pose proof (cmd_install_finally_no_tar w tp gi gz ic lf wd) as Htf;
      pose proof (cmd_install_finally_returns w tp gi gz ic lf wd) as Hokf
  end.
  set (body := match res created with
               | Ok wd =>
                   cmd_install_try world get_dd_images format_exception
                     args_reportstack logfile wd
               | Raise e => raise e
               end).
  assert (Hbody : forall e,
            res (body (h ++ emitted created) σ) = Raise e ->
            Forall no_failure_report (emitted (body (h ++ emitted created) σ))
            /\ (forall v, (ReportSuccess, Ret v)
                          ∉ emitted (body (h ++ emitted created) σ))
            /\ Forall no_teardown (emitted (body (h ++ emitted created) σ))).
  { intros e. subst body. destruct (res created) as [wd|x].
    - intros He. destruct (cmd_install_try_raised _ _ _ _ _ _ _ _ _ He).
      split; [done|]. split; [done|]. apply cmd_install_try_quiet.
    - rewrite run_raise, emitted_Outcome. intros _.
      split; [done|]. split; [|done]. by intros v ?%elem_of_nil. }
  assert (Hbody_ok : forall a,
            res (body (h ++ emitted created) σ) = Ok a ->
            Forall no_failure_report
              (emitted (body (h ++ emitted created) σ))).
  { intros a. subst body. destruct (res created) as [wd|x].
    - intros Ha.
      destruct (cmd_install_try_run world get_dd_images format_exception
                  args_reportstack logfile wd (h ++ emitted created) σ)
        as [[_ [e He]]|(r0 & pre & names & Hem & _ & Hv & _)];
        [congruence|].
      rewrite Hem. apply Forall_app.
      split; [by apply no_verdict_no_failure_report|by repeat constructor].
    - by rewrite run_raise. }
  rewrite try_except_run.
  set (B := body (h ++ emitted created) σ) in *. clearbody B. clearbody created.
  assert (Hcf : Forall no_failure_report (emitted created)).
  { eapply Forall_impl; [exact Hrc|]. apply routine_no_failure_report. }
  destruct (res B) as [a|e] eqn:HB; [|destruct (is_Exception e) eqn:He].
  - rewrite !emitted_Outcome, !res_Outcome.
    match goal with
    | |- context [cmd_install_finally ?w ?tp ?gi ?gz ?ic ?lf ?wd ?hf ?σf] =>
        specialize (Hrf hf σf);
        set (F := cmd_install_finally w tp gi gz ic lf wd hf σf) in *;
        clearbody F
    end.
    intros Hin. exfalso. revert Hin. apply not_in_no_failure_report.
    apply Forall_app. split; [done|]. apply Forall_app.
    split; [by eapply Hbody_ok|].
    eapply Forall_impl; [exact Hrf|]. apply routine_no_failure_report.
  - destruct (Hbody e eq_refl) as (HfB & HsB & HqB).
    destruct (cmd_install_except_run world format_exception logfile
                error_tarfile e ((h ++ emitted created) ++ emitted B)
                (final B))
      as (HσX & wl & Hrwl & Hqwl & Hcases).
    cbv zeta in HσX, Hcases.
    set (X := cmd_install_except world format_exception logfile error_tarfile
                e ((h ++ emitted created) ++ emitted B) (final B)) in *.
    clearbody X.
    rewrite !emitted_prepend, !final_prepend, !res_prepend.
    match goal with
    | |- context [cmd_install_finally ?w ?tp ?gi ?gz ?ic ?lf ?wd ?hf ?σf] =>
        specialize (Hrf hf σf); specialize (Htf hf σf);
        specialize (Hokf hf σf);
        set (F := cmd_install_finally w tp gi gz ic lf wd hf σf) in *;
        clearbody F
    end.
    assert (HfF : Forall no_failure_report (emitted F)).
    { eapply Forall_impl; [exact Hrf|]. apply routine_no_failure_report. }
    assert (Hfwl : Forall no_failure_report wl).
    { eapply Forall_impl; [exact Hrwl|]. apply routine_no_failure_report. }
    destruct Hcases as [[HemX _]|(r0 & tar & HemX & Hr0)].
    { rewrite HemX. intros Hin. exfalso. revert Hin.
      apply not_in_no_failure_report.
      repeat (apply Forall_app; split); done. }
    rewrite HemX. clear HemX.
    set (m := "curtin: Installation failed with exception: "
              +:+ format_exception e) in *.
    assert (Hrs : forall tr : list event,
              Forall routine tr -> forall v, (ReportSuccess, Ret v) ∉ tr).
    { intros tr Htr v Hin. rewrite Forall_forall in Htr.
      by specialize (Htr _ Hin). }
    assert (Htar : Forall no_failure_report tar
                   /\ (forall v, (ReportSuccess, Ret v) ∉ tar)
                   /\ (exists x, res X = Raise x)
                   /\ (if match r0 with
                          | Ret _ => truthy error_tarfile
                          | Exc _ => false
                          end
                       then exists c r' rest,
                              tar ++ emitted F
                              = (CreateLogTarfile error_tarfile c, r') :: rest
                              /\ Forall no_tar rest
                       else Forall no_tar (tar ++ emitted F))
                   /\ (harmless (ReportFailure m, r0) = true ->
                       Forall (fun ev => harmless ev = true) tar ->
                       res X = Raise e)).
    { destruct r0 as [v0|x0]; [destruct (truthy error_tarfile)|].
      - destruct Hr0 as (r' & -> & ->).
        split; [by repeat constructor|].
        split; [intros v Hin; by apply list_elem_of_singleton in Hin|].
        split; [eauto|]. split; [by eexists _, _, _|].
        intros _ Hh. apply Forall_cons in Hh as [Hh _]. by destruct r'.
      - destruct Hr0 as (-> & ->). split; [done|].
        split; [by intros v ?%elem_of_nil|]. split; [eauto|]. by split.
      - destruct Hr0 as (-> & ->). split; [done|].
        split; [by intros v ?%elem_of_nil|]. split; [eauto|]. by split. }
    destruct Htar as (Hftar & Hstar & [x HX] & Htarfile & Hharm).
    intros Hin.
    assert (Heq : msg = m /\ r = r0).
    { apply elem_of_app in Hin as [Hin|Hin];
        [by apply not_in_no_failure_report in Hin|].
      apply elem_of_app in Hin as [Hin|Hin];
        [|by apply not_in_no_failure_report in Hin].
      apply elem_of_app in Hin as [Hin|Hin];
        [by apply not_in_no_failure_report in Hin|].
      apply elem_of_app in Hin as [Hin|Hin];
        [by apply not_in_no_failure_report in Hin|].
      apply elem_of_cons in Hin as [Hin|Hin]; [done|].
      apply elem_of_cons in Hin as [Hin|Hin]; [by simplify_eq|].
      by apply not_in_no_failure_report in Hin. }
    destruct Heq as [-> ->].
    exists e, ((emitted created ++ emitted B ++ wl)
               ++ [(Log ERROR m, Ret RNone)]), (tar ++ emitted F).
    split; [by rewrite <- !app_assoc|].
    split; [done|]. split; [done|].
    split.
    { repeat (apply Forall_app; split); try done. by repeat constructor. }
    split; [by apply Forall_app|].
    split.
    { intros v Hin'. rewrite !elem_of_app in Hin'.
      destruct Hin' as [[[Hc|[Hb|Hw]]|Hl]|[Ht|Hf]].
      - by apply Hrs in Hc.
      - by apply HsB in Hb.
      - by apply Hrs in Hw.
      - by apply list_elem_of_singleton in Hl.
      - by apply Hstar in Ht.
      - by apply Hrs in Hf. }
    split.
    { apply teardown_calls_none.
      repeat (apply Forall_app; split); try done. by repeat constructor. }
    split; [apply last_snoc|].
    split.
    { rewrite HX. destruct (res F); eauto. }
    split; [exact Htarfile|].
    intros Hh. apply Forall_cons in Hh as [Hr Hh].
    apply Forall_app in Hh as [Hht HhF].
    specialize (Hokf HhF). destruct (res F); [|done]. by apply Hharm.
  - rewrite !emitted_Outcome, !res_Outcome.
    destruct (Hbody e eq_refl) as (HfB & _).
    match goal with
    | |- context [cmd_install_finally ?w ?tp ?gi ?gz ?ic ?lf ?wd ?hf ?σf] =>
        specialize (Hrf hf σf);
        set (F := cmd_install_finally w tp gi gz ic lf wd hf σf) in *;
        clearbody F
    end.
    intros Hin. exfalso. revert Hin. apply not_in_no_failure_report.
    apply Forall_app. split; [done|]. apply Forall_app. split; [done|].
    eapply Forall_impl; [exact Hrf|]. apply routine_no_failure_report.
Qed.


(** The reports of failure of a trace. *)
Definition failure_reports (tr : list event) : list (string * reply) :=
  omap (fun ev => match ev.1 with
                  | ReportFailure m => Some (m, ev.2)
                  | _ => None
                  end) tr.

Lemma failure_reports_elem (tr : list event) m r :
  (m, r) ∈ failure_reports tr -> (ReportFailure m, r) ∈ tr.
Proof.
  unfold failure_reports. rewrite list_elem_of_omap.
  intros ([c rp] & Hin & Hev). destruct c; simpl in Hev; by simplify_eq.
Qed.

(** An install of two stages whose first command fails, with a tar file
    for the logs configured. *)
Abbreviation reported_failure :=
  (cmd_install_guarded (calm_world [] 1) simple_target_path
     (fun _ => []) (fun _ => []) (fun _ => []) no_text
     top_reportstack [] INSTALL_LOG (PStr ERROR_TARFILE) [] two_stage_heap).

Lemma failure_reported_once_witness :
  exists pre c r' rest,
    emitted reported_failure
    = pre ++ (ReportFailure "curtin: Installation failed with exception: ",
              Ret RNone)
          :: (CreateLogTarfile (PStr ERROR_TARFILE) c, r') :: rest
    /\ teardown_calls pre = []
    /\ exists e, res reported_failure = Raise e.
Proof.
  assert (Hin : (ReportFailure "curtin: Installation failed with exception: ",
                 Ret RNone) ∈ emitted reported_failure).
  { apply failure_reports_elem.
    assert (Hreports : failure_reports (emitted reported_failure)
                       = [("curtin: Installation failed with exception: ",
                           Ret RNone)]) by (vm_compute; reflexivity).
    rewrite Hreports. apply list_elem_of_here. }
  destruct (failure_reported_once (calm_world [] 1) simple_target_path
              (fun _ => []) (fun _ => []) (fun _ => []) no_text
              top_reportstack [] INSTALL_LOG (PStr ERROR_TARFILE) []
              two_stage_heap _ _ Hin)
    as (e & pre & post & Hem & _ & _ & _ & _ & _ & Hquiet & _ & Hres & Htar
        & _).
  cbn [truthy String.eqb negb] in Htar.
  destruct Htar as (c & r' & rest & -> & _).
  exists pre, c, r', rest. split; [exact Hem|]. split; [exact Hquiet|].
  exact Hres.
Defined.

(** ** After the unmount *)

(** The calls of the teardown that come after the unmount, and the log
    records. *)
Definition is_closing (ev : event) : bool :=
  match ev.1 with
  | RestartIscsiService | ZpoolExport _ | Rmtree _ | Log _ _ => true
  | _ => false
  end.

Definition closing (ev : event) : Prop := is_closing ev = true.

(** The teardown starts with the unmount of the target. *)
Lemma cmd_install_teardown_run
    world get_iscsi_disks_from_config get_zpool_from_config workingd h σ :
  exists r rest,
    emitted (cmd_install_teardown world get_iscsi_disks_from_config
               get_zpool_from_config workingd h σ)
    = (DoUmount (wd_target workingd) true, r) :: rest
    /\ Forall closing rest.
Proof.
  unfold cmd_install_teardown. rewrite bind_obind.
  ask_world.
  - rewrite obind_Ok, emitted_prepend. eexists _, _. split; [done|].
    match goal with
    | |- Forall closing (emitted (?m ?h' σ)) =>
        assert (Hm : emits closing m); [|apply Hm]
    end.
    quiet.
  - rewrite obind_Raise, emitted_Outcome. by eexists _, [].
Qed.

(** Lines 481-483: the copy of the install log into the target. *)
Lemma copy_install_log_run world target_path logfile target log_target_path
    h σ :
  Forall no_teardown
    (emitted (copy_install_log world target_path logfile target
                log_target_path h σ))
  /\ (truthy (PStr logfile) = true ->
      exists rp,
        (IsFile logfile, rp)
          ∈ emitted (copy_install_log world target_path logfile target
                       log_target_path h σ)).
Proof.
  split.
  { assert (Hq : emits no_teardown
                   (copy_install_log world target_path logfile target
                      log_target_path))
      by (unfold copy_install_log; quiet).
    apply Hq. }
  intros Hlog. unfold copy_install_log. rewrite Hlog. cbn [negb].
  rewrite bind_obind. ask_world.
  - rewrite obind_Ok, emitted_prepend. eexists. apply elem_of_app. left.
    apply list_elem_of_here.
  - rewrite obind_Raise, emitted_Outcome. eexists. apply list_elem_of_here.
Qed.

(** The [finally] clause: either it makes no teardown call, or, after
    what it does for the copy of the install log, the unmount of the
    target and then teardown calls and their log records only. *)
Lemma cmd_install_finally_run
    world target_path get_iscsi_disks_from_config get_zpool_from_config
    instcfg logfile workingd h σ :
  Forall no_teardown
    (emitted (cmd_install_finally world target_path
                get_iscsi_disks_from_config get_zpool_from_config instcfg
                logfile workingd h σ))
  \/ exists wd copy r rest,
       workingd = Some wd
       /\ py_eq (dict_get_default instcfg "unmount" (PStr ""))
            (PStr "disabled") = false
       /\ emitted (cmd_install_finally world target_path
                     get_iscsi_disks_from_config get_zpool_from_config
                     instcfg logfile workingd h σ)
          = copy ++ (DoUmount (wd_target wd) true, r) :: rest
       /\ Forall no_teardown copy
       /\ Forall closing rest
       /\ (truthy (dict_get_default instcfg "save_install_log"
                     (PStr SAVE_INSTALL_LOG)) = true ->
           truthy (PStr logfile) = true ->
           exists rp, (IsFile logfile, rp) ∈ copy).
Proof.
  unfold cmd_install_finally. cbv zeta. rewrite bind_obind.
  set (ltp := dict_get_default instcfg "save_install_log"
                (PStr SAVE_INSTALL_LOG)).
  set (C := match workingd with
            | Some wd =>
                if truthy ltp
                then copy_install_log world target_path logfile
                       (wd_target wd) ltp
                else ret tt
            | None => ret tt
            end h σ).
  assert (HC : Forall no_teardown (emitted C)
               /\ (forall wd, workingd = Some wd -> truthy ltp = true ->
                   truthy (PStr logfile) = true ->
                   exists rp, (IsFile logfile, rp) ∈ emitted C)).
  { subst C. destruct workingd as [wd|]; [destruct (truthy ltp)|].
    - destruct (copy_install_log_run world target_path logfile (wd_target wd)
                  ltp h σ) as [Hq Hin].
      split; [done|]. intros wd' [= <-] _ Hlog. by apply Hin.
    - by rewrite run_ret.
    - by rewrite run_ret. }
  destruct HC as [HqC HinC]. clearbody C.
  match goal with
  | |- context [obind C ?k ?h'] =>
      destruct (obind_cases C k h') as [([] & HCok & ->)|(e & HCe & ->)]
  end.
  2:{ left. by rewrite emitted_Outcome. }
  rewrite !emitted_prepend.
  destruct (py_eq (dict_get_default instcfg "unmount" (PStr ""))
              (PStr "disabled")) eqn:Hunmount.
  { left. apply Forall_app. split; [done|]. by repeat constructor. }
  destruct workingd as [wd|].
  2:{ left. rewrite run_ret, emitted_Outcome. by rewrite app_nil_r. }
  right.
  destruct (cmd_install_teardown_run world get_iscsi_disks_from_config
              get_zpool_from_config wd (h ++ emitted C) (final C))
    as (r & rest & -> & Hrest).
  exists wd, (emitted C), r, rest. split; [done|]. split; [done|].
  split; [done|]. split; [done|]. split; [done|].
  intros Hltp Hlog. by apply (HinC wd).
Qed.

Lemma split_at_unmount (l pre post rest : list event) (x y : event) :
  l ++ x :: rest = pre ++ y :: post ->
  Forall no_teardown l -> Forall closing rest ->
  is_teardown y = true -> is_closing y = false ->
  pre = l /\ y = x /\ post = rest.
Proof.
  intros Heq Hl Hrest Hy Hy'. revert pre Heq.
  induction Hl as [|a l Ha _ IH]; intros pre Heq.
  - destruct pre as [|p pre]; simplify_eq/=; [done|].
    rewrite Forall_forall in Hrest.
    assert (Hin : y ∈ pre ++ y :: post).
    { apply elem_of_app. right. apply list_elem_of_here. }
    specialize (Hrest _ Hin). unfold closing in Hrest. congruence.
  - destruct pre as [|p pre]; simplify_eq/=.
    + unfold no_teardown in Ha. congruence.
    + by destruct (IH pre) as (-> & -> & ->).
Qed.

(** Once the target is unmounted, nothing but the teardown goes on.  When
    the install attempt unmounts a target, it is the target of the working
    directory that was created, recursively, and unmounting is not
    disabled; no teardown call was made before; the copy of the install
    log into the target, when one is configured and there is a log file,
    has been attempted before; and every call after the unmount is a
    teardown call (the restart of the iSCSI service, the export of a pool,
    the removal of the temporary root) or a log record: no command is
    started and no file is written. *)
Theorem nothing_after_unmount
    world target_path get_dd_images get_iscsi_disks_from_config
    get_zpool_from_config format_exception args_reportstack instcfg logfile
    error_tarfile h σ pre target recursive r post :
  emitted (cmd_install_guarded world target_path get_dd_images
             get_iscsi_disks_from_config get_zpool_from_config
             format_exception args_reportstack instcfg logfile
             error_tarfile h σ)
  = pre ++ (DoUmount target recursive, r) :: post ->
  (exists wd,
     res (WorkingDir_init world format_exception (h_cfg σ) h σ) = Ok wd
     /\ target = wd_target wd)
  /\ recursive = true
  /\ py_eq (dict_get_default instcfg "unmount" (PStr "")) (PStr "disabled")
     = false
  /\ Forall no_teardown pre
  /\ Forall closing post
  /\ (truthy (dict_get_default instcfg "save_install_log"
                (PStr SAVE_INSTALL_LOG)) = true ->
      truthy (PStr logfile) = true ->
      exists rp, (IsFile logfile, rp) ∈ pre).
Proof.
  rewrite cmd_install_guarded_run. cbv zeta. rewrite emitted_Outcome.
  pose proof (WorkingDir_init_quiet world format_exception (h_cfg σ) h σ)
    as Hqc.
  set (created := WorkingDir_init world format_exception (h_cfg σ) h σ) in *.
  match goal with
  | |- context [try_except ?b ?hd ?h' ?σ'] =>
      assert (Hqg : Forall no_teardown (emitted (try_except b hd h' σ')));
      [|set (guarded := try_except b hd h' σ') in *; clearbody guarded]
  end.
  { assert (Hm : emits no_teardown
                   (try_except
                      (match res created with
                       | Ok wd =>
                           cmd_install_try world get_dd_images
                             format_exception args_reportstack logfile wd
                       | Raise e => raise e
                       end)
                      (cmd_install_except world format_exception logfile
                         error_tarfile))); [|apply Hm].
    unfold try_except. apply emits_bind.
    - apply emits_attempt. destruct (res created).
      + apply cmd_install_try_quiet.
      + apply emits_raise.
    - intros [a|e]; [apply emits_ret|].
      destruct (is_Exception e); [|apply emits_raise].
      apply cmd_install_except_quiet. }
  match goal with
  | |- context [cmd_install_finally ?w ?tp ?gi ?gz ?ic ?lf ?wd ?hf ?σf] =>
      destruct (cmd_install_finally_run w tp gi gz ic lf wd hf σf)
        as [Hqf|(wd0 & copy & r0 & rest & Hwd & Hunmount & Hem & Hqcopy
                 & Hrest & Hcopy)];
      set (F := cmd_install_finally w tp gi gz ic lf wd hf σf) in *;
      clearbody F
  end.
  { intros Heq. exfalso.
    assert (Hall : Forall no_teardown
                     (emitted created ++ emitted guarded ++ emitted F))
      by by repeat (apply Forall_app; split).
    rewrite Heq in Hall. apply Forall_app in Hall as [_ Hall].
    by apply Forall_cons in Hall as [? _]. }
  rewrite Hem. intros Heq.
  rewrite !app_assoc in Heq.
  apply split_at_unmount in Heq as (-> & [= -> -> ->] & ->);
    [|by repeat (apply Forall_app; split)|done|done|done].
  split.
  { destruct (res created) as [wd|]; [|done]. exists wd. by simplify_eq. }
  split; [done|]. split; [done|].
  split; [by repeat (apply Forall_app; split)|].
  split; [done|].
  intros Hltp Hlog. destruct (Hcopy Hltp Hlog) as [rp Hrp]. exists rp.
  rewrite !elem_of_app. auto.
Qed.


Lemma nothing_after_unmount_witness :
  emitted failing_install
  = take 33 (emitted failing_install)
    ++ (DoUmount "/tmp/tmpx/target" true, Ret RNone)
    :: drop 34 (emitted failing_install)
  /\ Forall closing (drop 34 (emitted failing_install))
  /\ exists rp, (IsFile INSTALL_LOG, rp) ∈ take 33 (emitted failing_install).
Proof.
  assert (Heq : emitted failing_install
                = take 33 (emitted failing_install)
                  ++ (DoUmount "/tmp/tmpx/target" true, Ret RNone)
                  :: drop 34 (emitted failing_install))
    by (vm_compute; reflexivity).
  split; [exact Heq|].
  destruct (nothing_after_unmount (calm_world [] 1) simple_target_path
              (fun _ => []) (fun _ => ["disk0"])
              (fun _ => ["pool0"; "pool1"]) no_text top_reportstack []
              INSTALL_LOG PNone [] two_stage_heap
              (take 33 (emitted failing_install)) "/tmp/tmpx/target" true
              (Ret RNone) (drop 34 (emitted failing_install)) Heq)
    as (_ & _ & _ & _ & Hpost & Hcopy).
  split; [exact Hpost|]. apply Hcopy; reflexivity.
Defined.
